(* ===== verification/_CoqProject ===== *)
-Q . S2P
Prelude.v
IntervalMap.v
ShadowMemory.v
SymbolTable.v
Bytes.v
PhysMem.v
Mmu.v
Machine.v
Interceptor.v
MemCheck.v
Tlb.v
Mips.v
Softmmu.v
MipsTlb.v
Guest.v
Board.v
CodeBlocks.v
CodeTables.v
CodeRun.v
CodeGuest.v
Flags.v
FlagsSpec.v
FlagsTable.v
FlagsSim.v
FlagsDiv.v
FlagsOpt.v
FlagsLive.v
Savevm.v
Timers.v
I8259.v
I8254.v
Rtc.v
