(* ===== verification/Prelude.v ===== *)
(** * MemCheck in QEMU: the development

    MemCheck watches the heap of a Linux kernel that runs inside QEMU (src/MemCheck-qemu):
    it hooks the kernel's allocator, keeps a shadow record of the live allocations, and
    looks up every load and store of the guest in it.  The development models MemCheck
    itself, the part of QEMU 0.9.1 a guest access goes through (software TLB, MMU,
    physical memory), the way a board registers memory, and the time and interrupt
    devices of the PC with the service they need to be saved and restored.  The
    configuration is i386-softmmu: 4 KB pages, 32-bit guest addresses, little endian, one
    CPU, a 32-bit host, no KQEMU and no TARGET_X86_64.  MemCheck has a second machine
    interface that reaches its target, MIPS; that target's MMU, TLB and exceptions are
    modelled next to the i386 ones, for the 32-bit mips-softmmu.

    ** The program and the files

    The guest's path from the top:
    - [Guest] the accesses of translated code as MemCheck's patch to softmmu_header.h
      compiles them: a call of MemCheck, then the access.
    - [Softmmu] the fast and slow paths of loads and stores (softmmu_header.h,
      softmmu_template.h), [tlb_fill] (target-i386/helper.c), and the I/O callbacks of
      exec.c for clean pages and watchpoints.  The cache of translated code is the
      interface [CodeCache].
    - [CodeBlocks] that cache (exec.c, exec-all.h, cpu-exec.c): the blocks of translated
      code and the tables that find them, from [tb_find_fast] to [tb_phys_invalidate] and
      the unchaining of [cpu_interrupt].  [CodeTables] has the invariant of the tables and
      the operations that take blocks away, [CodeRun] those that make them, and [CodeGuest]
      the instance of [CodeCache], runs, and the properties.
    - [Flags] the condition codes inside that code (target-i386/op.c, ops_template.h,
      ops_template_mem.h, helper.c, translate.c, cpu-exec.c): micro operations that leave
      CC_SRC, CC_DST and CC_OP, the table that computes flags from them, the tests that
      avoid it, what the translator makes of an instruction, multiplications, divisions.
      [FlagsSpec] has the machine of the processor's manual, with the flags it leaves
      undefined, [FlagsTable] the arithmetic of the table, [FlagsSim] the simulation,
      [FlagsDiv] the divisions.  [FlagsOpt] has the code of a block as a list of micro
      operations and the pass that removes flag computations nothing reads
      ([optimize_flags]), [FlagsLive] that it is right.
    - [Tlb] the software TLB (exec.c): [tlb_set_page_exec], flushes, dirty tracking.
    - [Mmu] the page walk of target-i386/helper2.c, control registers, and the debug
      reads ([cpu_memory_rw_debug]) with which MemCheck looks at the guest.
    - [PhysMem] the table of physical pages and [cpu_physical_memory_rw] (exec.c).
    - [Board] how zones and regions get into that table (exec.c):
      [cpu_register_io_memory], [cpu_register_physical_memory], subpages.
    MemCheck (src/MemCheck-qemu/contrib/MemCheck):
    - [MemCheck] the checker, its handlers for the allocator's functions, [Init], and the
      entry points called by translated code (MemCheck*.cpp).
    - [Interceptor] the hooks (FunctionInterceptor.cpp): [DoAddress] is called at every
      guest instruction that starts a block.
    - [ShadowMemory], [SymbolTable] the two tables, over [IntervalMap], the ordered
      containers with the comparator they share.
    - [Machine] the interface through which MemCheck reads the guest's registers and
      stack, as the class [Machine], and its i386 instance (MachineQEMUi386.cpp).
    The MIPS target:
    - [Mips] the CPU state with the R4000 TLB, address translation, the TLB instructions
      and the coprocessor 0 registers they use, exceptions and returns (target-mips/cpu.h,
      exec.h, helper.c, op_helper.c, op.c, translate_init.c), [cpu_memory_rw_debug] over
      that translation, and the instance of [Machine] (MachineQEMUmips.cpp).
    - [MipsTlb] the invariant that ties QEMU's TLB to the R4000 TLB, runs of the CPU, and
      the properties.  It uses the refills and flushes of [Tlb].
    Devices and services:
    - [I8259], [I8254], [Rtc]: interrupt controllers, interval timer, real time clock
      (hw/i8259.c, hw/i8254.c, hw/mc146818rtc.c).
    - [Timers] the queue of timers and [muldiv64] (vl.c).
    - [Savevm] the byte stream a machine is saved to (vl.c); the devices' save and load
      functions are written against its interface [SaveFile].
    - [Bytes] integers as bytes.  [Prelude] (this file) record update, machine words,
      list and option lemmas, automation.

    ** How operations are modelled

    A C function is a Rocq function with the source's name that takes and returns the
    state; [s <| f := v |>] is the assignment s->f = v.  Integers are [Z] with the
    wrap-around of the C type written out ([u8], [u16], [u32], [u64], [s32]).  Heap
    objects that several structures point to are numbers: the hooked functions of
    [Interceptor], the subpages of [Board], the timers of [Timers].  A NULL dereference,
    an out of range index or an exit of the program is [None]; a guest fault is a value
    of a sum type.  Uninitialised locals are parameters, so that no theorem depends on
    their value.  Text written to the console is a log.  An operation of a device takes
    the value [now] of the virtual clock, sampled once.

    Fuel: the walk of stack frames has the bound of 20 of the source; the loop of
    [cpu_physical_memory_rw] takes a byte of fuel per byte copied, since every round copies
    one; a guest access nests at most twice, and [guest_access_total] shows that the eight
    units of [Softmmu.FUEL] suffice; a call through a subpage takes the two units of
    [Board.NEST].  The loop that flushes the pages of a MIPS TLB entry takes one unit per
    page of the entry ([Mips.flush_fuel]); [None] is the loop that does not return, and
    [tlbwi_hangs_on_last_page] shows for which entry no fuel is enough.  The walks of the
    lists of blocks have [CodeBlocks.links], a bound on the pointers there are, and
    [code_tables_total] shows that it is enough.  The bit scans take a unit per bit of a
    long, 32; [translated_flags] has no result without them, so that it shows they end.

    ** What the theorems show

    - Reports (MemCheck, Guest).  An access is reported exactly when checking is on and it
      touches no live allocation; after a release inside it every access is reported, after
      an allocation none is.  The hook visits of the kernel's allocator change the shadow
      memory as the specification of the announced call says, nested calls switch checking
      back on, no sequence of visits follows a dangling pointer.  The checked guest runs
      like the unchecked one, and the log is exactly the bad accesses in order.
    - Shadow memory.  The operations refine a ledger of live allocations, in every
      reachable state allocations are disjoint.
    - Guest access.  TLB and dirty invariants over any sequence of accesses and flushes: a
      store skips the dirty tracking only on pages that are dirty, a load returns the bytes
      of the page walk, fast and slow paths agree, accesses end.
    - Translated code.  Over any run, a block that can be found was made from the bytes in
      memory, its direct jumps lead to such blocks, every operation ends without following
      NULL, a write takes out the blocks it overlaps and no others, and after an interrupt
      the CPU leaves at the end of its block.
    - Condition codes.  Along any sequence of instructions, however it is cut into blocks,
      the lazy flags give the results, conditions and pushed flags of the manual's machine,
      and leave its flags register; so does the code after the removal of dead flag
      computations, unless it shifts by a count of zero; divisions are exact and raise the
      divide error when the manual says, but for one dividend.
    - MMU.  Debug walk and MMU agree, control register changes flush when they must, a
      resolved write fault maps the page writable.
    - MIPS target.  Along any run a hit of QEMU's TLB is a translation the R4000 TLB gives,
      or one of the shadow entries a random replacement left, which no guest instruction
      can see; a refill by the guest resolves the miss it was raised for; an entry that is
      written is read back; an exception and its return restore the mode and the program
      counter; MemCheck's debug read gives the bytes the guest would load.
    - Board.  A region changes its own pages only, a partial page dispatches by address,
      whatever a board registers keeps the tables in the shape the MMU code relies on.
    - Devices.  Invariants of all reachable states; priorities and acknowledge cycles of
      the interrupt controllers; the timer's outputs and the time of their next change; the
      clock's calendar, register formats and periodic interrupt; the queue of timers as a
      map; the byte stream as a list.
    - Defects.  Theorems of kind error exhibit what the code does wrong on inputs that
      reach it; each is a finding of the manifest.

    ** Not modelled

    - The translator (target-*/translate.c, dyngen) and its generated code: what it makes
      of a block (the bytes it covers, its jumps, its size) is an argument of the operations
      of [CodeBlocks].  The restoration of the CPU state from a block on a fault.  A run of
      [CodeGuest] passes a jump to the loop only from a block that is still in the tables,
      and starts a block that modified itself again by [tb_gen_code].  Hosts that patch
      jumps in the code, user mode and [tb_invalidate_phys_page] are left out.
    - Of the condition codes: the forms of an instruction on memory, which store T0 in
      between, double shifts, compare and exchange, string and BCD instructions, virtual
      8086 mode, and faults in the middle of a block.  MemCheck's patch of translate.c sets
      [jmp_opt] to 0, so that every jump computes the flags and no i386 block jumps to
      another directly, and ends a block after each instruction from 0xc0000000 on; the
      theorems hold for both values and for any blocks, and those on direct jumps of
      [CodeGuest] matter to the MIPS target, whose translator makes them.
    - Interrupt delivery, segmentation, system calls and floating point of
      target-i386/helper.c and op.c; softfloat and the disassemblers.
    - MIPS: the arithmetic and floating point of op.c and op_helper.c, 64-bit MIPS, the
      timer and the interrupt lines (hw/mips_timer.c, hw/mips_int.c), reset of one CPU among
      several threads.  PowerPC: its machine interface and MMU.  The other targets and
      linux-user: MemCheck has no machine interface for them or no kernel to check.
    - Exceptions by [longjmp] are values; host signals, the main loop, the monitor and
      the host alarms of vl.c are left out.
    - Block drivers, network, USB, audio, displays and the remaining devices of hw/; they
      appear as the parameters for I/O callbacks.
    - [SymbolTable] reads lines that fit the C buffers; [Savevm] regular files; the
      sections of a saved machine and their registry are left out. *)

From Stdlib Require Export ZArith Lia.
From stdpp Require Export base gmap list strings option sorting.

(** ** Notations and record update *)

Declare Scope mc_scope.
Delimit Scope mc_scope with mc.

(** A C struct is a record, and [s->f = v] is [s <| f := v |>].  [Eta] gives the
    eta-expansion of a record; the update of one field is computed from it. *)
Class Eta (R : Type) := eta : R -> R.
Class Setter {R T : Type} (proj : R -> T) := upd : (T -> T) -> R -> R.
Arguments upd {R T} proj {_} _ _.

Ltac derive_setter proj :=
  lazymatch type of proj with
  | ?R -> ?T =>
    let g := fresh "g" in
    let r := fresh "r" in
    intros g r;
    let e := eval hnf in (eta r) in
    lazymatch eval pattern (proj r) in e with
    | ?f _ => let t := eval cbv beta in (f (g (proj r))) in exact t
    end
  end.
#[export] Hint Extern 1 (Setter ?p) => derive_setter p : typeclass_instances.

Notation "s <| f := v |>" := (upd f (fun _ => v) s)
  (at level 1, left associativity, f at level 0, v at level 200,
   format "s  <| f  :=  v |>") : mc_scope.
#[export] Hint Unfold upd : core.

Open Scope mc_scope.
Open Scope Z_scope.

(** ** Machine integers

    A w-bit unsigned integer is a [Z] in [[0, 2^w)]; the conversions of C reduce
    modulo [2^w]. *)
Definition wrap (w z : Z) : Z := z mod 2 ^ w.
Definition u8 (z : Z) : Z := wrap 8 z.
Definition u16 (z : Z) : Z := wrap 16 z.
Definition u32 (z : Z) : Z := wrap 32 z.
Definition u64 (z : Z) : Z := wrap 64 z.

(** The two's complement reading of the low [w] bits. *)
Definition sext (w z : Z) : Z :=
  let r := wrap w z in if r <? 2 ^ (w - 1) then r else r - 2 ^ w.
Definition s8 (z : Z) : Z := sext 8 z.
Definition s16 (z : Z) : Z := sext 16 z.
Definition s32 (z : Z) : Z := sext 32 z.
Definition s64 (z : Z) : Z := sext 64 z.

(** C truth values: [if (x & m)] and friends. *)
Definition truth (z : Z) : bool := negb (z =? 0).
Definition has (x mask : Z) : bool := truth (Z.land x mask).
Definition b2z (b : bool) : Z := if b then 1 else 0.

(** [in_width w z]: [z] is a value of the unsigned [w]-bit type. *)
Definition in_width (w z : Z) : Prop := 0 <= z < 2 ^ w.
Abbreviation is_u8 := (in_width 8).
Abbreviation is_u16 := (in_width 16).
Abbreviation is_u32 := (in_width 32).
Abbreviation is_u64 := (in_width 64).

(** [in_signed w z]: [z] is a value of the signed [w]-bit type. *)
Definition in_signed (w z : Z) : Prop := - 2 ^ (w - 1) <= z < 2 ^ (w - 1).
Abbreviation is_s32 := (in_signed 32).
Abbreviation is_s64 := (in_signed 64).

Create HintDb width.

Section Width.
Context (w : Z) (Hw : 0 <= w).

Lemma wrap_range z : in_width w (wrap w z).
Proof using Hw. apply Z.mod_pos_bound. lia. Qed.

Lemma wrap_small z : in_width w z -> wrap w z = z.
Proof using. apply Z.mod_small. Qed.

Lemma wrap_idemp z : wrap w (wrap w z) = wrap w z.
Proof using Hw. apply wrap_small, wrap_range. Qed.

Lemma sext_range z : 0 < w -> in_signed w z -> sext w z = z.
Proof using Hw.
  unfold in_signed. intros Hw0 Hz. unfold sext.
  assert (E : 2 ^ w = 2 * 2 ^ (w - 1)) by (rewrite <- Z.pow_succ_r by lia; f_equal; lia).
  destruct (Z.ltb_spec z 0) as [Hn|Hn].
  - assert (Ew : wrap w z = z + 2 ^ w).
    { unfold wrap. symmetry. apply Z.mod_unique with (-1); lia. }
    rewrite Ew, (proj2 (Z.ltb_ge _ _)) by lia. lia.
  - rewrite wrap_small by (unfold in_width; lia). rewrite (proj2 (Z.ltb_lt _ _)) by lia. done.
Qed.

Lemma sext_wrap z : sext w (wrap w z) = sext w z.
Proof using Hw. unfold sext. by rewrite wrap_idemp. Qed.

Lemma in_width_bits z : 0 <= z ->
  (forall i, w <= i -> Z.testbit z i = false) -> in_width w z.
Proof using Hw.
  intros Hz Hb. replace z with (Z.land z (Z.ones w)).
  - rewrite Z.land_ones by lia. apply Z.mod_pos_bound. lia.
  - apply Z.bits_inj'. intros i Hi. rewrite Z.land_spec.
    destruct (decide (i < w)).
    + rewrite Z.ones_spec_low by lia. apply andb_true_r.
    + rewrite (Hb i) by lia. done.
Qed.

Lemma testbit_high z i : in_width w z -> w <= i -> Z.testbit z i = false.
Proof using Hw.
  intros Hz Hi. rewrite <- (wrap_small z Hz). apply Z.mod_pow2_bits_high. lia.
Qed.

Lemma lor_width x y : in_width w x -> in_width w y -> in_width w (Z.lor x y).
Proof using Hw.
  intros Hx Hy. apply in_width_bits.
  - apply Z.lor_nonneg. unfold in_width in *. lia.
  - intros i Hi. rewrite Z.lor_spec, !testbit_high by done. done.
Qed.

Lemma land_width_l x y : in_width w x -> in_width w (Z.land x y).
Proof using Hw.
  intros Hx. apply in_width_bits.
  - apply Z.land_nonneg. unfold in_width in *. lia.
  - intros i Hi. rewrite Z.land_spec, testbit_high by done. done.
Qed.

Lemma land_width_r x y : in_width w y -> in_width w (Z.land x y).
Proof using Hw. rewrite Z.land_comm. apply land_width_l. Qed.

Lemma lxor_width x y : in_width w x -> in_width w y -> in_width w (Z.lxor x y).
Proof using Hw.
  intros Hx Hy. apply in_width_bits.
  - apply Z.lxor_nonneg. unfold in_width in *. lia.
  - intros i Hi. rewrite Z.lxor_spec, !testbit_high by done. done.
Qed.

Lemma shiftr_width x n : 0 <= n -> in_width w x -> in_width w (Z.shiftr x n).
Proof using Hw.
  intros Hn Hx. apply in_width_bits.
  - apply Z.shiftr_nonneg. unfold in_width in *. lia.
  - intros i Hi. rewrite Z.shiftr_spec by lia. apply testbit_high; [done|lia].
Qed.

Lemma shiftl1_width n : 0 <= n < w -> in_width w (Z.shiftl 1 n).
Proof using Hw.
  intros Hn. rewrite Z.shiftl_1_l. split; [lia|]. apply Z.pow_lt_mono_r; lia.
Qed.
End Width.

#[export] Hint Resolve lor_width land_width_l lxor_width shiftr_width
  shiftl1_width wrap_range : width.
#[export] Hint Extern 1 (in_width _ _) => (unfold in_width; lia) : width.
#[export] Hint Extern 1 (_ <= _) => lia : width.
#[export] Hint Extern 1 (_ <= _ < _) => lia : width.
#[export] Hint Extern 2 (in_width _ (Z.land _ _)) =>
  (apply land_width_r; [lia|]) : width.

Lemma truth_true z : truth z = true <-> z <> 0.
Proof. unfold truth. destruct (Z.eqb_spec z 0); naive_solver. Qed.
Lemma truth_false z : truth z = false <-> z = 0.
Proof. unfold truth. destruct (Z.eqb_spec z 0); naive_solver. Qed.

Lemma s32_u32 z : is_s32 z -> s32 (u32 z) = z.
Proof. intros H. unfold s32, u32. rewrite sext_wrap, sext_range by (done || lia). done. Qed.
Lemma s64_u64 z : is_s64 z -> s64 (u64 z) = z.
Proof. intros H. unfold s64, u64. rewrite sext_wrap, sext_range by (done || lia). done. Qed.
Lemma u32_u32 z : u32 (u32 z) = u32 z.
Proof. by apply wrap_idemp. Qed.
Lemma u64_u64 z : u64 (u64 z) = u64 z.
Proof. by apply wrap_idemp. Qed.
Lemma s32_small z : is_s32 z -> s32 z = z.
Proof. intros H. by apply sext_range. Qed.
Lemma s64_small z : is_s64 z -> s64 z = z.
Proof. intros H. by apply sext_range. Qed.

(** ** Single bits *)

Lemma testbit_shiftl1 n i : 0 <= n -> Z.testbit (Z.shiftl 1 n) i = bool_decide (i = n).
Proof.
  intros Hn. rewrite Z.shiftl_1_l. case_bool_decide as H.
  - subst. by apply Z.pow2_bits_true.
  - by apply Z.pow2_bits_false; lia.
Qed.

(** [x & (1 << n)] tests bit [n]. *)
Lemma truth_land_bit x n : 0 <= n ->
  truth (Z.land x (Z.shiftl 1 n)) = Z.testbit x n.
Proof.
  intros Hn. destruct (Z.testbit x n) eqn:E.
  - apply truth_true. intros H. apply (f_equal (fun z => Z.testbit z n)) in H.
    rewrite Z.land_spec, E, testbit_shiftl1, Z.bits_0 in H by done.
    by rewrite bool_decide_true in H.
  - apply truth_false. apply Z.bits_inj'. intros i Hi.
    rewrite Z.land_spec, testbit_shiftl1, Z.bits_0 by done.
    case_bool_decide; [subst; by rewrite E|apply andb_false_r].
Qed.

Lemma testbit_set x n i : 0 <= n ->
  Z.testbit (Z.lor x (Z.shiftl 1 n)) i = (Z.testbit x i || bool_decide (i = n)).
Proof. intros. by rewrite Z.lor_spec, testbit_shiftl1. Qed.

Lemma testbit_clear x n i : 0 <= n -> 0 <= i ->
  Z.testbit (Z.land x (Z.lnot (Z.shiftl 1 n))) i
  = (Z.testbit x i && negb (bool_decide (i = n))).
Proof. intros. by rewrite Z.land_spec, Z.lnot_spec, testbit_shiftl1. Qed.

(** Exhaustive evaluation over the values of a small unsigned type. *)
Definition all_below (n : nat) (P : Z -> bool) : bool :=
  forallb (fun i => P (Z.of_nat i)) (seq 0 n).

Lemma all_below_spec n P : all_below n P = true ->
  forall z, 0 <= z < Z.of_nat n -> P z = true.
Proof.
  unfold all_below. rewrite forallb_forall. intros H z Hz.
  rewrite <- (Z2Nat.id z) by lia. apply H, in_seq. lia.
Qed.

(** ** Tactics *)

(** Splits on the tests of the goal that come from the source's conditions. *)
Ltac split_ifs :=
  repeat match goal with
  | |- context [if ?b then _ else _] => destruct b eqn:?
  | |- context [match ?x with Some _ => _ | None => _ end] => destruct x eqn:?
  end.

(** Turns boolean comparisons in the context into propositions. *)
Ltac to_prop :=
  repeat match goal with
  | H : (_ <? _) = true |- _ => apply Z.ltb_lt in H
  | H : (_ <? _) = false |- _ => apply Z.ltb_ge in H
  | H : (_ <=? _) = true |- _ => apply Z.leb_le in H
  | H : (_ <=? _) = false |- _ => apply Z.leb_gt in H
  | H : (_ =? _) = true |- _ => apply Z.eqb_eq in H
  | H : (_ =? _) = false |- _ => apply Z.eqb_neq in H
  | H : truth _ = true |- _ => apply truth_true in H
  | H : truth _ = false |- _ => apply truth_false in H
  | H : (_ && _) = true |- _ => apply andb_true_iff in H; destruct H
  | H : (_ || _) = false |- _ => apply orb_false_iff in H; destruct H
  | H : negb _ = true |- _ => apply negb_true_iff in H
  | H : negb _ = false |- _ => apply negb_false_iff in H
  end.
