(* ===== verification/IntervalMap.v ===== *)
(** * Ordered containers keyed by address ranges

    [ShadowMemory] keeps a [std::map<MemoryAlloc, MemoryAllocContents *, MemoryAlloc>]
    and [SymbolTable] a [std::set<Symbol, Symbol>].  Both comparators are the same
    function of an address and a size.  This file models the containers: the
    elements in iteration order, with [find], [insert] and [erase] as the C++
    library specifies them ([lower_bound] is the first element that is not less
    than the key), and a search-tree version of [find] that walks a tree of any
    shape, as the library's red-black tree does. *)

From S2P Require Import Prelude.

Class Spanned (K : Type) := {
  span_addr : K -> Z;
  span_size : K -> Z;
}.

Section IntervalMap.
Context {K : Type} `{!Spanned K}.

(** The comparator: [operator()] of [MemoryAlloc] and of [Symbol].  The sum is
    taken in 32-bit unsigned arithmetic. *)
Definition less (x y : K) : bool :=
  if truth (span_size x) then u32 (span_addr x + span_size x) <=? span_addr y
  else u32 (span_addr x + span_size x) <? span_addr y.

(** [lower_bound]: the elements before, and from, the first one that is not less
    than the key. *)
Fixpoint lower_bound (k : K) (m : list K) : list K * list K :=
  match m with
  | [] => ([], [])
  | e :: m' =>
    if less e k then let '(b, f) := lower_bound k m' in (e :: b, f) else ([], e :: m')
  end.

(** [find]: the lower bound, unless the key is less than it. *)
Definition find (k : K) (m : list K) : option K :=
  match (lower_bound k m).2 with
  | [] => None
  | e :: _ => if less k e then None else Some e
  end.

(** [erase(find(k))]. *)
Definition erase (k : K) (m : list K) : list K :=
  let '(b, f) := lower_bound k m in
  match f with
  | [] => m
  | e :: f' => if less k e then m else b ++ f'
  end.

(** [upper_bound]: split at the first element the key is less than. *)
Fixpoint upper_bound (k : K) (m : list K) : list K * list K :=
  match m with
  | [] => ([], [])
  | e :: m' =>
    if less k e then ([], e :: m') else let '(b, f) := upper_bound k m' in (e :: b, f)
  end.

(** [insert]: at the upper bound if the predecessor is less than the key, and
    refused otherwise, returning that predecessor. *)
Definition insert_unique (k : K) (m : list K) : list K + K :=
  let '(b, f) := upper_bound k m in
  match last b with
  | None => inl (k :: f)
  | Some j => if less j k then inl (b ++ k :: f) else inr j
  end.

(** The tree the library keeps, and its search loop. *)
Inductive tree : Type :=
| Leaf
| Node (l : tree) (e : K) (r : tree).

Fixpoint inorder (t : tree) : list K :=
  match t with
  | Leaf => []
  | Node l e r => inorder l ++ e :: inorder r
  end.

Fixpoint tree_lower_bound (k : K) (t : tree) (y : option K) : option K :=
  match t with
  | Leaf => y
  | Node l e r => if negb (less e k) then tree_lower_bound k l (Some e)
                  else tree_lower_bound k r y
  end.

Definition tree_find (k : K) (t : tree) : option K :=
  match tree_lower_bound k t None with
  | None => None
  | Some e => if less k e then None else Some e
  end.

(** ** Well-formedness

    A key occupies [[addr, extent)].  An empty key compares like one byte. *)
Definition extent (x : K) : Z := span_addr x + Z.max 1 (span_size x).

Definition fits (x : K) : Prop :=
  0 <= span_addr x /\ 0 <= span_size x /\ span_addr x + span_size x < 2 ^ 32.

Definition precedes (x y : K) : Prop := extent x <= span_addr y.

Definition overlaps (x y : K) : Prop :=
  span_addr x < extent y /\ span_addr y < extent x.

Definition wf (m : list K) : Prop := Forall fits m /\ StronglySorted precedes m.

(** The addresses the container holds. *)
Definition covers (m : list K) (a : Z) : Prop :=
  exists e, e ∈ m /\ span_addr e <= a < extent e.

(** ** Lemmas *)

Lemma less_spec x y : fits x -> less x y = true <-> precedes x y.
Proof using.
  unfold less, fits, precedes, extent, truth, u32, wrap. intros (Ha & Hs & He).
  destruct (Z.eqb_spec (span_size x) 0) as [E|E]; simpl;
    rewrite Z.mod_small by lia; rewrite ?Z.ltb_lt, ?Z.leb_le; lia.
Qed.

Lemma less_false x y : fits x -> less x y = false <-> span_addr y < extent x.
Proof using.
  intros Hx. rewrite <- not_true_iff_false, less_spec by done.
  unfold precedes. lia.
Qed.

Lemma overlaps_less x y : fits x -> fits y ->
  overlaps x y <-> less x y = false /\ less y x = false.
Proof using. intros Hx Hy. rewrite !less_false by done. unfold overlaps. tauto. Qed.

Lemma extent_gt x : fits x -> span_addr x < extent x.
Proof using. unfold fits, extent. lia. Qed.

Lemma wf_nil : wf [].
Proof using. repeat constructor. Qed.

Lemma wf_cons e m :
  wf (e :: m) <-> fits e /\ (forall x, x ∈ m -> precedes e x) /\ wf m.
Proof using.
  unfold wf. rewrite Forall_cons. split.
  - intros [[He Hm] HS]. inversion HS as [|? ? HS' HF]; subst.
    rewrite Forall_forall in HF. auto.
  - intros (He & Hp & Hm & HS). split; [done|].
    constructor; [done|]. by apply Forall_forall.
Qed.

Lemma wf_app m1 m2 :
  wf (m1 ++ m2) <->
  wf m1 /\ wf m2 /\ (forall x y, x ∈ m1 -> y ∈ m2 -> precedes x y).
Proof using.
  induction m1 as [|e m1 IH]; simpl.
  - split; [|tauto]. intros H. repeat split; try apply H; try constructor.
    intros x y Hx. by apply not_elem_of_nil in Hx.
  - rewrite !wf_cons, IH. split.
    + intros (He & Hp & H1 & H2 & H3). split; [|split]; [|done|].
      * split; [done|]. split; [|done]. intros x Hx. apply Hp. set_solver.
      * intros x y [->|Hx]%elem_of_cons Hy; [apply Hp; set_solver|auto].
    + intros ((He & Hp & H1) & H2 & H3). split; [done|]. split; [|split; [done|]].
      * intros x [Hx|Hx]%elem_of_app; [auto|apply H3; set_solver].
      * split; [done|]. intros x y Hx Hy. apply H3; set_solver.
Qed.

Lemma wf_fits m e : wf m -> e ∈ m -> fits e.
Proof using. intros [H _]. rewrite Forall_forall in H. auto. Qed.

Lemma lower_bound_app k m : (lower_bound k m).1 ++ (lower_bound k m).2 = m.
Proof using.
  induction m as [|e m IH]; simpl; [done|].
  destruct (less e k); [|done]. destruct (lower_bound k m) as [b f]. simpl in *.
  by rewrite IH.
Qed.

Lemma lower_bound_before k m x : x ∈ (lower_bound k m).1 -> less x k = true.
Proof using.
  induction m as [|e m IH]; simpl; [intros H; by apply not_elem_of_nil in H|].
  destruct (less e k) eqn:E; [|intros H; by apply not_elem_of_nil in H].
  destruct (lower_bound k m) as [b f]. simpl in *.
  intros [->|H]%elem_of_cons; auto.
Qed.

Lemma lower_bound_head k m e f : (lower_bound k m).2 = e :: f -> less e k = false.
Proof using.
  induction m as [|x m IH]; simpl; [done|].
  destruct (less x k) eqn:E.
  - destruct (lower_bound k m) as [b f']. simpl in *. auto.
  - simpl. intros [= -> ->]. done.
Qed.

(** The elements from the lower bound on are all not less than the key. *)
Lemma lower_bound_after k m x :
  wf m -> x ∈ (lower_bound k m).2 -> less x k = false.
Proof using.
  intros Hwf Hx. pose proof (lower_bound_app k m) as Happ.
  destruct (lower_bound k m) as [b f] eqn:E. simpl in *.
  destruct f as [|e f]; [by apply not_elem_of_nil in Hx|].
  assert (He : less e k = false).
  { apply (lower_bound_head k m e f). by rewrite E. }
  rewrite <- Happ in Hwf. apply wf_app in Hwf as (_ & Hf & _).
  apply wf_cons in Hf as (Hfe & Hpre & Hf).
  apply elem_of_cons in Hx as [->|Hx]; [done|].
  pose proof (wf_fits f x Hf Hx) as Hfx.
  apply less_false; [done|]. apply less_false in He; [|done].
  specialize (Hpre x Hx). unfold precedes in Hpre.
  pose proof (extent_gt x Hfx). lia.
Qed.

(** [find] returns an overlapping element, and fails only if there is none. *)
Lemma find_Some k m e : wf m -> fits k ->
  find k m = Some e -> e ∈ m /\ overlaps e k.
Proof using.
  intros Hwf Hk. unfold find. pose proof (lower_bound_app k m) as Happ.
  destruct (lower_bound k m) as [b f] eqn:E. simpl in *.
  destruct f as [|x f]; [done|]. destruct (less k x) eqn:Ek; [done|].
  intros [= ->]. assert (Hin : e ∈ m) by (rewrite <- Happ; set_solver).
  split; [done|]. apply overlaps_less; [by apply (wf_fits m)|done|].
  split; [|done]. apply (lower_bound_head k m e f). by rewrite E.
Qed.

Lemma find_None k m x : wf m -> fits k ->
  find k m = None -> x ∈ m -> ~ overlaps x k.
Proof using.
  intros Hwf Hk. unfold find. pose proof (lower_bound_app k m) as Happ.
  pose proof (lower_bound_before k m x) as Hb.
  destruct (lower_bound k m) as [b f] eqn:E. simpl in *.
  intros Hf Hx Hov. pose proof (wf_fits m x Hwf Hx) as Hfx.
  apply overlaps_less in Hov as [H1 H2]; [|done|done].
  assert (Hxf : x ∈ f).
  { rewrite <- Happ in Hx. apply elem_of_app in Hx as [Hx|Hx]; [|done].
    rewrite Hb in H1; done. }
  destruct f as [|e f]; [by apply not_elem_of_nil in Hxf|].
  destruct (less k e) eqn:Ek; [|done].
  apply elem_of_cons in Hxf as [->|Hxf]; [congruence|].
  rewrite <- Happ in Hwf. apply wf_app in Hwf as (_ & Hf' & _).
  apply wf_cons in Hf' as (Hfe & Hpre & _). specialize (Hpre x Hxf).
  apply less_spec in Ek; [|done]. apply less_false in H2; [|done].
  unfold precedes in *. pose proof (extent_gt e Hfe). lia.
Qed.

(** Two elements of a well-formed container that share an address are one. *)
Lemma wf_unique m x y a : wf m -> x ∈ m -> y ∈ m ->
  span_addr x <= a < extent x -> span_addr y <= a < extent y -> x = y.
Proof using.
  intros Hwf Hx Hy Hxa Hya. induction m as [|e m IH]; [by apply not_elem_of_nil in Hx|].
  apply wf_cons in Hwf as (He & Hp & Hwf). unfold precedes in Hp.
  apply elem_of_cons in Hx as [->|Hx]; apply elem_of_cons in Hy as [->|Hy]; auto.
  - specialize (Hp y Hy). lia.
  - specialize (Hp x Hx). lia.
Qed.

(** A key of at most one byte finds exactly the element that covers it. *)
Lemma find_point k m : wf m -> fits k -> span_size k <= 1 ->
  forall e, find k m = Some e <-> (e ∈ m /\ span_addr e <= span_addr k < extent e).
Proof using.
  intros Hwf Hk Hs e.
  assert (Hone : extent k = span_addr k + 1) by (unfold extent; lia).
  split.
  - intros Hf. destruct (find_Some k m e Hwf Hk Hf) as [Hin [H1 H2]].
    split; [done|]. lia.
  - intros [Hin Ha]. destruct (find k m) as [x|] eqn:E.
    + destruct (find_Some k m x Hwf Hk E) as [Hx [H1 H2]]. f_equal.
      apply (wf_unique m x e (span_addr k)); auto; lia.
    + destruct (find_None k m e Hwf Hk E Hin). unfold overlaps. lia.
Qed.

Lemma find_covers k m : wf m -> fits k ->
  is_Some (find k m) <->
  (exists a, span_addr k <= a < extent k /\ covers m a).
Proof using.
  intros Hwf Hk. split.
  - intros [e He]. destruct (find_Some k m e Hwf Hk He) as [Hin [H1 H2]].
    pose proof (wf_fits m e Hwf Hin) as Hfe.
    pose proof (extent_gt e Hfe). pose proof (extent_gt k Hk).
    exists (Z.max (span_addr k) (span_addr e)). split; [lia|].
    exists e. split; [done|lia].
  - intros (a & Ha & e & Hin & He). destruct (find k m) as [x|] eqn:E; [by eexists|].
    destruct (find_None k m e Hwf Hk E Hin). unfold overlaps. lia.
Qed.

(** [erase] removes exactly the element [find] returns. *)
Lemma erase_None k m : find k m = None -> erase k m = m.
Proof using.
  unfold find, erase. destruct (lower_bound k m) as [b [|e f]]; simpl; [done|].
  by destruct (less k e).
Qed.

Lemma erase_Some k m e : find k m = Some e ->
  exists b f, m = b ++ e :: f /\ erase k m = b ++ f.
Proof using.
  unfold find, erase. pose proof (lower_bound_app k m) as Happ.
  destruct (lower_bound k m) as [b [|x f]]; simpl in *; [done|].
  destruct (less k x); [done|]. intros [= ->]. eauto.
Qed.

Lemma wf_drop_mid b e f : wf (b ++ e :: f) -> wf (b ++ f).
Proof using.
  rewrite !wf_app, wf_cons. intros (Hb & (He & Hp & Hf) & H).
  repeat split; auto; try apply Hb; try apply Hf. intros x y Hx Hy.
  apply H; [done|]. set_solver.
Qed.

Lemma erase_wf k m : wf m -> wf (erase k m).
Proof using.
  intros Hwf. destruct (find k m) as [e|] eqn:E.
  - destruct (erase_Some k m e E) as (b & f & -> & ->). by apply wf_drop_mid in Hwf.
  - by rewrite erase_None.
Qed.

Lemma mid_notin b e f x : wf (b ++ e :: f) -> x ∈ b ++ f -> x <> e.
Proof using.
  intros Hwf Hx ->. rewrite wf_app, wf_cons in Hwf.
  destruct Hwf as (Hb & (He & Hp & Hf) & H). pose proof (extent_gt e He).
  unfold precedes in *. apply elem_of_app in Hx as [Hx|Hx].
  - specialize (H e e Hx ltac:(set_solver)). lia.
  - specialize (Hp e Hx). lia.
Qed.

Lemma elem_of_erase k m e x : wf m -> find k m = Some e ->
  x ∈ erase k m <-> x ∈ m /\ x <> e.
Proof using.
  intros Hwf Hf. destruct (erase_Some k m e Hf) as (b & f & -> & ->).
  pose proof (mid_notin b e f x Hwf). set_solver.
Qed.

(** ** Insertion *)

Lemma upper_bound_app k m : (upper_bound k m).1 ++ (upper_bound k m).2 = m.
Proof using.
  induction m as [|e m IH]; simpl; [done|].
  destruct (less k e); [done|]. destruct (upper_bound k m) as [b f]. simpl in *.
  by rewrite IH.
Qed.

Lemma upper_bound_before k m x : x ∈ (upper_bound k m).1 -> less k x = false.
Proof using.
  induction m as [|e m IH]; simpl; [intros H; by apply not_elem_of_nil in H|].
  destruct (less k e) eqn:E; [intros H; by apply not_elem_of_nil in H|].
  destruct (upper_bound k m) as [b f]. simpl in *.
  intros [->|H]%elem_of_cons; auto.
Qed.

Lemma upper_bound_head k m e f : (upper_bound k m).2 = e :: f -> less k e = true.
Proof using.
  induction m as [|x m IH]; simpl; [done|].
  destruct (less k x) eqn:E.
  - simpl. intros [= -> ->]. done.
  - destruct (upper_bound k m) as [b f']. simpl in *. auto.
Qed.

Lemma upper_bound_after k m x : wf m -> fits k ->
  x ∈ (upper_bound k m).2 -> precedes k x.
Proof using.
  intros Hwf Hk Hx. pose proof (upper_bound_app k m) as Happ.
  pose proof (upper_bound_head k m) as Hh.
  destruct (upper_bound k m) as [b [|e f]]; simpl in *; [by apply not_elem_of_nil in Hx|].
  specialize (Hh e f eq_refl). apply less_spec in Hh; [|done].
  apply elem_of_cons in Hx as [->|Hx]; [done|].
  rewrite <- Happ, wf_app, wf_cons in Hwf. destruct Hwf as (_ & (He & Hp & _) & _).
  specialize (Hp x Hx). pose proof (extent_gt e He). unfold precedes in *. lia.
Qed.

(** The predecessor decides: if it is before the key, all of its prefix is. *)
Lemma prefix_precedes b j k : wf b -> last b = Some j -> precedes j k ->
  forall x, x ∈ b -> precedes x k.
Proof using.
  intros Hwf (b' & ->)%last_Some Hj x Hx.
  apply wf_app in Hwf as (_ & Hj' & Hb). apply elem_of_app in Hx as [Hx|Hx].
  - specialize (Hb x j Hx ltac:(set_solver)). apply wf_cons in Hj' as (Hfj & _).
    pose proof (extent_gt j Hfj). unfold precedes in *. lia.
  - by apply list_elem_of_singleton in Hx as ->.
Qed.

Lemma insert_inl k m m' : wf m -> fits k -> insert_unique k m = inl m' ->
  exists b f, m = b ++ f /\ m' = b ++ k :: f /\
    (forall x, x ∈ b -> precedes x k) /\ (forall x, x ∈ f -> precedes k x).
Proof using.
  intros Hwf Hk. unfold insert_unique. pose proof (upper_bound_app k m) as Happ.
  pose proof (upper_bound_after k m) as Haft.
  destruct (upper_bound k m) as [b f] eqn:E. simpl in *.
  destruct (last b) as [j|] eqn:El.
  - destruct (less j k) eqn:Ej; [|done]. intros [= <-]. exists b, f.
    repeat split; [done|..]; [|intros x; by apply Haft].
    rewrite <- Happ in Hwf. apply wf_app in Hwf as (Hb & _).
    apply (prefix_precedes b j); [done..|]. apply less_spec; [|done].
    apply (wf_fits b); [done|]. by apply last_Some_elem_of.
  - apply last_None in El as ->. intros [= <-]. exists [], f. simpl in Happ.
    repeat split; [done|..]; [|intros x; by apply Haft]. intros x Hx. set_solver.
Qed.

Lemma insert_wf k m m' : wf m -> fits k -> insert_unique k m = inl m' -> wf m'.
Proof using.
  intros Hwf Hk H. destruct (insert_inl k m m' Hwf Hk H) as (b & f & -> & -> & Hb & Hf).
  apply wf_app in Hwf as (H1 & H2 & H3). apply wf_app. rewrite wf_cons.
  split; [done|]. split; [done|]. intros x y Hx [->|Hy]%elem_of_cons; auto.
Qed.

Lemma elem_of_insert k m m' x : wf m -> fits k -> insert_unique k m = inl m' ->
  x ∈ m' <-> x = k \/ x ∈ m.
Proof using.
  intros Hwf Hk H. destruct (insert_inl k m m' Hwf Hk H) as (b & f & -> & -> & _).
  set_solver.
Qed.

Lemma insert_inl_disjoint k m m' : wf m -> fits k -> insert_unique k m = inl m' ->
  forall x, x ∈ m -> ~ overlaps x k.
Proof using.
  intros Hwf Hk H x Hx [H1 H2].
  destruct (insert_inl k m m' Hwf Hk H) as (b & f & -> & _ & Hb & Hf).
  apply elem_of_app in Hx as [Hx|Hx]; [specialize (Hb x Hx)|specialize (Hf x Hx)];
    unfold precedes in *; lia.
Qed.

Lemma insert_inr k m j : wf m -> fits k -> insert_unique k m = inr j ->
  j ∈ m /\ overlaps j k.
Proof using.
  intros Hwf Hk. unfold insert_unique. pose proof (upper_bound_app k m) as Happ.
  pose proof (upper_bound_before k m) as Hbef.
  destruct (upper_bound k m) as [b f] eqn:E. simpl in *.
  destruct (last b) as [j'|] eqn:El; [|done].
  destruct (less j' k) eqn:Ej; [done|]. intros [= ->].
  assert (Hj : j ∈ b) by (by apply last_Some_elem_of).
  assert (Hjm : j ∈ m) by (rewrite <- Happ; set_solver).
  split; [done|]. apply overlaps_less; [by apply (wf_fits m)|done|]. auto.
Qed.

(** Insertion succeeds exactly when the key is disjoint from every element. *)
Lemma insert_disjoint k m : wf m -> fits k ->
  (forall x, x ∈ m -> ~ overlaps x k) -> exists m', insert_unique k m = inl m'.
Proof using.
  intros Hwf Hk Hd. destruct (insert_unique k m) as [m'|j] eqn:E; [by eexists|].
  destruct (insert_inr k m j Hwf Hk E) as [Hj Ho]. by destruct (Hd j Hj).
Qed.

Lemma overlaps_witness x y : fits x -> fits y -> overlaps x y ->
  exists a, span_addr x <= a < extent x /\ span_addr y <= a < extent y.
Proof using.
  intros Hx%extent_gt Hy%extent_gt [H1 H2].
  exists (Z.max (span_addr x) (span_addr y)). lia.
Qed.

(** A key inside an element fits in the hole that erasing the element leaves. *)
Lemma insert_hole q k m e : wf m -> fits k -> find q m = Some e ->
  span_addr e <= span_addr k -> extent k <= extent e ->
  exists m', insert_unique k (erase q m) = inl m' /\ wf m' /\
    (forall x, x ∈ m' <-> x = k \/ (x ∈ m /\ x <> e)).
Proof using.
  intros Hwf Hk Hf Hl Hr. pose proof (erase_wf q m Hwf) as Hwe.
  assert (Hin : e ∈ m).
  { destruct (erase_Some q m e Hf) as (b & f & -> & _). set_solver. }
  destruct (insert_disjoint k (erase q m) Hwe Hk) as [m' Hm'].
  { intros x Hx Ho. apply (elem_of_erase q m e x Hwf Hf) in Hx as [Hx Hne].
    destruct (overlaps_witness x k) as (a & Ha & Hb); auto; [by apply (wf_fits m)|].
    apply Hne, (wf_unique m x e a Hwf Hx Hin Ha). lia. }
  exists m'. split; [done|]. split; [by apply (insert_wf k (erase q m))|].
  intros x. rewrite (elem_of_insert k (erase q m)) by done.
  by rewrite (elem_of_erase q m e).
Qed.

(** A key after every element is appended. *)
Lemma insert_append k m : wf m -> fits k -> (forall x, x ∈ m -> precedes x k) ->
  insert_unique k m = inl (m ++ [k]) /\ wf (m ++ [k]).
Proof using.
  intros Hwf Hk Hp. destruct (insert_disjoint k m Hwf Hk) as [m' Hm'].
  { intros x Hx [H1 H2]. specialize (Hp x Hx). unfold precedes in Hp. lia. }
  pose proof (insert_wf k m m' Hwf Hk Hm') as Hwf'.
  destruct (insert_inl k m m' Hwf Hk Hm') as (b & f & -> & -> & Hb & Hf).
  assert (f = []) as ->; [|by rewrite app_nil_r in *].
  destruct f as [|x f]; [done|]. specialize (Hp x ltac:(set_solver)).
  specialize (Hf x ltac:(set_solver)).
  apply wf_app in Hwf as (_ & (Hx & _)%wf_cons & _).
  apply extent_gt in Hx, Hk. unfold precedes in *. lia.
Qed.

(** A boolean test of well-formedness, for concrete containers. *)
Fixpoint wfb (m : list K) : bool :=
  match m with
  | [] => true
  | e :: m' =>
    (0 <=? span_addr e) && (0 <=? span_size e) && (span_addr e + span_size e <? 2 ^ 32)
    && forallb (fun x => extent e <=? span_addr x) m' && wfb m'
  end.

Lemma wfb_wf m : wfb m = true -> wf m.
Proof using.
  induction m as [|e m IH]; cbn [wfb]; [intros _; apply wf_nil|].
  rewrite !andb_true_iff, forallb_forall, !Z.leb_le, Z.ltb_lt.
  intros ((((H1 & H2) & H3) & H4) & H5). apply wf_cons. split; [done|].
  split; [|auto]. intros x Hx. apply Z.leb_le, H4. by apply list_elem_of_In.
Qed.

(** ** Search trees *)

Lemma lower_bound_cut k m1 e m2 : less e k = true ->
  (forall x, x ∈ m1 -> less x k = true) ->
  (lower_bound k (m1 ++ e :: m2)).2 = (lower_bound k m2).2.
Proof using.
  intros He H1. induction m1 as [|x m1 IH]; simpl.
  - rewrite He. by destruct (lower_bound k m2).
  - rewrite (H1 x) by set_solver. specialize (IH ltac:(set_solver)).
    destruct (lower_bound k (m1 ++ e :: m2)). simpl in *. done.
Qed.

Lemma lower_bound_stop k m1 e m2 : less e k = false ->
  head ((lower_bound k (m1 ++ e :: m2)).2) =
  match head ((lower_bound k m1).2) with Some x => Some x | None => Some e end.
Proof using.
  intros He. induction m1 as [|x m1 IH]; simpl; [by rewrite He|].
  destruct (less x k); [|done].
  destruct (lower_bound k (m1 ++ e :: m2)), (lower_bound k m1). done.
Qed.

Lemma tree_lower_bound_spec k t : wf (inorder t) -> forall y,
  tree_lower_bound k t y =
  match head ((lower_bound k (inorder t)).2) with Some x => Some x | None => y end.
Proof using.
  induction t as [|l IHl e r IHr]; simpl; intros Hwf y; [done|].
  apply wf_app in Hwf as (Hl & Her & Hle). apply wf_cons in Her as (He & Her & Hr).
  destruct (less e k) eqn:E; simpl.
  - rewrite lower_bound_cut by
      (done || (intros x Hx; apply less_spec; [by apply (wf_fits (inorder l))|];
       apply less_spec in E; [|done]; specialize (Hle x e Hx ltac:(set_solver));
       pose proof (extent_gt e He); unfold precedes in *; lia)).
    by rewrite IHr.
  - rewrite lower_bound_stop, IHl by done.
    by destruct (head (lower_bound k (inorder l)).2).
Qed.

(** Whatever the shape of the search tree, its [find] is the one of the list. *)
Lemma tree_find_inorder k t : wf (inorder t) -> tree_find k t = find k (inorder t).
Proof using.
  intros Hwf. unfold tree_find, find. rewrite tree_lower_bound_spec by done.
  by destruct (lower_bound k (inorder t)).2.
Qed.
End IntervalMap.

#[global] Arguments tree K : clear implicits.
