(* ===== verification/ShadowMemory.v ===== *)
(** * ShadowMemory

    The record of the guest kernel's live heap allocations
    (src/MemCheck-qemu/contrib/MemCheck/ShadowMemory.h and .cpp): a map from
    address ranges to their contents, with one operation per kind of allocation
    and release the guest announces.  Each operation returns the C function's
    result, the new map and the lines it prints. *)

From S2P Require Import Prelude IntervalMap.

Module ShadowMemory.

(** ** Data *)

Record MemoryAllocContents := mkContents { m_Type : Z }.

Record MemoryAlloc := mkAlloc { m_Address : Z; m_Size : Z }.

(** The [value_type] of the map: [std::pair<const MemoryAlloc, MemoryAllocContents *>]. *)
Record entry := mkEntry { first : MemoryAlloc; second : MemoryAllocContents }.

#[global] Instance MemoryAlloc_eq_dec : EqDecision MemoryAlloc.
Proof. solve_decision. Defined.
#[global] Instance MemoryAllocContents_eq_dec : EqDecision MemoryAllocContents.
Proof. solve_decision. Defined.
#[global] Instance entry_eq_dec : EqDecision entry.
Proof. solve_decision. Defined.

#[global] Instance entry_spanned : Spanned entry := {
  span_addr e := m_Address (first e);
  span_size e := m_Size (first e);
}.

Abbreviation memory_map := (list entry).

(** The lines the operations print. *)
Inductive report : Type :=
| AllocationAlreadyExists (newAllocPtr newSize oldAllocPtr oldSize : Z)
| NoAllocatedMemory (freePtr : Z)
| FreeMiddleOfAllocation (oldAllocPtr oldSize freePtr : Z)
| FreeSizeMiddleOfAllocation (oldAllocPtr oldSize freePtr freeSize : Z)
| FreeSizeNotEqual (freePtr allocSize freeSize : Z)
| TruncatingAllocation.

#[global] Instance report_eq_dec : EqDecision report.
Proof. solve_decision. Defined.

(** [MemoryAlloc(address, size)] as a search key: the comparator reads no contents. *)
Definition probe (address size : Z) : entry := mkEntry (mkAlloc address size) (mkContents 0).

(** [m_MemoryMap.insert(...)] where the result is ignored. *)
Definition map_insert (k : entry) (m : memory_map) : memory_map :=
  match insert_unique k m with inl m' => m' | inr _ => m end.

(** ** Operations *)

Definition NewMemoryAlloc (type allocPtr size : Z) (m : memory_map)
  : Z * memory_map * list report :=
  match insert_unique (mkEntry (mkAlloc allocPtr size) (mkContents type)) m with
  | inl m' => (0, m', [])
  | inr old =>
    (1, m, [AllocationAlreadyExists allocPtr size (m_Address (first old)) (m_Size (first old))])
  end.

Definition FreeMemory (type freePtr : Z) (m : memory_map) : Z * memory_map * list report :=
  if freePtr =? 0 then (0, m, [])
  else match find (probe freePtr 0) m with
  | None => (1, m, [NoAllocatedMemory freePtr])
  | Some pos =>
    if m_Address (first pos) =? freePtr then (0, erase (probe freePtr 0) m, [])
    else (1, m, [FreeMiddleOfAllocation (m_Address (first pos)) (m_Size (first pos)) freePtr])
  end.

Definition FreeSizeMemory (type freePtr size : Z) (m : memory_map)
  : Z * memory_map * list report :=
  if freePtr =? 0 then (0, m, [])
  else match find (probe freePtr 0) m with
  | None => (1, m, [NoAllocatedMemory freePtr])
  | Some pos =>
    let a := first pos in
    if m_Address a =? freePtr then
      if negb (m_Size a =? size) then
        let mismatch := FreeSizeNotEqual freePtr (m_Size a) size in
        if size <? m_Size a then
          let newSize := u32 (m_Size a - size) in
          let newAddress := u32 (m_Address a + size) in
          (1, map_insert (mkEntry (mkAlloc newAddress newSize) (mkContents type))
                (erase (probe freePtr 0) m), [mismatch; TruncatingAllocation])
        else (1, m, [mismatch])
      else (0, erase (probe freePtr 0) m, [])
    else (1, m, [FreeSizeMiddleOfAllocation (m_Address a) (m_Size a) freePtr size])
  end.

Definition FreeAnySizeMemory (type freePtr size : Z) (m : memory_map)
  : Z * memory_map * list report :=
  if freePtr =? 0 then (0, m, [])
  else match find (probe freePtr 0) m with
  | None => (1, m, [NoAllocatedMemory freePtr])
  | Some pos =>
    let a := first pos in
    let m1 := erase (probe freePtr 0) m in
    if m_Address a =? freePtr then
      if negb (m_Size a =? size) && (size <? m_Size a) then
        let newSize := u32 (m_Size a - size) in
        let newAddress := u32 (m_Address a + size) in
        (0, map_insert (mkEntry (mkAlloc newAddress newSize) (mkContents type)) m1, [])
      else (0, m1, [])
    else
      let oldSize := m_Size a in
      let oldAddress := m_Address a in
      let m2 := map_insert (mkEntry (mkAlloc oldAddress (u32 (freePtr - oldAddress)))
                              (mkContents type)) m1 in
      let m3 := if negb (u32 (freePtr + size) =? u32 (oldAddress + oldSize))
                then map_insert
                       (mkEntry (mkAlloc (u32 (freePtr + size))
                                   (u32 (oldAddress + oldSize - (freePtr + size))))
                          (mkContents type)) m2
                else m2 in
      (0, m3, [])
  end.

(** ** Examples *)

Example new_then_overlap :
  let '(r1, m1, _) := NewMemoryAlloc 0 4096 64 [] in
  let '(r2, m2, o2) := NewMemoryAlloc 0 4128 64 m1 in
  (r1, r2, o2) = (0, 1, [AllocationAlreadyExists 4128 64 4096 64]).
Proof. reflexivity. Qed.

Example free_any_middle :
  (FreeAnySizeMemory 0 4112 16 [mkEntry (mkAlloc 4096 64) (mkContents 0)]).1.2
  = [mkEntry (mkAlloc 4096 16) (mkContents 0); mkEntry (mkAlloc 4128 32) (mkContents 0)].
Proof. reflexivity. Qed.

(** ** Lemmas *)

Lemma probe_fits p : is_u32 p -> fits (probe p 0).
Proof. unfold in_width, fits. simpl. lia. Qed.

Lemma find_probe m p e : wf m -> is_u32 p ->
  find (probe p 0) m = Some e <->
  (e ∈ m /\ m_Address (first e) <= p < extent e).
Proof.
  intros Hwf Hp. rewrite find_point by (try apply probe_fits; simpl; done || lia).
  done.
Qed.

Lemma find_probe_None m p : wf m -> is_u32 p ->
  find (probe p 0) m = None <-> ~ covers m p.
Proof.
  intros Hwf Hp. rewrite eq_None_not_Some.
  rewrite find_covers by (try apply probe_fits; done). unfold extent. simpl.
  split; intros H Hc; apply H.
  - exists p. split; [lia|done].
  - destruct Hc as (a & Ha & Hc). by replace p with a by lia.
Qed.

Lemma covers_equiv m m' : (forall x, x ∈ m' <-> x ∈ m) -> forall a, covers m' a <-> covers m a.
Proof. intros H a. unfold covers. by setoid_rewrite H. Qed.

(** Closes the arithmetic left by the lemmas on pieces below. *)
Ltac solve_pieces :=
  unfold extent in *; simpl in *;
  match goal with
  | |- (?P /\ _) <-> (?P /\ _) => apply and_iff_compat_l; split; intros; lia
  | _ => lia
  end.

(** The element that covers an address is the only one that does. *)
Lemma covers_elem m e a : wf m -> e ∈ m -> span_addr e <= a < extent e ->
  forall x, x ∈ m -> x <> e -> ~ (span_addr x <= a < extent x).
Proof.
  intros Hwf He Ha x Hx Hne Hxa. apply Hne. by apply (wf_unique m x e a).
Qed.

(** Replacing the element [e] by pieces of it: the addresses that change are those
    of [e] outside the pieces. *)
Lemma covers_pieces m m' e (P : entry -> Prop) : wf m -> e ∈ m ->
  (forall x, x ∈ m' <-> P x \/ (x ∈ m /\ x <> e)) ->
  (forall x a, P x -> span_addr x <= a < extent x -> span_addr e <= a < extent e) ->
  forall a, covers m' a <->
    covers m a /\ (span_addr e <= a < extent e ->
                   exists x, P x /\ span_addr x <= a < extent x).
Proof.
  intros Hwf He Hm' HP a. unfold covers. split.
  - intros (x & Hx & Ha). apply Hm' in Hx as [Hx|[Hx Hne]].
    + split; [|eauto]. exists e. eauto.
    + split; [eauto|]. intros Hea. destruct Hne. by apply (wf_unique m x e a).
  - intros [(x & Hx & Ha) Hpc]. destruct (decide (x = e)) as [->|Hne].
    + destruct (Hpc Ha) as (y & Hy & Hya). exists y. rewrite Hm'. auto.
    + exists x. rewrite Hm'. auto.
Qed.

Lemma covers_one_piece m m' e k : wf m -> e ∈ m ->
  (forall x, x ∈ m' <-> x = k \/ (x ∈ m /\ x <> e)) ->
  span_addr e <= span_addr k -> extent k <= extent e ->
  forall a, covers m' a <->
    covers m a /\ (span_addr e <= a < extent e -> span_addr k <= a < extent k).
Proof.
  intros Hwf He Hm' Hl Hr a.
  rewrite (covers_pieces m m' e (fun x => x = k) Hwf He Hm') by (intros x b -> ?; lia).
  naive_solver.
Qed.

Lemma covers_two_pieces m m' e k1 k2 : wf m -> e ∈ m ->
  (forall x, x ∈ m' <-> x = k2 \/ x = k1 \/ (x ∈ m /\ x <> e)) ->
  span_addr e <= span_addr k1 -> extent k1 <= extent e ->
  span_addr e <= span_addr k2 -> extent k2 <= extent e ->
  forall a, covers m' a <->
    covers m a /\ (span_addr e <= a < extent e ->
                   span_addr k1 <= a < extent k1 \/ span_addr k2 <= a < extent k2).
Proof.
  intros Hwf He Hm' Hl1 Hr1 Hl2 Hr2 a.
  rewrite (covers_pieces m m' e (fun x => x = k2 \/ x = k1) Hwf He).
  - naive_solver.
  - intros x. rewrite Hm'. tauto.
  - intros x b [->| ->] ?; lia.
Qed.

Lemma covers_erase q m e : wf m -> find q m = Some e ->
  forall a, covers (erase q m) a <-> covers m a /\ ~ (span_addr e <= a < extent e).
Proof.
  intros Hwf Hf a.
  assert (He : e ∈ m) by (destruct (erase_Some q m e Hf) as (b & f & -> & _); set_solver).
  rewrite (covers_pieces m _ e (fun _ => False) Hwf He); [|..].
  - naive_solver.
  - intros x. rewrite (elem_of_erase q m e) by done. naive_solver.
  - naive_solver.
Qed.

Lemma u32_small z : is_u32 z -> u32 z = z.
Proof. apply wrap_small. Qed.

(** ** The abstract ledger

    The specification of the component: a finite map from the base address of each
    live allocation to its size, and what each call does to it. *)

Definition ledger (m : memory_map) : gmap Z Z :=
  list_to_map ((fun e => (m_Address (first e), m_Size (first e))) <$> m).

Inductive call : Type :=
| CNew (allocPtr size : Z)
| CFree (freePtr : Z)
| CFreeSize (freePtr size : Z)
| CFreeAny (freePtr size : Z).

(** The call as the intercepted guest function makes it (the type is always 0). *)
Definition exec (c : call) (m : memory_map) : Z * memory_map * list report :=
  match c with
  | CNew p n => NewMemoryAlloc 0 p n m
  | CFree p => FreeMemory 0 p m
  | CFreeSize p n => FreeSizeMemory 0 p n m
  | CFreeAny p n => FreeAnySizeMemory 0 p n m
  end.

Definition apart (p n b s : Z) : Prop := b + Z.max 1 s <= p \/ p + Z.max 1 n <= b.
#[global] Instance apart_dec p n b s : Decision (apart p n b s).
Proof. unfold apart. apply _. Defined.

(** The allocation whose range holds an address. *)
Definition owner (L : gmap Z Z) (p : Z) : option (Z * Z) :=
  head (filter (fun bs => bs.1 <= p < bs.1 + Z.max 1 bs.2) (map_to_list L)).

Definition spec_step (c : call) (L : gmap Z Z) : Z * gmap Z Z :=
  match c with
  | CNew p n => if decide (map_Forall (apart p n) L) then (0, <[p := n]> L) else (1, L)
  | CFree p =>
    if p =? 0 then (0, L)
    else match L !! p with Some _ => (0, delete p L) | None => (1, L) end
  | CFreeSize p n =>
    if p =? 0 then (0, L)
    else match L !! p with
    | None => (1, L)
    | Some s => if s =? n then (0, delete p L)
                else if n <? s then (1, <[p + n := s - n]> (delete p L)) else (1, L)
    end
  | CFreeAny p n =>
    if p =? 0 then (0, L)
    else match owner L p with
    | None => (1, L)
    | Some (b, s) =>
      if b =? p then
        if n <? s then (0, <[p + n := s - n]> (delete p L)) else (0, delete p L)
      else
        let L1 := <[b := p - b]> (delete b L) in
        (0, if p + n =? b + s then L1 else <[p + n := b + s - (p + n)]> L1)
    end
  end.

(** The arguments the specification covers: 32-bit values, an allocation that does
    not reach the end of the address space, and a release that starts inside an
    allocation and does not run past its end. *)
Definition call_ok (c : call) (m : memory_map) : Prop :=
  match c with
  | CNew p n => is_u32 p /\ is_u32 n /\ p + n < 2 ^ 32
  | CFree p => is_u32 p
  | CFreeSize p n => is_u32 p /\ is_u32 n
  | CFreeAny p n => is_u32 p /\ is_u32 n /\
      (forall e, e ∈ m -> span_addr e < p < extent e -> p + n <= extent e)
  end.

Lemma wf_NoDup_addr m : wf m ->
  NoDup (((fun e => (m_Address (first e), m_Size (first e))) <$> m).*1).
Proof.
  rewrite <- list_fmap_compose.
  induction m as [|e m IH]; simpl; intros Hwf; [constructor|].
  apply wf_cons in Hwf as (He & Hp & Hwf). constructor; [|auto].
  intros (x & Hx & Hin)%list_elem_of_fmap. specialize (Hp x Hin).
  apply extent_gt in He. unfold precedes in Hp. simpl in *. lia.
Qed.

Lemma ledger_lookup m a n : wf m ->
  ledger m !! a = Some n <-> exists e, e ∈ m /\ first e = mkAlloc a n.
Proof.
  intros Hwf. unfold ledger. rewrite <- elem_of_list_to_map by (by apply wf_NoDup_addr).
  rewrite list_elem_of_fmap. split.
  - intros (e & [= -> ->] & He). exists e. split; [done|]. by destruct (first e).
  - intros (e & He & Hf). exists e. by rewrite Hf.
Qed.

(** The entry of an address, by its address alone. *)
Lemma wf_same_addr m x y : wf m -> x ∈ m -> y ∈ m ->
  m_Address (first x) = m_Address (first y) -> x = y.
Proof.
  intros Hwf Hx Hy Ha. apply (wf_unique m x y (m_Address (first x))); auto.
  - pose proof (extent_gt x (wf_fits m x Hwf Hx)). simpl in *. lia.
  - pose proof (extent_gt y (wf_fits m y Hwf Hy)). simpl in *. lia.
Qed.

Lemma ledger_insert m m' k : wf m -> wf m' ->
  (forall x, x ∈ m' <-> x = k \/ x ∈ m) ->
  ledger m' = <[m_Address (first k) := m_Size (first k)]> (ledger m).
Proof.
  intros Hwf Hwf' Hel. apply map_eq. intros a. apply option_eq. intros n.
  rewrite (ledger_lookup m') by done. rewrite lookup_insert. case_decide as Ha.
  - split.
    + intros (e & He & Hf). assert (e = k) as ->.
      { apply (wf_same_addr m'); auto; [apply Hel; auto|]. rewrite Hf. simpl. lia. }
      by rewrite Hf.
    + intros [= <-]. exists k. split; [apply Hel; auto|]. destruct (first k). simpl in *.
      by subst.
  - rewrite ledger_lookup by done. setoid_rewrite Hel. split.
    + intros (e & [->|He] & Hf); [by rewrite Hf in Ha|eauto].
    + naive_solver.
Qed.

Lemma ledger_erase q m e : wf m -> find q m = Some e ->
  ledger (erase q m) = delete (m_Address (first e)) (ledger m).
Proof.
  intros Hwf Hf. pose proof (erase_wf q m Hwf) as Hwe.
  assert (He : e ∈ m) by (destruct (erase_Some q m e Hf) as (b & f & -> & _); set_solver).
  apply map_eq. intros a. apply option_eq. intros n.
  rewrite ledger_lookup, lookup_delete by done. setoid_rewrite (elem_of_erase q m e); [|done..].
  case_decide as Ha.
  - split; [|done]. intros (x & [Hx Hne] & Hfx). destruct Hne.
    apply (wf_same_addr m); auto. by rewrite Hfx.
  - rewrite ledger_lookup by done. split; [naive_solver|].
    intros (x & Hx & Hfx). exists x. split; [split; [done|]|done].
    intros ->. by rewrite Hfx in Ha.
Qed.

(** [insert] in the hole left by [erase], as the three sized releases use it. *)
Lemma map_insert_hole q k m e : wf m -> fits k -> find q m = Some e ->
  span_addr e <= span_addr k -> extent k <= extent e ->
  wf (map_insert k (erase q m)) /\
  (forall x, x ∈ map_insert k (erase q m) <-> x = k \/ (x ∈ m /\ x <> e)) /\
  ledger (map_insert k (erase q m)) =
    <[m_Address (first k) := m_Size (first k)]> (delete (m_Address (first e)) (ledger m)).
Proof.
  intros Hwf Hk Hf Hl Hr. unfold map_insert.
  destruct (insert_hole q k m e) as (m' & -> & Hwf' & Hel); auto.
  split; [done|]. split; [done|]. rewrite <- ledger_erase with (q := q) by done.
  apply ledger_insert; [by apply erase_wf|done|].
  intros x. rewrite Hel. by rewrite (elem_of_erase q m e).
Qed.

Lemma map_insert_apart k m : wf m -> fits k -> (forall x, x ∈ m -> ~ overlaps x k) ->
  wf (map_insert k m) /\ (forall x, x ∈ map_insert k m <-> x = k \/ x ∈ m) /\
  ledger (map_insert k m) = <[m_Address (first k) := m_Size (first k)]> (ledger m).
Proof.
  intros Hwf Hk Hd. unfold map_insert.
  destruct (insert_disjoint k m Hwf Hk Hd) as [m' Hm']. rewrite Hm'.
  pose proof (insert_wf k m m' Hwf Hk Hm') as Hwf'.
  pose proof (fun x => elem_of_insert k m m' x Hwf Hk Hm') as Hel.
  split; [done|]. split; [done|]. by apply ledger_insert.
Qed.

(** ** Each call refines the specification *)

Lemma owner_find m p : wf m -> is_u32 p ->
  owner (ledger m) p =
  (fun e => (m_Address (first e), m_Size (first e))) <$> find (probe p 0) m.
Proof.
  intros Hwf Hp. unfold owner.
  assert (Hin : forall b s, (b, s) ∈ filter (fun bs : Z * Z => bs.1 <= p < bs.1 + Z.max 1 bs.2)
    (map_to_list (ledger m)) <-> exists e, find (probe p 0) m = Some e /\ first e = mkAlloc b s).
  { intros b s. rewrite list_elem_of_filter, elem_of_map_to_list, ledger_lookup by done. simpl.
    setoid_rewrite (find_probe m p); [|done..]. unfold extent. simpl. split.
    - intros (Hr & e & He & Hf). exists e. rewrite Hf. simpl. auto.
    - intros (e & (He & Hr) & Hf). rewrite Hf in Hr. simpl in Hr. eauto. }
  destruct (filter _ _) as [|[b s] l]; simpl; destruct (find (probe p 0) m) as [e|]; simpl; auto.
  - destruct (first e) as [b s] eqn:Ee.
    assert (H : (b, s) ∈ @nil (Z * Z)) by (apply Hin; eauto). by apply not_elem_of_nil in H.
  - destruct (proj1 (Hin b s)) as (e' & [= <-] & Hf); [set_solver|]. by rewrite Hf.
  - destruct (proj1 (Hin b s)) as (e' & [=] & _); set_solver.
Qed.

Lemma ledger_lookup_find m p : wf m -> is_u32 p ->
  ledger m !! p =
  match find (probe p 0) m with
  | Some e => if m_Address (first e) =? p then Some (m_Size (first e)) else None
  | None => None
  end.
Proof.
  intros Hwf Hp. apply option_eq. intros n. rewrite ledger_lookup by done.
  split.
  - intros (e & He & Hf). pose proof (extent_gt e (wf_fits m e Hwf He)) as Hx.
    rewrite (proj2 (find_probe m p e Hwf Hp)); [|rewrite Hf in *; simpl in *; rewrite Hf in Hx; simpl in Hx; split; [done|lia]].
    rewrite Hf. simpl. by rewrite Z.eqb_refl.
  - destruct (find (probe p 0) m) as [e|] eqn:E; [|done].
    apply find_probe in E as [He Hr]; [|done..].
    destruct (Z.eqb_spec (m_Address (first e)) p); [|done]. intros [= <-].
    exists e. split; [done|]. destruct (first e); simpl in *. by subst.
Qed.

Lemma new_refines p n m r m' out : wf m -> call_ok (CNew p n) m ->
  NewMemoryAlloc 0 p n m = (r, m', out) ->
  spec_step (CNew p n) (ledger m) = (r, ledger m') /\ wf m'.
Proof.
  intros Hwf (Hp & Hn & Hpn) Hc. unfold NewMemoryAlloc in Hc. simpl.
  set (k := mkEntry (mkAlloc p n) (mkContents 0)) in *.
  assert (Hk : fits k) by (unfold fits, in_width in *; simpl; lia).
  assert (Hap : map_Forall (apart p n) (ledger m) <-> forall x, x ∈ m -> ~ overlaps x k).
  { split.
    - intros H x Hx Ho. destruct (first x) as [b s] eqn:Ex.
      assert (Hb : ledger m !! b = Some s) by (apply ledger_lookup; eauto).
      apply H in Hb. revert Ho Hb. unfold overlaps, apart, extent. simpl. rewrite Ex. simpl. lia.
    - intros H b s Hb. apply ledger_lookup in Hb as (x & Hx & Ex); [|done].
      specialize (H x Hx). revert H. unfold overlaps, apart, extent. simpl. rewrite Ex. simpl. lia. }
  destruct (insert_unique k m) as [m1|j] eqn:E; injection Hc as <- <- <-.
  - rewrite decide_True by (apply Hap; by eapply insert_inl_disjoint).
    pose proof (insert_wf k m m1 Hwf Hk E) as Hwf1. split; [|done]. f_equal. symmetry.
    apply (ledger_insert m m1 k); auto. intros x. by apply elem_of_insert.
  - rewrite decide_False; [done|]. intros H. destruct (insert_inr k m j Hwf Hk E) as [Hj Ho].
    exact (proj1 Hap H j Hj Ho).
Qed.

Lemma free_refines p m r m' out : wf m -> call_ok (CFree p) m ->
  FreeMemory 0 p m = (r, m', out) ->
  spec_step (CFree p) (ledger m) = (r, ledger m') /\ wf m'.
Proof.
  intros Hwf Hp Hc. unfold FreeMemory in Hc. simpl in *.
  destruct (Z.eqb_spec p 0); [by simplify_eq|].
  rewrite (ledger_lookup_find m p) by done.
  destruct (find (probe p 0) m) as [e|] eqn:E; [|by simplify_eq].
  destruct (Z.eqb_spec (m_Address (first e)) p) as [Ea|Ea]; [|by simplify_eq].
  injection Hc as <- <- <-. rewrite (ledger_erase _ _ e), Ea by done.
  split; [done|by apply erase_wf].
Qed.

(** The remainder of an allocation after its head is released. *)
Lemma tail_piece m e p n : wf m -> find (probe p 0) m = Some e -> is_u32 p -> is_u32 n ->
  m_Address (first e) = p -> n < m_Size (first e) ->
  let k := mkEntry (mkAlloc (u32 (m_Address (first e) + n)) (u32 (m_Size (first e) - n)))
             (mkContents 0) in
  first k = mkAlloc (p + n) (m_Size (first e) - n) /\
  wf (map_insert k (erase (probe p 0) m)) /\
  (forall x, x ∈ map_insert k (erase (probe p 0) m) <-> x = k \/ (x ∈ m /\ x <> e)) /\
  ledger (map_insert k (erase (probe p 0) m)) =
    <[p + n := m_Size (first e) - n]> (delete p (ledger m)).
Proof.
  intros Hwf Hf Hp Hn Ha Hlt k. apply find_probe in Hf as Hin; [|done..].
  destruct Hin as [Hin Hr]. pose proof (wf_fits m e Hwf Hin) as (H1 & H2 & H3). simpl in H1, H2, H3.
  assert (Hk : first k = mkAlloc (p + n) (m_Size (first e) - n)).
  { unfold k. simpl. unfold in_width in *. rewrite !u32_small by (unfold in_width; lia).
    by rewrite Ha. }
  clearbody k. split; [done|].
  destruct (map_insert_hole (probe p 0) k m e) as (Hwf' & Hel & Hl); auto.
  - unfold fits. simpl. rewrite Hk. simpl. unfold in_width in *. lia.
  - simpl. rewrite Hk. simpl. unfold in_width in *. lia.
  - unfold extent. simpl. rewrite Hk. simpl. lia.
  - split; [done|]. split; [done|]. by rewrite Hl, Hk, Ha.
Qed.

Lemma free_size_refines p n m r m' out : wf m -> call_ok (CFreeSize p n) m ->
  FreeSizeMemory 0 p n m = (r, m', out) ->
  spec_step (CFreeSize p n) (ledger m) = (r, ledger m') /\ wf m'.
Proof.
  intros Hwf [Hp Hn] Hc. unfold FreeSizeMemory in Hc. simpl in *.
  destruct (Z.eqb_spec p 0); [by simplify_eq|].
  rewrite (ledger_lookup_find m p) by done.
  destruct (find (probe p 0) m) as [e|] eqn:E; [|by simplify_eq].
  destruct (Z.eqb_spec (m_Address (first e)) p) as [Ea|Ea]; [|by simplify_eq].
  destruct (Z.eqb_spec (m_Size (first e)) n) as [En|En]; simpl in Hc.
  - injection Hc as <- <- <-. rewrite (ledger_erase _ _ e), Ea by done.
    split; [done|by apply erase_wf].
  - destruct (Z.ltb_spec n (m_Size (first e))); injection Hc as <- <- <-; [|done].
    destruct (tail_piece m e p n) as (_ & Hw & _ & Hl); auto. by rewrite Hl.
Qed.

(** The two pieces of an allocation whose middle is released. *)
Lemma middle_pieces m e p n : wf m -> find (probe p 0) m = Some e -> is_u32 p -> is_u32 n ->
  m_Address (first e) <> p -> p + n <= extent e ->
  let b := m_Address (first e) in
  let s := m_Size (first e) in
  let k1 := mkEntry (mkAlloc b (u32 (p - b))) (mkContents 0) in
  let k2 := mkEntry (mkAlloc (u32 (p + n)) (u32 (b + s - (p + n)))) (mkContents 0) in
  let m2 := map_insert k1 (erase (probe p 0) m) in
  first k1 = mkAlloc b (p - b) /\ 0 < p - b /\ extent e = b + s /\
  u32 (p + n) = p + n /\ u32 (b + s) = b + s /\
  wf m2 /\ (forall x, x ∈ m2 <-> x = k1 \/ (x ∈ m /\ x <> e)) /\
  ledger m2 = <[b := p - b]> (delete b (ledger m)) /\
  (p + n <> b + s ->
     first k2 = mkAlloc (p + n) (b + s - (p + n)) /\
     wf (map_insert k2 m2) /\
     (forall x, x ∈ map_insert k2 m2 <-> x = k2 \/ x ∈ m2) /\
     ledger (map_insert k2 m2) = <[p + n := b + s - (p + n)]> (ledger m2)).
Proof.
  intros Hwf Hf Hp Hn Ha Hend b s k1 k2 m2. apply find_probe in Hf as Hin; [|done..].
  destruct Hin as [Hin Hr]. pose proof (wf_fits m e Hwf Hin) as (H1 & H2 & H3).
  fold b s in Hr, H1, H2, H3, Ha. simpl in H1, H2, H3. fold b s in H1, H2, H3.
  assert (Hext : extent e = b + s) by (unfold extent in *; simpl in *; fold b s in Hr |- *; lia).
  unfold in_width in *.
  assert (Hk1 : first k1 = mkAlloc b (p - b)).
  { unfold k1. simpl. rewrite u32_small by (unfold in_width; lia). done. }
  assert (Hu1 : u32 (p + n) = p + n) by (apply u32_small; unfold in_width; lia).
  assert (Hu2 : u32 (b + s) = b + s) by (apply u32_small; unfold in_width; lia).
  clearbody k1. destruct (map_insert_hole (probe p 0) k1 m e) as (Hwf2 & Hel & Hl); auto;
    [unfold fits; simpl; rewrite Hk1; simpl; lia|simpl; rewrite Hk1; simpl; fold b; lia
    |unfold extent at 1; simpl; rewrite Hk1; simpl; lia|].
  fold m2 in Hwf2, Hel, Hl. do 5 (split; [done || lia|]).
  split; [done|]. split; [done|]. split; [by rewrite Hl, Hk1|]. intros Hne.
  assert (Hk2 : first k2 = mkAlloc (p + n) (b + s - (p + n))).
  { unfold k2. simpl. rewrite Hu1, u32_small by (unfold in_width; lia). done. }
  clearbody k2. split; [done|].
  destruct (map_insert_apart k2 m2) as (Hw & He2 & Hl2); auto.
  - unfold fits. simpl. rewrite Hk2. simpl. lia.
  - intros x Hx Ho. apply Hel in Hx as [->|[Hx Hxe]].
    + revert Ho. unfold overlaps, extent. simpl. rewrite Hk1, Hk2. simpl. lia.
    + apply overlaps_witness in Ho as (a & Hxa & Hka); [| by apply (wf_fits m) |
        unfold fits; simpl; rewrite Hk2; simpl; lia].
      apply Hxe, (wf_unique m x e a Hwf Hx Hin Hxa). revert Hka.
      unfold extent at 1. rewrite Hext. simpl. rewrite Hk2. simpl. fold b. lia.
  - split; [done|]. split; [done|]. by rewrite Hl2, Hk2.
Qed.

Lemma free_any_refines p n m r m' out : wf m -> call_ok (CFreeAny p n) m ->
  FreeAnySizeMemory 0 p n m = (r, m', out) ->
  spec_step (CFreeAny p n) (ledger m) = (r, ledger m') /\ wf m'.
Proof.
  intros Hwf (Hp & Hn & Hov) Hc. unfold FreeAnySizeMemory in Hc. simpl in *.
  destruct (Z.eqb_spec p 0); [by simplify_eq|].
  rewrite (owner_find m p) by done.
  destruct (find (probe p 0) m) as [e|] eqn:E; simpl; [|by simplify_eq].
  apply find_probe in E as Hin; [|done..]. destruct Hin as [Hin Hr].
  destruct (Z.eqb_spec (m_Address (first e)) p) as [Ea|Ea].
  - destruct (Z.ltb_spec n (m_Size (first e))) as [Hlt|Hge].
    + rewrite (proj2 (Z.eqb_neq _ _)) in Hc by lia. simpl in Hc. injection Hc as <- <- <-.
      destruct (tail_piece m e p n) as (_ & Hw & _ & Hl); auto. by rewrite Hl.
    + rewrite andb_false_r in Hc. injection Hc as <- <- <-.
      rewrite (ledger_erase _ _ e), Ea by done. split; [done|by apply erase_wf].
  - destruct (middle_pieces m e p n) as (_ & _ & Hx & Hu1 & Hu2 & Hw & _ & Hl & Hk2); auto.
    { apply Hov; [done|]. lia. }
    rewrite Hu1, Hu2 in Hc. destruct (Z.eqb_spec (p + n) (m_Address (first e) + m_Size (first e)));
      simpl in Hc; injection Hc as <- <- <-.
    + by rewrite Hl.
    + destruct (Hk2 ltac:(done)) as (_ & Hw2 & _ & Hl2). rewrite Hu1 in Hw2, Hl2.
      by rewrite Hl2, Hl.
Qed.

Lemma exec_refines_spec c m r m' out : wf m -> call_ok c m -> exec c m = (r, m', out) ->
  spec_step c (ledger m) = (r, ledger m') /\ wf m'.
Proof.
  destruct c; [apply new_refines|apply free_refines|apply free_size_refines
    |apply free_any_refines].
Qed.

(** Sequences of calls: the maps the tool can reach, with their result codes. *)
Inductive reach : list (call * Z) -> memory_map -> Prop :=
| reach_init : reach [] []
| reach_step h m c r m' out :
    reach h m -> call_ok c m -> exec c m = (r, m', out) -> reach (h ++ [(c, r)]) m'.

(** The same sequence on the ledger. *)
Definition spec_run (h : list (call * Z)) : gmap Z Z :=
  fold_left (fun L cr => (spec_step cr.1 L).2) h ∅.

Lemma reach_wf h m : reach h m -> wf m /\ ledger m = spec_run h.
Proof.
  induction 1 as [|h m c r m' out Hr [Hwf Hl] Hok He]; [split; [apply wf_nil|done]|].
  destruct (exec_refines_spec c m r m' out Hwf Hok He) as [Hs Hwf']. split; [done|].
  unfold spec_run. rewrite fold_left_app. simpl. fold (spec_run h). by rewrite <- Hl, Hs.
Qed.

(** ** Properties *)


Definition sample : memory_map :=
  [mkEntry (mkAlloc 4096 256) (mkContents 0); mkEntry (mkAlloc 8192 64) (mkContents 0)].

Lemma sample_wf : wf sample.
Proof. apply wfb_wf. vm_compute. reflexivity. Qed.

Lemma sample_call_ok : call_ok (CFreeAny 4224 64) sample.
Proof.
  repeat split; try done. intros e [->|[->|H]%elem_of_cons]%elem_of_cons;
    [vm_compute; done|vm_compute; intros [? ?]; congruence|by apply not_elem_of_nil in H].
Qed.


(** Whatever calls the guest makes (within the arguments the specification
    covers), the allocations on record are pairwise disjoint, fit below the end of
    the address space, and are exactly those the specification computes. *)
Theorem reachable_disjoint h m : reach h m ->
  ledger m = spec_run h /\
  (forall x, x ∈ m -> fits x) /\
  (forall x y, x ∈ m -> y ∈ m -> x <> y -> ~ overlaps x y).
Proof.
  intros [Hwf Hl]%reach_wf. split; [done|]. split; [intros x; by apply wf_fits|].
  intros x y Hx Hy Hne Ho.
  apply overlaps_witness in Ho as (a & Ha & Hb); [|by apply (wf_fits m)..].
  by apply Hne, (wf_unique m x y a).
Qed.

Lemma reach_two : reach [(CNew 4096 256, 0); (CNew 8192 64, 0)] sample.
Proof.
  apply (reach_step [(CNew 4096 256, 0)] [mkEntry (mkAlloc 4096 256) (mkContents 0)] _ _ _ []);
    [|done|vm_compute; reflexivity].
  by apply (reach_step [] [] (CNew 4096 256) _ _ []); [constructor| |].
Qed.

Lemma reachable_disjoint_witness :
  exists h, ledger sample = spec_run h /\ (forall x, x ∈ sample -> fits x).
Proof.
  exists [(CNew 4096 256, 0); (CNew 8192 64, 0)].
  destruct (reachable_disjoint _ _ reach_two) as (H1 & H2 & _). split; [exact H1|exact H2].
Defined.

(** [FreeAnySizeMemory] on a range inside one allocation releases exactly the
    bytes of the range: every other byte keeps its status, and nothing is reported. *)
Theorem free_any_bytes m e p n :
  wf m -> e ∈ m -> is_u32 p -> 0 < p -> 0 <= n -> 0 < m_Size (first e) ->
  m_Address (first e) <= p < extent e -> p + n <= extent e ->
  exists m', FreeAnySizeMemory 0 p n m = (0, m', []) /\ wf m' /\
    forall a, covers m' a <-> covers m a /\ ~ (p <= a < p + n).
Proof.
  intros Hwf He Hp H0 Hn Hs Hr Hend. pose proof (wf_fits m e Hwf He) as (_ & _ & Hfit).
  simpl in Hfit. assert (Hx : extent e = m_Address (first e) + m_Size (first e))
    by (unfold extent; simpl; lia).
  assert (Hnw : is_u32 n) by (unfold in_width in *; lia).
  assert (Hf : find (probe p 0) m = Some e) by (apply find_probe; auto).
  unfold FreeAnySizeMemory. rewrite (proj2 (Z.eqb_neq p 0)), Hf by lia.
  destruct (Z.eqb_spec (m_Address (first e)) p) as [Ea|Ea].
  - destruct (Z.ltb_spec n (m_Size (first e))) as [Hlt|Hge].
    + rewrite (proj2 (Z.eqb_neq _ _)) by lia. simpl. eexists. split; [done|].
      destruct (tail_piece m e p n) as (Hk & Hw & Hel & _); auto. split; [done|].
      injection Hk as Hka Hkn. intros a.
      rewrite (covers_one_piece m _ e _ Hwf He Hel); solve_pieces.
    + rewrite andb_false_r. eexists. split; [done|]. split; [by apply erase_wf|].
      intros a. rewrite (covers_erase _ m e) by done. solve_pieces.
  - destruct (middle_pieces m e p n)
      as (Hk1 & Hpos & _ & Hu1 & Hu2 & Hw & Hel & _ & Hk2); auto.
    eexists. split; [done|]. rewrite Hu1, Hu2.
    destruct (Z.eqb_spec (p + n) (m_Address (first e) + m_Size (first e))) as [E|E]; simpl.
    + split; [done|]. injection Hk1 as Hk1. intros a.
      rewrite (covers_one_piece m _ e _ Hwf He Hel); solve_pieces.
    + destruct (Hk2 E) as (Hk2' & Hw2 & Hel2 & _). rewrite Hu1 in Hw2, Hel2, Hk2'.
      split; [done|]. injection Hk1 as Hk1. injection Hk2' as Hk2'. intros a.
      rewrite (covers_two_pieces m _ e _ _ Hwf He (fun x => ltac:(rewrite Hel2, Hel; reflexivity)));
        solve_pieces.
Qed.

Lemma free_any_bytes_witness :
  exists m', FreeAnySizeMemory 0 4224 64 sample = (0, m', []) /\ wf m' /\
    forall a, covers m' a <-> covers sample a /\ ~ (4224 <= a < 4224 + 64).
Proof.
  apply (free_any_bytes sample (mkEntry (mkAlloc 4096 256) (mkContents 0)));
    [exact sample_wf|constructor|..]; vm_compute; intuition congruence.
Defined.

(** Double free: after a successful [FreeMemory] of a non-null pointer every
    address of the released allocation is unallocated, and a second free of the
    pointer fails with the report that no memory is allocated there. *)
Theorem double_free_reported p m m' out :
  wf m -> is_u32 p -> p <> 0 -> FreeMemory 0 p m = (0, m', out) ->
  out = [] /\ (exists e, e ∈ m /\ m_Address (first e) = p /\
    forall a, covers m' a <-> covers m a /\ ~ (p <= a < extent e)) /\
  FreeMemory 0 p m' = (1, m', [NoAllocatedMemory p]).
Proof.
  intros Hwf Hp H0 H. unfold FreeMemory in *. rewrite (proj2 (Z.eqb_neq p 0)) in * by done.
  destruct (find (probe p 0) m) as [e|] eqn:E; [|done].
  destruct (Z.eqb_spec (m_Address (first e)) p) as [Ea|Ea]; [|done].
  injection H as <- <-. apply find_probe in E as Hin; [|done..]. destruct Hin as [Hin Hr].
  pose proof (covers_erase (probe p 0) m e Hwf E) as Hc. simpl in Hc. rewrite Ea in Hc.
  split; [done|]. split; [eauto|].
  rewrite (proj2 (find_probe_None (erase (probe p 0) m) p (erase_wf _ _ Hwf) Hp)); [done|].
  rewrite Hc. lia.
Qed.

Lemma double_free_reported_witness :
  exists m', FreeMemory 0 4096 sample = (0, m', []) /\
    FreeMemory 0 4096 m' = (1, m', [NoAllocatedMemory 4096]).
Proof.
  eexists. split; [vm_compute; reflexivity|].
  refine (proj2 (proj2 (double_free_reported 4096 sample _ [] sample_wf _ _ _)));
    vm_compute; intuition congruence.
Defined.

(** An operation returns 0 or 1, and it returns 1, which makes the caller dump a
    stack trace, exactly when it printed a report. *)
Theorem exec_result_reports c m r m' out : exec c m = (r, m', out) ->
  (r = 0 /\ out = []) \/ (r = 1 /\ out <> []).
Proof.
  destruct c; simpl;
    unfold NewMemoryAlloc, FreeMemory, FreeSizeMemory, FreeAnySizeMemory;
    split_ifs; try (destruct (insert_unique _ _)); intros [= <- _ <-]; auto.
Qed.

Lemma exec_result_reports_witness :
  exec (CFree 4097) sample = (1, sample, [FreeMiddleOfAllocation 4096 256 4097]) /\
  ((1 = 0 /\ [FreeMiddleOfAllocation 4096 256 4097] = []) \/
   (1 = 1 /\ [FreeMiddleOfAllocation 4096 256 4097] <> [])).
Proof.
  split; [vm_compute; reflexivity|].
  exact (exec_result_reports (CFree 4097) sample _ _ _ eq_refl).
Defined.

(** C33. [FreeAnySizeMemory] from inside an allocation with a size that runs past its
    end leaves an entry whose size is the negative remainder taken modulo 2^32: the
    map is no longer well formed. *)
Theorem free_any_overshoot t b s p n :
  0 < b < p -> p < b + s -> b + s < p + n -> p + n < 2 ^ 32 ->
  exists m', FreeAnySizeMemory 0 p n [mkEntry (mkAlloc b s) (mkContents t)] = (0, m', []) /\
    mkEntry (mkAlloc (p + n) (2 ^ 32 - (p + n - (b + s)))) (mkContents 0) ∈ m' /\ ~ wf m'.
Proof.
  intros H1 H2 H3 H4. unfold FreeAnySizeMemory. rewrite (proj2 (Z.eqb_neq p 0)) by lia.
  assert (Hwf : wf [mkEntry (mkAlloc b s) (mkContents t)]).
  { apply wf_cons. split; [unfold fits; simpl; lia|]. split; [set_solver|apply wf_nil]. }
  assert (Hf : find (probe p 0) [mkEntry (mkAlloc b s) (mkContents t)]
    = Some (mkEntry (mkAlloc b s) (mkContents t))).
  { apply find_probe; [done|unfold in_width; lia|]. split; [constructor|].
    unfold extent. simpl. lia. }
  rewrite Hf. simpl. rewrite (proj2 (Z.eqb_neq b p)) by lia.
  destruct (erase_Some _ _ _ Hf) as (l1 & l2 & Happ & He).
  assert (l1 = [] /\ l2 = []) as [-> ->].
  { destruct l1 as [|x l1]; simplify_list_eq; auto. by destruct l1. }
  rewrite He. unfold u32, wrap.
  rewrite (Z.mod_small (p - b)), (Z.mod_small (p + n)), (Z.mod_small (b + s)) by lia.
  rewrite (proj2 (Z.eqb_neq (p + n) (b + s))) by lia. simpl.
  replace ((b + s - (p + n)) mod 2 ^ 32) with (2 ^ 32 - (p + n - (b + s)))
    by (rewrite <- (Z.mod_add _ 1) by lia; rewrite Z.mod_small; lia).
  set (k2 := mkEntry (mkAlloc (p + n) (2 ^ 32 - (p + n - (b + s)))) (mkContents 0)).
  set (k1 := mkEntry (mkAlloc b (p - b)) (mkContents 0)).
  assert (Hins : map_insert k2 [k1] = [k1; k2]).
  { unfold map_insert, insert_unique. simpl.
    assert (less k2 k1 = false) as ->.
    { unfold less, truth, u32, wrap. simpl. rewrite (proj2 (Z.eqb_neq _ 0)) by lia. simpl.
      replace (p + n + (2 ^ 32 - (p + n - (b + s)))) with (b + s + 1 * 2 ^ 32) by lia.
      rewrite Z.mod_add, Z.mod_small by lia. lia. }
    simpl. assert (less k1 k2 = true) as ->; [|done].
    apply less_spec; [unfold fits; simpl; lia|]. unfold precedes, extent. simpl. lia. }
  eexists. split; [done|]. change (map_insert k1 []) with [k1]. rewrite Hins.
  split; [set_solver|]. intros Hw. apply (wf_fits _ k2) in Hw; [|set_solver].
  unfold fits in Hw. simpl in Hw. lia.
Qed.

Lemma free_any_overshoot_witness :
  exists m', FreeAnySizeMemory 0 4224 132 [mkEntry (mkAlloc 4096 256) (mkContents 0)] = (0, m', []) /\
    mkEntry (mkAlloc 4356 4294967292) (mkContents 0) ∈ m' /\ ~ wf m'.
Proof. apply (free_any_overshoot 0 4096 256 4224 132); lia. Defined.

(** Whatever the shape of the search tree in which the map keeps its entries,
    the search finds an entry that overlaps the key, and finds one whenever there
    is one: the result does not depend on the tree. *)
Theorem tree_search_sound (k : entry) (t : tree entry) :
  wf (inorder t) -> fits k ->
  tree_find k t = find k (inorder t) /\
  match tree_find k t with
  | Some e => e ∈ inorder t /\ overlaps e k
  | None => forall e, e ∈ inorder t -> ~ overlaps e k
  end.
Proof.
  intros Hwf Hk. rewrite tree_find_inorder by done. split; [done|].
  destruct (find k (inorder t)) as [e|] eqn:E.
  - by apply find_Some.
  - intros e He. by apply (find_None k (inorder t)).
Qed.

Lemma tree_search_sound_witness :
  let t := Node Leaf (mkEntry (mkAlloc 4096 256) (mkContents 0))
             (Node Leaf (mkEntry (mkAlloc 8192 64) (mkContents 0)) Leaf) in
  tree_find (probe 8200 4) t = find (probe 8200 4) (inorder t).
Proof.
  intros t. refine (proj1 (tree_search_sound (probe 8200 4) t _ _)).
  - apply wfb_wf. vm_compute. reflexivity.
  - vm_compute. intuition congruence.
Defined.

(** ** What the checker relies on

    The contract between the shadow memory and the access check: an invariant, the
    bytes on record, and a test that holds exactly when a range meets one of them. *)
Class AllocRecord (S : Type) := {
  rec_inv : S -> Prop;
  rec_holds : S -> Z -> Prop;
  rec_hit : S -> Z -> Z -> bool;
  rec_hit_spec : forall s address length,
    rec_inv s -> is_u32 address -> 0 < length -> address + length < 2 ^ 32 ->
    rec_hit s address length = true <->
    exists a, address <= a < address + length /\ rec_holds s a;
}.

(** [m_MemoryMap.find(MemoryAlloc(address, length)) != m_MemoryMap.end()]. *)
Definition memory_map_hit (m : memory_map) (address length : Z) : bool :=
  match find (probe address length) m with Some _ => true | None => false end.

Lemma memory_map_hit_spec m address length :
  wf m -> is_u32 address -> 0 < length -> address + length < 2 ^ 32 ->
  memory_map_hit m address length = true <->
  exists a, address <= a < address + length /\ covers m a.
Proof.
  intros Hwf Ha Hl Hal. unfold memory_map_hit.
  assert (Hk : fits (probe address length)) by (unfold fits, in_width in *; simpl; lia).
  pose proof (find_covers (probe address length) m Hwf Hk) as Hf. unfold extent in Hf.
  simpl in Hf. replace (Z.max 1 length) with length in Hf by lia.
  rewrite <- Hf. destruct (find _ m); split; intros H; first [done|by destruct H].
Qed.

#[global] Instance memory_map_record : AllocRecord memory_map := {
  rec_inv := wf;
  rec_holds := covers;
  rec_hit := memory_map_hit;
  rec_hit_spec := memory_map_hit_spec;
}.

End ShadowMemory.
