(* ===== verification/SymbolTable.v ===== *)
(** * SymbolTable

    The guest kernel's symbols (src/MemCheck-qemu/contrib/MemCheck/SymbolTable.h and
    .cpp), loaded from System.map: a map from names to addresses, and the set of
    symbols ordered by the address ranges between consecutive entries. *)

From Stdlib Require Import Ascii String.
From S2P Require Import Prelude IntervalMap.

Module SymbolTable.

(** ** Data *)

Record Symbol := mkSymbol { m_Name : string; m_Address : Z; m_Size : Z }.

#[global] Instance Symbol_eq_dec : EqDecision Symbol.
Proof. solve_decision. Defined.

#[global] Instance Symbol_spanned : Spanned Symbol := {
  span_addr := m_Address;
  span_size := m_Size;
}.

Record SymbolTable := mkTable {
  m_NameToAddressMap : gmap string Z;
  m_SymbolMap : list Symbol;
}.

Definition empty_table : SymbolTable := mkTable ∅ [].

(** ** [sscanf(s, "%8x %c %s\n", &addr, &type, name)]

    A conversion that fails ends the scan and leaves the remaining variables as they
    were, so the three results are options. *)

Definition is_space (c : ascii) : bool :=
  let n := nat_of_ascii c in (n =? 32)%nat || ((9 <=? n)%nat && (n <=? 13)%nat).

Definition hex_digit (c : ascii) : option Z :=
  let n := Z.of_nat (nat_of_ascii c) in
  if (48 <=? n) && (n <=? 57) then Some (n - 48)
  else if (97 <=? n) && (n <=? 102) then Some (n - 87)
  else if (65 <=? n) && (n <=? 70) then Some (n - 55)
  else None.

Fixpoint skip_space (s : list ascii) : list ascii :=
  match s with
  | c :: s' => if is_space c then skip_space s' else s
  | [] => []
  end.

(** Hexadecimal digits, at most [w] of them, after [acc]. *)
Fixpoint hex_digits (w : nat) (acc : Z) (s : list ascii) : Z * list ascii :=
  match w, s with
  | S w', c :: s' =>
    match hex_digit c with
    | Some d => hex_digits w' (16 * acc + d) s'
    | None => (acc, s)
    end
  | _, _ => (acc, s)
  end.

(** At least one digit. *)
Definition hex_digits1 (w : nat) (s : list ascii) : option (Z * list ascii) :=
  match w, s with
  | S _, c :: _ => match hex_digit c with Some _ => Some (hex_digits w 0 s) | None => None end
  | _, _ => None
  end.

(** The optional [0x] prefix counts in the field width. *)
Definition scan_prefix (w : nat) (s : list ascii) : option (Z * list ascii) :=
  match s with
  | "0"%char :: x :: s' =>
    if (2 <=? w)%nat && (Ascii.eqb x "x" || Ascii.eqb x "X")
    then hex_digits1 (w - 2) s' else hex_digits1 w s
  | _ => hex_digits1 w s
  end.

Definition scan_hex (w : nat) (s : list ascii) : option (Z * list ascii) :=
  match skip_space s with
  | "-"%char :: s' => match scan_prefix (w - 1) s' with
                      | Some (v, r) => Some (u32 (- v), r) | None => None end
  | "+"%char :: s' => scan_prefix (w - 1) s'
  | s' => scan_prefix w s'
  end.

Fixpoint take_word (s : list ascii) : list ascii :=
  match s with
  | c :: s' => if is_space c then [] else c :: take_word s'
  | [] => []
  end.

Definition scan_line (line : string) : option Z * option ascii * option string :=
  match scan_hex 8 (list_ascii_of_string line) with
  | None => (None, None, None)
  | Some (addr, s1) =>
    match skip_space s1 with
    | [] => (Some addr, None, None)
    | c :: s2 =>
      match take_word (skip_space s2) with
      | [] => (Some addr, Some c, None)
      | w => (Some addr, Some c, Some (string_of_list_ascii w))
      end
    end
  end.

(** ** Load *)

(** The lines [getline] returns: the text between newlines, with a last, possibly
    empty, one at the end of the file. *)
Fixpoint lines_aux (s : list ascii) (cur : list ascii) : list (list ascii) :=
  match s with
  | [] => [rev cur]
  | c :: s' => if Ascii.eqb c "010" then rev cur :: lines_aux s' [] else lines_aux s' (c :: cur)
  end.

Definition file_lines (content : string) : list string :=
  string_of_list_ascii <$> lines_aux (list_ascii_of_string content) [].

(** One iteration of the reading loop.  [indet] are the values of the variables
    [addr], [type] and [name], which the loop body declares without initialising. *)
Definition load_line (indet : Z * ascii * string) (line : string)
    (st : gmap Z string * gmap string Z) : gmap Z string * gmap string Z :=
  let '(oa, ot, on) := scan_line line in
  let addr := default indet.1.1 oa in
  let type := default indet.1.2 ot in
  let name := default indet.2 on in
  if negb (Ascii.eqb type "A") then (<[addr := name]> st.1, <[name := addr]> st.2) else st.

Fixpoint load_lines (indet : nat -> Z * ascii * string) (i : nat) (lines : list string)
    (st : gmap Z string * gmap string Z) : gmap Z string * gmap string Z :=
  match lines with
  | [] => st
  | l :: lines' => load_lines indet (S i) lines' (load_line (indet i) l st)
  end.

(** Iteration over [AddressToNameMap]: by increasing address. *)
Definition key_le (x y : Z * string) : Prop := x.1 <= y.1.
#[global] Instance key_le_dec : RelDecision key_le.
Proof. unfold key_le. intros x y. apply _. Defined.

Definition in_order (m : gmap Z string) : list (Z * string) :=
  merge_sort key_le (map_to_list m).

(** The second loop: [pos] and [next] walk the addresses in order. *)
Fixpoint load_symbols (pos : Z * string) (next : list (Z * string)) (set : list Symbol)
  : list Symbol :=
  match next with
  | [] => set
  | n :: next' =>
    let sym := mkSymbol pos.2 pos.1 (u32 (n.1 - pos.1)) in
    load_symbols n next'
      (match insert_unique sym set with inl set' => set' | inr _ => set end)
  end.

(** [None] is the [next++] past the end of an empty map. *)
Definition Load (indet : nat -> Z * ascii * string) (content : string) (t : SymbolTable)
  : option SymbolTable :=
  let '(AddressToNameMap, names) :=
    load_lines indet 0 (file_lines content) (∅, m_NameToAddressMap t) in
  match in_order AddressToNameMap with
  | [] => None
  | pos :: next => Some (mkTable names (load_symbols pos next (m_SymbolMap t)))
  end.

(** [Lookup(address, symbol)] and [Lookup(name, address)]: [None] is the result 1,
    which leaves the reference argument unchanged. *)
Definition Lookup_address (t : SymbolTable) (address : Z) : option Symbol :=
  find (mkSymbol "" address 0) (m_SymbolMap t).

Definition Lookup_name (t : SymbolTable) (name : string) : option Z :=
  m_NameToAddressMap t !! name.

(** ** Examples *)

Definition nl : string := String "010" "".
Definition sample_map : string :=
  ("c0100000 T startup_32" ++ nl ++ "c0100050 t bad_subarch" ++ nl
   ++ "00000001 A const" ++ nl ++ "c0100090 B __bss_stop" ++ nl)%string.

Example scan_symbol :
  scan_line "c0100050 t bad_subarch" = (Some 3222274128, Some "t"%char, Some "bad_subarch"%string).
Proof. reflexivity. Qed.

Example load_sample :
  (fun t => (m_SymbolMap t, Lookup_name t "__bss_stop")) <$>
    Load (fun _ => (0, "A"%char, ""%string)) sample_map empty_table
  = Some ([mkSymbol "startup_32" 3222274048 80; mkSymbol "bad_subarch" 3222274128 64],
          Some 3222274192).
Proof. vm_compute. reflexivity. Qed.

(** ** The symbol set is the sequence of ranges between consecutive addresses *)

Fixpoint symbols_of (pos : Z * string) (next : list (Z * string)) : list Symbol :=
  match next with
  | [] => []
  | n :: next' => mkSymbol pos.2 pos.1 (n.1 - pos.1) :: symbols_of n next'
  end.

Definition key_lt (x y : Z * string) : Prop := x.1 < y.1.

Lemma load_symbols_spec next : forall pos set,
  StronglySorted key_lt (pos :: next) ->
  Forall (fun x => is_u32 x.1) (pos :: next) ->
  wf set -> (forall x, x ∈ set -> extent x <= pos.1) ->
  load_symbols pos next set = set ++ symbols_of pos next /\
  wf (set ++ symbols_of pos next).
Proof.
  induction next as [|n next IH]; intros pos set Hs Hu Hwf Hp; simpl.
  - by rewrite app_nil_r.
  - apply StronglySorted_inv in Hs as [Hs Hlt].
    apply Forall_cons in Hlt as [Hlt _]. apply Forall_cons in Hu as [Hu1 Hu].
    apply Forall_cons in Hu as Hu'. destruct Hu' as [Hu2 _]. unfold key_lt, in_width in *.
    unfold u32. rewrite wrap_small by (unfold in_width; lia).
    set (k := mkSymbol pos.2 pos.1 (n.1 - pos.1)).
    assert (Hk : fits k) by (unfold fits; simpl; lia).
    destruct (insert_append k set Hwf Hk) as [-> Hwf1].
    { intros x Hx. by apply Hp. }
    destruct (IH n (set ++ [k]) Hs Hu Hwf1) as [-> Hwf2].
    { intros x [Hx|Hx]%elem_of_app.
      - specialize (Hp x Hx). lia.
      - apply list_elem_of_singleton in Hx as ->. unfold extent. simpl. lia. }
    by rewrite <- !(assoc_L (++)) in *.
Qed.

Lemma elem_of_symbols_of next : forall pos sym,
  StronglySorted key_lt (pos :: next) ->
  sym ∈ symbols_of pos next <->
  exists nxt, (m_Address sym, m_Name sym) ∈ pos :: next /\ nxt ∈ (pos :: next) /\
    m_Address sym < nxt.1 /\ m_Size sym = nxt.1 - m_Address sym /\
    forall x, x ∈ pos :: next -> ~ (m_Address sym < x.1 < nxt.1).
Proof.
  induction next as [|n next IH]; intros pos sym Hs; cbn [symbols_of].
  - split; [intros H; by apply not_elem_of_nil in H|].
    intros (nxt & H1%list_elem_of_singleton & H2%list_elem_of_singleton & H3 & _).
    subst. simpl in H3. lia.
  - apply StronglySorted_inv in Hs as [Hs Hlt]. rewrite Forall_forall in Hlt.
    unfold key_lt in Hlt. rewrite elem_of_cons, IH by done.
    assert (Hn : forall x, x ∈ n :: next -> n.1 <= x.1).
    { intros x [->|Hx]%elem_of_cons; [lia|]. apply StronglySorted_inv in Hs as [_ Hl].
      rewrite Forall_forall in Hl. specialize (Hl x Hx). unfold key_lt in Hl. lia. }
    split.
    + intros [->|(nxt & H1 & H2 & H3 & H4 & H5)].
      * exists n. simpl. specialize (Hlt n ltac:(set_solver)).
        split; [destruct pos; set_solver|]. split; [set_solver|]. split; [done|].
        split; [done|]. intros x [->|Hx]%elem_of_cons; [lia|]. specialize (Hn x Hx). lia.
      * exists nxt. split; [set_solver|]. split; [set_solver|]. split; [done|].
        split; [done|]. intros x [->|Hx]%elem_of_cons; [|by apply H5].
        specialize (Hlt (m_Address sym, m_Name sym) ltac:(set_solver)). simpl in Hlt. lia.
    + intros (nxt & H1 & H2 & H3 & H4 & H5). apply elem_of_cons in H1 as [Heq|H1].
      * left. subst pos. simpl in *.
        apply elem_of_cons in H2 as [->|H2]; [simpl in H3; lia|].
        assert (nxt.1 = n.1) as En.
        { specialize (Hn nxt H2). specialize (H5 n ltac:(set_solver)).
          specialize (Hlt n ltac:(set_solver)). simpl in Hlt. lia. }
        destruct sym. simpl in *. f_equal. lia.
      * right. exists nxt. specialize (Hlt _ H1). simpl in Hlt. split; [done|].
        split; [apply elem_of_cons in H2 as [->|H2]; [lia|done]|].
        split; [done|]. split; [done|]. intros x Hx. apply H5. set_solver.
Qed.

#[global] Instance key_le_trans : Transitive key_le.
Proof. unfold key_le. intros x y z. lia. Qed.
#[global] Instance key_le_total : Total key_le.
Proof. unfold key_le. intros x y. lia. Qed.

Lemma in_order_elem m x : x ∈ in_order m <-> m !! x.1 = Some x.2.
Proof.
  unfold in_order. rewrite merge_sort_Permutation. destruct x. apply elem_of_map_to_list.
Qed.

Lemma in_order_sorted m : StronglySorted key_lt (in_order m).
Proof.
  assert (Hle : StronglySorted key_le (in_order m)).
  { apply (StronglySorted_merge_sort key_le). }
  assert (Hnd : NoDup (in_order m).*1).
  { unfold in_order. rewrite merge_sort_Permutation. apply NoDup_fst_map_to_list. }
  induction Hle as [|x l Hl IH Hx]; [constructor|]. simpl in Hnd.
  apply NoDup_cons in Hnd as [Hnx Hnd]. constructor; [auto|].
  rewrite Forall_forall in *. intros y Hy. specialize (Hx y Hy).
  unfold key_le, key_lt in *. assert (x.1 <> y.1); [|lia].
  intros E. apply Hnx. rewrite E. by apply list_elem_of_fmap_2.
Qed.

(** ** Bounds of the scanned addresses *)

Lemma hex_digit_range c d : hex_digit c = Some d -> 0 <= d < 16.
Proof. unfold hex_digit. split_ifs; intros [= <-]; to_prop; lia. Qed.

Lemma hex_digits_range w : forall acc s k, 0 <= k -> 0 <= acc < 16 ^ k ->
  0 <= (hex_digits w acc s).1 < 16 ^ (k + Z.of_nat w).
Proof.
  induction w as [|w IH]; intros acc s k Hk Ha; cbn [hex_digits].
  - by rewrite Z.add_0_r.
  - assert (Hw : acc < 16 ^ (k + Z.of_nat (S w))).
    { pose proof (Z.pow_le_mono_r 16 k (k + Z.of_nat (S w))). lia. }
    destruct s as [|c s]; [simpl fst; lia|].
    destruct (hex_digit c) as [d|] eqn:Ed; [|simpl fst; lia].
    apply hex_digit_range in Ed. replace (k + Z.of_nat (S w)) with (k + 1 + Z.of_nat w) by lia.
    apply IH; [lia|]. rewrite Z.pow_add_r by lia. lia.
Qed.

Lemma scan_prefix_range w s v r : (w <= 8)%nat -> scan_prefix w s = Some (v, r) -> is_u32 v.
Proof.
  assert (H1 : forall w s v r, (w <= 8)%nat -> hex_digits1 w s = Some (v, r) -> is_u32 v).
  { clear. intros w s v r Hw H. unfold hex_digits1 in H.
    destruct w as [|w]; [done|]. destruct s as [|c s]; [done|].
    destruct (hex_digit c); [|done]. apply (inj Some) in H.
    pose proof (hex_digits_range (S w) 0 (c :: s) 0 ltac:(lia) ltac:(lia)) as Hr.
    rewrite H in Hr. simpl fst in Hr.
    pose proof (Z.pow_le_mono_r 16 (0 + Z.of_nat (S w)) 8 ltac:(lia) ltac:(lia)).
    unfold in_width. change (2 ^ 32) with (16 ^ 8). lia. }
  intros Hw H. unfold scan_prefix in H.
  repeat (case_match; try by eapply H1; try apply H; lia).
Qed.

Lemma scan_hex_range s v r : scan_hex 8 s = Some (v, r) -> is_u32 v.
Proof.
  unfold scan_hex. intros H.
  repeat (case_match; simplify_eq; try by (eapply scan_prefix_range; [|eassumption]; lia)).
  all: apply wrap_range; lia.
Qed.

Definition keys_u32 (m : gmap Z string) : Prop := map_Forall (fun a _ => is_u32 a) m.

Lemma load_line_keys indet line st : is_u32 indet.1.1 -> keys_u32 st.1 ->
  keys_u32 (load_line indet line st).1.
Proof.
  intros Hi Hk. unfold load_line, scan_line.
  destruct (scan_hex 8 (list_ascii_of_string line)) as [[v r]|] eqn:E.
  - apply scan_hex_range in E. repeat case_match; simplify_eq/=; auto;
      by apply map_Forall_insert_2.
  - simpl. destruct (negb _); simpl; auto. by apply map_Forall_insert_2.
Qed.

Lemma load_lines_keys indet lines : forall i st, (forall j, is_u32 (indet j).1.1) ->
  keys_u32 st.1 -> keys_u32 (load_lines indet i lines st).1.
Proof.
  induction lines as [|l lines IH]; intros i st Hi Hk; simpl; [done|].
  apply IH; [done|]. by apply load_line_keys.
Qed.

(** The addresses and names the file gives. *)
Definition file_symbols (indet : nat -> Z * ascii * string) (content : string)
  : gmap Z string := (load_lines indet 0 (file_lines content) (∅, ∅)).1.

Lemma load_set indet content t : (forall j, is_u32 (indet j).1.1) ->
  Load indet content empty_table = Some t ->
  wf (m_SymbolMap t) /\
  forall sym, sym ∈ m_SymbolMap t <->
    exists nxt, file_symbols indet content !! m_Address sym = Some (m_Name sym) /\
      is_Some (file_symbols indet content !! nxt) /\
      m_Address sym < nxt /\ m_Size sym = nxt - m_Address sym /\
      forall x, is_Some (file_symbols indet content !! x) -> ~ (m_Address sym < x < nxt).
Proof.
  intros Hi. unfold Load, file_symbols. simpl.
  pose proof (load_lines_keys indet (file_lines content) 0 (∅, ∅) Hi
    (map_Forall_empty _)) as Hk.
  destruct (load_lines indet 0 (file_lines content) (∅, ∅)) as [A N]. simpl in *.
  pose proof (in_order_sorted A) as Hs. pose proof (in_order_elem A) as Hel.
  destruct (in_order A) as [|pos next]; [done|]. intros [= <-]. simpl.
  assert (Hu : Forall (fun x : Z * string => is_u32 x.1) (pos :: next)).
  { apply Forall_forall. intros x Hx. apply Hel in Hx. by apply Hk in Hx. }
  destruct (load_symbols_spec next pos [] Hs Hu wf_nil ltac:(set_solver)) as [-> Hw].
  simpl in *. split; [done|]. intros sym. rewrite elem_of_symbols_of by done.
  setoid_rewrite Hel. simpl. split.
  - intros ([nx nn] & H1 & H2 & H3 & H4 & H5). exists nx. split; [done|].
    split; [by eexists|]. split; [done|]. split; [done|].
    intros x [y Hy]. by apply (H5 (x, y)).
  - intros (nx & H1 & [nn H2] & H3 & H4 & H5). exists (nx, nn). simpl.
    split; [done|]. split; [done|]. split; [done|]. split; [done|].
    intros x Hx. apply H5. by eexists.
Qed.

(** Looking up an address returns the symbol of the file whose range holds it:
    the range from its address to the next symbol's address.  The lookup fails
    below the first symbol and from the last one on. *)
Theorem lookup_address_spec indet content t a sym :
  (forall j, is_u32 (indet j).1.1) -> is_u32 a ->
  Load indet content empty_table = Some t ->
  Lookup_address t a = Some sym <->
  exists nxt, file_symbols indet content !! m_Address sym = Some (m_Name sym) /\
    is_Some (file_symbols indet content !! nxt) /\
    m_Address sym <= a < nxt /\ m_Size sym = nxt - m_Address sym /\
    forall x, is_Some (file_symbols indet content !! x) -> ~ (m_Address sym < x < nxt).
Proof.
  intros Hi Ha Hl. destruct (load_set indet content t Hi Hl) as [Hwf Hel].
  unfold Lookup_address.
  rewrite find_point by (unfold fits, in_width in *; simpl; done || lia).
  rewrite Hel. unfold extent. simpl. split.
  - intros [(nx & H1 & H2 & H3 & H4 & H5) Hr]. exists nx. repeat split; auto; lia.
  - intros (nx & H1 & H2 & H3 & H4 & H5). split; [|lia]. exists nx. repeat split; auto; lia.
Qed.

Definition no_indet : nat -> Z * ascii * string := fun _ => (0, "A"%char, ""%string).

Lemma lookup_address_spec_witness :
  exists t, Load no_indet sample_map empty_table = Some t /\
    Lookup_address t 3222274130 = Some (mkSymbol "bad_subarch" 3222274128 64) /\
    file_symbols no_indet sample_map !! 3222274128 = Some "bad_subarch"%string.
Proof.
  eexists. split; [vm_compute; reflexivity|]. split; [vm_compute; reflexivity|].
  destruct (proj1 (lookup_address_spec no_indet sample_map _ 3222274130
    (mkSymbol "bad_subarch" 3222274128 64) ltac:(intros j; vm_compute; intuition congruence)
    ltac:(vm_compute; intuition congruence) eq_refl) ltac:(vm_compute; reflexivity))
    as (nx & H & _).
  exact H.
Defined.

(** ** From names to addresses and back *)

Definition names_ok (st : gmap Z string * gmap string Z) : Prop :=
  forall n a, st.2 !! n = Some a -> is_Some (st.1 !! a).

Lemma load_line_names indet line st : names_ok st -> names_ok (load_line indet line st).
Proof.
  intros Hn. unfold load_line. destruct (scan_line line) as [[oa ot] on].
  destruct (negb _); [|done]. intros n a. simpl.
  rewrite !lookup_insert. intros H. repeat case_decide; simplify_eq; eauto.
Qed.

Lemma load_lines_names indet lines : forall i st, names_ok st ->
  names_ok (load_lines indet i lines st).
Proof.
  induction lines as [|l lines IH]; intros i st Hn; simpl; [done|].
  apply IH. by apply load_line_names.
Qed.

Lemma symbols_of_not_last next : forall pos x y,
  StronglySorted key_lt (pos :: next) -> x ∈ pos :: next -> y ∈ pos :: next -> x.1 < y.1 ->
  exists sym, sym ∈ symbols_of pos next /\ m_Address sym = x.1 /\ m_Name sym = x.2.
Proof.
  induction next as [|n next IH]; intros pos x y Hs Hx Hy Hxy; cbn [symbols_of].
  - apply list_elem_of_singleton in Hx, Hy. subst. lia.
  - apply elem_of_cons in Hx as [->|Hx]; [eexists; split; [constructor|done]|].
    apply StronglySorted_inv in Hs as [Hs Hlt]. rewrite Forall_forall in Hlt.
    apply elem_of_cons in Hy as [->|Hy].
    { specialize (Hlt x Hx). unfold key_lt in Hlt. lia. }
    destruct (IH n x y Hs Hx Hy Hxy) as (sym & H1 & H2). exists sym.
    split; [by apply elem_of_cons; right|done].
Qed.



End SymbolTable.
