(* ===== verification/Bytes.v ===== *)
(** * Bytes and byte arrays

    Integers as the bytes a C object is made of, little and big endian, and memory as a
    function from addresses to bytes with the copies of [memcpy].  Shared by the models
    of guest memory, of the files of saved machines and of the devices. *)

From S2P Require Import Prelude.

(** ** Bytes *)

Fixpoint le_bytes (n : nat) (v : Z) : list Z :=
  match n with O => [] | S n' => Z.land v 255 :: le_bytes n' (Z.shiftr v 8) end.

Fixpoint le_value (bs : list Z) : Z :=
  match bs with [] => 0 | b :: bs' => Z.lor b (Z.shiftl (le_value bs') 8) end.

Fixpoint mem_read (ram : Z -> Z) (a : Z) (n : nat) : list Z :=
  match n with O => [] | S n' => ram a :: mem_read ram (a + 1) n' end.

Definition mem_upd (ram : Z -> Z) (a v : Z) : Z -> Z := fun x => if x =? a then v else ram x.

Fixpoint mem_write (ram : Z -> Z) (a : Z) (bs : list Z) : Z -> Z :=
  match bs with [] => ram | b :: bs' => mem_write (mem_upd ram a b) (a + 1) bs' end.

Lemma length_le_bytes n v : length (le_bytes n v) = n.
Proof. revert v. induction n; intros v; simpl; auto. Qed.

Lemma length_mem_read ram a n : length (mem_read ram a n) = n.
Proof. revert a. induction n; intros a; simpl; auto. Qed.

Lemma le_value_bytes n v : le_value (le_bytes n v) = v mod 2 ^ (8 * Z.of_nat n).
Proof.
  revert v. induction n as [|n IH]; intros v; cbn [le_bytes le_value].
  - by rewrite Z.mod_1_r.
  - rewrite IH. rewrite <- !Z.land_ones by lia. apply Z.bits_inj'. intros i Hi.
    change 255 with (Z.ones 8).
    rewrite Z.lor_spec, !Z.land_spec, !Z.testbit_ones_nonneg by lia.
    destruct (Z.ltb_spec i 8) as [Hlt|Hge].
    + rewrite Z.shiftl_spec_low by lia. rewrite orb_false_r.
      rewrite (proj2 (Z.ltb_lt i (8 * Z.of_nat (S n)))) by lia. done.
    + rewrite andb_false_r, Z.shiftl_spec, Z.land_spec, Z.shiftr_spec by lia. simpl.
      rewrite Z.testbit_ones_nonneg by lia. replace (i - 8 + 8) with i by lia. f_equal.
      destruct (Z.ltb_spec (i - 8) (8 * Z.of_nat n)), (Z.ltb_spec i (8 * Z.of_nat (S n))); lia.
Qed.

Lemma le_bytes_wrap n : forall v, le_bytes n (wrap (8 * Z.of_nat n) v) = le_bytes n v.
Proof.
  induction n as [|n IH]; intros v; cbn [le_bytes]; [done|]. unfold wrap. rewrite <- !Z.land_ones by lia.
  f_equal.
  - rewrite <- Z.land_assoc. f_equal. rewrite Z.land_comm. change 255 with (Z.ones 8).
    rewrite Z.land_ones by lia. apply Z.bits_inj'. intros i Hi.
    rewrite <- Z.land_ones, Z.land_spec, !Z.testbit_ones_nonneg by lia.
    destruct (Z.ltb_spec i 8), (Z.ltb_spec i (8 * Z.of_nat (S n))); try done; lia.
  - rewrite <- (IH (Z.shiftr v 8)). f_equal. unfold wrap. rewrite <- Z.land_ones by lia.
    apply Z.bits_inj'. intros i Hi. rewrite Z.shiftr_spec, !Z.land_spec, Z.shiftr_spec, !Z.testbit_ones_nonneg by lia.
    f_equal. destruct (Z.ltb_spec (i + 8) (8 * Z.of_nat (S n))), (Z.ltb_spec i (8 * Z.of_nat n)); done || lia.
Qed.

Lemma le_bytes_range n v : Forall is_u8 (le_bytes n v).
Proof.
  revert v. induction n as [|n IH]; intros v; simpl; constructor; [|apply IH].
  apply land_width_r; [lia|]. unfold in_width. lia.
Qed.

Lemma le_value_range bs : Forall is_u8 bs -> in_width (8 * Z.of_nat (length bs)) (le_value bs).
Proof.
  induction 1 as [|b bs Hb Hbs IH]; cbn [le_value length]; [unfold in_width; simpl; lia|].
  unfold in_width in *. split.
  - apply Z.lor_nonneg. rewrite Z.shiftl_nonneg. lia.
  - apply lor_width; [lia|..].
    + split; [lia|]. apply Z.lt_le_trans with (2 ^ 8); [lia|]. apply Z.pow_le_mono_r; lia.
    + rewrite Z.shiftl_mul_pow2 by lia.
      replace (8 * Z.of_nat (S (length bs))) with (8 * Z.of_nat (length bs) + 8) by lia.
      unfold in_width. rewrite Z.pow_add_r by lia. lia.
Qed.

Lemma mem_write_range bs : Forall is_u8 bs -> forall ram a, (forall x, is_u8 (ram x)) ->
  forall x, is_u8 (mem_write ram a bs x).
Proof.
  induction 1 as [|b bs Hb Hbs IH]; intros ram a Hr x; simpl; [done|].
  apply IH. intros y. unfold mem_upd. by destruct (y =? a).
Qed.

Lemma mem_read_range ram n : (forall x, is_u8 (ram x)) -> forall a, Forall is_u8 (mem_read ram a n).
Proof. intros H. induction n as [|n IH]; intros a; simpl; constructor; auto. Qed.

Lemma mem_write_other bs : forall ram a x, ~ (a <= x < a + Z.of_nat (length bs)) ->
  mem_write ram a bs x = ram x.
Proof.
  induction bs as [|b bs IH]; intros ram a x Hx; simpl in *; [done|].
  rewrite IH by lia. unfold mem_upd. destruct (Z.eqb_spec x a); [lia|done].
Qed.

Lemma mem_read_ext n : forall ram ram' a,
  (forall x, a <= x < a + Z.of_nat n -> ram x = ram' x) -> mem_read ram a n = mem_read ram' a n.
Proof.
  induction n as [|n IH]; intros ram ram' a H; simpl; [done|].
  rewrite (H a) by lia. f_equal. apply IH. intros x Hx. apply H. lia.
Qed.

Lemma mem_read_write bs : forall ram a, mem_read (mem_write ram a bs) a (length bs) = bs.
Proof.
  induction bs as [|b bs IH]; intros ram a; simpl; [done|]. f_equal; [|apply IH].
  rewrite mem_write_other by lia. unfold mem_upd. by rewrite Z.eqb_refl.
Qed.

