(* ===== verification/PhysMem.v ===== *)
(** * Physical memory

    The guest's physical memory (src/MemCheck-qemu/exec.c): the two-level table of
    physical pages, RAM, its dirty flags, and the accessors the MMU and the debug
    reads use.  Pages that are not RAM go to registered I/O callbacks, which are
    parameters ([io_mem_read], [io_mem_write]) acting on a device state.  The target
    is i386: 4 KB pages, 32-bit physical addresses, little endian. *)

From S2P Require Import Prelude Bytes.

Module PhysMem.

Definition TARGET_PAGE_BITS : Z := 12.
Definition TARGET_PAGE_SIZE : Z := 4096.
(** [~TARGET_PAGE_MASK] is [0xfff]. *)
Definition page_base (a : Z) : Z := Z.land a 0xfffff000.
Definition page_off (a : Z) : Z := Z.land a 0xfff.

Definition L2_BITS : Z := 10.
Definition L1_SIZE : Z := 1024.
Definition L2_SIZE : Z := 1024.

Definition IO_MEM_SHIFT : Z := 4.
Definition IO_MEM_NB_ENTRIES : Z := 256.
Definition IO_MEM_RAM : Z := 0.
Definition IO_MEM_ROM : Z := 16.
Definition IO_MEM_UNASSIGNED : Z := 32.
Definition IO_MEM_ROMD : Z := 1.
Definition CODE_DIRTY_FLAG : Z := 2.

(** ** Pages *)

Lemma page_split a : is_u32 a -> a = page_base a + page_off a /\ 0 <= page_off a < 4096
  /\ page_base a mod 4096 = 0 /\ 0 <= page_base a.
Proof.
  intros Ha. unfold page_base, page_off, in_width in *.
  assert (H1 : Z.land a 0xfff = a mod 4096).
  { change 0xfff with (Z.ones 12). by rewrite Z.land_ones by lia. }
  assert (H2 : Z.land a 0xfffff000 = a - a mod 4096).
  { rewrite <- H1. apply Z.add_move_r.
    replace a with (Z.land a (Z.ones 32)) at 3 by
      (rewrite Z.land_ones by lia; apply Z.mod_small; lia).
    rewrite Z.add_nocarry_lxor.
    - apply Z.bits_inj'. intros i Hi. rewrite Z.lxor_spec, !Z.land_spec.
      change (Z.ones 32) with (Z.lxor 0xfffff000 0xfff). rewrite Z.lxor_spec.
      destruct (Z.testbit a i), (Z.testbit 0xfffff000 i), (Z.testbit 0xfff i); done.
    - apply Z.bits_inj'. intros i Hi. rewrite !Z.land_spec, Z.bits_0.
      assert (H : Z.testbit (Z.land 0xfffff000 0xfff) i = false) by (apply Z.bits_0).
      rewrite Z.land_spec in H.
      destruct (Z.testbit a i), (Z.testbit 0xfffff000 i), (Z.testbit 0xfff i); done. }
  rewrite H2, H1. pose proof (Z.mod_pos_bound a 4096 ltac:(lia)).
  pose proof (Z.mod_le a 4096 ltac:(lia) ltac:(lia)).
  split; [lia|]. split; [lia|]. split; [|lia].
  rewrite Zminus_mod_idemp_r, Z.sub_diag. done.
Qed.

Section PhysMem.
(** The devices behind the I/O pages: their state, and the callbacks registered for
    an I/O index and an access size (0: 8 bits, 1: 16 bits, 2: 32 bits). *)
Context {D : Type}.
Context (io_mem_read : Z -> Z -> D -> Z -> Z * D).
Context (io_mem_write : Z -> Z -> D -> Z -> Z -> D).

Record phys := mkPhys {
  l1_phys_map : Z -> option (list Z); (** the array of L2 tables of [phys_offset] *)
  phys_ram : Z -> Z;
  phys_ram_dirty : Z -> Z;
  dev : D;
  tb_invalidated : list (Z * Z);      (** the ranges given to [tb_invalidate_phys_page_range] *)
}.

#[global] Instance eta_phys : Eta phys := fun s =>
  mkPhys (l1_phys_map s) (phys_ram s) (phys_ram_dirty s) (dev s) (tb_invalidated s).

(** [phys_page_find_alloc(index, alloc)]: the table, and the descriptor if any. *)
Definition phys_page_find_alloc (index : Z) (alloc : bool) (s : phys) : phys * option Z :=
  let i1 := Z.land (Z.shiftr index L2_BITS) (L1_SIZE - 1) in
  let i2 := Z.to_nat (Z.land index (L2_SIZE - 1)) in
  match l1_phys_map s i1 with
  | Some pd => (s, pd !! i2)
  | None =>
    if alloc then
      let pd := replicate (Z.to_nat L2_SIZE) IO_MEM_UNASSIGNED in
      (s <| l1_phys_map := fun i => if i =? i1 then Some pd else l1_phys_map s i |>, pd !! i2)
    else (s, None)
  end.

Definition phys_page_find (index : Z) (s : phys) : option Z :=
  (phys_page_find_alloc index false s).2.

(** [p = phys_page_find(..); pd = p ? p->phys_offset : IO_MEM_UNASSIGNED]. *)
Definition page_desc (addr : Z) (s : phys) : Z :=
  match phys_page_find (Z.shiftr addr TARGET_PAGE_BITS) s with
  | None => IO_MEM_UNASSIGNED
  | Some pd => pd
  end.

Definition io_index (pd : Z) : Z :=
  Z.land (Z.shiftr pd IO_MEM_SHIFT) (IO_MEM_NB_ENTRIES - 1).

(** [(pd & ~TARGET_PAGE_MASK) > IO_MEM_ROM && !(pd & IO_MEM_ROMD)] *)
Definition read_is_io (pd : Z) : bool :=
  (IO_MEM_ROM <? page_off pd) && negb (truth (Z.land pd IO_MEM_ROMD)).

(** [(pd & ~TARGET_PAGE_MASK) != IO_MEM_RAM] *)
Definition write_is_io (pd : Z) : bool := negb (page_off pd =? IO_MEM_RAM).

Definition ram_addr (pd addr : Z) : Z := page_base pd + page_off addr.

Definition cpu_physical_memory_is_dirty (addr : Z) (s : phys) : bool :=
  phys_ram_dirty s (Z.shiftr addr TARGET_PAGE_BITS) =? 0xff.

(** The tail of a RAM write: if the page is not all dirty, invalidate the code of
    the range and set every dirty flag but the code flag. *)
Definition mark_dirty (addr1 l : Z) (s : phys) : phys :=
  if negb (cpu_physical_memory_is_dirty addr1 s) then
    let p := Z.shiftr addr1 TARGET_PAGE_BITS in
    s <| tb_invalidated := (addr1, addr1 + l) :: tb_invalidated s |>
      <| phys_ram_dirty := mem_upd (phys_ram_dirty s) p
           (Z.lor (phys_ram_dirty s p) (Z.land 0xff (Z.lnot CODE_DIRTY_FLAG))) |>
  else s.

Definition ram_store (addr1 : Z) (bs : list Z) (s : phys) : phys :=
  s <| phys_ram := mem_write (phys_ram s) addr1 bs |>.

(** The access size of an I/O chunk: 4, 2 or 1 bytes by length and alignment. *)
Definition io_chunk (l addr : Z) : Z * Z :=
  if (4 <=? l) && (Z.land addr 3 =? 0) then (4, 2)
  else if (2 <=? l) && (Z.land addr 1 =? 0) then (2, 1)
  else (1, 0).

(** [cpu_physical_memory_rw(addr, buf, len, is_write)].  The result is the buffer
    after the call and the memory; [None] is running out of fuel. *)
Fixpoint cpu_physical_memory_rw (fuel : nat) (addr : Z) (buf : list Z) (is_write : bool)
    (s : phys) : option (list Z * phys) :=
  match buf with
  | [] => Some ([], s)
  | _ =>
    match fuel with
    | O => None
    | S fuel' =>
      let page := page_base addr in
      let l := Z.min (u32 (page + TARGET_PAGE_SIZE - addr)) (Z.of_nat (length buf)) in
      let pd := page_desc page s in
      let '(l, chunk, s') :=
        if is_write then
          if write_is_io pd then
            let '(l, sz) := io_chunk l addr in
            let val := le_value (take (Z.to_nat l) buf) in
            (l, take (Z.to_nat l) buf,
             s <| dev := io_mem_write (io_index pd) sz (dev s) addr val |>)
          else
            let addr1 := ram_addr pd addr in
            (l, take (Z.to_nat l) buf,
             mark_dirty addr1 l (ram_store addr1 (take (Z.to_nat l) buf) s))
        else
          if read_is_io pd then
            let '(l, sz) := io_chunk l addr in
            let '(val, d) := io_mem_read (io_index pd) sz (dev s) addr in
            (l, le_bytes (Z.to_nat l) val, s <| dev := d |>)
          else
            (l, mem_read (phys_ram s) (ram_addr pd addr) (Z.to_nat l), s) in
      match cpu_physical_memory_rw fuel' (u32 (addr + l)) (drop (Z.to_nat l) buf) is_write s' with
      | Some (rest, s'') => Some (chunk ++ rest, s'')
      | None => None
      end
    end
  end.

(** Writes to RAM and ROM alike, for loading ROMs. *)
Fixpoint cpu_physical_memory_write_rom (fuel : nat) (addr : Z) (buf : list Z) (s : phys)
  : option phys :=
  match buf with
  | [] => Some s
  | _ =>
    match fuel with
    | O => None
    | S fuel' =>
      let page := page_base addr in
      let l := Z.min (u32 (page + TARGET_PAGE_SIZE - addr)) (Z.of_nat (length buf)) in
      let pd := page_desc page s in
      let s' :=
        if negb (page_off pd =? IO_MEM_RAM) && negb (page_off pd =? IO_MEM_ROM)
           && negb (truth (Z.land pd IO_MEM_ROMD))
        then s
        else ram_store (ram_addr pd addr) (take (Z.to_nat l) buf) s in
      cpu_physical_memory_write_rom fuel' (u32 (addr + l)) (drop (Z.to_nat l) buf) s'
    end
  end.

(** ** Word accessors *)

Definition ldl_phys (addr : Z) (s : phys) : Z * phys :=
  let pd := page_desc addr s in
  if read_is_io pd then
    let '(v, d) := io_mem_read (io_index pd) 2 (dev s) addr in (v, s <| dev := d |>)
  else (le_value (mem_read (phys_ram s) (ram_addr pd addr) 4), s).

Definition ldq_phys (addr : Z) (s : phys) : Z * phys :=
  let pd := page_desc addr s in
  if read_is_io pd then
    let '(v, d) := io_mem_read (io_index pd) 2 (dev s) addr in
    let '(v', d') := io_mem_read (io_index pd) 2 d (u32 (addr + 4)) in
    (Z.lor v (Z.shiftl v' 32), s <| dev := d' |>)
  else (le_value (mem_read (phys_ram s) (ram_addr pd addr) 8), s).

Definition stl_phys_notdirty (addr val : Z) (s : phys) : phys :=
  let pd := page_desc addr s in
  if write_is_io pd then s <| dev := io_mem_write (io_index pd) 2 (dev s) addr (u32 val) |>
  else ram_store (ram_addr pd addr) (le_bytes 4 val) s.

Definition stq_phys_notdirty (addr val : Z) (s : phys) : phys :=
  let pd := page_desc addr s in
  if write_is_io pd then
    let d := io_mem_write (io_index pd) 2 (dev s) addr (u32 val) in
    s <| dev := io_mem_write (io_index pd) 2 d (u32 (addr + 4)) (u32 (Z.shiftr val 32)) |>
  else ram_store (ram_addr pd addr) (le_bytes 8 val) s.

Definition stl_phys (addr val : Z) (s : phys) : phys :=
  let pd := page_desc addr s in
  if write_is_io pd then s <| dev := io_mem_write (io_index pd) 2 (dev s) addr (u32 val) |>
  else
    let addr1 := ram_addr pd addr in
    mark_dirty addr1 4 (ram_store addr1 (le_bytes 4 val) s).

Definition ldub_phys (addr : Z) (s : phys) : option (Z * phys) :=
  match cpu_physical_memory_rw 1 addr [0] false s with
  | Some (buf, s') => Some (le_value buf, s') | None => None end.

Definition lduw_phys (addr : Z) (s : phys) : option (Z * phys) :=
  match cpu_physical_memory_rw 2 addr [0; 0] false s with
  | Some (buf, s') => Some (le_value buf, s') | None => None end.

Definition stb_phys (addr val : Z) (s : phys) : option phys :=
  snd <$> cpu_physical_memory_rw 1 addr (le_bytes 1 val) true s.

Definition stw_phys (addr val : Z) (s : phys) : option phys :=
  snd <$> cpu_physical_memory_rw 2 addr (le_bytes 2 val) true s.

Definition stq_phys (addr val : Z) (s : phys) : option phys :=
  snd <$> cpu_physical_memory_rw 8 addr (le_bytes 8 val) true s.

(** ** Termination *)

Lemma chunk_bounds addr n : is_u32 addr -> (0 < n)%nat ->
  let l := Z.min (u32 (page_base addr + TARGET_PAGE_SIZE - addr)) (Z.of_nat n) in
  1 <= l <= Z.of_nat n /\ page_off addr + l <= 4096 /\
  u32 (page_base addr + TARGET_PAGE_SIZE - addr) = 4096 - page_off addr.
Proof using.
  intros Ha Hn. destruct (page_split addr Ha) as (Hs & Ho & _).
  unfold TARGET_PAGE_SIZE, u32. cbv zeta.
  rewrite wrap_small by (unfold in_width; lia). lia.
Qed.

Lemma io_chunk_bounds l addr : 1 <= l -> 1 <= (io_chunk l addr).1 <= l.
Proof using. intros. unfold io_chunk. split_ifs; to_prop; simpl; lia. Qed.

Lemma rw_terminates fuel : forall addr buf is_write s, is_u32 addr ->
  (length buf <= fuel)%nat ->
  exists buf' s', cpu_physical_memory_rw fuel addr buf is_write s = Some (buf', s') /\
    length buf' = length buf.
Proof using.
  induction fuel as [|fuel IH]; intros addr buf is_write s Ha Hf.
  - destruct buf; simpl in *; [eauto|lia].
  - destruct buf as [|b buf']; [simpl; eauto|].
    set (buf := b :: buf') in *. cbn [cpu_physical_memory_rw]. fold buf.
    destruct (chunk_bounds addr (length buf) Ha ltac:(simpl; lia)) as (Hl & _ & _).
    set (l := Z.min _ _) in *.
    set (step := if is_write then _ else _).
    assert (Hstep : 1 <= step.1.1 <= Z.of_nat (length buf) /\
                    length step.1.2 = Z.to_nat step.1.1).
    { unfold step. pose proof (io_chunk_bounds l addr ltac:(lia)) as Hc.
      destruct is_write; [destruct (write_is_io _)|destruct (read_is_io _)].
      - destruct (io_chunk l addr) as [l' sz]. simpl fst in *. simpl snd.
        rewrite length_take. lia.
      - simpl fst. simpl snd. rewrite length_take. lia.
      - destruct (io_chunk l addr) as [l' sz]. simpl fst in *.
        destruct (io_mem_read _ _ _ _). simpl fst. simpl snd. rewrite length_le_bytes. lia.
      - simpl fst. simpl snd. rewrite length_mem_read. lia. }
    destruct step as [[l2 chunk] s2]. simpl fst in Hstep. simpl snd in Hstep.
    destruct (IH (u32 (addr + l2)) (drop (Z.to_nat l2) buf) is_write s2)
      as (rest & s3 & -> & Hlen); [apply wrap_range; lia|rewrite length_drop; lia|].
    eexists _, _. split; [done|]. rewrite length_app, Hlen, length_drop. lia.
Qed.

(** ** RAM ranges *)

(** The RAM address of a physical address. *)
Definition translate (s : phys) (a : Z) : Z := ram_addr (page_desc (page_base a) s) a.

Definition is_ram (s : phys) (a : Z) : Prop := page_off (page_desc (page_base a) s) = IO_MEM_RAM.

Definition ram_range (s : phys) (addr len : Z) : Prop :=
  0 <= addr /\ addr + len <= 2 ^ 32 /\ forall a, addr <= a < addr + len -> is_ram s a.

Fixpoint ram_read (tr : Z -> Z) (ram : Z -> Z) (a : Z) (n : nat) : list Z :=
  match n with O => [] | S n' => ram (tr a) :: ram_read tr ram (a + 1) n' end.

Fixpoint ram_write (tr : Z -> Z) (ram : Z -> Z) (a : Z) (bs : list Z) : Z -> Z :=
  match bs with [] => ram | b :: bs' => ram_write tr (mem_upd ram (tr a) b) (a + 1) bs' end.

(** Inside one page the translation is an offset. *)
Lemma same_page a i : is_u32 a -> 0 <= i -> page_off a + i < 4096 ->
  page_base (a + i) = page_base a /\ page_off (a + i) = page_off a + i.
Proof using.
  intros Ha Hi Ho. destruct (page_split a Ha) as (Hs & Hr & Hm & Hb).
  assert (Hai : is_u32 (a + i)).
  { unfold in_width in *. pose proof (Z.div_mod (page_base a) 4096 ltac:(lia)). lia. }
  destruct (page_split (a + i) Hai) as (Hs' & Hr' & Hm' & Hb').
  pose proof (Z.div_mod (page_base a) 4096 ltac:(lia)).
  pose proof (Z.div_mod (page_base (a + i)) 4096 ltac:(lia)). lia.
Qed.

Lemma translate_offset s a i : is_u32 a -> 0 <= i -> page_off a + i < 4096 ->
  translate s (a + i) = translate s a + i.
Proof using.
  intros Ha Hi Ho. unfold translate, ram_addr.
  destruct (same_page a i Ha Hi Ho) as [-> ->]. lia.
Qed.

Lemma ram_read_chunk s ram n : forall a, is_u32 a -> page_off a + Z.of_nat n <= 4096 ->
  mem_read ram (translate s a) n = ram_read (translate s) ram a n.
Proof using.
  induction n as [|n IH]; intros a Ha Ho; simpl; [done|]. f_equal.
  destruct n as [|n]; [done|].
  rewrite <- translate_offset by (done || lia).
  assert (Ha1 : is_u32 (a + 1)).
  { destruct (page_split a Ha) as (Hs & Hr & Hm & Hb).
    pose proof (Z.div_mod (page_base a) 4096 ltac:(lia)). unfold in_width in *. lia. }
  apply IH; [done|].
  destruct (same_page a 1 Ha ltac:(lia) ltac:(lia)) as [_ ->]. lia.
Qed.

Lemma ram_write_chunk s bs : forall ram a, is_u32 a ->
  page_off a + Z.of_nat (length bs) <= 4096 ->
  mem_write ram (translate s a) bs = ram_write (translate s) ram a bs.
Proof using.
  induction bs as [|b bs IH]; intros ram a Ha Ho; simpl in *; [done|].
  destruct bs as [|b' bs]; [done|].
  rewrite <- translate_offset by (done || (simpl in *; lia)).
  assert (Ha1 : is_u32 (a + 1)).
  { destruct (page_split a Ha) as (Hs & Hr & Hm & Hb).
    pose proof (Z.div_mod (page_base a) 4096 ltac:(lia)). unfold in_width in *.
    simpl in *. lia. }
  apply IH; [done|].
  destruct (same_page a 1 Ha ltac:(lia) ltac:(simpl in *; lia)) as [_ ->]. simpl in *. lia.
Qed.

Lemma ram_read_app tr ram n1 : forall n2 a,
  ram_read tr ram a (n1 + n2) = ram_read tr ram a n1 ++ ram_read tr ram (a + Z.of_nat n1) n2.
Proof using.
  induction n1 as [|n1 IH]; intros n2 a; simpl; [by rewrite Z.add_0_r|].
  f_equal. rewrite IH. do 2 f_equal. lia.
Qed.

Lemma ram_write_app tr bs1 : forall bs2 ram a,
  ram_write tr ram a (bs1 ++ bs2) =
  ram_write tr (ram_write tr ram a bs1) (a + Z.of_nat (length bs1)) bs2.
Proof using.
  induction bs1 as [|b bs1 IH]; intros bs2 ram a; simpl; [by rewrite Z.add_0_r|].
  rewrite IH. f_equal. lia.
Qed.

Lemma ram_not_io pd : page_off pd = IO_MEM_RAM -> read_is_io pd = false /\ write_is_io pd = false.
Proof using.
  unfold read_is_io, write_is_io, IO_MEM_RAM, IO_MEM_ROM. intros ->. done.
Qed.

Lemma ram_range_tail s addr len l : ram_range s addr len -> 0 <= l < len ->
  u32 (addr + l) = addr + l /\ ram_range s (addr + l) (len - l).
Proof using.
  intros (H0 & He & Hr) Hl. split.
  - apply wrap_small. unfold in_width. lia.
  - split; [lia|]. split; [lia|]. intros a Ha. apply Hr. lia.
Qed.

Lemma rw_read_ram fuel : forall addr buf s, ram_range s addr (Z.of_nat (length buf)) ->
  (length buf <= fuel)%nat ->
  cpu_physical_memory_rw fuel addr buf false s =
  Some (ram_read (translate s) (phys_ram s) addr (length buf), s).
Proof using.
  induction fuel as [|fuel IH]; intros addr buf s Hr Hf.
  - destruct buf; simpl in *; [done|lia].
  - destruct buf as [|b buf']; [done|]. set (buf := b :: buf') in *.
    cbn [cpu_physical_memory_rw]. fold buf.
    assert (Hlen : (0 < length buf)%nat) by (simpl; lia).
    assert (Ha : is_u32 addr) by (destruct Hr as (? & ? & _); unfold in_width; lia).
    destruct (chunk_bounds addr (length buf) Ha Hlen) as (Hl & Ho & _).
    set (l := Z.min _ _) in *. clearbody l.
    destruct (ram_not_io (page_desc (page_base addr) s)) as [-> _].
    { destruct Hr as (_ & _ & Hr). apply Hr. lia. }
    replace (length buf) with (Z.to_nat l + (length buf - Z.to_nat l))%nat by lia.
    rewrite ram_read_app, <- ram_read_chunk by (done || lia). rewrite Z2Nat.id by lia.
    destruct (decide (l = Z.of_nat (length buf))) as [El|El].
    + rewrite drop_ge by lia.
      replace (length buf - Z.to_nat l)%nat with 0%nat by lia. by destruct fuel.
    + destruct (ram_range_tail s addr _ l Hr ltac:(lia)) as [-> Hr'].
      rewrite IH.
      * rewrite length_drop. done.
      * rewrite length_drop, Nat2Z.inj_sub, Z2Nat.id by lia. done.
      * rewrite length_drop. lia.
Qed.

Lemma mark_dirty_frame addr1 l s :
  l1_phys_map (mark_dirty addr1 l s) = l1_phys_map s /\
  phys_ram (mark_dirty addr1 l s) = phys_ram s /\ dev (mark_dirty addr1 l s) = dev s.
Proof using. unfold mark_dirty. by destruct (negb _). Qed.

Lemma page_desc_map s s' : l1_phys_map s' = l1_phys_map s ->
  forall a, page_desc a s' = page_desc a s.
Proof using.
  intros H a. unfold page_desc, phys_page_find, phys_page_find_alloc. rewrite H.
  by destruct (l1_phys_map s _).
Qed.

Lemma translate_map s s' : l1_phys_map s' = l1_phys_map s ->
  (forall a, translate s' a = translate s a) /\ (forall a, is_ram s' a <-> is_ram s a).
Proof using.
  intros H. pose proof (page_desc_map s s' H) as Hp.
  unfold is_ram, translate. split; intros a; by rewrite Hp.
Qed.

Lemma ram_write_ext tr tr' bs : (forall a, tr' a = tr a) -> forall ram a,
  ram_write tr' ram a bs = ram_write tr ram a bs.
Proof using.
  intros H. induction bs as [|b bs IH]; intros ram a; simpl; [done|]. by rewrite IH, H.
Qed.

Lemma rw_write_ram fuel : forall addr buf s, ram_range s addr (Z.of_nat (length buf)) ->
  (length buf <= fuel)%nat ->
  exists s', cpu_physical_memory_rw fuel addr buf true s = Some (buf, s') /\
    l1_phys_map s' = l1_phys_map s /\ dev s' = dev s /\
    phys_ram s' = ram_write (translate s) (phys_ram s) addr buf.
Proof using.
  induction fuel as [|fuel IH]; intros addr buf s Hr Hf.
  - destruct buf; simpl in *; [eauto|lia].
  - destruct buf as [|b buf']; [simpl; eauto|]. set (buf := b :: buf') in *.
    cbn [cpu_physical_memory_rw]. fold buf.
    assert (Hlen : (0 < length buf)%nat) by (simpl; lia).
    assert (Ha : is_u32 addr) by (destruct Hr as (? & ? & _); unfold in_width; lia).
    destruct (chunk_bounds addr (length buf) Ha Hlen) as (Hl & Ho & _).
    set (l := Z.min _ _) in *. clearbody l.
    destruct (ram_not_io (page_desc (page_base addr) s)) as [_ ->].
    { destruct Hr as (_ & _ & Hr). apply Hr. lia. }
    set (addr1 := ram_addr _ _). set (c := take _ buf).
    assert (Hc : length c = Z.to_nat l) by (unfold c; rewrite length_take; lia).
    set (s1 := mark_dirty _ _ _).
    destruct (mark_dirty_frame addr1 l (ram_store addr1 c s)) as (Hm & Hram & Hdev).
    fold s1 in Hm, Hram, Hdev. simpl in Hm, Hram, Hdev.
    destruct (translate_map s s1 Hm) as [Htr Hir].
    assert (Hw : mem_write (phys_ram s) addr1 c = ram_write (translate s) (phys_ram s) addr c).
    { rewrite <- ram_write_chunk; [done|done|rewrite Hc; lia]. }
    assert (IH' : exists s2, cpu_physical_memory_rw fuel (u32 (addr + l))
        (drop (Z.to_nat l) buf) true s1 = Some (drop (Z.to_nat l) buf, s2) /\
        l1_phys_map s2 = l1_phys_map s1 /\ dev s2 = dev s1 /\
        phys_ram s2 = ram_write (translate s1) (phys_ram s1) (addr + l) (drop (Z.to_nat l) buf)).
    { destruct (decide (l = Z.of_nat (length buf))) as [El|El].
      - rewrite drop_ge by lia. exists s1. by destruct fuel.
      - destruct (ram_range_tail s addr _ l Hr ltac:(lia)) as [-> (R1 & R2 & R3)].
        apply IH; [|rewrite length_drop; lia].
        rewrite length_drop, Nat2Z.inj_sub, Z2Nat.id by lia. split; [lia|]. split; [lia|].
        intros x Hx. apply Hir. by apply R3. }
    destruct IH' as (s2 & -> & H1 & H2 & H3). exists s2. unfold c. rewrite take_drop.
    split; [done|]. rewrite H1, H2, H3. split; [done|]. split; [done|].
    rewrite Hram, Hw, (ram_write_ext _ _ _ Htr).
    replace (addr + l) with (addr + Z.of_nat (length c)) by lia.
    rewrite <- ram_write_app. unfold c. by rewrite take_drop.
Qed.

(** A translation that is one-to-one on the range: distinct addresses are distinct
    bytes of RAM. *)
Lemma ram_write_other tr bs : forall ram a x,
  (forall i, 0 <= i < Z.of_nat (length bs) -> tr (a + i) <> x) ->
  ram_write tr ram a bs x = ram x.
Proof using.
  induction bs as [|b bs IH]; intros ram a x H; simpl in *; [done|].
  rewrite IH.
  - unfold mem_upd. destruct (Z.eqb_spec x (tr a)) as [E|]; [|done].
    destruct (H 0); [lia|]. by rewrite Z.add_0_r.
  - intros i Hi. replace (a + 1 + i) with (a + (i + 1)) by lia. apply H. lia.
Qed.

Lemma ram_read_write tr bs : forall ram a,
  (forall i j, 0 <= i < Z.of_nat (length bs) -> 0 <= j < Z.of_nat (length bs) ->
     tr (a + i) = tr (a + j) -> i = j) ->
  ram_read tr (ram_write tr ram a bs) a (length bs) = bs.
Proof using.
  induction bs as [|b bs IH]; intros ram a H; simpl in *; [done|]. f_equal.
  - rewrite ram_write_other.
    + unfold mem_upd. by rewrite Z.eqb_refl.
    + intros i Hi E. specialize (H (i + 1) 0 ltac:(lia) ltac:(lia)).
      replace (a + (i + 1)) with (a + 1 + i) in H by lia. rewrite Z.add_0_r in H.
      specialize (H E). lia.
  - apply IH. intros i j Hi Hj E. specialize (H (i + 1) (j + 1) ltac:(lia) ltac:(lia)).
    replace (a + (i + 1)) with (a + 1 + i) in H by lia.
    replace (a + (j + 1)) with (a + 1 + j) in H by lia. specialize (H E). lia.
Qed.

Lemma ram_read_ext tr tr' n : (forall a, tr' a = tr a) -> forall ram a,
  ram_read tr' ram a n = ram_read tr ram a n.
Proof using.
  intros H. induction n as [|n IH]; intros ram a; simpl; [done|]. by rewrite IH, H.
Qed.

(** ** Properties *)

(** A physical access always ends: a fuel of one step per byte is enough, on any
    mix of RAM, ROM and I/O pages, and the buffer keeps its length. *)
Theorem phys_rw_total addr buf is_write s : is_u32 addr ->
  exists buf' s',
    cpu_physical_memory_rw (length buf) addr buf is_write s = Some (buf', s') /\
    length buf' = length buf.
Proof using. intros Ha. by apply rw_terminates. Qed.

(** Reading back what was written: on a range of RAM pages that are not aliases
    of each other, a read after a write returns the bytes written, and every byte of
    RAM outside the range keeps its value. *)
Theorem phys_write_read addr buf old s :
  ram_range s addr (Z.of_nat (length buf)) -> length old = length buf ->
  (forall a b, addr <= a < addr + Z.of_nat (length buf) ->
     addr <= b < addr + Z.of_nat (length buf) -> translate s a = translate s b -> a = b) ->
  exists s', cpu_physical_memory_rw (length buf) addr buf true s = Some (buf, s') /\
    cpu_physical_memory_rw (length buf) addr old false s' = Some (buf, s') /\
    forall x, (forall a, addr <= a < addr + Z.of_nat (length buf) -> translate s a <> x) ->
      phys_ram s' x = phys_ram s x.
Proof using.
  intros Hr Hold Hinj.
  destruct (rw_write_ram (length buf) addr buf s Hr ltac:(lia)) as (s' & Hw & Hm & _ & Hram).
  exists s'. split; [done|]. destruct (translate_map s s' Hm) as [Htr Hir]. split.
  - rewrite rw_read_ram.
    + rewrite Hram, Hold, (ram_read_ext _ _ _ Htr), ram_read_write; [done|].
      intros i j Hi Hj E. specialize (Hinj (addr + i) (addr + j)). lia.
    + rewrite Hold. destruct Hr as (R1 & R2 & R3). split; [done|]. split; [done|].
      intros a Ha. apply Hir. auto.
    + lia.
  - intros x Hx. rewrite Hram. apply ram_write_other. intros i Hi. apply Hx. lia.
Qed.

Lemma rw_nil fuel addr is_write s :
  cpu_physical_memory_rw fuel addr [] is_write s = Some ([], s).
Proof using. by destruct fuel. Qed.

Lemma rw_write_page addr b buf' s :
  let buf := b :: buf' in
  is_u32 addr -> page_off addr + Z.of_nat (length buf) <= 4096 -> is_ram s addr ->
  cpu_physical_memory_rw (length buf) addr buf true s =
  Some (buf, mark_dirty (translate s addr) (Z.of_nat (length buf))
               (ram_store (translate s addr) buf s)).
Proof using.
  intros buf Ha Ho Hr. change (length buf) with (S (length buf')) at 1. unfold buf at 1.
  cbn [cpu_physical_memory_rw]. fold buf.
  destruct (chunk_bounds addr (length buf) Ha ltac:(simpl; lia)) as (_ & _ & Hu).
  rewrite Hu, Z.min_r by lia.
  destruct (ram_not_io (page_desc (page_base addr) s) Hr) as [_ ->].
  rewrite Nat2Z.id, take_ge, drop_ge by lia. unfold translate.
  by rewrite rw_nil, app_nil_r.
Qed.

(** Writes and translated code: a write inside one RAM page whose dirty flags
    are not all set hands exactly the written range to the code invalidation and
    sets every flag but the code flag; if all flags are set nothing is invalidated. *)
Theorem phys_write_invalidates addr b buf' s :
  let buf := b :: buf' in
  let a1 := translate s addr in
  let page := Z.shiftr a1 TARGET_PAGE_BITS in
  is_u32 addr -> page_off addr + Z.of_nat (length buf) <= 4096 -> is_ram s addr ->
  exists s', cpu_physical_memory_rw (length buf) addr buf true s = Some (buf, s') /\
    (phys_ram_dirty s page = 0xff ->
       tb_invalidated s' = tb_invalidated s /\ phys_ram_dirty s' = phys_ram_dirty s) /\
    (phys_ram_dirty s page <> 0xff ->
       tb_invalidated s' = (a1, a1 + Z.of_nat (length buf)) :: tb_invalidated s /\
       phys_ram_dirty s' page = Z.lor (phys_ram_dirty s page) 0xfd /\
       Z.land (phys_ram_dirty s' page) CODE_DIRTY_FLAG
         = Z.land (phys_ram_dirty s page) CODE_DIRTY_FLAG).
Proof using.
  intros buf a1 page Ha Ho Hr. eexists. split; [exact (rw_write_page addr b buf' s Ha Ho Hr)|].
  fold buf a1. unfold mark_dirty, cpu_physical_memory_is_dirty. simpl.
  fold page. split; intros Hd.
  - rewrite Hd. done.
  - rewrite (proj2 (Z.eqb_neq _ _) Hd). simpl. unfold mem_upd. rewrite Z.eqb_refl.
    change (Z.land 255 (Z.lnot CODE_DIRTY_FLAG)) with 0xfd. split; [done|]. split; [done|].
    rewrite Z.land_lor_distr_l. change (Z.land 0xfd CODE_DIRTY_FLAG) with 0.
    by rewrite Z.lor_0_r.
Qed.

(** A 32-bit store followed by a load of the same address of RAM. *)
Lemma ldl_stl_phys addr v s : is_u32 addr -> is_ram s addr -> page_desc addr s = page_desc (page_base addr) s ->
  (ldl_phys addr (stl_phys addr v s)).1 = u32 v.
Proof using.
  intros Ha Hr Hp. unfold ldl_phys, stl_phys. unfold is_ram in Hr. rewrite Hp.
  destruct (ram_not_io _ Hr) as [Hri ->]. set (a1 := ram_addr _ _).
  destruct (mark_dirty_frame a1 4 (ram_store a1 (le_bytes 4 v) s)) as (Hm & Hram & _).
  rewrite (page_desc_map s _ Hm), Hp, Hri. cbn [fst]. rewrite Hram. fold a1.
  change (phys_ram (ram_store a1 (le_bytes 4 v) s))
    with (mem_write (phys_ram s) a1 (le_bytes 4 v)).
  pose proof (mem_read_write (le_bytes 4 v) (phys_ram s) a1) as H.
  rewrite length_le_bytes in H. rewrite H. apply le_value_bytes.
Qed.
End PhysMem.

(** ** A concrete memory: 4 MB of RAM mapped at 0 *)

Definition no_read (i sz : Z) (d : unit) (a : Z) : Z * unit := (0xffffffff, tt).
Definition no_write (i sz : Z) (d : unit) (a v : Z) : unit := tt.

Definition sample_phys : phys (D := unit) :=
  mkPhys (fun i => if i =? 0 then Some ((fun j => Z.of_nat j * 4096) <$> seq 0 1024) else None)
    (fun _ => 0) (fun _ => 0) tt [].

Lemma sample_phys_desc a : 0 <= a < 4194304 -> page_desc (page_base a) sample_phys = page_base a.
Proof.
  intros Ha. destruct (page_split a ltac:(unfold in_width; lia)) as (Hs & Ho & Hm & Hb).
  unfold page_desc, phys_page_find, phys_page_find_alloc, TARGET_PAGE_BITS, L2_BITS,
    L1_SIZE, L2_SIZE.
  rewrite !Z.shiftr_div_pow2 by lia.
  change (1024 - 1) with (Z.ones 10). rewrite !Z.land_ones by lia.
  pose proof (Z.div_mod (page_base a) 4096 ltac:(lia)) as Hd.
  change (2 ^ 12) with 4096. change (2 ^ 10) with 1024.
  set (q := page_base a / 4096) in *. rewrite (Z.div_small q 1024) by lia.
  rewrite (Z.mod_small q 1024) by lia. cbn [l1_phys_map sample_phys].
  rewrite Z.mod_0_l by lia. cbn [Z.eqb snd].
  rewrite list_lookup_fmap, lookup_seq_lt by lia. simpl. lia.
Qed.

Lemma sample_phys_ram addr len : 0 <= addr -> addr + len <= 4194304 ->
  ram_range sample_phys addr len /\ forall a, addr <= a < addr + len -> translate sample_phys a = a.
Proof.
  intros H0 H1. unfold ram_range, is_ram, translate, ram_addr.
  split; [split; [done|]; split; [lia|]|]; intros a Ha; rewrite sample_phys_desc by lia;
    destruct (page_split a ltac:(unfold in_width; lia)) as (Hs & Ho & Hm & Hb).
  - unfold page_off, IO_MEM_RAM, page_base. rewrite <- Z.land_assoc. apply Z.land_0_r.
  - replace (page_base (page_base a)) with (page_base a); [done|].
    unfold page_base. by rewrite <- Z.land_assoc.
Qed.

Lemma phys_rw_total_witness :
  exists buf' s', cpu_physical_memory_rw no_read no_write 3 4095 [1; 2; 3] true sample_phys
    = Some (buf', s') /\ length buf' = 3%nat.
Proof. apply (phys_rw_total no_read no_write 4095 [1; 2; 3]). unfold in_width. lia. Defined.

Lemma phys_write_read_witness :
  exists s', cpu_physical_memory_rw no_read no_write 3 4095 [1; 2; 3] true sample_phys
      = Some ([1; 2; 3], s') /\
    cpu_physical_memory_rw no_read no_write 3 4095 [0; 0; 0] false s' = Some ([1; 2; 3], s').
Proof.
  destruct (sample_phys_ram 4095 3 ltac:(lia) ltac:(lia)) as [Hr Ht].
  destruct (phys_write_read no_read no_write 4095 [1; 2; 3] [0; 0; 0] sample_phys Hr eq_refl)
    as (s' & H1 & H2 & _).
  - intros a b Ha Hb. simpl in Ha, Hb. rewrite !Ht by lia. done.
  - exists s'. split; [exact H1|exact H2].
Defined.

Lemma phys_write_invalidates_witness :
  exists s', cpu_physical_memory_rw no_read no_write 2 4096 [7; 8] true sample_phys
      = Some ([7; 8], s') /\ tb_invalidated s' = [(4096, 4098)].
Proof.
  destruct (sample_phys_ram 4096 2 ltac:(lia) ltac:(lia)) as [(_ & _ & Hr) Ht].
  destruct (phys_write_invalidates no_read no_write 4096 7 [8] sample_phys
    ltac:(unfold in_width; lia) ltac:(vm_compute; congruence) (Hr 4096 ltac:(lia)))
    as (s' & H1 & _ & H2).
  exists s'. split; [exact H1|]. destruct H2 as [H2 _]; [done|].
  rewrite H2, Ht by lia. reflexivity.
Defined.

End PhysMem.
