(* ===== verification/Mmu.v ===== *)
(** * The x86 MMU

    Address translation of the i386 target (src/MemCheck-qemu/target-i386/helper2.c):
    the control registers that configure it, the page walk of
    [cpu_x86_handle_mmu_fault] with its protection checks and its updates of the
    accessed and dirty bits, the walk without side effects of
    [cpu_get_phys_page_debug], and the debug reads and writes of exec.c that
    MemCheck uses to look at guest memory.  The configuration is that of
    i386-softmmu: no TARGET_X86_64. *)

From S2P Require Import Prelude Bytes PhysMem.
Import PhysMem.

Module Mmu.

(** ** Constants (target-i386/cpu.h, cpu-all.h) *)

Definition CR0_PE_MASK : Z := 1.
Definition CR0_ET_MASK : Z := 16.
Definition CR0_WP_MASK : Z := 65536.
Definition CR0_PG_MASK : Z := 2147483648.
Definition CR4_PSE_MASK : Z := 16.
Definition CR4_PAE_MASK : Z := 32.
Definition CR4_PGE_MASK : Z := 128.
Definition CR4_OSFXSR_MASK : Z := 512.
Definition HF_ADDSEG_SHIFT : Z := 6.
Definition HF_PE_SHIFT : Z := 7.
Definition HF_MP_SHIFT : Z := 9.
Definition HF_PE_MASK : Z := 128.
Definition HF_MP_EM_TS : Z := 3584.       (** [HF_MP_MASK | HF_EM_MASK | HF_TS_MASK] *)
Definition HF_OSFXSR_MASK : Z := 65536.
Definition CPUID_SSE : Z := 33554432.

Definition PG_PRESENT_MASK : Z := 1.
Definition PG_RW_MASK : Z := 2.
Definition PG_USER_MASK : Z := 4.
Definition PG_ACCESSED_MASK : Z := 32.
Definition PG_DIRTY_MASK : Z := 64.
Definition PG_PSE_MASK : Z := 128.
Definition PG_NX_MASK : Z := 9223372036854775808.
Definition PG_ERROR_P_MASK : Z := 1.
Definition PG_ERROR_W_BIT : Z := 1.
Definition PG_ERROR_U_MASK : Z := 4.
Definition PG_ERROR_RSVD_MASK : Z := 8.
Definition PG_ERROR_I_D_MASK : Z := 16.
Definition MSR_EFER_NXE : Z := 2048.
Definition EXCP0E_PAGE : Z := 14.
Definition PHYS_ADDR_MASK : Z := 0xfffff000.
Definition PAGE_READ : Z := 1.
Definition PAGE_WRITE : Z := 2.
Definition PAGE_EXEC : Z := 4.
Definition MMU_USER_IDX : Z := 1.
(** [offsetof(struct vmcb, control.exit_info_2)] *)
Definition EXIT_INFO_2 : Z := 128.

(** ** State *)

Record CPUX86State := mkCPU {
  regs : list Z;                 (** EAX ECX EDX EBX ESP EBP ESI EDI *)
  eip : Z;
  hflags : Z;
  cr0 : Z; cr2 : Z; cr3 : Z; cr4 : Z;
  efer : Z;
  a20_mask : Z;
  cpuid_features : Z;
  error_code : Z;
  exception_index : Z;
  intercept_exceptions : Z;
  vm_vmcb : Z;
  tlb_flushes : list Z;          (** the [flush_global] arguments of the calls of [tlb_flush] *)
  interrupts : list Z;           (** the masks given to [cpu_interrupt] *)
}.

#[global] Instance eta_cpu : Eta CPUX86State := fun s =>
  mkCPU (regs s) (eip s) (hflags s) (cr0 s) (cr2 s) (cr3 s) (cr4 s) (efer s) (a20_mask s)
    (cpuid_features s) (error_code s) (exception_index s) (intercept_exceptions s) (vm_vmcb s)
    (tlb_flushes s) (interrupts s).

Definition CPU_INTERRUPT_EXITTB : Z := 4.

(** ** Control registers *)

Definition tlb_flush (flush_global : Z) (env : CPUX86State) : CPUX86State :=
  env <| tlb_flushes := flush_global :: tlb_flushes env |>.

Definition cpu_x86_set_a20 (a20_state : Z) (env : CPUX86State) : CPUX86State :=
  let a20_state := b2z (negb (a20_state =? 0)) in
  if negb (a20_state =? Z.land (Z.shiftr (a20_mask env) 20) 1) then
    let env := env <| interrupts := CPU_INTERRUPT_EXITTB :: interrupts env |> in
    let env := tlb_flush 1 env in
    env <| a20_mask := Z.lor 0xffefffff (Z.shiftl a20_state 20) |>
  else env.

Definition cr0_mmu_bits : Z := Z.lor (Z.lor CR0_PG_MASK CR0_WP_MASK) CR0_PE_MASK.
Definition cr4_mmu_bits : Z := Z.lor (Z.lor CR4_PGE_MASK CR4_PAE_MASK) CR4_PSE_MASK.

Definition cpu_x86_update_cr0 (new_cr0 : Z) (env : CPUX86State) : CPUX86State :=
  let env :=
    if negb (Z.land new_cr0 cr0_mmu_bits =? Z.land (cr0 env) cr0_mmu_bits)
    then tlb_flush 1 env else env in
  let env := env <| cr0 := Z.lor new_cr0 CR0_ET_MASK |> in
  let pe_state := Z.land (cr0 env) CR0_PE_MASK in
  let hf := Z.lor (Z.land (hflags env) (Z.lnot HF_PE_MASK)) (Z.shiftl pe_state HF_PE_SHIFT) in
  let hf := Z.lor hf (Z.shiftl (Z.lxor pe_state 1) HF_ADDSEG_SHIFT) in
  let hf := Z.lor (Z.land hf (Z.lnot HF_MP_EM_TS))
              (Z.land (u32 (Z.shiftl new_cr0 (HF_MP_SHIFT - 1))) HF_MP_EM_TS) in
  env <| hflags := hf |>.

Definition cpu_x86_update_cr3 (new_cr3 : Z) (env : CPUX86State) : CPUX86State :=
  let env := env <| cr3 := new_cr3 |> in
  if has (cr0 env) CR0_PG_MASK then tlb_flush 0 env else env.

Definition cpu_x86_update_cr4 (new_cr4 : Z) (env : CPUX86State) : CPUX86State :=
  let env :=
    if negb (Z.land new_cr4 cr4_mmu_bits =? Z.land (cr4 env) cr4_mmu_bits)
    then tlb_flush 1 env else env in
  let new_cr4 := if negb (has (cpuid_features env) CPUID_SSE)
                 then Z.land new_cr4 (Z.lnot CR4_OSFXSR_MASK) else new_cr4 in
  let env := if has new_cr4 CR4_OSFXSR_MASK
             then env <| hflags := Z.lor (hflags env) HF_OSFXSR_MASK |>
             else env <| hflags := Z.land (hflags env) (Z.lnot HF_OSFXSR_MASK) |> in
  env <| cr4 := new_cr4 |>.

(** ** The page walk *)

(** Where the walk ends: [goto do_fault] with an error code, or the entry that maps
    the page, the combined protection bits, the virtual base and the page size. *)
Inductive walk : Type :=
| WFault (error_code : Z)
| WMap (pte ptep virt_addr page_size : Z).

(** What [cpu_x86_handle_mmu_fault] does last: the call of [tlb_set_page_exec], whose
    result it returns, or the result of a fault. *)
Inductive mmu_result : Type :=
| SetPage (vaddr paddr prot : Z)
| Fault (ret : Z).

Section Walk.
Context {D : Type}.
Context (io_mem_read : Z -> Z -> D -> Z -> Z * D).
Context (io_mem_write : Z -> Z -> D -> Z -> Z -> D).

Abbreviation phys := (@phys D).
Abbreviation ldl := (ldl_phys io_mem_read).
Abbreviation ldq := (ldq_phys io_mem_read).
Abbreviation stl := (stl_phys_notdirty io_mem_write).

(** The protection check, the same at every level that maps a page. *)
Definition protect_ok (env : CPUX86State) (is_user is_write : bool) (ptep : Z) : bool :=
  if is_user then
    if negb (has ptep PG_USER_MASK) then false
    else if is_write && negb (has ptep PG_RW_MASK) then false
    else true
  else if has (cr0 env) CR0_WP_MASK && is_write && negb (has ptep PG_RW_MASK) then false
  else true.

(** The update of the accessed and dirty bits of the entry that maps the page. *)
Definition mark_entry (is_write : bool) (addr e : Z) (s : phys) : Z * phys :=
  let is_dirty := is_write && negb (has e PG_DIRTY_MASK) in
  if negb (has e PG_ACCESSED_MASK) || is_dirty then
    let e := Z.lor e PG_ACCESSED_MASK in
    let e := if is_dirty then Z.lor e PG_DIRTY_MASK else e in
    (e, stl addr e s)
  else (e, s).

(** The update of the accessed bit of a directory entry. *)
Definition mark_dir (addr e : Z) (s : phys) : Z * phys :=
  if negb (has e PG_ACCESSED_MASK) then
    let e := Z.lor e PG_ACCESSED_MASK in (e, stl addr e s)
  else (e, s).

Definition nx_reserved (env : CPUX86State) (e : Z) : bool :=
  negb (has (efer env) MSR_EFER_NXE) && has e PG_NX_MASK.

Definition walk_pae (env : CPUX86State) (addr is_write1 : Z) (is_user : bool) (s : phys)
  : walk * phys :=
  let is_write := truth (Z.land is_write1 1) in
  let a20 := a20_mask env in
  let pdpe_addr := Z.land (u32 (Z.land (cr3 env) 0xffffffe0 + Z.land (Z.shiftr addr 27) 0x18)) a20 in
  let '(pdpe, s) := ldq pdpe_addr s in
  if negb (has pdpe PG_PRESENT_MASK) then (WFault 0, s) else
  let ptep := Z.lor (Z.lor PG_NX_MASK PG_USER_MASK) PG_RW_MASK in
  let pde_addr := Z.land (u32 (Z.land pdpe PHYS_ADDR_MASK
                               + Z.shiftl (Z.land (Z.shiftr addr 21) 0x1ff) 3)) a20 in
  let '(pde, s) := ldq pde_addr s in
  if negb (has pde PG_PRESENT_MASK) then (WFault 0, s) else
  if nx_reserved env pde then (WFault PG_ERROR_RSVD_MASK, s) else
  let ptep := Z.land ptep (Z.lxor pde PG_NX_MASK) in
  if has pde PG_PSE_MASK then
    let page_size := 2048 * 1024 in
    let ptep := Z.lxor ptep PG_NX_MASK in
    if has ptep PG_NX_MASK && (is_write1 =? 2) then (WFault PG_ERROR_P_MASK, s) else
    if negb (protect_ok env is_user is_write ptep) then (WFault PG_ERROR_P_MASK, s) else
    let '(pde, s) := mark_entry is_write pde_addr pde s in
    (WMap (Z.land pde 0xffe00fff) ptep (Z.land addr 0xffe00000) page_size, s)
  else
    let '(pde, s) := mark_dir pde_addr pde s in
    let pte_addr := Z.land (u32 (Z.land pde PHYS_ADDR_MASK
                                 + Z.shiftl (Z.land (Z.shiftr addr 12) 0x1ff) 3)) a20 in
    let '(pte, s) := ldq pte_addr s in
    if negb (has pte PG_PRESENT_MASK) then (WFault 0, s) else
    if nx_reserved env pte then (WFault PG_ERROR_RSVD_MASK, s) else
    let ptep := Z.land ptep (Z.lxor pte PG_NX_MASK) in
    let ptep := Z.lxor ptep PG_NX_MASK in
    if has ptep PG_NX_MASK && (is_write1 =? 2) then (WFault PG_ERROR_P_MASK, s) else
    if negb (protect_ok env is_user is_write ptep) then (WFault PG_ERROR_P_MASK, s) else
    let '(pte, s) := mark_entry is_write pte_addr pte s in
    (WMap (Z.land pte (Z.lor PHYS_ADDR_MASK 0xfff)) ptep (Z.land addr 0xfffff000) 4096, s).

Definition walk_legacy (env : CPUX86State) (addr is_write1 : Z) (is_user : bool) (s : phys)
  : walk * phys :=
  let is_write := truth (Z.land is_write1 1) in
  let a20 := a20_mask env in
  let pde_addr := Z.land (u32 (Z.land (cr3 env) 0xfffff000 + Z.land (Z.shiftr addr 20) 0xffc)) a20 in
  let '(pde, s) := ldl pde_addr s in
  if negb (has pde PG_PRESENT_MASK) then (WFault 0, s) else
  if has pde PG_PSE_MASK && has (cr4 env) CR4_PSE_MASK then
    if negb (protect_ok env is_user is_write pde) then (WFault PG_ERROR_P_MASK, s) else
    let '(pde, s) := mark_entry is_write pde_addr pde s in
    let pte := Z.land pde 0xffc00fff in
    (WMap pte pte (Z.land addr 0xffc00000) (4096 * 1024), s)
  else
    let '(pde, s) := mark_dir pde_addr pde s in
    let pte_addr := Z.land (u32 (Z.land pde 0xfffff000 + Z.land (Z.shiftr addr 10) 0xffc)) a20 in
    let '(pte, s) := ldl pte_addr s in
    if negb (has pte PG_PRESENT_MASK) then (WFault 0, s) else
    let ptep := Z.land pte pde in
    if negb (protect_ok env is_user is_write ptep) then (WFault PG_ERROR_P_MASK, s) else
    let '(pte, s) := mark_entry is_write pte_addr pte s in
    (WMap pte ptep (Z.land addr 0xfffff000) 4096, s).

Definition page_prot (env : CPUX86State) (is_user : bool) (pte ptep : Z) : Z :=
  let prot := PAGE_READ in
  let prot := if negb (has ptep PG_NX_MASK) then Z.lor prot PAGE_EXEC else prot in
  if has pte PG_DIRTY_MASK then
    if is_user then (if has ptep PG_RW_MASK then Z.lor prot PAGE_WRITE else prot)
    else if negb (has (cr0 env) CR0_WP_MASK) || has ptep PG_RW_MASK
         then Z.lor prot PAGE_WRITE else prot
  else prot.

(** The label [do_mapping]. *)
Definition do_mapping (env : CPUX86State) (addr pte virt_addr prot page_size : Z) : mmu_result :=
  let pte := Z.land pte (a20_mask env) in
  let page_offset := Z.land (Z.land addr 0xfffff000) (page_size - 1) in
  let paddr := u32 (Z.land pte 0xfffff000 + page_offset) in
  let vaddr := u32 (virt_addr + page_offset) in
  SetPage vaddr paddr prot.

(** The label [do_fault]. *)
Definition do_fault (env : CPUX86State) (addr is_write1 : Z) (is_user : bool) (ec : Z) (s : phys)
  : mmu_result * CPUX86State * phys :=
  let is_write := Z.land is_write1 1 in
  let ec := Z.lor ec (Z.shiftl is_write PG_ERROR_W_BIT) in
  let ec := if is_user then Z.lor ec PG_ERROR_U_MASK else ec in
  let ec := if (is_write1 =? 2) && has (efer env) MSR_EFER_NXE && has (cr4 env) CR4_PAE_MASK
            then Z.lor ec PG_ERROR_I_D_MASK else ec in
  let intercepted := has (intercept_exceptions env) (Z.shiftl 1 EXCP0E_PAGE) in
  let '(env, s) :=
    if intercepted
    then (env, default s (stq_phys io_mem_read io_mem_write (u32 (vm_vmcb env + EXIT_INFO_2)) addr s))
    else (env <| cr2 := addr |>, s) in
  let env := env <| error_code := ec |> <| exception_index := EXCP0E_PAGE |> in
  (Fault (if intercepted then 2 else 1), env, s).

Definition cpu_x86_handle_mmu_fault (env : CPUX86State) (addr is_write1 mmu_idx : Z) (s : phys)
  : mmu_result * CPUX86State * phys :=
  let is_user := mmu_idx =? MMU_USER_IDX in
  if negb (has (cr0 env) CR0_PG_MASK) then
    (do_mapping env addr addr (Z.land addr 0xfffff000)
       (Z.lor (Z.lor PAGE_READ PAGE_WRITE) PAGE_EXEC) 4096, env, s)
  else
    let '(w, s) := if has (cr4 env) CR4_PAE_MASK
                   then walk_pae env addr is_write1 is_user s
                   else walk_legacy env addr is_write1 is_user s in
    match w with
    | WFault ec => do_fault env addr is_write1 is_user ec s
    | WMap pte ptep virt_addr page_size =>
      (do_mapping env addr pte virt_addr (page_prot env is_user pte ptep) page_size, env, s)
    end.

(** [cpu_get_phys_page_debug]: [0xffffffff] is the result -1. *)
Definition NO_PAGE : Z := 0xffffffff.

Definition cpu_get_phys_page_debug (env : CPUX86State) (addr : Z) (s : phys) : Z * phys :=
  let a20 := a20_mask env in
  let finish (pte page_size : Z) :=
    let page_offset := Z.land (Z.land addr 0xfffff000) (page_size - 1) in
    u32 (Z.land pte 0xfffff000 + page_offset) in
  if has (cr4 env) CR4_PAE_MASK then
    let pdpe_addr := Z.land (u32 (Z.land (cr3 env) 0xffffffe0 + Z.land (Z.shiftr addr 27) 0x18)) a20 in
    let '(pdpe, s) := ldl pdpe_addr s in
    if negb (has pdpe PG_PRESENT_MASK) then (NO_PAGE, s) else
    let pde_addr := Z.land (u32 (Z.land pdpe 0xfffff000
                                 + Z.shiftl (Z.land (Z.shiftr addr 21) 0x1ff) 3)) a20 in
    let '(pde, s) := ldl pde_addr s in
    if negb (has pde PG_PRESENT_MASK) then (NO_PAGE, s) else
    if has pde PG_PSE_MASK then
      (finish (Z.land pde 0xffe00fff) (2048 * 1024), s)
    else
      let pte_addr := Z.land (u32 (Z.land pde 0xfffff000
                                   + Z.shiftl (Z.land (Z.shiftr addr 12) 0x1ff) 3)) a20 in
      let '(pte, s) := ldl pte_addr s in
      (finish pte 4096, s)
  else if negb (has (cr0 env) CR0_PG_MASK) then (finish (Z.land addr a20) 4096, s)
  else
    let pde_addr := Z.land (u32 (Z.land (cr3 env) 0xfffff000 + Z.land (Z.shiftr addr 20) 0xffc)) a20 in
    let '(pde, s) := ldl pde_addr s in
    if negb (has pde PG_PRESENT_MASK) then (NO_PAGE, s) else
    if has pde PG_PSE_MASK && has (cr4 env) CR4_PSE_MASK then
      (finish (Z.land (Z.land pde 0xffc00fff) a20) (4096 * 1024), s)
    else
      let pte_addr := Z.land (u32 (Z.land pde 0xfffff000 + Z.land (Z.shiftr addr 10) 0xffc)) a20 in
      let '(pte, s) := ldl pte_addr s in
      if negb (has pte PG_PRESENT_MASK) then (NO_PAGE, s) else
      (finish (Z.land pte a20) 4096, s).

(** [cpu_memory_rw_debug(env, addr, buf, len, is_write)]: the result, the buffer and
    the memory.  A page that is not mapped ends the loop with -1 and leaves the rest
    of the buffer as it was; [None] is running out of fuel. *)
Fixpoint cpu_memory_rw_debug (fuel : nat) (env : CPUX86State) (addr : Z) (buf : list Z)
    (is_write : bool) (s : phys) : option (Z * list Z * phys) :=
  match buf with
  | [] => Some (0, [], s)
  | _ =>
    match fuel with
    | O => None
    | S fuel' =>
      let page := page_base addr in
      let '(phys_addr, s) := cpu_get_phys_page_debug env page s in
      if phys_addr =? NO_PAGE then Some (-1, buf, s) else
      let l := Z.to_nat (Z.min (u32 (page + TARGET_PAGE_SIZE - addr)) (Z.of_nat (length buf))) in
      match cpu_physical_memory_rw io_mem_read io_mem_write l
              (u32 (phys_addr + page_off addr)) (take l buf) is_write s with
      | None => None
      | Some (chunk, s) =>
        match cpu_memory_rw_debug fuel' env (u32 (addr + Z.of_nat l)) (drop l buf) is_write s with
        | None => None
        | Some (ret, rest, s) => Some (ret, chunk ++ rest, s)
        end
      end
    end
  end.

(** ** Flat memory

    The case the walks are compared on: every page is RAM, at its own address. *)
Definition flat_map (s : phys) : Prop := forall a, is_u32 a -> page_desc a s = page_base a.

Definition flat (s : phys) : Prop := flat_map s /\ forall x, is_u8 (phys_ram s x).

Lemma page_off_base a : page_off (page_base a) = 0.
Proof using. unfold page_off, page_base. rewrite <- Z.land_assoc. apply Z.land_0_r. Qed.

Lemma page_base_base a : page_base (page_base a) = page_base a.
Proof using. unfold page_base. by rewrite <- Z.land_assoc. Qed.

Definition rd (s : phys) (a : Z) : Z := le_value (mem_read (phys_ram s) a 4).

Lemma ram_addr_flat a : is_u32 a -> ram_addr (page_base a) a = a.
Proof using.
  intros Ha. unfold ram_addr. rewrite page_base_base. by destruct (page_split a Ha).
Qed.

Lemma ldl_map s a : flat_map s -> is_u32 a -> ldl a s = (rd s a, s).
Proof using.
  intros Hf Ha. unfold ldl_phys. rewrite (Hf a Ha).
  destruct (ram_not_io (page_base a) (page_off_base a)) as [-> _].
  by rewrite ram_addr_flat.
Qed.

Lemma ldl_flat s a : flat s -> is_u32 a -> ldl a s = (rd s a, s).
Proof using. intros [Hf _]. by apply ldl_map. Qed.

Lemma stl_flat s a v : flat s -> is_u32 a -> stl a v s = ram_store a (le_bytes 4 v) s.
Proof using.
  intros [Hf _] Ha. unfold stl_phys_notdirty. rewrite (Hf a Ha).
  destruct (ram_not_io (page_base a) (page_off_base a)) as [_ ->].
  by rewrite ram_addr_flat.
Qed.

Lemma flat_store s a n v : flat s -> flat (ram_store a (le_bytes n v) s).
Proof using.
  intros [Hf Hr]. split.
  - intros b Hb. rewrite <- (Hf b Hb). by apply page_desc_map.
  - intros x. apply (mem_write_range (le_bytes n v) (le_bytes_range n v)). done.
Qed.

Lemma rd_range s a : flat s -> is_u32 (rd s a).
Proof using.
  intros [_ Hr]. pose proof (le_value_range _ (mem_read_range (phys_ram s) 4 Hr a)) as H.
  by rewrite length_mem_read in H.
Qed.

Lemma rd_store_same s a v : rd (ram_store a (le_bytes 4 v) s) a = u32 v.
Proof using.
  unfold rd. change (phys_ram (ram_store a (le_bytes 4 v) s))
    with (mem_write (phys_ram s) a (le_bytes 4 v)).
  pose proof (mem_read_write (le_bytes 4 v) (phys_ram s) a) as H.
  rewrite length_le_bytes in H. rewrite H. apply le_value_bytes.
Qed.

Lemma rd_store_other s a b v : a mod 4 = 0 -> b mod 4 = 0 -> a <> b ->
  rd (ram_store a (le_bytes 4 v) s) b = rd s b.
Proof using.
  intros Ha Hb Hne. unfold rd. f_equal. apply mem_read_ext. intros x Hx.
  change (phys_ram (ram_store a (le_bytes 4 v) s))
    with (mem_write (phys_ram s) a (le_bytes 4 v)).
  apply mem_write_other. rewrite length_le_bytes.
  pose proof (Z.div_mod a 4 ltac:(lia)). pose proof (Z.div_mod b 4 ltac:(lia)). lia.
Qed.

(** ** Bits *)

Lemma land_lor_disjoint x m k : Z.land m k = 0 -> Z.land (Z.lor x m) k = Z.land x k.
Proof using. intros H. by rewrite Z.land_lor_distr_l, H, Z.lor_0_r. Qed.

Lemma has_lor x m k : Z.land m k = 0 -> has (Z.lor x m) k = has x k.
Proof using. intros H. unfold has. by rewrite land_lor_disjoint. Qed.

Lemma has_lor_same x m : 0 < m -> has (Z.lor x m) m = true.
Proof using.
  intros Hm. unfold has. apply truth_true.
  replace (Z.land (Z.lor x m) m) with m; [lia|]. apply Z.bits_inj'. intros i Hi.
  rewrite Z.land_spec, Z.lor_spec. by destruct (Z.testbit x i), (Z.testbit m i).
Qed.

Lemma land_mod4 x y : x mod 4 = 0 -> Z.land x y mod 4 = 0.
Proof using.
  change 4 with (2 ^ 2). rewrite <- !Z.land_ones by lia. intros H.
  rewrite <- Z.land_assoc, (Z.land_comm y), Z.land_assoc, H. apply Z.land_0_l.
Qed.

Lemma table_addr_ok base idx a20 : base mod 4 = 0 -> idx mod 4 = 0 ->
  let a := Z.land (u32 (base + idx)) a20 in is_u32 a /\ a mod 4 = 0.
Proof using.
  intros Hb Hi a. split.
  - apply land_width_l; [lia|]. apply wrap_range. lia.
  - apply land_mod4. unfold u32, wrap.
    rewrite <- (Znumtheory.Zmod_div_mod 4 (2 ^ 32)) by (lia || (exists (2 ^ 30); done)).
    rewrite Z.add_mod, Hb, Hi by lia. done.
Qed.

Lemma land_const_mod4 x k : Z.land k 3 = 0 -> Z.land x k mod 4 = 0.
Proof using.
  intros H. change 4 with (2 ^ 2). rewrite <- Z.land_ones by lia. change (Z.ones 2) with 3.
  by rewrite <- Z.land_assoc, H, Z.land_0_r.
Qed.

(** ** The marks only set bits *)

Lemma mark_dir_spec a e s e' s' : flat s -> is_u32 a -> is_u32 e ->
  mark_dir a e s = (e', s') ->
  (e' = e \/ e' = Z.lor e PG_ACCESSED_MASK) /\ is_u32 e' /\
  has e' PG_ACCESSED_MASK = true /\
  (s' = s \/ s' = ram_store a (le_bytes 4 e') s) /\ flat s'.
Proof using.
  intros Hf Ha He. unfold mark_dir. destruct (has e PG_ACCESSED_MASK) eqn:E; simpl;
    intros [= <- <-].
  - auto 10.
  - rewrite stl_flat by done. split; [auto|].
    split; [apply lor_width; [lia|done|unfold in_width, PG_ACCESSED_MASK; lia]|].
    split; [apply has_lor_same; unfold PG_ACCESSED_MASK; lia|].
    split; [auto|]. by apply flat_store.
Qed.

Lemma mark_entry_spec w a e s e' s' : flat s -> is_u32 a -> is_u32 e ->
  mark_entry w a e s = (e', s') ->
  (forall k, Z.land PG_ACCESSED_MASK k = 0 -> Z.land PG_DIRTY_MASK k = 0 ->
     Z.land e' k = Z.land e k) /\
  has e' PG_ACCESSED_MASK = true /\ (w = true -> has e' PG_DIRTY_MASK = true) /\
  (s' = s \/ s' = ram_store a (le_bytes 4 e') s) /\ flat s'.
Proof using.
  intros Hf Ha He. unfold mark_entry.
  destruct (has e PG_ACCESSED_MASK) eqn:EA, (w && negb (has e PG_DIRTY_MASK)) eqn:ED;
    simpl; intros [= <- <-]; rewrite ?stl_flat by done.
  - split; [intros k H1 H2; by rewrite !land_lor_disjoint|].
    split; [rewrite has_lor by done; apply has_lor_same; unfold PG_ACCESSED_MASK; lia|].
    split; [intros _; apply has_lor_same; unfold PG_DIRTY_MASK; lia|].
    split; [auto|by apply flat_store].
  - split; [done|]. split; [done|]. split; [intros ->; simpl in ED; by apply negb_false_iff in ED|].
    auto.
  - split; [intros k H1 H2; by rewrite !land_lor_disjoint|].
    split; [rewrite has_lor by done; apply has_lor_same; unfold PG_ACCESSED_MASK; lia|].
    split; [intros _; apply has_lor_same; unfold PG_DIRTY_MASK; lia|].
    split; [auto|by apply flat_store].
  - split; [intros k H1 H2; by rewrite !land_lor_disjoint|].
    split; [apply has_lor_same; unfold PG_ACCESSED_MASK; lia|].
    split; [intros ->; simpl in ED; apply negb_false_iff in ED; by rewrite has_lor|].
    split; [auto|by apply flat_store].
Qed.

(** What reading an aligned word sees after a mark of another or the same entry:
    the same address bits and present bit. *)
Lemma rd_after_mark s a e' s' b : flat s -> a mod 4 = 0 -> b mod 4 = 0 -> is_u32 e' ->
  (e' = rd s a \/ e' = Z.lor (rd s a) PG_ACCESSED_MASK) ->
  (s' = s \/ s' = ram_store a (le_bytes 4 e') s) ->
  forall k, Z.land PG_ACCESSED_MASK k = 0 -> Z.land (rd s' b) k = Z.land (rd s b) k.
Proof using.
  intros Hf Ha Hb Hu He Hs k Hk. destruct Hs as [->| ->]; [done|].
  destruct (decide (a = b)) as [<-|Hne]; [|by rewrite rd_store_other].
  rewrite rd_store_same. unfold u32. rewrite wrap_small by done.
  destruct He as [->| ->]; [done|]. by rewrite land_lor_disjoint.
Qed.

Lemma finish_eq pte pte' a20 off : Z.land pte' 0xfffff000 = Z.land pte 0xfffff000 ->
  u32 (Z.land (Z.land pte' a20) 0xfffff000 + off) = u32 (Z.land (Z.land pte a20) 0xfffff000 + off).
Proof using.
  intros H. rewrite <- !Z.land_assoc, (Z.land_comm a20), !Z.land_assoc, H. done.
Qed.

Lemma has_eq x y k : Z.land x k = Z.land y k -> has x k = has y k.
Proof using. unfold has. by intros ->. Qed.

Lemma legacy_walk_agrees env addr is_write1 is_user s pte ptep va ps s' :
  flat s -> has (cr0 env) CR0_PG_MASK = true -> has (cr4 env) CR4_PAE_MASK = false ->
  walk_legacy env addr is_write1 is_user s = (WMap pte ptep va ps, s') ->
  cpu_get_phys_page_debug env addr s =
    (u32 (Z.land (Z.land pte (a20_mask env)) 0xfffff000
          + Z.land (Z.land addr 0xfffff000) (ps - 1)), s).
Proof using.
  intros Hf Hpg Hpae Hw. unfold walk_legacy in Hw. unfold cpu_get_phys_page_debug.
  rewrite Hpae, Hpg. cbn [negb].
  destruct (table_addr_ok (Z.land (cr3 env) 0xfffff000) (Z.land (Z.shiftr addr 20) 0xffc)
    (a20_mask env) (ltac:(by apply land_const_mod4)) (ltac:(by apply land_const_mod4))) as [Hpd Hpd4].
  set (pde_addr := Z.land (u32 (Z.land (cr3 env) 4294963200 + _)) _) in *.
  rewrite (ldl_flat s pde_addr Hf Hpd) in *.
  pose proof (rd_range s pde_addr Hf) as Hpdu.
  destruct (has (rd s pde_addr) PG_PRESENT_MASK) eqn:Ep; cbn [negb] in *; [|done].
  destruct (has (rd s pde_addr) PG_PSE_MASK && has (cr4 env) CR4_PSE_MASK) eqn:Eps.
  - destruct (protect_ok _ _ _ _); cbn [negb] in *; [|done].
    destruct (mark_entry _ _ _ _) as [pde' s1] eqn:Em. injection Hw as <- <- <- <- <-.
    destruct (mark_entry_spec _ _ _ _ _ _ Hf Hpd Hpdu Em) as (Hk & _).
    f_equal. symmetry. apply finish_eq. rewrite <- !Z.land_assoc. by apply Hk.
  - destruct (mark_dir _ _ _) as [pde' s1] eqn:Em.
    destruct (mark_dir_spec _ _ _ _ _ Hf Hpd Hpdu Em) as (He & Hu & _ & Hs & Hf1).
    assert (Hb : Z.land pde' 0xfffff000 = Z.land (rd s pde_addr) 0xfffff000).
    { destruct He as [->| ->]; [done|]. by apply land_lor_disjoint. }
    rewrite Hb in Hw.
    destruct (table_addr_ok (Z.land (rd s pde_addr) 0xfffff000)
      (Z.land (Z.shiftr addr 10) 0xffc) (a20_mask env) (ltac:(by apply land_const_mod4))
      (ltac:(by apply land_const_mod4))) as [Hpt Hpt4].
    set (pte_addr := Z.land (u32 (Z.land (rd s pde_addr) 4294963200 + _)) _) in *.
    rewrite (ldl_flat s1 pte_addr Hf1 Hpt) in Hw. rewrite (ldl_flat s pte_addr Hf Hpt).
    pose proof (rd_after_mark s pde_addr pde' s1 pte_addr Hf Hpd4 Hpt4 Hu He Hs) as Hrd.
    rewrite <- (has_eq _ _ _ (Hrd PG_PRESENT_MASK eq_refl)).
    destruct (has (rd s1 pte_addr) PG_PRESENT_MASK); cbn [negb] in *; [|done].
    destruct (protect_ok _ _ _ _); cbn [negb] in *; [|done].
    destruct (mark_entry _ _ _ _) as [pte' s2] eqn:Em2. injection Hw as <- <- <- <- <-.
    destruct (mark_entry_spec _ _ _ _ _ _ Hf1 Hpt (rd_range s1 pte_addr Hf1) Em2) as (Hk & _).
    f_equal. symmetry. apply finish_eq. rewrite Hk by done. by apply Hrd.
Qed.

(** ** Writable mappings *)

Lemma has_land x m k : Z.land m k = k -> has (Z.land x m) k = has x k.
Proof using. intros H. unfold has. by rewrite <- Z.land_assoc, H. Qed.

(** After the marks of a write the entry is dirty, and no other protection bit of it
    changes. *)
Lemma mark_entry_write a e s : let e' := (mark_entry true a e s).1 in
  has e' PG_DIRTY_MASK = true /\ has e' PG_RW_MASK = has e PG_RW_MASK.
Proof using.
  unfold mark_entry. simpl.
  destruct (has e PG_DIRTY_MASK) eqn:ED; simpl; [rewrite orb_false_r|rewrite orb_true_r].
  - destruct (has e PG_ACCESSED_MASK); simpl; [done|]. by rewrite !has_lor.
  - simpl. rewrite has_lor_same by done. by rewrite !has_lor.
Qed.

Lemma page_prot_write env is_user pte ptep : has pte PG_DIRTY_MASK = true ->
  protect_ok env is_user true ptep = true ->
  has (page_prot env is_user pte ptep) PAGE_WRITE = true.
Proof using.
  intros Hd Hp. unfold page_prot. rewrite Hd. unfold protect_ok in Hp.
  assert (Hw : forall p, has (Z.lor p PAGE_WRITE) PAGE_WRITE = true)
    by (intros; by apply has_lor_same).
  destruct is_user.
  - destruct (has ptep PG_USER_MASK); [|done]. simpl in Hp.
    destruct (has ptep PG_RW_MASK); [|done]. apply Hw.
  - destruct (has (cr0 env) CR0_WP_MASK); simpl in *; [|apply Hw].
    destruct (has ptep PG_RW_MASK); [|done]. apply Hw.
Qed.

Lemma protect_ok_rw env is_user w x y : has x PG_RW_MASK = has y PG_RW_MASK ->
  has x PG_USER_MASK = has y PG_USER_MASK ->
  protect_ok env is_user w x = protect_ok env is_user w y.
Proof using. intros H1 H2. unfold protect_ok. by rewrite H1, H2. Qed.

Lemma mark_entry_user w a e s : has (mark_entry w a e s).1 PG_USER_MASK = has e PG_USER_MASK.
Proof using. unfold mark_entry. split_ifs; simpl; by rewrite ?has_lor. Qed.

Lemma legacy_write_ok env addr is_user s pte ptep va ps s' is_write1 :
  truth (Z.land is_write1 1) = true ->
  walk_legacy env addr is_write1 is_user s = (WMap pte ptep va ps, s') ->
  has pte PG_DIRTY_MASK = true /\ protect_ok env is_user true ptep = true.
Proof using.
  intros Hw. unfold walk_legacy. rewrite Hw.
  destruct (ldl _ s) as [pde s1]. destruct (has pde PG_PRESENT_MASK); cbn [negb]; [|done].
  destruct (_ && _).
  - destruct (protect_ok env is_user true pde) eqn:Hp; cbn [negb]; [|done].
    set (a := Z.land _ (a20_mask env)).
    destruct (mark_entry_write a pde s1) as [H1 H2].
    pose proof (mark_entry_user true a pde s1) as H3.
    destruct (mark_entry true a pde s1) as [e s2]. simpl in H1, H2, H3.
    intros [= <- <- _ _ _]. rewrite has_land by done. split; [done|].
    etransitivity; [|exact Hp]. apply protect_ok_rw; rewrite has_land; done.
  - destruct (mark_dir _ _ _) as [pde' s2]. destruct (ldl _ s2) as [pt s3].
    destruct (has pt PG_PRESENT_MASK); cbn [negb]; [|done].
    destruct (protect_ok _ _ _ _) eqn:Hp; cbn [negb]; [|done].
    set (a := Z.land (u32 (Z.land pde' _ + _)) (a20_mask env)).
    destruct (mark_entry_write a pt s3) as [H1 H2].
    destruct (mark_entry true a pt s3) as [e s4]. simpl in H1.
    intros [= <- <- _ _ _]. done.
Qed.

Lemma pae_write_ok env addr is_user s pte ptep va ps s' is_write1 :
  truth (Z.land is_write1 1) = true ->
  walk_pae env addr is_write1 is_user s = (WMap pte ptep va ps, s') ->
  has pte PG_DIRTY_MASK = true /\ protect_ok env is_user true ptep = true.
Proof using.
  intros Hw. unfold walk_pae. rewrite Hw. destruct (ldq _ s) as [pdpe s1].
  destruct (has pdpe PG_PRESENT_MASK); cbn [negb]; [|done]. destruct (ldq _ s1) as [pde s2].
  destruct (has pde PG_PRESENT_MASK); cbn [negb]; [|done].
  destruct (nx_reserved env pde); [done|]. destruct (has pde PG_PSE_MASK).
  - destruct (_ && _); [done|]. destruct (protect_ok _ _ _ _) eqn:Hp; cbn [negb]; [|done].
    set (a := Z.land (u32 (Z.land pdpe _ + _)) (a20_mask env)).
    destruct (mark_entry_write a pde s2) as [H1 _].
    destruct (mark_entry true a pde s2) as [e s3]. simpl in H1.
    intros [= <- <- _ _ _]. by rewrite has_land.
  - destruct (mark_dir _ _ _) as [pde' s3]. destruct (ldq _ s3) as [pt s4].
    destruct (has pt PG_PRESENT_MASK); cbn [negb]; [|done].
    destruct (nx_reserved env pt); [done|].
    destruct (_ && _); [done|]. destruct (protect_ok _ _ _ _) eqn:Hp; cbn [negb]; [|done].
    set (a := Z.land (u32 (Z.land pde' _ + _)) (a20_mask env)).
    destruct (mark_entry_write a pt s4) as [H1 _].
    destruct (mark_entry true a pt s4) as [e s5]. simpl in H1.
    intros [= <- <- _ _ _]. by rewrite has_land.
Qed.

Lemma fault_debug_agrees env addr is_write1 mmu_idx s vaddr paddr prot env' s' :
  flat s -> is_u32 addr -> has (cr4 env) CR4_PAE_MASK = false ->
  cpu_x86_handle_mmu_fault env addr is_write1 mmu_idx s = (SetPage vaddr paddr prot, env', s') ->
  cpu_get_phys_page_debug env addr s = (paddr, s) /\ env' = env.
Proof using.
  intros Hf Ha Hpae. unfold cpu_x86_handle_mmu_fault. rewrite Hpae.
  destruct (has (cr0 env) CR0_PG_MASK) eqn:Hpg; cbn [negb].
  - destruct (walk_legacy _ _ _ _ _) as [w s1] eqn:Ew. destruct w as [ec|pte ptep va ps].
    + unfold do_fault. destruct (has (intercept_exceptions env) _); done.
    + unfold do_mapping. intros [= <- <- <- <- <-]. split; [|done].
      by rewrite (legacy_walk_agrees _ _ _ _ _ _ _ _ _ _ Hf Hpg Hpae Ew).
  - unfold do_mapping. intros [= <- <- <- <- <-]. split; [|done].
    unfold cpu_get_phys_page_debug. by rewrite Hpae, Hpg.
Qed.

(** ** Properties *)


(** A resolved write fault maps the page writable, in every paging mode, so the
    faulting access does not fault again on the same page. *)
Theorem write_fault_maps_writable env addr is_write1 mmu_idx s vaddr paddr prot env' s' :
  truth (Z.land is_write1 1) = true ->
  cpu_x86_handle_mmu_fault env addr is_write1 mmu_idx s = (SetPage vaddr paddr prot, env', s') ->
  has prot PAGE_WRITE = true.
Proof using.
  intros Hw. unfold cpu_x86_handle_mmu_fault.
  destruct (has (cr0 env) CR0_PG_MASK) eqn:Hpg; cbn [negb]; [|unfold do_mapping; by intros [= _ _ <- _ _]].
  destruct (if has (cr4 env) CR4_PAE_MASK then _ else _) as [w s1] eqn:Ew.
  destruct w as [ec|pte ptep va ps].
  - unfold do_fault. destruct (has (intercept_exceptions env) _); done.
  - unfold do_mapping. intros [= _ _ <- _ _].
    assert (has pte PG_DIRTY_MASK = true /\ protect_ok env (mmu_idx =? MMU_USER_IDX) true ptep = true)
      as [H1 H2].
    { destruct (has (cr4 env) CR4_PAE_MASK);
        [by apply pae_write_ok in Ew|by apply legacy_write_ok in Ew]. }
    by apply page_prot_write.
Qed.

(** A fault that is not intercepted reports itself to the guest: vector 14, the
    faulting address in CR2, and an error code whose write and user bits describe
    the access. *)
Theorem mmu_fault_reported env addr is_write1 mmu_idx s ret env' s' :
  has (intercept_exceptions env) (Z.shiftl 1 EXCP0E_PAGE) = false ->
  cpu_x86_handle_mmu_fault env addr is_write1 mmu_idx s = (Fault ret, env', s') ->
  ret = 1 /\ cr2 env' = addr /\ exception_index env' = EXCP0E_PAGE /\
  Z.testbit (error_code env') 1 = truth (Z.land is_write1 1) /\
  Z.testbit (error_code env') 2 = (mmu_idx =? MMU_USER_IDX).
Proof using.
  intros Hi. unfold cpu_x86_handle_mmu_fault.
  destruct (has (cr0 env) CR0_PG_MASK); cbn [negb]; [|done].
  destruct (if has (cr4 env) CR4_PAE_MASK then _ else _) as [w s1] eqn:Ew.
  destruct w as [ec|]; [|done].
  assert (Hec : Z.testbit ec 1 = false /\ Z.testbit ec 2 = false).
  { destruct (has (cr4 env) CR4_PAE_MASK); unfold walk_pae, walk_legacy in Ew;
      repeat case_match; simplify_eq; done. }
  unfold do_fault. rewrite Hi. intros [= <- <- <-].
  cbn -[Z.testbit Z.lor Z.land Z.shiftl truth].
  split; [done|]. split; [done|]. split; [done|].
  assert (Hb1 : Z.testbit (Z.shiftl (Z.land is_write1 1) PG_ERROR_W_BIT) 1 = truth (Z.land is_write1 1)).
  { unfold PG_ERROR_W_BIT. rewrite Z.shiftl_spec by lia.
    change (1 - 1) with 0. rewrite Z.land_spec. change (Z.testbit 1 0) with true.
    rewrite andb_true_r. symmetry. apply (truth_land_bit is_write1 0). lia. }
  assert (Hb2 : Z.testbit (Z.shiftl (Z.land is_write1 1) PG_ERROR_W_BIT) 2 = false).
  { unfold PG_ERROR_W_BIT. rewrite Z.shiftl_spec by lia.
    change (2 - 1) with 1. rewrite Z.land_spec. apply andb_false_r. }
  destruct Hec as [H1 H2]. split.
  - destruct (mmu_idx =? MMU_USER_IDX), ((is_write1 =? 2) && _ && _);
      rewrite ?Z.lor_spec, H1, Hb1; by destruct (truth _).
  - destruct (mmu_idx =? MMU_USER_IDX), ((is_write1 =? 2) && _ && _);
      rewrite ?Z.lor_spec, H2, Hb2; done.
Qed.
Lemma debug_rw_total env is_write fuel : forall addr buf s, is_u32 addr ->
  (length buf <= fuel)%nat ->
  exists ret buf' s', cpu_memory_rw_debug fuel env addr buf is_write s = Some (ret, buf', s')
    /\ length buf' = length buf /\ (ret = 0 \/ ret = -1).
Proof using.
  induction fuel as [|fuel IH]; intros addr buf s Ha Hl.
  - destruct buf; simpl in *; [|lia]. eexists _, _, _. by auto.
  - destruct buf as [|b buf']; [eexists _, _, _; by auto|]. set (buf := b :: buf') in *.
    cbn [cpu_memory_rw_debug]. fold buf.
    destruct (cpu_get_phys_page_debug env (page_base addr) s) as [pa s1].
    destruct (pa =? NO_PAGE); [by eauto 10|].
    destruct (chunk_bounds addr (length buf) Ha ltac:(simpl; lia)) as (Hm & _).
    set (l := Z.min _ _) in *. clearbody l.
    destruct (rw_terminates io_mem_read io_mem_write (Z.to_nat l) (u32 (pa + page_off addr))
      (take (Z.to_nat l) buf) is_write s1) as (c & s2 & -> & Hc).
    { apply wrap_range. lia. }
    { rewrite length_take. lia. }
    destruct (IH (u32 (addr + Z.of_nat (Z.to_nat l))) (drop (Z.to_nat l) buf) s2)
      as (ret & rest & s3 & -> & Hr & Hret).
    { apply wrap_range. lia. }
    { rewrite length_drop. lia. }
    eexists _, _, _. split; [done|]. split; [|done].
    rewrite length_app, Hc, Hr, length_take, length_drop. lia.
Qed.

(** A debug access ends, whatever the page tables are: one step per byte is enough
    fuel, the result is 0 or -1 and the buffer keeps its length. *)
Theorem debug_access_total env addr buf is_write s : is_u32 addr ->
  exists ret buf' s',
    cpu_memory_rw_debug (length buf) env addr buf is_write s = Some (ret, buf', s')
    /\ length buf' = length buf /\ (ret = 0 \/ ret = -1).
Proof using. intros Ha. by apply debug_rw_total. Qed.

(** ** Debug reads on flat memory *)

(** The physical address the debug walk gives a virtual address. *)
Definition debug_page (env : CPUX86State) (s : phys) (a : Z) : Z :=
  (cpu_get_phys_page_debug env (page_base a) s).1.
Definition debug_addr (env : CPUX86State) (s : phys) (a : Z) : Z :=
  u32 (debug_page env s a + page_off a).

Lemma land_page_mod x k : Z.land k 0xfff = 0 -> Z.land x k mod 4096 = 0.
Proof using.
  intros H. change 4096 with (2 ^ 12). rewrite <- Z.land_ones by lia.
  change (Z.ones 12) with 0xfff. by rewrite <- Z.land_assoc, H, Z.land_0_r.
Qed.

Lemma finish_aligned x addr k :
  u32 (Z.land x 0xfffff000 + Z.land (Z.land addr 0xfffff000) k) mod 4096 = 0.
Proof using.
  unfold u32, wrap. rewrite <- (Znumtheory.Zmod_div_mod 4096 (2 ^ 32))
    by (lia || (exists (2 ^ 20); done)).
  rewrite Z.add_mod, land_page_mod, <- Z.land_assoc, (Z.land_comm _ k), Z.land_assoc,
    land_page_mod by done. done.
Qed.

(** The debug walk reads flat memory without changing it, and a page it finds is
    page aligned. *)
Lemma debug_walk_map env a s : flat_map s ->
  exists pa, cpu_get_phys_page_debug env a s = (pa, s) /\ is_u32 pa /\
    (pa = NO_PAGE \/ pa mod 4096 = 0).
Proof using.
  intros Hf.
  assert (Hno : forall s', s' = s -> exists pa, (NO_PAGE, s') = (pa, s) /\ is_u32 pa /\
    (pa = NO_PAGE \/ pa mod 4096 = 0)).
  { intros s' ->. exists NO_PAGE. split; [done|]. split; [unfold in_width, NO_PAGE; lia|auto]. }
  assert (Hok : forall x k, exists pa,
    (u32 (Z.land x 0xfffff000 + Z.land (Z.land a 0xfffff000) k), s) = (pa, s) /\ is_u32 pa /\
    (pa = NO_PAGE \/ pa mod 4096 = 0)).
  { intros x k. eexists. split; [done|]. split; [apply wrap_range; lia|].
    right. apply finish_aligned. }
  assert (Hl : forall b m, ldl (Z.land (u32 b) m) s = (rd s (Z.land (u32 b) m), s)).
  { intros b m. apply ldl_map; [done|]. apply land_width_l; [lia|]. apply wrap_range. lia. }
  unfold cpu_get_phys_page_debug. rewrite !Hl.
  repeat (rewrite Hl || split_ifs); auto.
Qed.

Lemma debug_walk_flat env a s : flat s ->
  exists pa, cpu_get_phys_page_debug env a s = (pa, s) /\ is_u32 pa /\
    (pa = NO_PAGE \/ pa mod 4096 = 0).
Proof using. intros [Hf _]. by apply debug_walk_map. Qed.

Lemma ram_read_shift tr tr' ram n : forall a b,
  (forall i, 0 <= i < Z.of_nat n -> tr (a + i) = tr' (b + i)) ->
  ram_read tr ram a n = ram_read tr' ram b n.
Proof using.
  induction n as [|n IH]; intros a b H; simpl; [done|]. f_equal.
  - f_equal. specialize (H 0 ltac:(lia)). by rewrite !Z.add_0_r in H.
  - apply IH. intros i Hi. specialize (H (i + 1) ltac:(lia)).
    by replace (a + 1 + i) with (a + (i + 1)) by lia; replace (b + 1 + i) with (b + (i + 1)) by lia.
Qed.

Lemma flat_ram s addr len : flat_map s -> 0 <= addr -> addr + len <= 2 ^ 32 ->
  ram_range s addr len /\ forall a, addr <= a < addr + len -> translate s a = a.
Proof using.
  intros Hf H0 H1.
  assert (Hd : forall a, is_u32 a -> page_desc (page_base a) s = page_base a).
  { intros a Ha. rewrite Hf; [apply page_base_base|]. by apply land_width_l. }
  split; [split; [done|]; split; [done|]|]; intros a Ha; assert (is_u32 a) by (unfold in_width; lia).
  - unfold is_ram. rewrite Hd by done. apply page_off_base.
  - unfold translate. rewrite Hd by done. by apply ram_addr_flat.
Qed.

Lemma debug_addr_chunk env s addr n : flat s -> is_u32 addr ->
  page_off addr + Z.of_nat n <= 4096 -> debug_page env s addr <> NO_PAGE ->
  debug_addr env s addr = debug_page env s addr + page_off addr /\
  debug_page env s addr + 4096 <= 2 ^ 32 /\ 0 <= debug_page env s addr /\
  forall i, 0 <= i < Z.of_nat n -> debug_addr env s (addr + i) = debug_addr env s addr + i.
Proof using.
  intros Hf Ha Ho Hp.
  destruct (debug_walk_flat env (page_base addr) s Hf) as (pa & Hw & Hu & Hpa).
  unfold debug_addr, debug_page in *. rewrite Hw in *. simpl in *. destruct Hpa as [|Hpa]; [done|].
  destruct (page_split addr Ha) as (_ & Hr & _).
  assert (Hb : 0 <= pa /\ pa + 4096 <= 2 ^ 32).
  { pose proof (Z.div_mod pa 4096 ltac:(lia)). unfold in_width in Hu. lia. }
  split; [apply wrap_small; unfold in_width; lia|]. split; [lia|]. split; [lia|].
  intros i Hi. destruct (same_page addr i Ha ltac:(lia) ltac:(lia)) as [-> ->].
  rewrite Hw. simpl. unfold u32. rewrite !wrap_small by (unfold in_width; lia). lia.
Qed.

Lemma debug_read_ram env s fuel : flat s -> forall addr buf, 0 <= addr ->
  addr + Z.of_nat (length buf) <= 2 ^ 32 ->
  (forall a, addr <= a < addr + Z.of_nat (length buf) -> debug_page env s a <> NO_PAGE) ->
  (length buf <= fuel)%nat ->
  cpu_memory_rw_debug fuel env addr buf false s =
  Some (0, ram_read (debug_addr env s) (phys_ram s) addr (length buf), s).
Proof using.
  intros Hf. induction fuel as [|fuel IH]; intros addr buf H0 H1 Hp Hl.
  - destruct buf; simpl in *; [done|lia].
  - destruct buf as [|b buf']; [done|]. set (buf := b :: buf') in *.
    assert (Hlen : (0 < length buf)%nat) by (simpl; lia).
    assert (Ha : is_u32 addr) by (unfold in_width; lia).
    cbn [cpu_memory_rw_debug]. fold buf.
    destruct (debug_walk_flat env (page_base addr) s Hf) as (pa & Hw & Hu & Hpa).
    assert (Hpa' : debug_page env s addr = pa) by (unfold debug_page; by rewrite Hw).
    rewrite Hw. specialize (Hp addr ltac:(lia)) as Hp0.
    rewrite (proj2 (Z.eqb_neq pa NO_PAGE)) by congruence.
    destruct (chunk_bounds addr (length buf) Ha Hlen) as (Hm & Ho & _).
    set (l := Z.min _ _) in *. clearbody l.
    destruct (debug_addr_chunk env s addr (Z.to_nat l) Hf Ha ltac:(lia) Hp0) as (D1 & D2 & D3 & D4).
    replace (u32 (pa + page_off addr)) with (debug_addr env s addr)
      by (unfold debug_addr; by rewrite Hpa').
    destruct (page_split addr Ha) as (_ & Hr & _).
    assert (Hc : length (take (Z.to_nat l) buf) = Z.to_nat l) by (rewrite length_take; lia).
    destruct (flat_ram s (debug_addr env s addr) l (proj1 Hf) ltac:(lia) ltac:(lia)) as [Hram Htr].
    rewrite rw_read_ram by (rewrite Hc, ?Z2Nat.id by lia; done || lia). rewrite Hc.
    rewrite (ram_read_shift (translate s) (debug_addr env s) _ _ _ addr)
      by (intros i Hi; rewrite D4 by lia; apply Htr; lia).
    destruct (decide (l = Z.of_nat (length buf))) as [El|El].
    + rewrite drop_ge by lia. replace (length buf) with (Z.to_nat l) by lia.
      destruct fuel; simpl; by rewrite app_nil_r.
    + unfold u32. rewrite wrap_small by (unfold in_width; lia).
      rewrite IH; rewrite ?length_drop; [|lia|lia| |lia].
      * do 2 f_equal. rewrite <- ram_read_app. do 2 f_equal. lia.
      * intros a Hx. apply Hp. lia.
Qed.

(** A debug read of flat memory changes nothing. *)
Lemma debug_read_same env s fuel : flat_map s -> forall addr buf r b s', is_u32 addr ->
  cpu_memory_rw_debug fuel env addr buf false s = Some (r, b, s') -> s' = s.
Proof using.
  intros Hf. induction fuel as [|fuel IH]; intros addr buf r b s' Ha; destruct buf as [|x buf'];
    cbn [cpu_memory_rw_debug]; try done; try (by intros [= _ _ <-]). set (buf := x :: buf').
  destruct (debug_walk_map env (page_base addr) s Hf) as (pa & -> & Hu & Hpa).
  destruct (Z.eqb_spec pa NO_PAGE) as [|Hn]; [by intros [= _ _ <-]|]. destruct Hpa as [|Hpa]; [done|].
  destruct (chunk_bounds addr (length buf) Ha ltac:(simpl; lia)) as (Hm & Ho & _).
  set (l := Z.min _ _) in *. clearbody l. destruct (page_split addr Ha) as (_ & Hr & _).
  assert (Hb : 0 <= pa /\ pa + 4096 <= 2 ^ 32).
  { pose proof (Z.div_mod pa 4096 ltac:(lia)). unfold in_width in Hu. lia. }
  assert (Hc : length (take (Z.to_nat l) buf) = Z.to_nat l) by (rewrite length_take; lia).
  unfold u32 at 1. rewrite (wrap_small 32 (pa + _)) by (unfold in_width; lia).
  destruct (flat_ram s (pa + page_off addr) l Hf ltac:(lia) ltac:(lia)) as [Hram _].
  rewrite rw_read_ram by (rewrite Hc, ?Z2Nat.id by lia; done || lia).
  destruct (cpu_memory_rw_debug fuel _ _ _ _ s) as [[[r' b'] s1]|] eqn:E; [|done]. intros [= _ _ <-].
  eapply IH; [|exact E]. apply wrap_range. lia.
Qed.

(** What a debug read returns: on flat memory, where every page of the range is
    mapped, [cpu_memory_rw_debug] succeeds and each byte is the byte of RAM at the
    address the debug walk translates that virtual address to, across page
    boundaries; neither memory nor the page tables change. *)
Theorem debug_read_bytes env s addr buf : flat s -> 0 <= addr ->
  addr + Z.of_nat (length buf) <= 2 ^ 32 ->
  (forall a, addr <= a < addr + Z.of_nat (length buf) -> debug_page env s a <> NO_PAGE) ->
  cpu_memory_rw_debug (length buf) env addr buf false s =
  Some (0, ram_read (debug_addr env s) (phys_ram s) addr (length buf), s).
Proof using. intros. by apply debug_read_ram. Qed.

(** ** The TLB and the control registers *)

Inductive mmu_op : Type :=
| SetA20 (a20_state : Z) | UpdateCr0 (v : Z) | UpdateCr3 (v : Z) | UpdateCr4 (v : Z).

Definition mmu_exec (op : mmu_op) (env : CPUX86State) : CPUX86State :=
  match op with
  | SetA20 v => cpu_x86_set_a20 v env
  | UpdateCr0 v => cpu_x86_update_cr0 v env
  | UpdateCr3 v => cpu_x86_update_cr3 v env
  | UpdateCr4 v => cpu_x86_update_cr4 v env
  end.

(** The registers the walk depends on. *)
Definition same_mmu (e e' : CPUX86State) : Prop :=
  has (cr0 e) CR0_PG_MASK = has (cr0 e') CR0_PG_MASK /\
  has (cr0 e) CR0_WP_MASK = has (cr0 e') CR0_WP_MASK /\
  has (cr4 e) CR4_PAE_MASK = has (cr4 e') CR4_PAE_MASK /\
  has (cr4 e) CR4_PSE_MASK = has (cr4 e') CR4_PSE_MASK /\
  (has (cr0 e) CR0_PG_MASK = true -> cr3 e = cr3 e') /\
  a20_mask e = a20_mask e' /\ efer e = efer e' /\
  intercept_exceptions e = intercept_exceptions e' /\ vm_vmcb e = vm_vmcb e'.

Lemma same_mmu_translates e e' : same_mmu e e' -> forall addr w idx s,
  let r := cpu_x86_handle_mmu_fault e addr w idx s in
  let r' := cpu_x86_handle_mmu_fault e' addr w idx s in
  r.1.1 = r'.1.1 /\ r.2 = r'.2.
Proof using.
  intros (H1 & H2 & H3 & H4 & H5 & H6 & H7 & H8 & H9) addr w idx s.
  unfold cpu_x86_handle_mmu_fault. rewrite <- H1, <- H3.
  destruct (has (cr0 e) CR0_PG_MASK); cbn [negb]; cycle 1.
  { unfold do_mapping. simpl. by rewrite H6. }
  assert (Hp : forall u w p, protect_ok e u w p = protect_ok e' u w p)
    by (intros; unfold protect_ok; by rewrite H2).
  assert (Hpp : forall u x y, page_prot e u x y = page_prot e' u x y)
    by (intros; unfold page_prot; by rewrite H2).
  assert (Hn : forall x, nx_reserved e x = nx_reserved e' x)
    by (intros; unfold nx_reserved; by rewrite H7).
  assert (E : (if has (cr4 e) CR4_PAE_MASK then walk_pae e addr w (idx =? MMU_USER_IDX) s
               else walk_legacy e addr w (idx =? MMU_USER_IDX) s)
            = (if has (cr4 e) CR4_PAE_MASK then walk_pae e' addr w (idx =? MMU_USER_IDX) s
               else walk_legacy e' addr w (idx =? MMU_USER_IDX) s)).
  { unfold walk_pae, walk_legacy. rewrite H4, H5, H6 by done.
    destruct (has (cr4 e) CR4_PAE_MASK);
      repeat (rewrite ?Hp, ?Hn; first [reflexivity|case_match]). }
  rewrite E. clear E.
  destruct (if has (cr4 e) _ then walk_pae e' _ _ _ _ else _) as [[ec|pte ptep va ps] s1].
  - unfold do_fault. rewrite H8, H9.
    by destruct (has (intercept_exceptions e') (Z.shiftl 1 EXCP0E_PAGE)).
  - simpl. unfold do_mapping. by rewrite Hpp, H6.
Qed.

Lemma has_masked x y m k : Z.land x m = Z.land y m -> Z.land k m = k -> has x k = has y k.
Proof using.
  intros H Hk. unfold has. rewrite <- Hk, (Z.land_comm k m), !Z.land_assoc, H. done.
Qed.

(** No stale translation: an operation on the control registers or the A20 gate
    that does not flush the TLB leaves every translation, and the effect of every
    fault on the page tables, as it was. *)
Theorem mmu_change_flushes op env addr w idx s :
  tlb_flushes (mmu_exec op env) = tlb_flushes env ->
  (cpu_x86_handle_mmu_fault (mmu_exec op env) addr w idx s).1.1
    = (cpu_x86_handle_mmu_fault env addr w idx s).1.1 /\
  (cpu_x86_handle_mmu_fault (mmu_exec op env) addr w idx s).2
    = (cpu_x86_handle_mmu_fault env addr w idx s).2.
Proof using.
  intros H. apply same_mmu_translates. revert H.
  assert (Hc : forall (x : Z) l, x :: l <> l)
    by (intros x l Hx; apply (f_equal length) in Hx; simpl in Hx; lia).
  destruct op as [v|v|v|v]; simpl.
  - unfold cpu_x86_set_a20. destruct (negb _); [intros H; by apply Hc in H|done].
  - unfold cpu_x86_update_cr0. destruct (negb _) eqn:E; [intros H; by apply Hc in H|].
    intros _. to_prop. unfold same_mmu. simpl. rewrite !has_lor by done.
    rewrite !(has_masked v (cr0 env) _ _ E) by done. done.
  - unfold cpu_x86_update_cr3. cbn.
    destruct (has (cr0 env) CR0_PG_MASK) eqn:E; [intros H; by apply Hc in H|].
    unfold same_mmu. cbn. rewrite E. done.
  - unfold cpu_x86_update_cr4. destruct (negb (_ =? _)) eqn:E.
    { intros H. exfalso. revert H. destruct (negb _), (has _ CR4_OSFXSR_MASK); cbn; apply Hc. }
    intros _. to_prop.
    assert (Hh : forall k, Z.land k cr4_mmu_bits = k ->
      has (Z.land v (Z.lnot CR4_OSFXSR_MASK)) k = has (cr4 env) k /\ has v k = has (cr4 env) k).
    { intros k Hk. rewrite (has_masked v (cr4 env) _ _ E Hk). split; [|done].
      rewrite <- (has_masked v (cr4 env) _ _ E Hk). apply has_land.
      rewrite <- Hk. rewrite Z.land_comm, <- Z.land_assoc. f_equal. }
    destruct (Hh CR4_PAE_MASK eq_refl), (Hh CR4_PSE_MASK eq_refl).
    unfold same_mmu. destruct (negb _), (has _ CR4_OSFXSR_MASK); cbn; auto 10.
Qed.
End Walk.

(** ** A concrete machine

    4 GB of flat RAM with a page directory at [0x1000] and one page table at [0x2000],
    which maps the virtual page [0x1000] to the physical page [0x5000], and the page
    [0x2000] to [0x9000]; both are writable by the user. *)

Definition flat_ram_bytes (x : Z) : Z :=
  if x =? 0x1000 then 0x07 else if x =? 0x1001 then 0x20 else
  if x =? 0x2004 then 0x07 else if x =? 0x2005 then 0x50 else
  if x =? 0x2008 then 0x07 else if x =? 0x2009 then 0x90 else
  if x =? 0x5ffe then 0x78 else if x =? 0x5fff then 0x56 else
  if x =? 0x9000 then 0x34 else if x =? 0x9001 then 0x12 else 0.

Fixpoint pages_from (n : nat) (v : Z) : list Z :=
  match n with O => [] | S n' => v :: pages_from n' (v + 4096) end.


Definition flat_phys : phys (D := unit) :=
  mkPhys (fun i => Some (pages_from 1024 (i * 4194304))) flat_ram_bytes (fun _ => 0) tt [].

Definition flat_cpu : CPUX86State :=
  mkCPU (replicate 8 0) 0 0 (Z.lor CR0_PG_MASK CR0_PE_MASK) 0 0x1000 0 0 0xffffffff 0 0 0 0 0 [] [].

Lemma lookup_pages_from n : forall v i, (i < n)%nat ->
  pages_from n v !! i = Some (v + Z.of_nat i * 4096).
Proof.
  induction n as [|n IH]; intros v [|i] Hi; simpl; [lia|lia|f_equal; lia|].
  rewrite IH by lia. f_equal. lia.
Qed.

Lemma flat_phys_desc a : is_u32 a -> page_desc a flat_phys = page_base a.
Proof.
  intros Ha. destruct (page_split a Ha) as (Hs & Ho & Hm & Hb). unfold in_width in Ha.
  unfold page_desc, phys_page_find, phys_page_find_alloc, TARGET_PAGE_BITS, L2_BITS,
    L1_SIZE, L2_SIZE.
  rewrite !Z.shiftr_div_pow2 by lia.
  change (1024 - 1) with (Z.ones 10). rewrite !Z.land_ones by lia.
  change (2 ^ 12) with 4096. change (2 ^ 10) with 1024.
  pose proof (Z.div_mod (page_base a) 4096 ltac:(lia)) as Hd.
  assert (Hq : a / 4096 = page_base a / 4096).
  { symmetry. apply Z.div_unique with (page_off a); lia. }
  rewrite Hq. set (q := page_base a / 4096) in *.
  pose proof (Z.div_mod q 1024 ltac:(lia)) as Hd2. pose proof (Z.mod_pos_bound q 1024 ltac:(lia)).
  rewrite (Z.mod_small (q / 1024)) by lia.
  cbn [l1_phys_map flat_phys snd]. rewrite lookup_pages_from by lia. simpl. lia.
Qed.

Lemma flat_phys_flat : flat flat_phys.
Proof.
  split; [exact flat_phys_desc|]. intros x. cbn [phys_ram flat_phys]. unfold flat_ram_bytes.
  split_ifs; unfold in_width; lia.
Qed.

Lemma flat_write_fault :
  (cpu_x86_handle_mmu_fault no_read no_write flat_cpu 0x1234 1 1 flat_phys).1.1
    = SetPage 0x1000 0x5000 7.
Proof. by vm_compute. Qed.


Lemma write_fault_maps_writable_witness : exists prot env' s',
  cpu_x86_handle_mmu_fault no_read no_write flat_cpu 0x1234 1 1 flat_phys
    = (SetPage 0x1000 0x5000 prot, env', s') /\ has prot PAGE_WRITE = true.
Proof.
  destruct (cpu_x86_handle_mmu_fault no_read no_write flat_cpu 0x1234 1 1 flat_phys)
    as [[r env'] s'] eqn:E.
  assert (Hr : r = SetPage 0x1000 0x5000 7).
  { pose proof flat_write_fault as H. rewrite E in H. exact H. }
  subst r. exists 7, env', s'. split; [reflexivity|].
  exact (write_fault_maps_writable no_read no_write flat_cpu 0x1234 1 1 flat_phys _ _ _ _ _
    eq_refl E).
Defined.

Lemma mmu_fault_reported_witness : exists env' s',
  cpu_x86_handle_mmu_fault no_read no_write flat_cpu 0x7234 1 1 flat_phys = (Fault 1, env', s') /\
  cr2 env' = 0x7234 /\ Z.testbit (error_code env') 1 = true.
Proof.
  destruct (cpu_x86_handle_mmu_fault no_read no_write flat_cpu 0x7234 1 1 flat_phys)
    as [[r env'] s'] eqn:E.
  assert (Hr : r = Fault 1).
  { assert (H : (cpu_x86_handle_mmu_fault no_read no_write flat_cpu 0x7234 1 1 flat_phys).1.1
      = Fault 1) by (by vm_compute).
    rewrite E in H. exact H. }
  subst r.
  destruct (mmu_fault_reported no_read no_write flat_cpu 0x7234 1 1 flat_phys 1 env' s' eq_refl E)
    as (_ & H2 & _ & H4 & _).
  exists env', s'. split; [reflexivity|]. split; [exact H2|exact H4].
Defined.

Lemma debug_access_total_witness : exists ret buf' s',
  cpu_memory_rw_debug no_read no_write 4 flat_cpu 0x6ffe [0; 0; 0; 0] false flat_phys
    = Some (ret, buf', s') /\ length buf' = 4%nat /\ (ret = 0 \/ ret = -1).
Proof.
  apply (debug_access_total no_read no_write flat_cpu 0x6ffe [0; 0; 0; 0]).
  unfold in_width. lia.
Defined.

(** A word that straddles the two mapped pages. *)
Lemma debug_read_bytes_witness :
  cpu_memory_rw_debug no_read no_write 4 flat_cpu 0x1ffe [0; 0; 0; 0] false flat_phys
    = Some (0, [0x78; 0x56; 0x34; 0x12], flat_phys).
Proof.
  assert (Hb : ram_read (debug_addr no_read flat_cpu flat_phys) (phys_ram flat_phys) 0x1ffe 4
    = [0x78; 0x56; 0x34; 0x12]) by (by vm_compute).
  rewrite <- Hb.
  apply (debug_read_bytes no_read no_write flat_cpu flat_phys 0x1ffe [0; 0; 0; 0] flat_phys_flat).
  - lia.
  - cbn. lia.
  - cbn [length]. intros a Ha.
    assert (H : forallb (fun i => negb (debug_page no_read flat_cpu flat_phys (0x1ffe + Z.of_nat i)
      =? NO_PAGE)) (seq 0 4) = true) by (by vm_compute).
    rewrite forallb_forall in H. specialize (H (Z.to_nat (a - 0x1ffe))).
    rewrite Z2Nat.id in H by lia. replace (0x1ffe + (a - 0x1ffe)) with a in H by lia.
    intros E. rewrite E in H. discriminate H. apply in_seq. lia.
Defined.

Lemma mmu_change_flushes_witness :
  tlb_flushes (mmu_exec (UpdateCr4 CR4_OSFXSR_MASK) flat_cpu) = [] /\
  (cpu_x86_handle_mmu_fault no_read no_write (mmu_exec (UpdateCr4 CR4_OSFXSR_MASK) flat_cpu)
     0x1234 1 1 flat_phys).1.1
  = (cpu_x86_handle_mmu_fault no_read no_write flat_cpu 0x1234 1 1 flat_phys).1.1.
Proof.
  split; [reflexivity|].
  apply (mmu_change_flushes no_read no_write (UpdateCr4 CR4_OSFXSR_MASK) flat_cpu
    0x1234 1 1 flat_phys).
  reflexivity.
Defined.

End Mmu.
