(* ===== verification/Machine.v ===== *)
(** * The machine MemCheck looks at

    The interface [Machine] (src/MemCheck-qemu/contrib/MemCheck/Machine.h), through
    which the interceptor and the checker see the guest's CPU, and its implementation
    for the i386 target of QEMU (MachineQEMUi386.cpp): the kernel's calling convention
    and the walk of its stack frames.  A read of guest memory goes through
    [cpu_memory_rw_debug] and may reach a device, so an operation that reads memory
    returns the machine it leaves. *)

From Stdlib Require Import String.
From S2P Require Import Prelude Bytes IntervalMap SymbolTable PhysMem Mmu.
Import PhysMem Mmu.

Module Machine.

(** What a stack trace prints. *)
Inductive trace_line : Type :=
| TraceHead
| TraceSym (depth : Z) (name : string) (offset pc : Z)
| TracePC (depth pc : Z).

Class Machine (C : Type) := {
  GetReturnValue : C -> Z;
  GetReturnAddress : C -> Z * C;
  GetArgumentN : C -> Z -> Z * C;
  GetArgument1 : C -> Z;
  GetArgument2 : C -> Z;
  GetPC : C -> Z;
  ReadMemory : C -> Z -> list Z -> list Z * C;
  StackTrace : C -> SymbolTable.SymbolTable -> list trace_line * C;
  StackTraceAtFunction : C -> SymbolTable.SymbolTable -> list trace_line * C;
}.

(** ** QEMU, i386 *)

Definition R_EAX : nat := 0.
Definition R_ECX : nat := 1.
Definition R_EDX : nat := 2.
Definition R_ESP : nat := 4.
Definition R_EBP : nat := 5.

Section QEMU.
Context {D : Type}.
Context (io_mem_read : Z -> Z -> D -> Z -> Z * D).
Context (io_mem_write : Z -> Z -> D -> Z -> Z -> D).
(** The bytes an uninitialised local holds, for each of the reads below: a read that
    fails leaves them in place. *)
Context (uninit : Z -> list Z).

Abbreviation cpu := (CPUX86State * phys (D := D))%type.

Definition reg (c : cpu) (r : nat) : Z := default 0 (regs c.1 !! r).

(** [cpu_memory_rw_debug(cpuState, address, buf, sizeof buf, 0)], result ignored. *)
Definition debug_read (c : cpu) (address : Z) (buf : list Z) : list Z * cpu :=
  match cpu_memory_rw_debug io_mem_read io_mem_write (length buf) c.1 (u32 address) buf false c.2
  with
  | Some (_, buf', s') => (buf', (c.1, s'))
  | None => (buf, c)
  end.

(** The read of a 32-bit local on a little endian host. *)
Definition debug_word (c : cpu) (address : Z) (old : list Z) : Z * cpu :=
  let '(buf, c) := debug_read c address old in (le_value buf, c).

Definition i386_GetReturnValue (c : cpu) : Z := reg c R_EAX.

Definition i386_GetReturnAddress (c : cpu) : Z * cpu :=
  debug_word c (reg c R_ESP) (uninit 0).

Definition i386_GetArgumentN (c : cpu) (argN : Z) : Z * cpu :=
  if argN =? 1 then (reg c R_EAX, c)
  else if argN =? 2 then (reg c R_EDX, c)
  else if argN =? 3 then (reg c R_ECX, c)
  else debug_word c (u32 (reg c R_ESP + 4 + 4 * (argN - 3 - 1))) (uninit 0).

Definition i386_GetArgument1 (c : cpu) : Z := reg c R_EAX.
Definition i386_GetArgument2 (c : cpu) : Z := reg c R_EDX.
Definition i386_GetPC (c : cpu) : Z := eip c.1.

Definition i386_ReadMemory (c : cpu) (address : Z) (buf : list Z) : list Z * cpu :=
  debug_read c address buf.

Definition PrintPC (depth pc : Z) (t : SymbolTable.SymbolTable) : trace_line :=
  match SymbolTable.Lookup_address t pc with
  | Some symbol =>
    TraceSym depth (SymbolTable.m_Name symbol) (u32 (pc - SymbolTable.m_Address symbol)) pc
  | None => TracePC depth pc
  end.

(** The loop over the frames; [fuel] is [20 - depth], the iterations its first test
    leaves. *)
Fixpoint recurse_frames (fuel : nat) (c : cpu) (t : SymbolTable.SymbolTable)
    (framePointer depth : Z) : list trace_line * cpu :=
  match fuel with
  | O => ([], c)
  | S fuel' =>
    if framePointer =? 0 then ([], c) else
    let '(returnAddress, c) := debug_word c (u32 (framePointer + 4)) (uninit depth) in
    if returnAddress =? 0 then ([], c) else
    let line := PrintPC depth returnAddress t in
    let '(framePointer, c) := debug_word c framePointer (le_bytes 4 framePointer) in
    let '(lines, c) := recurse_frames fuel' c t framePointer (depth + 1) in
    (line :: lines, c)
  end.

Definition RecurseStackTrace (c : cpu) (t : SymbolTable.SymbolTable) (framePointer depth : Z)
  : list trace_line * cpu :=
  recurse_frames (Z.to_nat (20 - depth)) c t framePointer depth.

Definition i386_StackTraceAtFunction (c : cpu) (t : SymbolTable.SymbolTable)
  : list trace_line * cpu :=
  let here := PrintPC 0 (eip c.1) t in
  let '(returnAddress, c) := debug_word c (reg c R_ESP) (uninit 0) in
  let caller := PrintPC 1 returnAddress t in
  let '(lines, c) := RecurseStackTrace c t (reg c R_EBP) 2 in
  (TraceHead :: here :: caller :: lines, c).

Definition i386_StackTrace (c : cpu) (t : SymbolTable.SymbolTable) : list trace_line * cpu :=
  let here := PrintPC 0 (eip c.1) t in
  let '(lines, c) := RecurseStackTrace c t (reg c R_EBP) 1 in
  (TraceHead :: here :: lines, c).

#[global] Instance MachineQEMU : Machine cpu := {
  GetReturnValue := i386_GetReturnValue;
  GetReturnAddress := i386_GetReturnAddress;
  GetArgumentN := i386_GetArgumentN;
  GetArgument1 := i386_GetArgument1;
  GetArgument2 := i386_GetArgument2;
  GetPC := i386_GetPC;
  ReadMemory := i386_ReadMemory;
  StackTrace := i386_StackTrace;
  StackTraceAtFunction := i386_StackTraceAtFunction;
}.

(** ** The trace is bounded *)

Lemma recurse_bounded fuel : forall c t fp depth,
  (length (recurse_frames fuel c t fp depth).1 <= fuel)%nat.
Proof using.
  induction fuel as [|fuel IH]; intros c t fp depth; simpl; [lia|].
  destruct (fp =? 0); [simpl; lia|].
  destruct (debug_word c _ _) as [ra c1]. destruct (ra =? 0); [simpl; lia|].
  destruct (debug_word c1 _ _) as [fp' c2].
  specialize (IH c2 t fp' (depth + 1)). destruct (recurse_frames _ _ _ _ _) as [ls c3].
  simpl in *. lia.
Qed.

(** Whatever the frame pointers of the guest form, a cycle included, a stack trace
    prints at most its heading and 20 program counters. *)
Theorem stack_trace_bounded c t :
  (length (i386_StackTrace c t).1 <= 21)%nat /\
  (length (i386_StackTraceAtFunction c t).1 <= 21)%nat.
Proof using.
  unfold i386_StackTrace, i386_StackTraceAtFunction, RecurseStackTrace. split.
  - pose proof (recurse_bounded (Z.to_nat (20 - 1)) c t (reg c R_EBP) 1) as H.
    destruct (recurse_frames _ _ _ _ _) as [ls c']. simpl in *. lia.
  - destruct (debug_word c _ _) as [ra c1].
    pose proof (recurse_bounded (Z.to_nat (20 - 2)) c1 t (reg c1 R_EBP) 2) as H.
    destruct (recurse_frames _ _ _ _ _) as [ls c']. simpl in *. lia.
Qed.

(** ** The trace of a chain of frames *)

(** The word at a virtual address of flat memory, through the debug walk. *)
Definition word_at (c : cpu) (a w : Z) : Prop :=
  0 <= a /\ a + 4 <= 2 ^ 32 /\
  (forall x, a <= x < a + 4 -> debug_page io_mem_read c.1 c.2 x <> NO_PAGE) /\
  le_value (ram_read (debug_addr io_mem_read c.1 c.2) (phys_ram c.2) a 4) = w.

Lemma debug_word_at c a w old : flat c.2 -> length old = 4%nat -> word_at c a w ->
  debug_word c a old = (w, c).
Proof using.
  intros Hf Ho (H0 & H1 & Hp & Hw). unfold debug_word, debug_read.
  unfold u32. rewrite wrap_small by (unfold in_width; lia).
  rewrite debug_read_bytes; [|done|done|rewrite Ho; lia|rewrite Ho; exact Hp].
  rewrite Ho, Hw. by destruct c.
Qed.

(** Frames linked through the saved frame pointers, from the innermost outwards: each
    holds the caller's frame pointer at 0 and the return address at 4. *)
Inductive frame_chain (c : cpu) : Z -> list Z -> Prop :=
| chain_end : frame_chain c 0 []
| chain_stop fp : fp <> 0 -> word_at c (u32 (fp + 4)) 0 -> frame_chain c fp []
| chain_frame fp fp' ra ras :
    fp <> 0 -> ra <> 0 -> word_at c (u32 (fp + 4)) ra -> word_at c fp fp' ->
    frame_chain c fp' ras -> frame_chain c fp (ra :: ras).

(** The lines printed for return addresses, numbered from [depth]. *)
Fixpoint number_lines (t : SymbolTable.SymbolTable) (depth : Z) (pcs : list Z)
  : list trace_line :=
  match pcs with
  | [] => []
  | pc :: pcs' => PrintPC depth pc t :: number_lines t (depth + 1) pcs'
  end.

Lemma recurse_chain c t fp ras : flat c.2 -> (forall i, length (uninit i) = 4%nat) ->
  frame_chain c fp ras -> forall fuel depth,
  recurse_frames fuel c t fp depth = (number_lines t depth (take fuel ras), c).
Proof using.
  intros Hf Hu Hch. induction Hch as [|fp H0 Hw|fp fp' ra ras H0 H1 Hra Hfp Hch IH];
    intros [|fuel] depth; try done; cbn [recurse_frames].
  - rewrite (proj2 (Z.eqb_neq fp 0) H0). by rewrite (debug_word_at c _ 0).
  - rewrite (proj2 (Z.eqb_neq fp 0) H0), (debug_word_at c _ ra) by done.
    rewrite (proj2 (Z.eqb_neq ra 0) H1), (debug_word_at c _ fp') by done.
    by rewrite IH.
Qed.

(** On a well formed stack the trace is the list of the active calls: the program
    counter, then the return addresses of the frames linked from EBP, innermost
    first, numbered from 1 and cut at 19 frames; reading them changes nothing. *)
Theorem stack_trace_frames c t ras : flat c.2 -> (forall i, length (uninit i) = 4%nat) ->
  frame_chain c (reg c R_EBP) ras ->
  i386_StackTrace c t
  = (TraceHead :: number_lines t 0 (eip c.1 :: take 19 ras), c).
Proof using.
  intros Hf Hu Hch. unfold i386_StackTrace, RecurseStackTrace.
  by rewrite (recurse_chain c t _ ras Hf Hu Hch).
Qed.

(** The calling convention of the guest kernel (three arguments in registers, the
    others on the stack above the return address): on mapped memory the return
    address is the word at ESP, and argument [n] of a function just entered is EAX,
    EDX, ECX, or the word at [ESP + 4 * (n - 3)]. *)
Theorem calling_convention c n ra w : flat c.2 -> (forall i, length (uninit i) = 4%nat) ->
  word_at c (reg c R_ESP) ra -> 4 <= n -> word_at c (u32 (reg c R_ESP + 4 * (n - 3))) w ->
  i386_GetReturnAddress c = (ra, c) /\
  i386_GetArgumentN c 1 = (i386_GetArgument1 c, c) /\
  i386_GetArgumentN c 2 = (i386_GetArgument2 c, c) /\
  i386_GetArgumentN c 3 = (reg c R_ECX, c) /\
  i386_GetArgumentN c n = (w, c).
Proof using.
  intros Hf Hu Hra Hn Hw. unfold i386_GetReturnAddress.
  rewrite (debug_word_at c _ ra) by done. do 4 (split; [done|]).
  unfold i386_GetArgumentN.
  rewrite !(proj2 (Z.eqb_neq n _)) by lia.
  replace (reg c R_ESP + 4 + 4 * (n - 3 - 1)) with (reg c R_ESP + 4 * (n - 3)) by lia.
  by rewrite (debug_word_at c _ w).
Qed.
End QEMU.

(** ** A guest in a call

    Two frames on the stack page of the machine of [Mmu]: the function just entered
    returns to [0xc0100055] and has a fourth argument 7; EBP points to the caller's
    frame, which returns to [0xc0100010]. *)

Definition call_cpu : CPUX86State * phys (D := unit) :=
  (flat_cpu <| regs := [11; 33; 22; 0; 0x1000; 0x1100; 0; 0] |> <| eip := 0xc0100060 |>,
   ram_store 0x5104 (le_bytes 4 0xc0100010) (ram_store 0x5100 (le_bytes 4 0)
     (ram_store 0x5004 (le_bytes 4 7) (ram_store 0x5000 (le_bytes 4 0xc0100055) flat_phys)))).

Definition zeros (_ : Z) : list Z := [0; 0; 0; 0].

Lemma call_cpu_flat : flat call_cpu.2.
Proof. repeat apply flat_store. apply flat_phys_flat. Qed.

Definition mapped (c : CPUX86State * phys (D := unit)) (a : Z) : bool :=
  forallb (fun i => negb (debug_page no_read c.1 c.2 (a + Z.of_nat i) =? NO_PAGE)) (seq 0 4).

Lemma mapped_word c a w : 0 <= a -> a + 4 <= 2 ^ 32 -> mapped c a = true ->
  le_value (ram_read (debug_addr no_read c.1 c.2) (phys_ram c.2) a 4) = w -> word_at no_read c a w.
Proof.
  intros H0 H1 Hm Hw. split; [done|]. split; [done|]. split; [|done].
  intros x Hx E. unfold mapped in Hm. rewrite forallb_forall in Hm.
  specialize (Hm (Z.to_nat (x - a))). rewrite Z2Nat.id in Hm by lia.
  replace (a + (x - a)) with x in Hm by lia. rewrite E in Hm. discriminate Hm.
  apply in_seq. lia.
Qed.

Ltac solve_word := apply mapped_word; [lazy; congruence|lazy; congruence
  |lazy; reflexivity|lazy; reflexivity].

Lemma call_cpu_chain : frame_chain no_read call_cpu (reg call_cpu R_EBP) [0xc0100010].
Proof.
  apply chain_frame with 0; [by lazy|by lazy|solve_word|solve_word|constructor].
Qed.

Lemma stack_trace_frames_witness :
  (i386_StackTrace no_read no_write zeros call_cpu SymbolTable.empty_table).1
  = [TraceHead; TracePC 0 0xc0100060; TracePC 1 0xc0100010].
Proof.
  rewrite (stack_trace_frames no_read no_write zeros call_cpu SymbolTable.empty_table _
    call_cpu_flat (fun _ => eq_refl) call_cpu_chain).
  reflexivity.
Defined.

Lemma calling_convention_witness :
  (i386_GetReturnAddress no_read no_write zeros call_cpu).1 = 0xc0100055 /\
  (i386_GetArgumentN no_read no_write zeros call_cpu 4).1 = 7.
Proof.
  destruct (calling_convention no_read no_write zeros call_cpu 4 0xc0100055 7 call_cpu_flat
    (fun _ => eq_refl)) as (H1 & _ & _ & _ & H2).
  - solve_word.
  - lia.
  - solve_word.
  - split; [rewrite H1|rewrite H2]; reflexivity.
Defined.

End Machine.
