(* ===== verification/Interceptor.v ===== *)
(** * FunctionInterceptor

    The hooks on guest functions
    (src/MemCheck-qemu/contrib/MemCheck/FunctionInterceptor.h and .cpp): a map from
    addresses of interest to a hooked function's entry or to the return address of a
    call in progress.  Functions are heap objects that the list and the addresses of
    interest point to: a pointer is an index into [functions], and the virtual methods
    [Enter] and [Leave] are given by the dynamic class of the object. *)

From Stdlib Require Import String.
From S2P Require Import Prelude IntervalMap SymbolTable PhysMem Mmu Machine.
Import Machine.

Module Interceptor.

Inductive aoi_type : Type := RETURNADDRESS | FUNCTION.
#[global] Instance aoi_type_eq_dec : EqDecision aoi_type.
Proof. solve_decision. Defined.

Record AddressOfInterest := mkAOI {
  m_Type : aoi_type;
  m_Address : Z;
  m_RefCnt : Z;
  m_Function : nat;
}.

#[global] Instance eta_aoi : Eta AddressOfInterest := fun s =>
  mkAOI (m_Type s) (m_Address s) (m_RefCnt s) (m_Function s).

(** The lines printed for a function with [m_Debug]. *)
Inductive debug_line : Type :=
| DebugEnter (name : string) (pc retaddr : Z) (args : list Z)
| DebugLeave (name : string) (pc retval : Z).

(** What handlers promise a client that counts nesting: a level, which entering a
    function of class [k] raises by [scope k] and leaving it lowers again. *)
Class Scoped {A C K : Type} (Enter Leave : K -> A -> C -> A * C) := {
  scoped : A -> Prop;
  level : A -> Z;
  scope : K -> Z;
  scope_bounds k : 0 <= scope k <= 1;
  level_enter k a c : scoped a -> 0 <= level a < 2 ^ 32 - 1 ->
    scoped (Enter k a c).1 /\ level (Enter k a c).1 = level a + scope k;
  level_leave k a c : scoped a -> scope k <= level a < 2 ^ 32 ->
    scoped (Leave k a c).1 /\ level (Leave k a c).1 = level a - scope k;
}.

Section Interceptor.
(** The machine, the object [m_Arg] points to, and the classes derived from
    [Function] with their methods. *)
Context {C : Type} `{!Machine C} {A K : Type}.
Context (Enter Leave : K -> A -> C -> A * C).

Record Function := mkFunction {
  f_Address : Z;
  m_SymbolName : string;
  m_Active : bool;
  m_NumberOfArguments : Z;
  m_Debug : bool;
  f_class : K;
}.

#[global] Instance eta_function : Eta Function := fun s =>
  mkFunction (f_Address s) (m_SymbolName s) (m_Active s) (m_NumberOfArguments s)
    (m_Debug s) (f_class s).

Record FunctionInterceptor := mkInterceptor {
  m_AddressOfInterestMap : gmap Z AddressOfInterest;
  m_FunctionList : list nat;
  functions : list Function;           (** the heap of [Function] objects *)
  output : list debug_line;
}.

#[global] Instance eta_interceptor : Eta FunctionInterceptor := fun s =>
  mkInterceptor (m_AddressOfInterestMap s) (m_FunctionList s) (functions s) (output s).

Definition empty_interceptor : FunctionInterceptor := mkInterceptor ∅ [] [] [].

(** ** Operations *)

Definition AOI_NewFunction (id : nat) (f : Function) : AddressOfInterest :=
  mkAOI FUNCTION (f_Address f) 1 id.

Definition AOI_NewReturnAddress (returnAddress : Z) (id : nat) : AddressOfInterest :=
  mkAOI RETURNADDRESS returnAddress 1 id.

(** [interceptor->NewFunction(new F(...))] *)
Definition NewFunction (f : Function) (fi : FunctionInterceptor) : FunctionInterceptor :=
  let id := length (functions fi) in
  fi <| functions := functions fi ++ [f] |>
     <| m_FunctionList := m_FunctionList fi ++ [id] |>
     <| m_AddressOfInterestMap :=
          <[f_Address f := AOI_NewFunction id f]> (m_AddressOfInterestMap fi) |>.

Definition set_active (id : nat) (b : bool) (fi : FunctionInterceptor) : FunctionInterceptor :=
  fi <| functions := alter (fun f => f <| m_Active := b |>) id (functions fi) |>.

Fixpoint print_args (n : nat) (i : Z) (c : C) : list Z * C :=
  match n with
  | O => ([], c)
  | S n' =>
    let '(x, c) := GetArgumentN c i in
    let '(xs, c) := print_args n' (i + 1) c in (x :: xs, c)
  end.

(** [DoAddress(pc, cpuState)].  [None] is the use of a dangling [Function] pointer. *)
Definition DoAddress (pc : Z) (fi : FunctionInterceptor) (arg : A) (c : C)
  : option (Z * FunctionInterceptor * A * C) :=
  match m_AddressOfInterestMap fi !! pc with
  | None => Some (0, fi, arg, c)
  | Some aoi =>
    match functions fi !! m_Function aoi with
    | None => None
    | Some f =>
      if decide (m_Type aoi = RETURNADDRESS) then
        let fi := if m_Debug f
                  then fi <| output := output fi ++
                         [DebugLeave (m_SymbolName f) (GetPC c) (GetReturnValue c)] |>
                  else fi in
        let '(arg, c) := Leave (f_class f) arg c in
        let fi := set_active (m_Function aoi) false fi in
        let aoi := aoi <| m_RefCnt := u32 (m_RefCnt aoi - 1) |> in
        let fi := fi <| m_AddressOfInterestMap :=
                     if m_RefCnt aoi =? 0 then delete pc (m_AddressOfInterestMap fi)
                     else <[pc := aoi]> (m_AddressOfInterestMap fi) |> in
        Some (0, fi, arg, c)
      else
        let '(returnAddress, c) := GetReturnAddress c in
        let '(fi, c) :=
          if m_Debug f then
            let pc := GetPC c in
            let '(args, c) := print_args (Z.to_nat (m_NumberOfArguments f)) 1 c in
            (fi <| output := output fi ++ [DebugEnter (m_SymbolName f) pc returnAddress args] |>, c)
          else (fi, c) in
        let '(arg, c) := Enter (f_class f) arg c in
        let ret := if m_Active f then 1 else 0 in
        let fi := set_active (m_Function aoi) true fi in
        let fi := fi <| m_AddressOfInterestMap :=
          match m_AddressOfInterestMap fi !! returnAddress with
          | Some pos =>
            <[returnAddress := pos <| m_RefCnt := u32 (m_RefCnt pos + 1) |>]>
              (m_AddressOfInterestMap fi)
          | None =>
            <[returnAddress := AOI_NewReturnAddress returnAddress (m_Function aoi)]>
              (m_AddressOfInterestMap fi)
          end |> in
        Some (ret, fi, arg, c)
    end
  end.

(** The visits of a sequence of program counters, each with the CPU at that moment:
    between two visits the guest runs. *)
Fixpoint visits (tr : list (Z * C)) (fi : FunctionInterceptor) (arg : A)
  : option (FunctionInterceptor * A) :=
  match tr with
  | [] => Some (fi, arg)
  | (pc, c) :: tr' =>
    match DoAddress pc fi arg c with
    | None => None
    | Some (_, fi, arg, _) => visits tr' fi arg
    end
  end.

Lemma visits_app tr1 tr2 fi arg :
  visits (tr1 ++ tr2) fi arg =
  match visits tr1 fi arg with None => None | Some (fi', arg') => visits tr2 fi' arg' end.
Proof using.
  revert fi arg. induction tr1 as [|[pc c] tr1 IH]; intros fi arg; simpl; [done|].
  destruct (DoAddress pc fi arg c) as [[[[r fi'] arg'] c']|]; [apply IH|done].
Qed.

(** ** What a state stands for

    [hooks]: the functions hooked at their entry; [P]: the return addresses awaited,
    with the function whose call put each there. *)

Definition class_of (fi : FunctionInterceptor) (id : nat) : option K :=
  f_class <$> functions fi !! id.

Definition represents (fi : FunctionInterceptor) (hooks P : gmap Z nat) (cls : nat -> option K)
    : Prop :=
  (forall id, class_of fi id = cls id) /\
  forall a,
    match m_AddressOfInterestMap fi !! a with
    | None => hooks !! a = None /\ P !! a = None
    | Some aoi =>
      is_Some (cls (m_Function aoi)) /\
      match m_Type aoi with
      | FUNCTION => hooks !! a = Some (m_Function aoi) /\ P !! a = None
      | RETURNADDRESS => hooks !! a = None /\ P !! a = Some (m_Function aoi)
      end
    end.

(** Every reference count is positive and leaves room for [n] more calls. *)
Definition counts_ok (n : Z) (fi : FunctionInterceptor) : Prop :=
  map_Forall (fun _ aoi => 1 <= m_RefCnt aoi /\ m_RefCnt aoi + n < 2 ^ 32)
    (m_AddressOfInterestMap fi).

(** Visits of properly nested calls, at most [n] deep: a call of a hooked function
    ends with the visit of its return address, which is not itself hooked and which
    no pending call of another class awaits. *)
Inductive balanced (hooks : gmap Z nat) (cls : nat -> option K)
  : gmap Z nat -> nat -> list (Z * C) -> Prop :=
| bal_nil P n : balanced hooks cls P n []
| bal_skip P n pc c tr :
    hooks !! pc = None -> P !! pc = None ->
    balanced hooks cls P n tr -> balanced hooks cls P n ((pc, c) :: tr)
| bal_call P n pc c f r c2 body tr :
    hooks !! pc = Some f -> (GetReturnAddress c).1 = r -> hooks !! r = None ->
    (forall g, P !! r = Some g -> cls g = cls f) ->
    balanced hooks cls (if decide (is_Some (P !! r)) then P else <[r := f]> P) n body ->
    balanced hooks cls P (S n) tr ->
    balanced hooks cls P (S n) ((pc, c) :: body ++ (r, c2) :: tr).

(** ** One visit *)

Lemma class_set_active id b fi i : class_of (set_active id b fi) i = class_of fi i.
Proof using.
  unfold class_of, set_active. simpl. destruct (decide (i = id)) as [->|Hne].
  - rewrite list_lookup_alter_eq. by destruct (functions fi !! id).
  - by rewrite list_lookup_alter_ne.
Qed.

Lemma visit_skip pc fi arg c : m_AddressOfInterestMap fi !! pc = None ->
  DoAddress pc fi arg c = Some (0, fi, arg, c).
Proof using. intros H. unfold DoAddress. by rewrite H. Qed.

(** The visit of a hook: the method runs and the return address is awaited. *)
Lemma visit_hook pc fi arg c aoi k :
  m_AddressOfInterestMap fi !! pc = Some aoi -> m_Type aoi = FUNCTION ->
  class_of fi (m_Function aoi) = Some k ->
  let r := (GetReturnAddress c).1 in
  exists ret fi' c1 c2, DoAddress pc fi arg c = Some (ret, fi', (Enter k arg c1).1, c2) /\
    (forall id, class_of fi' id = class_of fi id) /\
    m_AddressOfInterestMap fi' =
      <[r := match m_AddressOfInterestMap fi !! r with
             | Some pos => pos <| m_RefCnt := u32 (m_RefCnt pos + 1) |>
             | None => AOI_NewReturnAddress r (m_Function aoi)
             end]> (m_AddressOfInterestMap fi).
Proof using.
  intros Hl Ht Hk r. unfold class_of in Hk. unfold DoAddress. rewrite Hl.
  destruct (functions fi !! m_Function aoi) as [f|] eqn:Ef; [|done].
  injection Hk as <-. rewrite decide_False by congruence.
  subst r. destruct (GetReturnAddress c) as [r c1]. simpl fst.
  destruct (m_Debug f).
  - destruct (print_args _ _ c1) as [args c2]. destruct (Enter (f_class f) arg c2) as [arg' c3] eqn:E.
    eexists _, _, c2, c3. rewrite E. split; [reflexivity|].
    split; [intros id; apply (class_set_active (m_Function aoi) true fi id)|]. simpl. by case_match.
  - destruct (Enter (f_class f) arg c1) as [arg' c3] eqn:E.
    eexists _, _, c1, c3. rewrite E. split; [reflexivity|].
    split; [intros id; apply (class_set_active (m_Function aoi) true fi id)|]. simpl. by case_match.
Qed.

(** The visit of an awaited return address. *)
Lemma visit_return pc fi arg c aoi k :
  m_AddressOfInterestMap fi !! pc = Some aoi -> m_Type aoi = RETURNADDRESS ->
  class_of fi (m_Function aoi) = Some k ->
  exists ret fi' c2, DoAddress pc fi arg c = Some (ret, fi', (Leave k arg c).1, c2) /\
    (forall id, class_of fi' id = class_of fi id) /\
    m_AddressOfInterestMap fi' =
      (if u32 (m_RefCnt aoi - 1) =? 0 then delete pc (m_AddressOfInterestMap fi)
       else <[pc := aoi <| m_RefCnt := u32 (m_RefCnt aoi - 1) |>]> (m_AddressOfInterestMap fi)).
Proof using.
  intros Hl Ht Hk. unfold class_of in Hk. unfold DoAddress. rewrite Hl.
  destruct (functions fi !! m_Function aoi) as [f|] eqn:Ef; [|done].
  injection Hk as <-. rewrite decide_True by done.
  destruct (Leave (f_class f) arg c) as [arg' c3] eqn:E.
  eexists _, _, c3. split; [reflexivity|]. destruct (m_Debug f); simpl;
    (split; [intros id; apply (class_set_active (m_Function aoi) false fi id)|done]).
Qed.

(** ** Nested calls *)

Lemma represents_same fi fi' hooks P cls :
  m_AddressOfInterestMap fi' = m_AddressOfInterestMap fi ->
  (forall id, class_of fi' id = class_of fi id) ->
  represents fi hooks P cls -> represents fi' hooks P cls.
Proof using.
  intros Hm Hc [H1 H2]. split; [intros id; by rewrite Hc|]. by rewrite Hm.
Qed.

Lemma represents_hook fi hooks P cls pc f : represents fi hooks P cls ->
  hooks !! pc = Some f ->
  exists aoi k, m_AddressOfInterestMap fi !! pc = Some aoi /\ m_Type aoi = FUNCTION /\
    m_Function aoi = f /\ class_of fi f = Some k /\ cls f = Some k.
Proof using.
  intros [Hc Hr] Hh. specialize (Hr pc).
  destruct (m_AddressOfInterestMap fi !! pc) as [aoi|]; [|destruct Hr; congruence].
  destruct Hr as [[k Hk] Hr].
  destruct (m_Type aoi) eqn:Et; destruct Hr as [Hr _]; [congruence|].
  assert (m_Function aoi = f) as <- by congruence. exists aoi, k. rewrite Hc. auto.
Qed.

(** The state after the entry of [f]: the return address is awaited once more. *)
Lemma represents_enter fi fi' hooks P cls f r k : represents fi hooks P cls ->
  (forall id, class_of fi' id = class_of fi id) -> hooks !! r = None -> cls f = Some k ->
  m_AddressOfInterestMap fi' =
    <[r := match m_AddressOfInterestMap fi !! r with
           | Some pos => pos <| m_RefCnt := u32 (m_RefCnt pos + 1) |>
           | None => AOI_NewReturnAddress r f
           end]> (m_AddressOfInterestMap fi) ->
  represents fi' hooks (if decide (is_Some (P !! r)) then P else <[r := f]> P) cls.
Proof using.
  intros [Hc Hr] Hc' Hh Hk Hm. split; [intros id; by rewrite Hc'|]. intros a. rewrite Hm.
  destruct (decide (a = r)) as [->|Hne].
  - rewrite lookup_insert_eq. specialize (Hr r).
    destruct (m_AddressOfInterestMap fi !! r) as [pos|].
    + cbn. destruct Hr as [Hs Hr]. split; [done|].
      destruct (m_Type pos); destruct Hr as [H1 H2]; [|congruence].
      rewrite H2. rewrite decide_True by done. auto.
    + destruct Hr as [H1 H2]. rewrite H2, decide_False by (by intros [? ?]).
      cbn. rewrite lookup_insert_eq. rewrite Hk. eauto.
  - rewrite lookup_insert_ne by done. specialize (Hr a).
    destruct (decide (is_Some (P !! r))); [done|]. by rewrite lookup_insert_ne.
Qed.

(** The awaited address after the entry, and what its visit does to the map. *)
Lemma awaited fi hooks P cls f r k (n : nat) : represents fi hooks P cls ->
  hooks !! r = None -> cls f = Some k -> (forall g, P !! r = Some g -> cls g = cls f) ->
  counts_ok (Z.of_nat (S n)) fi -> Z.of_nat (S n) < 2 ^ 32 ->
  let m := m_AddressOfInterestMap fi in
  let aoi := match m !! r with
             | Some pos => pos <| m_RefCnt := u32 (m_RefCnt pos + 1) |>
             | None => AOI_NewReturnAddress r f
             end in
  m_Type aoi = RETURNADDRESS /\ cls (m_Function aoi) = Some k /\
  (1 <= m_RefCnt aoi /\ m_RefCnt aoi + Z.of_nat n < 2 ^ 32) /\
  (if u32 (m_RefCnt aoi - 1) =? 0 then delete r (<[r := aoi]> m)
   else <[r := aoi <| m_RefCnt := u32 (m_RefCnt aoi - 1) |>]> (<[r := aoi]> m)) = m.
Proof using.
  intros [Hc Hr] Hh Hk Hg Hn Hb m. specialize (Hr r). fold m in Hr.
  destruct (m !! r) as [pos|] eqn:El.
  - cbn. destruct Hr as [_ Hr]. destruct (m_Type pos); destruct Hr as [H1 H2]; [|congruence].
    split; [done|]. split; [rewrite (Hg _ H2); done|].
    destruct (Hn r pos El) as [Hlo Hhi].
    assert (E1 : u32 (m_RefCnt pos + 1) = m_RefCnt pos + 1)
      by (apply wrap_small; unfold in_width; lia).
    rewrite E1. replace (m_RefCnt pos + 1 - 1) with (m_RefCnt pos) by lia.
    assert (E2 : u32 (m_RefCnt pos) = m_RefCnt pos) by (apply wrap_small; unfold in_width; lia).
    rewrite E2, (proj2 (Z.eqb_neq _ 0)) by lia. split; [lia|].
    rewrite insert_insert_eq. apply insert_id. rewrite El. by destruct pos.
  - cbn. split; [done|]. split; [done|]. split; [lia|]. by apply delete_insert_id.
Qed.

(** ** Hooks stay, pointers stay valid *)

Definition valid (fi : FunctionInterceptor) : Prop :=
  map_Forall (fun _ aoi => is_Some (class_of fi (m_Function aoi))) (m_AddressOfInterestMap fi).

Definition keeps_hooks (m m' : gmap Z AddressOfInterest) : Prop :=
  forall a aoi, m !! a = Some aoi -> m_Type aoi = FUNCTION ->
    exists aoi', m' !! a = Some aoi' /\ m_Type aoi' = FUNCTION /\ m_Function aoi' = m_Function aoi.

Lemma visit_safe pc fi arg c : valid fi ->
  exists ret fi' arg' c', DoAddress pc fi arg c = Some (ret, fi', arg', c') /\ valid fi' /\
    keeps_hooks (m_AddressOfInterestMap fi) (m_AddressOfInterestMap fi').
Proof using.
  intros Hv. destruct (m_AddressOfInterestMap fi !! pc) as [aoi|] eqn:El.
  - destruct (Hv pc aoi El) as [k Hk]. destruct (m_Type aoi) eqn:Et.
    + destruct (visit_return pc fi arg c aoi k El Et Hk) as (ret & fi' & c2 & -> & Hc & Hm).
      eexists _, _, _, _. split; [done|]. rewrite Hm. split.
      * unfold valid. rewrite Hm. destruct (_ =? 0).
        -- apply map_Forall_delete. intros a x Hx. rewrite Hc. by apply (Hv a).
        -- apply map_Forall_insert_2; [rewrite Hc; cbn; eauto|].
           intros a x Hx. rewrite Hc. by apply (Hv a).
      * intros a x Hx Hf. assert (a <> pc) by congruence. exists x.
        destruct (_ =? 0); [rewrite lookup_delete_ne|rewrite lookup_insert_ne]; done.
    + destruct (visit_hook pc fi arg c aoi k El Et Hk) as (ret & fi' & c1 & c2 & -> & Hc & Hm).
      eexists _, _, _, _. split; [done|]. rewrite Hm. set (r := (GetReturnAddress c).1) in *. split.
      * unfold valid. rewrite Hm. apply map_Forall_insert_2.
        -- rewrite Hc. destruct (m_AddressOfInterestMap fi !! r) as [pos|] eqn:Er.
           ++ exact (Hv r pos Er).
           ++ cbn. eauto.
        -- intros a x Hx. rewrite Hc. by apply (Hv a).
      * intros a x Hx Hf. destruct (decide (a = r)) as [->|Hne].
        -- rewrite lookup_insert_eq, Hx. cbn. eauto.
        -- rewrite lookup_insert_ne by done. eauto.
  - rewrite visit_skip by done. eexists _, _, _, _. split; [done|]. split; [done|].
    intros a x Hx Hf. eauto.
Qed.

(** C7. Any sequence of visits, in any order, is safe: no visit follows a dangling
    function pointer, every address of interest keeps pointing to an existing
    function, and no hook on a function's entry is ever lost or redirected. *)
Theorem visits_safe tr fi arg : valid fi ->
  exists fi' arg', visits tr fi arg = Some (fi', arg') /\ valid fi' /\
    keeps_hooks (m_AddressOfInterestMap fi) (m_AddressOfInterestMap fi').
Proof using.
  revert fi arg. induction tr as [|[pc c] tr IH]; intros fi arg Hv.
  - eexists _, _. split; [done|]. split; [done|]. intros a x Hx Hf. eauto.
  - simpl. destruct (visit_safe pc fi arg c Hv) as (ret & fi1 & arg1 & c1 & -> & Hv1 & Hk1).
    destruct (IH fi1 arg1 Hv1) as (fi2 & arg2 & -> & Hv2 & Hk2).
    eexists _, _. split; [done|]. split; [done|]. intros a x Hx Hf.
    destruct (Hk1 a x Hx Hf) as (y & Hy & Hfy & Hg).
    destruct (Hk2 a y Hy Hfy) as (z & Hz & Hfz & Hg'). exists z. split; [done|].
    split; [done|]. congruence.
Qed.

Context `{!Scoped Enter Leave}.

Lemma balanced_run hooks cls P n tr : balanced hooks cls P n tr -> forall fi arg,
  represents fi hooks P cls -> counts_ok (Z.of_nat n) fi ->
  scoped arg -> 0 <= level arg -> level arg + Z.of_nat n < 2 ^ 32 ->
  exists fi' arg', visits tr fi arg = Some (fi', arg') /\
    m_AddressOfInterestMap fi' = m_AddressOfInterestMap fi /\
    (forall id, class_of fi' id = class_of fi id) /\ scoped arg' /\ level arg' = level arg.
Proof using Type*.
  induction 1 as [P n|P n pc c tr Hh Hp Hb IH|P n pc c f r c2 body tr Hh Hra Hhr Hg Hb IHb Ht IHt];
    intros fi arg Hrep Hcnt Hok Hl0 Hl1; [eexists _, _; by eauto|..].
  - simpl. rewrite visit_skip; [by apply IH|].
    destruct Hrep as [_ Hr]. specialize (Hr pc).
    destruct (m_AddressOfInterestMap fi !! pc) as [aoi|]; [|done].
    destruct Hr as [_ Hr]. destruct (m_Type aoi); destruct Hr; congruence.
  - destruct (represents_hook fi hooks P cls pc f Hrep Hh) as (aoi & k & Hl & Ht0 & <- & Hk & Hck).
    destruct (visit_hook pc fi arg c aoi k Hl Ht0 Hk) as (ret & fi1 & c1 & c3 & Hv1 & Hc1 & Hm1).
    rewrite Hra in Hm1. destruct (awaited fi hooks P cls (m_Function aoi) r k n Hrep Hhr Hck Hg Hcnt
      ltac:(lia)) as (At & Ac & An & Am).
    set (m := m_AddressOfInterestMap fi) in *. set (a1 := match m !! r with Some _ => _ | _ => _ end) in *.
    pose proof (scope_bounds (Enter := Enter) (Leave := Leave) k) as Hs.
    assert (Hle : scoped (Enter k arg c1).1 /\ level (Enter k arg c1).1 = level arg + scope k)
      by (apply level_enter; [done|lia]).
    destruct Hle as [Hok1 Hle].
    destruct (IHb fi1 (Enter k arg c1).1) as (fi2 & arg2 & Hv2 & Hm2 & Hc2 & Hok2 & Hl2);
      [by eapply represents_enter| |done|lia|lia|].
    { unfold counts_ok. rewrite Hm1. apply map_Forall_insert_2; [done|].
      intros a x Hx. specialize (Hcnt a x Hx). cbn beta in Hcnt. lia. }
    assert (Hl3 : m_AddressOfInterestMap fi2 !! r = Some a1)
      by (rewrite Hm2, Hm1; apply lookup_insert_eq).
    destruct (visit_return r fi2 arg2 c2 a1 k Hl3 At) as (ret3 & fi3 & c4 & Hv3 & Hc3 & Hm3).
    { destruct Hrep as [Hc _]. rewrite Hc2, Hc1, Hc. done. }
    assert (Hll : scoped (Leave k arg2 c2).1 /\ level (Leave k arg2 c2).1 = level arg2 - scope k)
      by (apply level_leave; [done|lia]).
    destruct Hll as [Hok3 Hll].
    rewrite Hm2, Hm1 in Hm3. rewrite Am in Hm3.
    assert (Hc13 : forall id, class_of fi3 id = class_of fi id)
      by (intros id; by rewrite Hc3, Hc2, Hc1).
    destruct (IHt fi3 (Leave k arg2 c2).1) as (fi4 & arg4 & Hv4 & Hm4 & Hc4 & Hok4 & Hl4);
      [by eapply represents_same| |done|lia|lia|].
    { unfold counts_ok. by rewrite Hm3. }
    exists fi4, arg4. simpl. rewrite Hv1, visits_app, Hv2. simpl. rewrite Hv3, Hv4.
    split; [done|]. split; [by rewrite Hm4|]. split; [intros id; by rewrite Hc4|]. split; [done|lia].
Qed.
End Interceptor.

End Interceptor.
