(* ===== verification/MemCheck.v ===== *)
(** * MemCheck for the Linux kernel

    The checker itself (MemCheck.h, MemCheck.cpp, MemCheckLinuxKernel.h,
    MemCheckLinuxKernel.cpp under src/MemCheck-qemu/contrib/MemCheck) and the entry
    points QEMU calls (MemCheckLinuxKernelQEMU.cpp): the hooks on the guest kernel's
    allocator keep the shadow memory up to date, and every access of the guest to the
    heap window is looked up in it.  The checker is proved against two interfaces: the
    machine it reads ([Machine]) and the record of allocations ([AllocRecord]). *)

From Stdlib Require Import String Ascii.
From S2P Require Import Prelude Bytes IntervalMap ShadowMemory SymbolTable PhysMem Mmu Machine Interceptor.
Import Machine Interceptor.

Module MemCheck.

(** ** Data *)

(** The classes derived from [Function]: [LinuxKernelFunction] adds the symbol lookup. *)
Inductive kernel_class : Type :=
| MemCheck_Alloc | MemCheck_Free | MemCheck_FreeSize | MemCheck_FreeAnySize
| LinuxKernelHeapFunction.

(** What is printed; the value of [time(NULL)] is not kept. *)
Inductive out_line : Type :=
| OutReport (r : ShadowMemory.report)
| OutOfBound (address length : Z)
| OutTime
| OutComm (comm : list Z)
| OutTrace (t : trace_line).

Record MemCheckState := mkMemCheck {
  m_MemoryAccessStart : Z;
  m_MemoryAccessStop : Z;
  m_ShadowMemory : list ShadowMemory.entry;
  m_SymbolTable : SymbolTable.SymbolTable;
  m_MemoryAccessDepth : Z;
  m_MemoryAccessDisable : bool;
  m_Initialized : bool;
  log : list out_line;
}.

#[global] Instance eta_memcheck : Eta MemCheckState := fun s =>
  mkMemCheck (m_MemoryAccessStart s) (m_MemoryAccessStop s) (m_ShadowMemory s) (m_SymbolTable s)
    (m_MemoryAccessDepth s) (m_MemoryAccessDisable s) (m_Initialized s) (log s).

(** The constructors: the bounds of the window are left uninitialised. *)
Definition new_MemCheck (uninit_start uninit_stop : Z) : MemCheckState :=
  mkMemCheck uninit_start uninit_stop [] SymbolTable.empty_table 0 false false [].

Definition say (ls : list out_line) (mc : MemCheckState) : MemCheckState :=
  mc <| log := log mc ++ ls |>.

(** ** Switching the checks off and on *)

Definition MemoryAccessEnable (mc : MemCheckState) : MemCheckState :=
  if truth (m_MemoryAccessDepth mc)
  then mc <| m_MemoryAccessDepth := u32 (m_MemoryAccessDepth mc - 1) |>
  else mc <| m_MemoryAccessDisable := false |>.

Definition MemoryAccessDisable (mc : MemCheckState) : MemCheckState :=
  if m_MemoryAccessDisable mc
  then mc <| m_MemoryAccessDepth := u32 (m_MemoryAccessDepth mc + 1) |>
  else mc <| m_MemoryAccessDisable := true |>.

(** [LinuxKernelEnableMemoryAccess::Leave]; [Init] hooks no function of that class. *)
Definition EnableMemoryAccess_Leave (mc : MemCheckState) : MemCheckState := MemoryAccessEnable mc.

Definition COMM_OFFSET : Z := 761.

Section MemCheck.
Context {C : Type} `{!Machine C}.
(** The initial bytes of the locals [current] and [comm]. *)
Context (uninit_current uninit_comm : list Z).

(** ** Reports *)

Definition PrintKernelComm (c : C) (mc : MemCheckState) : MemCheckState * C :=
  match SymbolTable.Lookup_name (m_SymbolTable mc) "per_cpu__current_task" with
  | None => (mc, c)
  | Some currentPtr =>
    let '(current, c) := ReadMemory c currentPtr uninit_current in
    let '(comm, c) := ReadMemory c (u32 (le_value current + COMM_OFFSET)) uninit_comm in
    (say [OutComm comm] mc, c)
  end.

Definition DumpTraceAtFunction (c : C) (mc : MemCheckState) : MemCheckState * C :=
  let mc := say [OutTime] mc in
  let '(mc, c) := PrintKernelComm c mc in
  let '(lines, c) := StackTraceAtFunction c (m_SymbolTable mc) in
  (say (OutTrace <$> lines) mc, c).

Definition DumpTrace (c : C) (mc : MemCheckState) : MemCheckState * C :=
  let '(mc, c) := PrintKernelComm c mc in
  let '(lines, c) := StackTrace c (m_SymbolTable mc) in
  (say (OutTrace <$> lines) mc, c).

(** ** The check of an access *)

Definition MemoryAccess (c : C) (address length : Z) (mc : MemCheckState) : MemCheckState * C :=
  if m_MemoryAccessDisable mc then (mc, c)
  else if (address <? m_MemoryAccessStart mc) || (m_MemoryAccessStop mc <=? address) then (mc, c)
  else if ShadowMemory.rec_hit (m_ShadowMemory mc) address length then (mc, c)
  else DumpTrace c (say [OutOfBound address length] mc).

(** ** The hooked functions *)

(** The end of the allocation hooks: the operation's lines, and a trace if it
    failed. *)
Definition finish_hook (c : C) (r : Z * list ShadowMemory.entry * list ShadowMemory.report)
    (mc : MemCheckState) : MemCheckState * C :=
  let '(ret, m, reports) := r in
  let mc := say (OutReport <$> reports) (mc <| m_ShadowMemory := m |>) in
  if truth ret then DumpTraceAtFunction c mc else (mc, c).

Definition Enter (k : kernel_class) (mc : MemCheckState) (c : C) : MemCheckState * C :=
  match k with
  | MemCheck_Alloc =>
    finish_hook c (ShadowMemory.NewMemoryAlloc 0 (GetArgument1 c) (GetArgument2 c)
                     (m_ShadowMemory mc)) mc
  | MemCheck_Free =>
    finish_hook c (ShadowMemory.FreeMemory 0 (GetArgument1 c) (m_ShadowMemory mc)) mc
  | MemCheck_FreeSize =>
    finish_hook c (ShadowMemory.FreeSizeMemory 0 (GetArgument1 c) (GetArgument2 c)
                     (m_ShadowMemory mc)) mc
  | MemCheck_FreeAnySize =>
    finish_hook c (ShadowMemory.FreeAnySizeMemory 0 (GetArgument1 c) (GetArgument2 c)
                     (m_ShadowMemory mc)) mc
  | LinuxKernelHeapFunction => (MemoryAccessDisable mc, c)
  end.

Definition Leave (k : kernel_class) (mc : MemCheckState) (c : C) : MemCheckState * C :=
  match k with
  | LinuxKernelHeapFunction => (MemoryAccessEnable mc, c)
  | _ => (mc, c)
  end.

(** ** Start up *)

Abbreviation interceptor := (FunctionInterceptor (K := kernel_class)).

(** [new F(name, &m_SymbolTable)]: the address of a symbol that is not in the table is
    left uninitialised. *)
Definition LinuxKernelFunction (indet_address : string -> Z) (k : kernel_class) (nargs : Z)
    (t : SymbolTable.SymbolTable) (name : string) : Function (K := kernel_class) :=
  mkFunction (default (indet_address name) (SymbolTable.Lookup_name t name)) name false nargs
    false k.

Definition heap_functions : list string :=
  ["__free_slab"; "__alloc_bootmem_core"; "free_bootmem_core"; "init_bootmem_core";
   "reserve_bootmem"; "free_init_pages"; "__kmalloc"; "mykfree"; "mykmem_cache_free";
   "my__kmalloc_track_caller"; "__alloc_pages"; "mykmem_cache_alloc"; "free_bootmem"]%string.

Definition kernel_functions : list (kernel_class * Z * string) :=
  [(MemCheck_Alloc, 2, "MemCheck_Alloc"); (MemCheck_Free, 1, "MemCheck_Free");
   (MemCheck_FreeSize, 2, "MemCheck_FreeSize");
   (MemCheck_FreeAnySize, 2, "MemCheck_FreeAnySize")]%string
  ++ ((fun name => (LinuxKernelHeapFunction, 0, name)) <$> heap_functions).

(** [Init(interceptor, systemMap)], given what the file holds, if it can be opened;
    [None] is the exit of the program. *)
Definition Init (indet_line : nat -> Z * ascii * string) (indet_address : string -> Z)
    (systemMap : option string) (mc : MemCheckState) (fi : interceptor)
    : option (MemCheckState * interceptor) :=
  match systemMap with
  | None => None
  | Some content =>
    match SymbolTable.Load indet_line content (m_SymbolTable mc) with
    | None => None
    | Some t =>
      let mc := mc <| m_SymbolTable := t |> in
      let fi := foldl (fun fi '(k, nargs, name) =>
                         NewFunction (LinuxKernelFunction indet_address k nargs t name) fi)
                  fi kernel_functions in
      let mc := mc <| m_MemoryAccessStop := 0xdfff0000 |> in
      let mc := match SymbolTable.Lookup_name t "__bss_stop" with
                | Some a => mc <| m_MemoryAccessStart := a |>
                | None => mc
                end in
      let mc := MemoryAccessEnable mc in
      Some (mc <| m_Initialized := true |>, fi)
    end
  end.

(** ** The entry points QEMU calls *)

Definition LinuxKernel_DoAddress (c : C) (fi : interceptor) (mc : MemCheckState)
  : option (Z * interceptor * MemCheckState * C) :=
  let pc := GetPC c in
  if 0xc0000000 <=? pc then DoAddress Enter Leave pc fi mc c else Some (0, fi, mc, c).

Definition QEMU_DoAddress (c : C) (fi : interceptor) (mc : MemCheckState)
  : option (interceptor * MemCheckState * C) :=
  match LinuxKernel_DoAddress c fi mc with
  | None => None
  | Some (_, fi, mc, c) => Some (fi, mc, c)
  end.

Definition MemoryAccess_b (c : C) (address : Z) := MemoryAccess c address 1.
Definition MemoryAccess_w (c : C) (address : Z) := MemoryAccess c address 2.
Definition MemoryAccess_l (c : C) (address : Z) := MemoryAccess c address 4.
Definition MemoryAccess_q (c : C) (address : Z) := MemoryAccess c address 8.

(** ** Reports only print *)

Lemma say_app l1 l2 mc : say l2 (say l1 mc) = say (l1 ++ l2) mc.
Proof using. unfold say. cbn. by rewrite app_assoc. Qed.

Lemma say_nil mc : say [] mc = mc.
Proof using. unfold say. rewrite app_nil_r. by destruct mc. Qed.

Lemma comm_says c mc : exists ls, (PrintKernelComm c mc).1 = say ls mc.
Proof using.
  unfold PrintKernelComm. destruct (SymbolTable.Lookup_name _ _) as [p|].
  - destruct (ReadMemory c p _) as [cur c1]. destruct (ReadMemory c1 _ _) as [cm c2]. by eexists.
  - exists []. by rewrite say_nil.
Qed.

Lemma trace_says c mc : exists ls, (DumpTrace c mc).1 = say ls mc.
Proof using.
  unfold DumpTrace. destruct (comm_says c mc) as [l1 H1].
  destruct (PrintKernelComm c mc) as [mc1 c1]. simpl in H1. subst mc1.
  destruct (StackTrace c1 _) as [ls c2]. simpl. rewrite say_app. by eexists.
Qed.

Lemma trace_at_says c mc : exists ls, (DumpTraceAtFunction c mc).1 = say (OutTime :: ls) mc.
Proof using.
  unfold DumpTraceAtFunction. destruct (comm_says c (say [OutTime] mc)) as [l1 H1].
  destruct (PrintKernelComm c (say [OutTime] mc)) as [mc1 c1]. simpl in H1. subst mc1.
  destruct (StackTraceAtFunction c1 _) as [ls c2]. simpl. rewrite !say_app. by eexists.
Qed.

Lemma finish_says c ret m reports mc : exists ls,
  (finish_hook c (ret, m, reports) mc).1
  = say ((OutReport <$> reports) ++ (if truth ret then OutTime :: ls else []))
      (mc <| m_ShadowMemory := m |>).
Proof using.
  unfold finish_hook. destruct (truth ret).
  - destruct (trace_at_says c (say (OutReport <$> reports) (mc <| m_ShadowMemory := m |>)))
      as [ls ->]. exists ls. by rewrite say_app.
  - exists []. by rewrite app_nil_r.
Qed.

(** ** The level of nested heap functions *)

Definition off_level (mc : MemCheckState) : Z :=
  m_MemoryAccessDepth mc + b2z (m_MemoryAccessDisable mc).

Definition heap_scope (k : kernel_class) : Z :=
  match k with LinuxKernelHeapFunction => 1 | _ => 0 end.

Lemma off_level_finish c r mc : off_level (finish_hook c r mc).1 = off_level mc.
Proof using.
  destruct r as [[ret m] reports]. by destruct (finish_says c ret m reports mc) as [ls ->].
Qed.

Lemma depth_finish c r mc : m_MemoryAccessDepth (finish_hook c r mc).1 = m_MemoryAccessDepth mc.
Proof using.
  destruct r as [[ret m] reports]. by destruct (finish_says c ret m reports mc) as [ls ->].
Qed.

Lemma disable_level mc : is_u32 (m_MemoryAccessDepth mc) -> 0 <= off_level mc < 2 ^ 32 - 1 ->
  is_u32 (m_MemoryAccessDepth (MemoryAccessDisable mc)) /\
  off_level (MemoryAccessDisable mc) = off_level mc + 1.
Proof using.
  unfold off_level, MemoryAccessDisable, in_width. intros Hd Hl.
  destruct (m_MemoryAccessDisable mc) eqn:E; cbn -[Z.pow] in *; [|lia].
  rewrite E. unfold u32. rewrite wrap_small by (unfold in_width; lia). simpl. lia.
Qed.

Lemma enable_level mc : is_u32 (m_MemoryAccessDepth mc) -> 1 <= off_level mc < 2 ^ 32 ->
  is_u32 (m_MemoryAccessDepth (MemoryAccessEnable mc)) /\
  off_level (MemoryAccessEnable mc) = off_level mc - 1.
Proof using.
  unfold off_level, MemoryAccessEnable, in_width. intros Hd Hl.
  destruct (truth (m_MemoryAccessDepth mc)) eqn:Et; to_prop; cbn -[Z.pow].
  - unfold u32. rewrite wrap_small by (unfold in_width; lia). lia.
  - destruct (m_MemoryAccessDisable mc); cbn -[Z.pow] in *; lia.
Qed.

#[export] Instance kernel_scoped : Scoped Enter Leave.
Proof using.
  refine {| scoped := fun mc => is_u32 (m_MemoryAccessDepth mc); level := off_level;
            scope := heap_scope |}.
  - intros []; simpl; lia.
  - intros k mc c Hs Hl.
    destruct k; cbn [Enter heap_scope]; rewrite ?off_level_finish, ?depth_finish, ?Z.add_0_r;
      [done..|by apply disable_level].
  - intros k mc c Hs Hl.
    destruct k; cbn [Leave heap_scope fst] in *; [split; [done|lia]..|by apply enable_level].
Defined.

(** ** Properties *)

(** What makes an access one the checker complains about: checking is on, the access
    starts in the window, and no byte of it is allocated. *)
Definition unallocated (mc : MemCheckState) (address length : Z) : Prop :=
  m_MemoryAccessDisable mc = false /\
  m_MemoryAccessStart mc <= address < m_MemoryAccessStop mc /\
  forall x, address <= x < address + length -> ~ covers (m_ShadowMemory mc) x.

Lemma access_exact c mc address length : wf (m_ShadowMemory mc) -> is_u32 address ->
  0 < length -> address + length < 2 ^ 32 ->
  (unallocated mc address length ->
     exists ls, (MemoryAccess c address length mc).1 = say (OutOfBound address length :: ls) mc) /\
  (~ unallocated mc address length -> MemoryAccess c address length mc = (mc, c)).
Proof using.
  intros Hwf Ha Hl He. unfold MemoryAccess, unallocated.
  pose proof (ShadowMemory.rec_hit_spec (m_ShadowMemory mc) address length Hwf Ha Hl He) as Hhit.
  change ShadowMemory.rec_holds with (covers (K := ShadowMemory.entry)) in Hhit.
  destruct (m_MemoryAccessDisable mc); [split; [by intros [? _]|done]|].
  destruct (_ || _) eqn:Ew.
  { split; [|done]. intros (_ & Hw & _). apply orb_true_iff in Ew as [E|E]; to_prop; lia. }
  to_prop. destruct (ShadowMemory.rec_hit _ _ _) eqn:Eh.
  - split; [|done]. intros (_ & _ & Hn). apply proj1 in Hhit. destruct Hhit as (x & Hx & Hc); [done|].
    by destruct (Hn x Hx).
  - split; intros Hu.
    + destruct (trace_says c (say [OutOfBound address length] mc)) as [ls ->].
      rewrite say_app. by eexists.
    + exfalso. apply Hu. split; [done|]. split; [lia|]. intros x Hx Hc.
      destruct Hhit as [_ Hhit]. discriminate Hhit. by exists x.
Qed.

(** C3. Exactly which accesses are reported: with a well formed shadow memory, an access
    is reported, with a trace, if checking is on, it starts inside the window and no
    byte of it belongs to a live allocation; otherwise nothing at all happens.  In
    particular an access that runs past the end of an allocation is not reported. *)
Theorem access_report_exact c mc address length : wf (m_ShadowMemory mc) -> is_u32 address ->
  0 < length -> address + length < 2 ^ 32 ->
  (unallocated mc address length ->
     exists ls, (MemoryAccess c address length mc).1 = say (OutOfBound address length :: ls) mc) /\
  (~ unallocated mc address length -> MemoryAccess c address length mc = (mc, c)).
Proof using. apply access_exact. Qed.

(** The call of the shadow memory a hooked function announces. *)
Definition announced (k : kernel_class) (c : C) : option ShadowMemory.call :=
  match k with
  | MemCheck_Alloc => Some (ShadowMemory.CNew (GetArgument1 c) (GetArgument2 c))
  | MemCheck_Free => Some (ShadowMemory.CFree (GetArgument1 c))
  | MemCheck_FreeSize => Some (ShadowMemory.CFreeSize (GetArgument1 c) (GetArgument2 c))
  | MemCheck_FreeAnySize => Some (ShadowMemory.CFreeAny (GetArgument1 c) (GetArgument2 c))
  | LinuxKernelHeapFunction => None
  end.

Lemma enter_announced k c mc call : announced k c = Some call ->
  Enter k mc c = finish_hook c (ShadowMemory.exec call (m_ShadowMemory mc)) mc.
Proof using. destruct k; intros [= <-]; reflexivity. Qed.

(** The hook of class [k] is at the guest's program counter, in the kernel. *)
Definition hooked (fi : interceptor) (k : kernel_class) (c : C) : Prop :=
  0xc0000000 <= GetPC c /\
  exists aoi, m_AddressOfInterestMap fi !! GetPC c = Some aoi /\ m_Type aoi = FUNCTION /\
    class_of fi (m_Function aoi) = Some k.

(** Reading the return address leaves the registers. *)
Definition keeps_args : Prop :=
  forall c, GetArgument1 (GetReturnAddress c).2 = GetArgument1 c /\
            GetArgument2 (GetReturnAddress c).2 = GetArgument2 c.

(** Hooks without debug output, as [Init] makes them. *)
Definition plain (fi : interceptor) : Prop := Forall (fun f => m_Debug f = false) (functions fi).

Lemma visit_plain pc fi mc c aoi k : plain fi ->
  m_AddressOfInterestMap fi !! pc = Some aoi -> m_Type aoi = FUNCTION ->
  class_of fi (m_Function aoi) = Some k ->
  exists ret fi' c', DoAddress Enter Leave pc fi mc c
    = Some (ret, fi', (Enter k mc (GetReturnAddress c).2).1, c').
Proof using.
  intros Hp Hl Ht Hk. unfold class_of in Hk. unfold DoAddress. rewrite Hl.
  destruct (functions fi !! m_Function aoi) as [f|] eqn:Ef; [|done].
  injection Hk as <-. rewrite decide_False by congruence.
  destruct (GetReturnAddress c) as [r c1]. unfold plain in Hp. rewrite Forall_lookup in Hp.
  rewrite (Hp _ _ Ef). simpl. destruct (Enter (f_class f) mc c1) as [mc' c2]. by eexists _, _, _.
Qed.

Lemma hook_runs fi mc c k call : keeps_args -> plain fi -> hooked fi k c ->
  announced k c = Some call ->
  exists fi' c' ls, QEMU_DoAddress c fi mc =
    Some (fi', say ls (mc <| m_ShadowMemory := (ShadowMemory.exec call (m_ShadowMemory mc)).1.2 |>), c')
    /\ ((ShadowMemory.exec call (m_ShadowMemory mc)).1.1 = 0 ->
        ls = OutReport <$> (ShadowMemory.exec call (m_ShadowMemory mc)).2).
Proof using.
  intros Hka Hp (Hpc & aoi & Hl & Ht & Hk) Hcall.
  unfold QEMU_DoAddress, LinuxKernel_DoAddress. rewrite (proj2 (Z.leb_le _ _) Hpc).
  destruct (visit_plain _ fi mc c aoi k Hp Hl Ht Hk) as (ret & fi' & c' & ->).
  assert (Hcall' : announced k (GetReturnAddress c).2 = Some call).
  { rewrite <- Hcall. destruct (Hka c) as [H1 H2]. destruct k; simpl; rewrite ?H1, ?H2; done. }
  rewrite (enter_announced k _ mc call Hcall').
  destruct (ShadowMemory.exec call (m_ShadowMemory mc)) as [[r m'] out]. cbn [fst snd].
  destruct (finish_says (GetReturnAddress c).2 r m' out mc) as [ls ->].
  eexists _, _, _. split; [reflexivity|]. intros ->. simpl. by rewrite app_nil_r.
Qed.



(** C2. A fresh allocation may be used: once the guest has announced an allocation that
    overlaps no other, no access inside it is reported. *)
Theorem allocated_access_silent fi mc c : keeps_args -> plain fi ->
  hooked fi MemCheck_Alloc c -> wf (m_ShadowMemory mc) ->
  let p := GetArgument1 c in
  let n := GetArgument2 c in
  is_u32 p -> 0 <= n -> p + n < 2 ^ 32 ->
  (forall x, p <= x < p + Z.max 1 n -> ~ covers (m_ShadowMemory mc) x) ->
  exists fi' mc' c', QEMU_DoAddress c fi mc = Some (fi', mc', c') /\ log mc' = log mc /\
    wf (m_ShadowMemory mc') /\
    forall c2 address length, 0 < length -> p <= address -> address + length <= p + n ->
      MemoryAccess c2 address length mc' = (mc', c2).
Proof using.
  intros Hka Hp Hh Hwf p n Hpu Hn Hpn Hfree.
  destruct (hook_runs fi mc c MemCheck_Alloc _ Hka Hp Hh eq_refl) as (fi' & c' & ls & -> & Hls).
  cbn [ShadowMemory.exec] in *. fold p n in Hls |- *. unfold ShadowMemory.NewMemoryAlloc in *.
  set (k := ShadowMemory.mkEntry (ShadowMemory.mkAlloc p n) (ShadowMemory.mkContents 0)) in *.
  assert (Hk : fits k) by (unfold fits, in_width in *; cbn; lia).
  assert (Hext : extent k = p + Z.max 1 n) by done.
  destruct (insert_disjoint k (m_ShadowMemory mc) Hwf Hk) as [m' Hm'].
  { intros x Hx Ho. destruct (overlaps_witness x k (wf_fits _ _ Hwf Hx) Hk Ho) as (a & Ha1 & Ha2).
    apply (Hfree a); [rewrite <- Hext; exact Ha2|]. exists x. done. }
  rewrite Hm' in *. cbn [fst snd] in *. rewrite (Hls eq_refl). cbn [fmap list_fmap].
  rewrite say_nil. eexists _, _, _. split; [reflexivity|]. split; [done|].
  assert (Hwf' : wf m') by (by eapply insert_wf). split; [done|].
  intros c2 address len Hl Hlo Hhi. apply access_exact; cbn -[Z.pow]; [done| |done|lia|].
  - unfold in_width in *. lia.
  - intros (_ & _ & Hn'). cbn in Hn'. apply (Hn' address); [lia|]. exists k.
    split; [apply (elem_of_insert k _ m' k Hwf Hk Hm'); auto|].
    change (span_addr k) with p. rewrite Hext. lia.
Qed.

(** ** The guest runs *)

Fixpoint guest_run (cs : list C) (fi : interceptor) (mc : MemCheckState)
  : option (interceptor * MemCheckState) :=
  match cs with
  | [] => Some (fi, mc)
  | c :: cs' =>
    match QEMU_DoAddress c fi mc with
    | None => None
    | Some (fi, mc, _) => guest_run cs' fi mc
    end
  end.

(** The blocks of the kernel among those the guest executes. *)
Definition kernel_visits (cs : list C) : list (Z * C) :=
  (fun c => (GetPC c, c)) <$> filter (fun c => 0xc0000000 <= GetPC c) cs.

Lemma guest_run_visits cs fi mc :
  guest_run cs fi mc = visits Enter Leave (kernel_visits cs) fi mc.
Proof using.
  revert fi mc. induction cs as [|c cs IH]; intros fi mc; [done|]. simpl.
  unfold QEMU_DoAddress, LinuxKernel_DoAddress, kernel_visits.
  destruct (Z.leb_spec 0xc0000000 (GetPC c)).
  - rewrite filter_cons_True by done. simpl.
    destruct (DoAddress _ _ _ _ _ _) as [[[[r fi'] mc'] c']|]; [apply IH|done].
  - rewrite filter_cons_False by lia. apply IH.
Qed.

(** C6. Checking comes back: when the guest runs through properly nested calls of hooked
    functions, at most [n] deep and each returning to an address no pending call of
    another class awaits, every address of interest is again as it was, and checking,
    switched off inside the allocator, is on again. *)
Theorem nested_calls_restore_checking hooks cls n cs fi mc :
  balanced hooks cls ∅ n (kernel_visits cs) -> represents fi hooks ∅ cls ->
  counts_ok (Z.of_nat n) fi -> Z.of_nat n < 2 ^ 32 ->
  m_MemoryAccessDisable mc = false -> m_MemoryAccessDepth mc = 0 ->
  exists fi' mc', guest_run cs fi mc = Some (fi', mc') /\
    m_AddressOfInterestMap fi' = m_AddressOfInterestMap fi /\
    m_MemoryAccessDisable mc' = false /\ m_MemoryAccessDepth mc' = 0.
Proof using.
  intros Hb Hr Hc Hn Hd Hz. rewrite guest_run_visits.
  assert (H0 : off_level mc = 0) by (unfold off_level; rewrite Hd, Hz; done).
  destruct (balanced_run Enter Leave hooks cls ∅ n _ Hb fi mc Hr Hc) as (fi' & mc' & Hv & Hm & _ & Hs & Hl).
  - cbn. rewrite Hz. unfold in_width. lia.
  - change (0 <= off_level mc). lia.
  - change (off_level mc + Z.of_nat n < 2 ^ 32). lia.
  - change (off_level mc' = off_level mc) in Hl. change (is_u32 (m_MemoryAccessDepth mc')) in Hs.
    exists fi', mc'. split; [done|]. split; [done|]. unfold off_level, in_width in *.
    destruct (m_MemoryAccessDisable mc'); simpl in *; [lia|]. split; [done|lia].
Qed.

(** C34. Tail calls leave checking off: if a hooked allocator function jumps to another
    one, both await the same return address, the guest passes it once, and only one of
    the two is left. *)
Theorem tail_call_leaves_checking_off fi mc pf pg r c1 c2 c3 af ag :
  m_AddressOfInterestMap fi !! pf = Some af -> m_Type af = FUNCTION ->
  class_of fi (m_Function af) = Some LinuxKernelHeapFunction ->
  m_AddressOfInterestMap fi !! pg = Some ag -> m_Type ag = FUNCTION ->
  class_of fi (m_Function ag) = Some LinuxKernelHeapFunction ->
  (GetReturnAddress c1).1 = r -> (GetReturnAddress c2).1 = r ->
  m_AddressOfInterestMap fi !! r = None ->
  m_MemoryAccessDisable mc = false -> m_MemoryAccessDepth mc = 0 ->
  exists fi' mc', visits Enter Leave [(pf, c1); (pg, c2); (r, c3)] fi mc = Some (fi', mc') /\
    m_MemoryAccessDisable mc' = true.
Proof using.
  intros Hf1 Hf2 Hf3 Hg1 Hg2 Hg3 Hr1 Hr2 Hr Hd Hz.
  destruct (visit_hook Enter Leave pf fi mc c1 af _ Hf1 Hf2 Hf3) as (? & fi1 & d1 & ? & Hv1 & Hc1 & Hm1).
  rewrite Hr1, Hr in Hm1.
  assert (pg <> r) by congruence.
  destruct (visit_hook Enter Leave pg fi1 (MemoryAccessDisable mc) c2 ag LinuxKernelHeapFunction)
    as (? & fi2 & d2 & ? & Hv2 & Hc2 & Hm2);
    [by rewrite Hm1, lookup_insert_ne|done|by rewrite Hc1|].
  rewrite Hr2, Hm1, lookup_insert_eq in Hm2.
  destruct (visit_return Enter Leave r fi2 (MemoryAccessDisable (MemoryAccessDisable mc)) c3
    ((AOI_NewReturnAddress r (m_Function af)) <| m_RefCnt := u32 (1 + 1) |>) LinuxKernelHeapFunction)
    as (? & fi3 & ? & Hv3 & _ & _);
    [by rewrite Hm2, lookup_insert_eq|done|by rewrite Hc2, Hc1|].
  eexists _, _. cbn [visits]. rewrite Hv1. cbn [Enter fst]. rewrite Hv2. cbn [Enter fst]. rewrite Hv3.
  split; [reflexivity|]. cbn [Leave fst].
  unfold MemoryAccessDisable at 2. rewrite Hd. unfold MemoryAccessDisable. cbn. rewrite Hz. reflexivity.
Qed.

(** ** Start up *)

(** The interceptor holds the functions [fs], each hooked at its address. *)
Definition hooks_functions (fs : list Function) (fi : interceptor) : Prop :=
  functions fi = fs /\
  (forall a aoi, m_AddressOfInterestMap fi !! a = Some aoi ->
     m_Type aoi = FUNCTION /\ m_RefCnt aoi = 1 /\
     exists f, fs !! m_Function aoi = Some f /\ f_Address f = a) /\
  (forall f, f ∈ fs -> is_Some (m_AddressOfInterestMap fi !! f_Address f)).

Lemma hooks_new fs f fi : hooks_functions fs fi -> hooks_functions (fs ++ [f]) (NewFunction f fi).
Proof using.
  intros (<- & H2 & H3). split; [done|]. cbn. split.
  - intros a aoi. destruct (decide (a = f_Address f)) as [->|Hne].
    + rewrite lookup_insert_eq. intros [= <-]. cbn. split; [done|]. split; [done|].
      exists f. split; [|done]. rewrite lookup_app_r, Nat.sub_diag by lia. done.
    + rewrite lookup_insert_ne by done. intros Ha. destruct (H2 a aoi Ha) as (Ht & Hc & g & Hg & Hga).
      split; [done|]. split; [done|]. exists g. split; [|done]. by apply lookup_app_l_Some.
  - intros g [Hg|Hg]%elem_of_app; [|apply list_elem_of_singleton in Hg; subst g].
    + destruct (decide (f_Address g = f_Address f)) as [->|Hne]; [by rewrite lookup_insert_eq|].
      rewrite lookup_insert_ne by done. by apply H3.
    + by rewrite lookup_insert_eq.
Qed.

Lemma hooks_fold indet t L : forall fs fi, hooks_functions fs fi ->
  hooks_functions (fs ++ ((fun '(k, nargs, name) => LinuxKernelFunction indet k nargs t name) <$> L))
    (foldl (fun fi '(k, nargs, name) =>
              NewFunction (LinuxKernelFunction indet k nargs t name) fi) fi L).
Proof using.
  induction L as [|[[k nargs] name] L IH]; intros fs fi H; simpl; [by rewrite app_nil_r|].
  rewrite cons_middle, app_assoc. apply IH. by apply hooks_new.
Qed.

Lemma kernel_functions_unique k k' n n' name :
  (k, n, name) ∈ kernel_functions -> (k', n', name) ∈ kernel_functions -> k = k'.
Proof using.
  intros [i Hi]%list_elem_of_lookup [j Hj]%list_elem_of_lookup.
  assert (Hnd : NoDup (snd <$> kernel_functions))
    by (apply (bool_decide_unpack _); by vm_compute).
  assert (i = j) as ->; [|congruence].
  apply (NoDup_lookup _ i j name Hnd); rewrite list_lookup_fmap; [rewrite Hi|rewrite Hj]; done.
Qed.

(** C8. After [Init] every kernel function whose symbol is in System.map, at an address
    that is no other hooked function's, is hooked there with its own handlers; all
    pointers are valid, the reference counts are 1, checking is on, and the window
    ends at [0xdfff0000] and starts at [__bss_stop]. *)
Theorem init_hooks indet_line indet us ue content mc fi :
  Init indet_line indet (Some content) (new_MemCheck us ue) empty_interceptor = Some (mc, fi) ->
  plain fi /\ represents fi (m_Function <$> m_AddressOfInterestMap fi) ∅ (class_of fi) /\
  counts_ok (2 ^ 32 - 2) fi /\
  m_MemoryAccessDisable mc = false /\ m_MemoryAccessDepth mc = 0 /\
  m_MemoryAccessStop mc = 0xdfff0000 /\
  (forall a, SymbolTable.Lookup_name (m_SymbolTable mc) "__bss_stop" = Some a ->
     m_MemoryAccessStart mc = a) /\
  forall k nargs name a, (k, nargs, name) ∈ kernel_functions ->
    SymbolTable.Lookup_name (m_SymbolTable mc) name = Some a ->
    (forall f, f ∈ functions fi -> f_Address f = a -> m_SymbolName f = name) ->
    exists aoi, m_AddressOfInterestMap fi !! a = Some aoi /\ m_Type aoi = FUNCTION /\
      class_of fi (m_Function aoi) = Some k.
Proof using.
  unfold Init. destruct (SymbolTable.Load _ _ _) as [t|]; [|done].
  assert (He : hooks_functions [] (empty_interceptor (K := kernel_class))).
  { split; [done|]. split; [done|]. intros f Hf. by apply not_elem_of_nil in Hf. }
  pose proof (hooks_fold indet t kernel_functions [] _ He) as Hh.
  rewrite app_nil_l in Hh. set (fi0 := foldl _ _ _) in *. clearbody fi0. intros [= <- <-]. clear He. destruct Hh as (H1 & H2 & H3).
  assert (Hin : forall f, f ∈ functions fi0 <-> exists k nargs name,
    (k, nargs, name) ∈ kernel_functions /\ f = LinuxKernelFunction indet k nargs t name).
  { intros f. rewrite H1, list_elem_of_fmap. split.
    - intros ([[k nargs] name] & -> & Hin). eauto.
    - intros (k & nargs & name & Hin & ->). exists (k, nargs, name). eauto. }
  split.
  { unfold plain. apply Forall_forall. intros f (k & nargs & name & _ & ->)%Hin. done. }
  split.
  { split; [done|]. intros a. rewrite lookup_fmap.
    destruct (m_AddressOfInterestMap fi0 !! a) as [aoi|] eqn:Ea; [|done].
    destruct (H2 a aoi Ea) as (Ht & _ & f & Hf & _). rewrite Ht.
    unfold class_of. rewrite H1, Hf. split; [by eexists|done]. }
  split.
  { intros a aoi Ha. destruct (H2 a aoi Ha) as (_ & -> & _). lia. }
  split; [by destruct (SymbolTable.Lookup_name t "__bss_stop")|].
  split; [by destruct (SymbolTable.Lookup_name t "__bss_stop")|].
  split; [by destruct (SymbolTable.Lookup_name t "__bss_stop")|].
  assert (Ht : forall mc', m_SymbolTable (MemoryAccessEnable mc') = m_SymbolTable mc').
  { intros mc'. unfold MemoryAccessEnable. by destruct (truth _). }
  split.
  { intros a. destruct (SymbolTable.Lookup_name t "__bss_stop") eqn:E; cbn; rewrite E; congruence. }
  intros k nargs name a Hk Ha Huniq.
  assert (Ha' : SymbolTable.Lookup_name t name = Some a)
    by (by destruct (SymbolTable.Lookup_name t "__bss_stop")).
  destruct (H3 (LinuxKernelFunction indet k nargs t name)) as [aoi Haoi].
  { rewrite <- H1. apply Hin. eauto. }
  unfold LinuxKernelFunction in Haoi. cbn [f_Address] in Haoi. rewrite Ha' in Haoi. cbn in Haoi.
  destruct (H2 a aoi Haoi) as (Htt & _ & f & Hf & Hfa). exists aoi. split; [done|]. split; [done|].
  unfold class_of. rewrite H1, Hf. cbn.
  assert (Hfin : f ∈ functions fi0) by (rewrite H1; by eapply list_elem_of_lookup_2).
  pose proof (Huniq f Hfin Hfa) as Hn. apply Hin in Hfin as (k2 & n2 & name2 & Hin2 & ->).
  cbn in Hn. subst name2. cbn. f_equal. by eapply kernel_functions_unique.
Qed.
End MemCheck.

(** ** The i386 machine keeps the registers *)

Lemma qemu_keeps_args {D} (rd : Z -> Z -> D -> Z -> Z * D) wr uninit :
  @keeps_args _ (MachineQEMU rd wr uninit).
Proof.
  intros [env s]. cbn. unfold i386_GetReturnAddress, debug_word, debug_read. cbn.
  destruct (Mmu.cpu_memory_rw_debug _ _ _ _ _ _ _ _) as [[[r buf] s']|]; done.
Qed.

(** ** A concrete guest

    Two hooks on the announcements and two on the allocator, in a guest whose calls
    return to [0xc0100055] (the stack of [Machine.call_cpu]). *)

#[local] Existing Instance MachineQEMU.
Definition demo_machine : Machine _ := MachineQEMU PhysMem.no_read PhysMem.no_write zeros.
#[local] Existing Instance demo_machine.

Definition demo_hook (k : kernel_class) (a : Z) (name : string) : Function :=
  mkFunction a name false 0 false k.

Definition demo_fi : FunctionInterceptor :=
  foldl (fun fi f => NewFunction f fi) empty_interceptor
    [demo_hook MemCheck_Alloc 0xc0100000 "MemCheck_Alloc"; demo_hook MemCheck_Free 0xc0100010 "MemCheck_Free";
     demo_hook LinuxKernelHeapFunction 0xc0100020 "__kmalloc";
     demo_hook LinuxKernelHeapFunction 0xc0100030 "__alloc_pages"].

Definition demo_cpu (pc eax edx : Z) : Mmu.CPUX86State * PhysMem.phys (D := unit) :=
  (call_cpu.1 <| Mmu.eip := pc |> <| Mmu.regs := [eax; 33; edx; 0; 0x1000; 0x1100; 0; 0] |>,
   call_cpu.2).

Definition demo_mc : MemCheckState :=
  (new_MemCheck 0xc0200000 0xdfff0000) <| m_ShadowMemory :=
    [ShadowMemory.mkEntry (ShadowMemory.mkAlloc 0xc1000000 64) (ShadowMemory.mkContents 0)] |>.

Lemma demo_wf : wf (m_ShadowMemory demo_mc).
Proof. apply wfb_wf. by vm_compute. Qed.

Lemma demo_plain : plain demo_fi.
Proof. repeat constructor. Qed.

Lemma demo_hooked k pc eax edx : 0xc0000000 <= pc ->
  (m_AddressOfInterestMap demo_fi !! pc) ≫= (fun aoi =>
     if decide (m_Type aoi = FUNCTION) then class_of demo_fi (m_Function aoi) else None) = Some k ->
  hooked demo_fi k (demo_cpu pc eax edx).
Proof.
  intros Hpc H. split; [done|]. change (GetPC (demo_cpu pc eax edx)) with pc.
  destruct (m_AddressOfInterestMap demo_fi !! pc) as [aoi|]; simpl in H; [|done].
  exists aoi. destruct (decide (m_Type aoi = FUNCTION)); done.
Qed.

Lemma demo_return pc eax edx : (GetReturnAddress (demo_cpu pc eax edx)).1 = 0xc0100055.
Proof.
  assert (Hr : (i386_GetReturnAddress PhysMem.no_read PhysMem.no_write zeros call_cpu).1 = 0xc0100055)
    by (lazy; reflexivity).
  rewrite <- Hr. reflexivity.
Qed.

Lemma access_report_exact_witness : exists ls,
  (MemoryAccess [] [] (demo_cpu 0xc0100100 0 0) 0xc1000040 4 demo_mc).1
  = say (OutOfBound 0xc1000040 4 :: ls) demo_mc.
Proof.
  apply (access_report_exact [] [] (demo_cpu 0xc0100100 0 0) demo_mc 0xc1000040 4 demo_wf);
    [unfold in_width; lia|lia|lia|].
  split; [done|]. split; [cbn; lia|]. intros x Hx (e & He & Hc).
  apply list_elem_of_singleton in He. subst e. unfold extent in Hc. cbn in Hc. lia.
Defined.



Lemma allocated_access_silent_witness : exists fi' mc' c',
  QEMU_DoAddress [] [] (demo_cpu 0xc0100000 0xc1000040 32) demo_fi demo_mc = Some (fi', mc', c') /\
  MemoryAccess [] [] (demo_cpu 0xc0100100 0 0) 0xc1000050 8 mc' = (mc', demo_cpu 0xc0100100 0 0).
Proof.
  destruct (allocated_access_silent [] [] demo_fi demo_mc (demo_cpu 0xc0100000 0xc1000040 32))
    as (fi' & mc' & c' & H1 & _ & _ & H2).
  - apply qemu_keeps_args.
  - apply demo_plain.
  - apply demo_hooked; [lia|vm_compute; reflexivity].
  - apply demo_wf.
  - cbn -[Z.pow]. unfold in_width. lia.
  - cbn. lia.
  - cbn -[Z.pow]. lia.
  - intros x Hx (e & He & Hc). apply list_elem_of_singleton in He. subst e.
    unfold extent in Hc. cbn in Hc, Hx. lia.
  - exists fi', mc', c'. split; [exact H1|]. apply H2; cbn; lia.
Defined.

Definition demo_hooks : gmap Z nat := m_Function <$> m_AddressOfInterestMap demo_fi.

Lemma demo_represents : represents demo_fi demo_hooks ∅ (class_of demo_fi).
Proof.
  split; [done|]. intros a. unfold demo_hooks. rewrite lookup_fmap.
  destruct (m_AddressOfInterestMap demo_fi !! a) as [aoi|] eqn:E; [|done].
  assert (Hall : map_Forall (fun _ x => is_Some (class_of demo_fi (m_Function x)) /\ m_Type x = FUNCTION)
    (m_AddressOfInterestMap demo_fi)) by (apply (bool_decide_unpack _); by vm_compute).
  destruct (Hall a aoi E) as [H1 H2]. rewrite H2. auto.
Qed.

Lemma demo_counts : counts_ok 2 demo_fi.
Proof.
  assert (Hall : map_Forall (fun _ x => m_RefCnt x = 1) (m_AddressOfInterestMap demo_fi))
    by (apply (bool_decide_unpack _); by vm_compute).
  intros a aoi Ha. rewrite (Hall a aoi Ha). lia.
Qed.

(** A call of [__kmalloc] and its return. *)
Lemma nested_calls_restore_checking_witness : exists fi' mc',
  guest_run [] [] [demo_cpu 0xc0100020 0 0; demo_cpu 0x8048000 0 0; demo_cpu 0xc0100055 0 0]
    demo_fi demo_mc = Some (fi', mc') /\ m_MemoryAccessDisable mc' = false.
Proof.
  destruct (nested_calls_restore_checking [] [] demo_hooks (class_of demo_fi) 2
    [demo_cpu 0xc0100020 0 0; demo_cpu 0x8048000 0 0; demo_cpu 0xc0100055 0 0] demo_fi demo_mc)
    as (fi' & mc' & H1 & _ & H2 & _).
  - change (kernel_visits _) with
      ((0xc0100020, demo_cpu 0xc0100020 0 0) :: [] ++ [(0xc0100055, demo_cpu 0xc0100055 0 0)]).
    apply bal_call with 2%nat; [by vm_compute|apply demo_return|by vm_compute|done|constructor|constructor].
  - apply demo_represents.
  - apply demo_counts.
  - lia.
  - reflexivity.
  - reflexivity.
  - exists fi', mc'. split; [exact H1|exact H2].
Defined.

Lemma tail_call_leaves_checking_off_witness : exists fi' mc',
  visits (Enter [] []) Leave [(0xc0100020, demo_cpu 0xc0100020 0 0); (0xc0100030, demo_cpu 0xc0100030 0 0);
    (0xc0100055, demo_cpu 0xc0100055 0 0)] demo_fi demo_mc = Some (fi', mc') /\
  m_MemoryAccessDisable mc' = true.
Proof.
  apply (tail_call_leaves_checking_off [] [] demo_fi demo_mc 0xc0100020 0xc0100030 0xc0100055
    (demo_cpu 0xc0100020 0 0) (demo_cpu 0xc0100030 0 0) (demo_cpu 0xc0100055 0 0)
    (mkAOI FUNCTION 0xc0100020 1 2) (mkAOI FUNCTION 0xc0100030 1 3)).
  - vm_compute. reflexivity.
  - reflexivity.
  - reflexivity.
  - vm_compute. reflexivity.
  - reflexivity.
  - reflexivity.
  - apply demo_return.
  - apply demo_return.
  - vm_compute. reflexivity.
  - reflexivity.
  - reflexivity.
Defined.

Lemma visits_safe_witness : exists fi' mc',
  visits (Enter [] []) Leave [(0xc0100055, demo_cpu 0xc0100055 0 0); (0xc0100030, demo_cpu 0xc0100030 0 0)]
    demo_fi demo_mc = Some (fi', mc') /\ valid fi'.
Proof.
  destruct (visits_safe (Enter [] []) Leave
    [(0xc0100055, demo_cpu 0xc0100055 0 0); (0xc0100030, demo_cpu 0xc0100030 0 0)] demo_fi demo_mc)
    as (fi' & mc' & H1 & H2 & _).
  - assert (Hall : map_Forall (fun _ x => is_Some (class_of demo_fi (m_Function x)))
      (m_AddressOfInterestMap demo_fi)) by (apply (bool_decide_unpack _); by vm_compute).
    exact Hall.
  - exists fi', mc'. split; [exact H1|exact H2].
Defined.

Definition demo_map : string :=
  ("c0100000 T MemCheck_Alloc" ++ SymbolTable.nl ++ "c0100010 T MemCheck_Free" ++ SymbolTable.nl
   ++ "c0100020 T __kmalloc" ++ SymbolTable.nl ++ "c0200000 B __bss_stop" ++ SymbolTable.nl)%string.

Definition demo_init : option (MemCheckState * FunctionInterceptor) :=
  Init SymbolTable.no_indet (fun _ => 0) (Some demo_map) (new_MemCheck 7 7) empty_interceptor.

Lemma init_hooks_witness : exists mc fi, demo_init = Some (mc, fi) /\ plain fi /\
  m_MemoryAccessStart mc = 0xc0200000.
Proof.
  destruct demo_init as [[mc fi]|] eqn:E; [|by vm_compute in E].
  exists mc, fi. split; [reflexivity|].
  destruct (init_hooks SymbolTable.no_indet (fun _ => 0) 7 7 demo_map mc fi E)
    as (H1 & _ & _ & _ & _ & _ & H2 & _).
  split; [exact H1|]. apply H2.
  assert (Hl : demo_init ≫= (fun x => SymbolTable.Lookup_name (m_SymbolTable x.1) "__bss_stop")
    = Some 0xc0200000) by (vm_compute; reflexivity).
  rewrite E in Hl. exact Hl.
Defined.

End MemCheck.
