(* ===== verification/Tlb.v ===== *)
(** * The software TLB

    The cache of translations every guest access goes through (src/MemCheck-qemu/exec.c):
    filling an entry from the physical page tables, flushing, and the tracking of
    writes to clean pages, which the code cache and the displays rely on.  One CPU, on a
    host with 32-bit pointers.  [phys_ram_base] is the host address of the guest's RAM,
    [io_mem_watch] the I/O zone of the watchpoints. *)

From S2P Require Import Prelude Bytes PhysMem Mmu.
Import PhysMem Mmu.

Module Tlb.

Definition CPU_TLB_SIZE : Z := 256.
Definition TARGET_PAGE_MASK : Z := 0xfffff000.
Definition TLB_INVALID_MASK : Z := 8.
Definition IO_MEM_NOTDIRTY : Z := 64.
(** -1 as a [target_ulong] *)
Definition INVALID : Z := 0xffffffff.

Record CPUTLBEntry := mkEntry {
  addr_read : Z;
  addr_write : Z;
  addr_code : Z;
  addend : Z;
}.
#[global] Instance eta_entry : Eta CPUTLBEntry := fun e =>
  mkEntry (addr_read e) (addr_write e) (addr_code e) (addend e).

(** [tlb_table[mmu_idx][index]] *)
Abbreviation tlb := (Z -> Z -> CPUTLBEntry).

Definition tlb_index (addr : Z) : Z := Z.land (Z.shiftr addr TARGET_PAGE_BITS) (CPU_TLB_SIZE - 1).

Definition upd_entry (mmu_idx index : Z) (f : CPUTLBEntry -> CPUTLBEntry) (t : tlb) : tlb :=
  fun m i => if (m =? mmu_idx) && (i =? index) then f (t m i) else t m i.

(** A statement repeated for the [NB_MMU_MODES] tables. *)
Definition upd_modes (index : Z) (f : CPUTLBEntry -> CPUTLBEntry) (t : tlb) : tlb :=
  upd_entry 1 index f (upd_entry 0 index f t).

(** A loop over all the entries. *)
Definition upd_all (f : CPUTLBEntry -> CPUTLBEntry) (t : tlb) : tlb := fun m i => f (t m i).

(** ** Flushing *)

Definition invalidate (e : CPUTLBEntry) : CPUTLBEntry :=
  let e := e <| addr_read := INVALID |> in
  let e := e <| addr_write := INVALID |> in
  e <| addr_code := INVALID |>.

Definition tlb_flush (flush_global : Z) (t : tlb) : tlb := upd_all invalidate t.

(** The test of an entry's address: the page is the one of [addr] and the entry is valid. *)
Definition tag (a : Z) : Z := Z.land a (Z.lor TARGET_PAGE_MASK TLB_INVALID_MASK).

Definition tlb_flush_entry (addr : Z) (e : CPUTLBEntry) : CPUTLBEntry :=
  if (addr =? tag (addr_read e)) || (addr =? tag (addr_write e)) || (addr =? tag (addr_code e))
  then invalidate e else e.

Definition tlb_flush_page (addr : Z) (t : tlb) : tlb :=
  let addr := Z.land addr TARGET_PAGE_MASK in
  upd_modes (tlb_index addr) (tlb_flush_entry addr) t.

(** ** Dirty pages *)

(** The host address of the page an entry writes to. *)
Definition write_host (e : CPUTLBEntry) : Z := u32 (page_base (addr_write e) + addend e).

Definition tlb_reset_dirty_range (start length : Z) (e : CPUTLBEntry) : CPUTLBEntry :=
  if page_off (addr_write e) =? IO_MEM_RAM then
    if u32 (write_host e - start) <? length
    then e <| addr_write := Z.lor (page_base (addr_write e)) IO_MEM_NOTDIRTY |>
    else e
  else e.

(** Gives each of the [n] flags from [p] on to [f]. *)
Fixpoint upd_flags (n : nat) (p : Z) (f : Z -> Z) (d : Z -> Z) : Z -> Z :=
  match n with O => d | S n' => upd_flags n' (p + 1) f (mem_upd d p (f (d p))) end.

Definition TARGET_PAGE_ALIGN (a : Z) : Z := page_base (u32 (a + TARGET_PAGE_SIZE - 1)).

Section Tlb.
Context {D : Type}.
Context (phys_ram_base io_mem_watch : Z).

Abbreviation phys := (phys (D := D)).

Definition cpu_physical_memory_get_dirty (addr dirty_flags : Z) (s : phys) : Z :=
  Z.land (phys_ram_dirty s (Z.shiftr addr TARGET_PAGE_BITS)) dirty_flags.

Definition cpu_physical_memory_set_dirty (addr : Z) (s : phys) : phys :=
  s <| phys_ram_dirty := mem_upd (phys_ram_dirty s) (Z.shiftr addr TARGET_PAGE_BITS) 0xff |>.

(** [cpu_physical_memory_reset_dirty(start, end, dirty_flags)] *)
Definition cpu_physical_memory_reset_dirty (start stop dirty_flags : Z) (t : tlb) (s : phys)
  : tlb * phys :=
  let start := page_base start in
  let stop := TARGET_PAGE_ALIGN stop in
  let length := u32 (stop - start) in
  if length =? 0 then (t, s) else
  let len := Z.shiftr length TARGET_PAGE_BITS in
  let mask := Z.lnot dirty_flags in
  let s := s <| phys_ram_dirty := upd_flags (Z.to_nat len) (Z.shiftr start TARGET_PAGE_BITS)
                                    (fun d => u8 (Z.land d mask)) (phys_ram_dirty s) |> in
  let start1 := u32 (start + phys_ram_base) in
  (upd_all (tlb_reset_dirty_range start1 length) t, s).

Definition tlb_protect_code (ram_addr : Z) (t : tlb) (s : phys) : tlb * phys :=
  cpu_physical_memory_reset_dirty ram_addr (u32 (ram_addr + TARGET_PAGE_SIZE)) CODE_DIRTY_FLAG t s.

Definition tlb_unprotect_code_phys (ram_addr : Z) (s : phys) : phys :=
  let p := Z.shiftr ram_addr TARGET_PAGE_BITS in
  s <| phys_ram_dirty := mem_upd (phys_ram_dirty s) p (Z.lor (phys_ram_dirty s p) CODE_DIRTY_FLAG) |>.

Definition tlb_update_dirty (s : phys) (e : CPUTLBEntry) : CPUTLBEntry :=
  if page_off (addr_write e) =? IO_MEM_RAM then
    let ram_addr := u32 (write_host e - phys_ram_base) in
    if negb (cpu_physical_memory_is_dirty ram_addr s)
    then e <| addr_write := Z.lor (addr_write e) IO_MEM_NOTDIRTY |> else e
  else e.

Definition cpu_tlb_update_dirty (t : tlb) (s : phys) : tlb := upd_all (tlb_update_dirty s) t.

Definition tlb_set_dirty1 (start : Z) (e : CPUTLBEntry) : CPUTLBEntry :=
  if page_off (addr_write e) =? IO_MEM_NOTDIRTY then
    if write_host e =? start
    then e <| addr_write := Z.lor (page_base (addr_write e)) IO_MEM_RAM |> else e
  else e.

Definition tlb_set_dirty (addr vaddr : Z) (t : tlb) : tlb :=
  let addr := Z.land addr TARGET_PAGE_MASK in
  upd_modes (tlb_index vaddr) (tlb_set_dirty1 addr) t.

(** ** Filling *)

(** A watchpoint: its address and the addend that takes the host address of an access
    back to the physical one. *)
Abbreviation watchpoints := (list (Z * Z)).

(** The loop over the watchpoints in [tlb_set_page_exec]: the address and the page
    descriptor it leaves, and the addends it sets. *)
Fixpoint watch_page (vaddr paddr : Z) (w : watchpoints) (address pd : Z)
  : Z * Z * watchpoints :=
  match w with
  | [] => (address, pd, [])
  | (wvaddr, waddend) :: w' =>
    let '(address, pd, waddend) :=
      if vaddr =? page_base wvaddr then
        if truth (page_off address) then (Z.lor vaddr io_mem_watch, pd, 0)
        else (address, Z.lor (Z.lor (page_base pd) io_mem_watch) IO_MEM_ROMD,
              u32 (pd - paddr + phys_ram_base))
      else (address, pd, waddend) in
    let '(address, pd, w') := watch_page vaddr paddr w' address pd in
    (address, pd, (wvaddr, waddend) :: w')
  end.

(** The [addr_write] of a page with write permission. *)
Definition write_tag (vaddr address pd : Z) (s : phys) : Z :=
  if (page_off pd =? IO_MEM_ROM) || truth (Z.land pd IO_MEM_ROMD) then
    Z.lor vaddr (Z.land pd (Z.lnot (Z.lor TARGET_PAGE_MASK IO_MEM_ROMD)))
  else if (page_off pd =? IO_MEM_RAM) && negb (cpu_physical_memory_is_dirty pd s) then
    Z.lor vaddr IO_MEM_NOTDIRTY
  else address.

(** The I/O zone or the RAM of a page: the address of the entry and its addend. *)
Definition page_target (vaddr paddr pd : Z) : Z * Z :=
  if (IO_MEM_ROM <? page_off pd) && negb (truth (Z.land pd IO_MEM_ROMD))
  then (Z.lor vaddr pd, paddr)
  else (vaddr, u32 (phys_ram_base + page_base pd)).

Definition fill_entry (vaddr address addend pd prot : Z) (s : phys) : CPUTLBEntry := {|
  addend := u32 (addend - vaddr);
  addr_read := if has prot PAGE_READ then address else INVALID;
  addr_code := if has prot PAGE_EXEC then address else INVALID;
  addr_write := if has prot PAGE_WRITE then write_tag vaddr address pd s else INVALID |}.

Definition tlb_set_page_exec (vaddr paddr prot mmu_idx : Z) (w : watchpoints) (t : tlb) (s : phys)
  : watchpoints * tlb :=
  let pd := page_desc paddr s in
  let '(address, addend) := page_target vaddr paddr pd in
  let '(address, pd, w) := watch_page vaddr paddr w address pd in
  let index := tlb_index vaddr in
  (w, upd_entry mmu_idx index (fun _ => fill_entry vaddr address addend pd prot s) t).

Definition tlb_set_page (vaddr paddr prot mmu_idx : Z) (w : watchpoints) (t : tlb) (s : phys)
  : watchpoints * tlb :=
  let prot := if has prot PAGE_READ then Z.lor prot PAGE_EXEC else prot in
  tlb_set_page_exec vaddr paddr prot mmu_idx w t s.

(** ** Watchpoints *)

Definition MAX_WATCHPOINTS : nat := 32.

(** The flush of the translated code that comes with an insertion is left out. *)
Definition cpu_watchpoint_insert (addr : Z) (w : watchpoints) (t : tlb) : Z * watchpoints * tlb :=
  if existsb (fun p => addr =? p.1) w then (0, w, t)
  else if (MAX_WATCHPOINTS <=? length w)%nat then (-1, w, t)
  else (Z.of_nat (length w), w ++ [(addr, 0)], tlb_flush_page addr t).

(** [cpu_watchpoint_remove(env, addr)]: the last watchpoint takes the place of the one
    removed. *)
Fixpoint watch_position (addr : Z) (w : watchpoints) : option nat :=
  match w with
  | [] => None
  | p :: w' => if addr =? p.1 then Some O else S <$> watch_position addr w'
  end.

Definition cpu_watchpoint_remove (addr : Z) (w : watchpoints) (t : tlb) : Z * watchpoints * tlb :=
  match watch_position addr w with
  | None => (-1, w, t)
  | Some i =>
    let n := (length w - 1)%nat in
    let w := match w !! n with Some p => take n (<[i := p]> w) | None => w end in
    (0, w, tlb_flush_page addr t)
  end.
End Tlb.

(** ** What the memory's operations keep

    A step of the memory keeps the page table and all dirty pages dirty. *)

Section Steps.
Context {D : Type}.
Context (io_mem_read : Z -> Z -> D -> Z -> Z * D).
Context (io_mem_write : Z -> Z -> D -> Z -> Z -> D).

Abbreviation phys := (phys (D := D)).

Definition dirty_u8 (s : phys) : Prop := forall p, is_u8 (phys_ram_dirty s p).

Definition mem_step (s s' : phys) : Prop :=
  l1_phys_map s' = l1_phys_map s /\
  (dirty_u8 s -> dirty_u8 s' /\ forall p, phys_ram_dirty s p = 0xff -> phys_ram_dirty s' p = 0xff).

#[export] Instance mem_step_preorder : PreOrder mem_step.
Proof using.
  split; [split; [done|]; auto|]. intros x y z [A1 A2] [B1 B2]. split; [congruence|].
  intros H. destruct (A2 H) as [C1 C2]. destruct (B2 C1) as [D1 D2]. auto.
Qed.

Lemma mem_step_dirty s s' : l1_phys_map s' = l1_phys_map s ->
  phys_ram_dirty s' = phys_ram_dirty s -> mem_step s s'.
Proof using. intros H1 H2. split; [done|]. unfold dirty_u8. rewrite H2. auto. Qed.

Lemma or_flags_step s s' p f : is_u8 f -> l1_phys_map s' = l1_phys_map s ->
  phys_ram_dirty s' = mem_upd (phys_ram_dirty s) p (Z.lor (phys_ram_dirty s p) f) -> mem_step s s'.
Proof using.
  intros Hf H1 H2. split; [done|]. intros Hu. unfold dirty_u8. rewrite H2. unfold mem_upd. split.
  - intros q. destruct (q =? p); [|done]. apply lor_width; [lia|done|done].
  - intros q Hq. destruct (Z.eqb_spec q p) as [->|]; [|done]. rewrite Hq.
    apply Z.bits_inj'. intros i Hi. rewrite Z.lor_spec. destruct (Z.ltb_spec i 8).
    + assert (E : Z.testbit 0xff i = true).
      { change 0xff with (Z.ones 8). apply Z.ones_spec_low. lia. }
      by rewrite E.
    + rewrite (testbit_high 8 ltac:(lia) f), orb_false_r by (done || lia). done.
Qed.

Lemma mark_dirty_step a l s : mem_step s (mark_dirty a l s).
Proof using.
  unfold mark_dirty. destruct (negb _); [|done].
  by apply (or_flags_step _ _ (Z.shiftr a TARGET_PAGE_BITS) (Z.land 0xff (Z.lnot CODE_DIRTY_FLAG))).
Qed.

Lemma ram_store_step a bs s : mem_step s (ram_store a bs s).
Proof using. by apply mem_step_dirty. Qed.

Lemma dev_step s d : mem_step s (s <| dev := d |>).
Proof using. by apply mem_step_dirty. Qed.

Lemma ldl_step a s : mem_step s (ldl_phys io_mem_read a s).2.
Proof using. unfold ldl_phys. destruct (read_is_io _); [|done]. by destruct (io_mem_read _ _ _ _). Qed.

Lemma ldq_step a s : mem_step s (ldq_phys io_mem_read a s).2.
Proof using.
  unfold ldq_phys. destruct (read_is_io _); [|done]. destruct (io_mem_read _ _ _ _).
  by destruct (io_mem_read _ _ _ _).
Qed.

Lemma stl_notdirty_step a v s : mem_step s (stl_phys_notdirty io_mem_write a v s).
Proof using. unfold stl_phys_notdirty. destruct (write_is_io _); by apply mem_step_dirty. Qed.

Lemma stl_step a v s : mem_step s (stl_phys io_mem_write a v s).
Proof using.
  unfold stl_phys. destruct (write_is_io _); [by apply mem_step_dirty|].
  etransitivity; [apply ram_store_step|apply mark_dirty_step].
Qed.

Lemma rw_step fuel : forall addr buf w s r, cpu_physical_memory_rw io_mem_read io_mem_write fuel addr buf w s = Some r ->
  mem_step s r.2.
Proof using.
  induction fuel as [|fuel IH]; intros addr buf w s r; destruct buf as [|b buf']; simpl;
    try (intros [= <-]; done); try done.
  set (buf := b :: buf'). set (step := if w then _ else _). intros H.
  assert (Hs : mem_step s step.2).
  { unfold step. destruct w; [destruct (write_is_io _)|destruct (read_is_io _)].
    - destruct (io_chunk _ _). apply dev_step.
    - simpl. etransitivity; [apply ram_store_step|apply mark_dirty_step].
    - destruct (io_chunk _ _). destruct (io_mem_read _ _ _ _). apply dev_step.
    - done. }
  destruct step as [[l c] s1]. simpl in Hs.
  destruct (cpu_physical_memory_rw _ _ fuel _ _ _ s1) as [[rest s2]|] eqn:E; [|done].
  injection H as <-. etransitivity; [exact Hs|]. by apply (IH _ _ _ _ _ E).
Qed.

Lemma stq_step a v s s' : stq_phys io_mem_read io_mem_write a v s = Some s' -> mem_step s s'.
Proof using.
  unfold stq_phys. destruct (cpu_physical_memory_rw _ _ _ _ _ _ _) as [r|] eqn:E; [|done].
  intros [= <-]. by eapply rw_step.
Qed.

Lemma mark_entry_step w a e s : mem_step s (mark_entry io_mem_write w a e s).2.
Proof using. unfold mark_entry. destruct (_ || _); [apply stl_notdirty_step|done]. Qed.

Lemma mark_dir_step a e s : mem_step s (mark_dir io_mem_write a e s).2.
Proof using. unfold mark_dir. destruct (negb _); [apply stl_notdirty_step|done]. Qed.

(** Follows the reads and marks of a walk. *)
Ltac walk_step :=
  repeat match goal with
  | H : context [let '(_, _) := ldl_phys io_mem_read ?a ?s in _] |- _ =>
    let E := fresh in pose proof (ldl_step a s) as E; destruct (ldl_phys io_mem_read a s); cbn [snd] in E
  | H : context [let '(_, _) := ldq_phys io_mem_read ?a ?s in _] |- _ =>
    let E := fresh in pose proof (ldq_step a s) as E; destruct (ldq_phys io_mem_read a s); cbn [snd] in E
  | H : context [let '(_, _) := mark_entry io_mem_write ?w ?a ?e ?s in _] |- _ =>
    let E := fresh in pose proof (mark_entry_step w a e s) as E;
    destruct (mark_entry io_mem_write w a e s); cbn [snd] in E
  | H : context [let '(_, _) := mark_dir io_mem_write ?a ?e ?s in _] |- _ =>
    let E := fresh in pose proof (mark_dir_step a e s) as E;
    destruct (mark_dir io_mem_write a e s); cbn [snd] in E
  | H : context [if ?b then _ else _] |- _ => destruct b
  | H : (_, _) = (_, _) |- _ => injection H as <- <-
  end.

(** Composes the steps of the context. *)
Ltac step_chain :=
  solve [reflexivity | eassumption |
    match goal with H : mem_step ?a ?b |- mem_step ?a _ => transitivity b; [exact H|clear H; step_chain] end].

Lemma walk_legacy_step e a w u s r s' :
  walk_legacy io_mem_read io_mem_write e a w u s = (r, s') -> mem_step s s'.
Proof using. unfold walk_legacy. intros H. walk_step; step_chain. Qed.

Lemma walk_pae_step e a w u s r s' :
  walk_pae io_mem_read io_mem_write e a w u s = (r, s') -> mem_step s s'.
Proof using. unfold walk_pae. intros H. walk_step; step_chain. Qed.

Lemma handle_fault_step e a w idx s r e' s' :
  cpu_x86_handle_mmu_fault io_mem_read io_mem_write e a w idx s = (r, e', s') -> mem_step s s'.
Proof using.
  unfold cpu_x86_handle_mmu_fault. destruct (negb _); [by intros [= _ _ <-]|].
  destruct (if has (cr4 e) CR4_PAE_MASK then _ else _) as [wk s1] eqn:Ew.
  assert (H1 : mem_step s s1)
    by (destruct (has (cr4 e) CR4_PAE_MASK); [by eapply walk_pae_step|by eapply walk_legacy_step]).
  destruct wk as [ec|]; [|by intros [= _ _ <-]]. unfold do_fault.
  destruct (has (intercept_exceptions e) _); intros [= _ _ <-]; [|done].
  etransitivity; [exact H1|].
  destruct (stq_phys _ _ _ _ s1) as [s2|] eqn:E; [|done]. by eapply stq_step.
Qed.
(** ** What a resolved fault maps *)

Lemma land_split a m1 m2 : Z.land m1 m2 = 0 -> Z.land a m1 + Z.land a m2 = Z.land a (Z.lor m1 m2).
Proof using.
  intros H. rewrite Z.land_lor_distr_r.
  assert (E : Z.land (Z.land a m1) (Z.land a m2) = 0).
  { replace (Z.land (Z.land a m1) (Z.land a m2)) with (Z.land a (Z.land m1 m2)); [by rewrite H, Z.land_0_r|].
    apply Z.bits_inj'. intros i Hi. rewrite !Z.land_spec. by destruct (Z.testbit a i), (Z.testbit m1 i). }
  rewrite Z.add_nocarry_lxor by done. by apply Z.lxor_lor.
Qed.

Lemma virt_page a m n : is_u32 a -> Z.land m (Z.land 0xfffff000 n) = 0 ->
  Z.lor m (Z.land 0xfffff000 n) = 0xfffff000 ->
  u32 (Z.land a m + Z.land (Z.land a 0xfffff000) n) = page_base a.
Proof using.
  intros Ha H1 H2. rewrite <- Z.land_assoc, land_split, H2 by done. fold (page_base a).
  apply wrap_small. by apply land_width_l.
Qed.

Lemma page_prot_read e u pte ptep : has (page_prot e u pte ptep) PAGE_READ = true.
Proof using.
  unfold page_prot. assert (H : forall x m, m = PAGE_WRITE \/ m = PAGE_EXEC ->
    has x PAGE_READ = true -> has (Z.lor x m) PAGE_READ = true)
    by (intros x m [-> | ->] Hx; by rewrite has_lor).
  destruct (negb (has ptep PG_NX_MASK)), (has pte PG_DIRTY_MASK), u; split_ifs; auto.
Qed.

Lemma page_aligned x a k : page_off (u32 (Z.land x 0xfffff000 + Z.land (Z.land a 0xfffff000) k)) = 0.
Proof using.
  pose proof (finish_aligned x a k) as H. unfold page_off. change 0xfff with (Z.ones 12).
  rewrite Z.land_ones by lia. exact H.
Qed.

Lemma fault_map e a w idx s vaddr paddr prot e' s' : is_u32 a ->
  cpu_x86_handle_mmu_fault io_mem_read io_mem_write e a w idx s = (SetPage vaddr paddr prot, e', s') ->
  vaddr = page_base a /\ has prot PAGE_READ = true /\ is_u32 paddr /\ page_off paddr = 0 /\
  (truth (Z.land w 1) = true -> has prot PAGE_WRITE = true).
Proof using.
  intros Ha. unfold cpu_x86_handle_mmu_fault, do_mapping.
  destruct (has (cr0 e) CR0_PG_MASK) eqn:Hpg; cbn [negb]; cycle 1.
  { intros [= <- <- <- <- <-]. split; [by apply (virt_page a 0xfffff000 (4096 - 1))|].
    split; [done|]. split; [apply wrap_range; lia|]. split; [apply page_aligned|done]. }
  destruct (if has (cr4 e) CR4_PAE_MASK then _ else _) as [wk s1] eqn:Ew.
  destruct wk as [ec|pte ptep va ps].
  { unfold do_fault. by destruct (has (intercept_exceptions e) _). }
  assert (Hv : u32 (va + Z.land (Z.land a 0xfffff000) (ps - 1)) = page_base a).
  { destruct (has (cr4 e) CR4_PAE_MASK); [unfold walk_pae in Ew|unfold walk_legacy in Ew];
      repeat case_match; simplify_eq.
    - by apply (virt_page a 0xffe00000 (2048 * 1024 - 1)).
    - by apply (virt_page a 0xfffff000 (4096 - 1)).
    - by apply (virt_page a 0xffc00000 (4096 * 1024 - 1)).
    - by apply (virt_page a 0xfffff000 (4096 - 1)). }
  intros [= <- <- <- <- <-]. split; [done|]. split; [apply page_prot_read|].
  split; [apply wrap_range; lia|]. split; [apply page_aligned|]. intros Hw.
  assert (has pte PG_DIRTY_MASK = true /\ protect_ok e (idx =? MMU_USER_IDX) true ptep = true) as [H1 H2].
  { destruct (has (cr4 e) CR4_PAE_MASK); [by apply pae_write_ok in Ew|by apply legacy_write_ok in Ew]. }
  by apply page_prot_write.
Qed.
End Steps.

(** ** The invariant of the dirty pages

    Page descriptors the board registers: RAM, ROM, or the zone of a device. *)

Definition pd_ok (pd : Z) : Prop :=
  is_u32 pd /\ Z.testbit pd 3 = false /\
  (page_off pd = IO_MEM_RAM \/ page_off pd = IO_MEM_ROM \/
   (IO_MEM_UNASSIGNED <= page_off pd /\ io_index pd <> 4 /\
    (truth (Z.land pd IO_MEM_ROMD) = false -> page_base pd = 0))).

(** A tag is invalid, or that of a page with a zone number or none. *)
Definition tag_ok (a : Z) : Prop := a = INVALID \/ (is_u32 a /\ Z.testbit a 3 = false /\
  (page_off a = 0 \/ IO_MEM_ROM <= page_off a)).

(** The tag of a read: its zone has read callbacks. *)
Definition rtag_ok (a : Z) : Prop := tag_ok a /\
  (page_off a <> 0 -> io_index a <> 1 /\ io_index a <> 4).

Section Invariant.
Context {D : Type}.
Context (phys_ram_base io_mem_watch : Z).

Abbreviation phys := (phys (D := D)).

Definition map_ok (s : phys) : Prop := forall a, pd_ok (page_desc a s).

(** The zone of the watchpoints is one of the numbers [io_mem_init] hands out. *)
Definition watch_ok : Prop := exists k, 5 <= k < 256 /\ io_mem_watch = 16 * k.

(** The RAM page an entry writes to without a callback. *)
Definition fast_page (e : CPUTLBEntry) : Z :=
  Z.shiftr (u32 (write_host e - phys_ram_base)) TARGET_PAGE_BITS.

Definition entry_ok (s : phys) (e : CPUTLBEntry) : Prop :=
  addend e mod 4096 = 0 /\
  (rtag_ok (addr_read e) /\ rtag_ok (addr_code e)) /\ tag_ok (addr_write e) /\
  (page_off (addr_write e) = IO_MEM_RAM -> phys_ram_dirty s (fast_page e) = 0xff).

Definition tlb_ok (s : phys) (t : tlb) : Prop := forall m i, entry_ok s (t m i).

Lemma invalid_ok : tag_ok INVALID.
Proof using. by left. Qed.

Lemma invalid_rok : rtag_ok INVALID.
Proof using. split; [by left|done]. Qed.

Lemma invalidate_ok s e : addend e mod 4096 = 0 -> entry_ok s (invalidate e).
Proof using. intros H. split; [exact H|]. split; [split; apply invalid_rok|]. split; [apply invalid_ok|]. done. Qed.

Lemma upd_entry_ok s m i f t : tlb_ok s t -> entry_ok s (f (t m i)) -> tlb_ok s (upd_entry m i f t).
Proof using.
  intros Ht Hf m' i'. unfold upd_entry. destruct (_ && _) eqn:E; [|done].
  to_prop. by subst.
Qed.

Lemma upd_modes_ok s i f t : tlb_ok s t -> (forall e, entry_ok s e -> entry_ok s (f e)) ->
  tlb_ok s (upd_modes i f t).
Proof using.
  intros Ht Hf. unfold upd_modes. apply upd_entry_ok; [apply upd_entry_ok; auto|].
  unfold upd_entry. destruct (_ && _); auto.
Qed.

Lemma flush_ok s g t : (forall m i, addend (t m i) mod 4096 = 0) -> tlb_ok s (tlb_flush g t).
Proof using. intros H m i. by apply invalidate_ok. Qed.

Lemma flush_entry_ok s a e : entry_ok s e -> entry_ok s (tlb_flush_entry a e).
Proof using. intros H. unfold tlb_flush_entry. destruct (_ || _); [by apply invalidate_ok, H|done]. Qed.

Lemma flush_page_ok s a t : tlb_ok s t -> tlb_ok s (tlb_flush_page a t).
Proof using. intros H. apply upd_modes_ok; [done|]. apply flush_entry_ok. Qed.

Lemma entry_step s s' e : mem_step s s' -> dirty_u8 s -> entry_ok s e -> entry_ok s' e.
Proof using.
  intros [_ Hm] Hu (H0 & H1 & H2 & H3). destruct (Hm Hu) as [_ Hd]. repeat (split; [done|]). auto.
Qed.

Lemma tlb_step s s' t : mem_step s s' -> dirty_u8 s -> tlb_ok s t -> tlb_ok s' t.
Proof using. intros Hm Hu Ht m i. by eapply entry_step. Qed.

(** *** Filling keeps it *)

Lemma page_off_lor x y : page_off (Z.lor x y) = Z.lor (page_off x) (page_off y).
Proof using. apply Z.land_lor_distr_l. Qed.
Lemma page_base_lor x y : page_base (Z.lor x y) = Z.lor (page_base x) (page_base y).
Proof using. apply Z.land_lor_distr_l. Qed.

Lemma page_off_bit v i : 0 <= i < 12 -> page_off v = 0 -> Z.testbit v i = false.
Proof using.
  intros Hi H. apply (f_equal (fun z => Z.testbit z i)) in H. unfold page_off in H.
  rewrite Z.land_spec, Z.bits_0 in H. change 0xfff with (Z.ones 12) in H.
  rewrite Z.ones_spec_low in H by lia. by rewrite andb_true_r in H.
Qed.

Lemma page_off_range x : 0 <= page_off x < 4096.
Proof using. unfold page_off. change 0xfff with (Z.ones 12). rewrite Z.land_ones by lia. apply Z.mod_pos_bound. lia. Qed.

Lemma page_off_small x : 0 <= x < 4096 -> page_off x = x /\ page_base x = 0.
Proof using.
  intros Hx. assert (E : page_off x = x).
  { unfold page_off. change 0xfff with (Z.ones 12). rewrite Z.land_ones by lia. by apply Z.mod_small. }
  split; [done|]. destruct (page_split x) as (H & _); [unfold in_width; lia|lia].
Qed.

(** The tag of a page with a zone number. *)
Lemma tag_lor v x : is_u32 v -> page_off v = 0 -> is_u32 x -> Z.testbit x 3 = false ->
  IO_MEM_ROM <= page_off x -> tag_ok (Z.lor v x) /\ page_off (Z.lor v x) = page_off x.
Proof using.
  intros Hv Hv0 Hx Hb Hl. assert (E : page_off (Z.lor v x) = page_off x)
    by (rewrite page_off_lor, Hv0; apply Z.lor_0_l).
  split; [|done]. right. split; [by apply lor_width|]. rewrite E.
  rewrite Z.lor_spec, Hb, (page_off_bit v) by (done || lia). auto.
Qed.

Lemma tag_page v : is_u32 v -> page_off v = 0 -> tag_ok v.
Proof using. intros Hv H0. right. split; [done|]. split; [apply page_off_bit; [lia|done]|by left]. Qed.

Lemma watch_zone : watch_ok -> is_u32 io_mem_watch /\ Z.testbit io_mem_watch 3 = false /\
  page_off io_mem_watch = io_mem_watch /\ 80 <= io_mem_watch < 4096.
Proof using.
  intros (k & Hk & E). assert (Hw : 80 <= io_mem_watch < 4096) by lia.
  split; [unfold in_width; lia|]. split; [|split; [apply page_off_small; lia|done]].
  rewrite E. replace (16 * k) with (Z.shiftl k 4) by (rewrite Z.shiftl_mul_pow2; lia).
  by apply Z.shiftl_spec_low.
Qed.

Lemma watch_page_spec vaddr paddr w : watch_ok -> page_off vaddr = 0 ->
  forall address pd, let r := watch_page phys_ram_base io_mem_watch vaddr paddr w address pd in
  (page_off address = 0 -> r.1.1 = address /\
     (r.1.2 = pd \/ r.1.2 = Z.lor (Z.lor (page_base pd) io_mem_watch) IO_MEM_ROMD)) /\
  (page_off address <> 0 -> r.1.2 = pd /\ (r.1.1 = address \/ r.1.1 = Z.lor vaddr io_mem_watch)).
Proof using.
  intros Hw Hv. destruct (watch_zone Hw) as (_ & _ & Wo & Wr).
  induction w as [|[wv wa] w IH]; intros address pd; cbn [watch_page]; [cbn; auto|].
  destruct (vaddr =? page_base wv).
  - destruct (truth (page_off address)) eqn:Ht; to_prop.
    + specialize (IH (Z.lor vaddr io_mem_watch) pd). cbv zeta in *.
      assert (Hne : page_off (Z.lor vaddr io_mem_watch) <> 0) by (rewrite page_off_lor, Hv, Wo, Z.lor_0_l; lia).
      destruct (watch_page _ _ _ _ w (Z.lor vaddr io_mem_watch) pd) as [[a p] w']. cbn [fst snd] in *.
      destruct IH as [_ IH2]. specialize (IH2 Hne). split; [done|]. intros _. naive_solver.
    + specialize (IH address (Z.lor (Z.lor (page_base pd) io_mem_watch) IO_MEM_ROMD)). cbv zeta in *.
      destruct (watch_page _ _ _ _ w address _) as [[a p] w']. cbn [fst snd] in *.
      destruct IH as [IH1 _]. destruct (IH1 Ht) as [Ea Ep]. split; [|done]. intros _. split; [done|].
      right. assert (Eb : page_base (Z.lor (Z.lor (page_base pd) io_mem_watch) IO_MEM_ROMD) = page_base pd).
      { rewrite !page_base_lor, page_base_base. destruct (page_off_small io_mem_watch) as [_ ->]; [lia|].
        change (page_base IO_MEM_ROMD) with 0. by rewrite !Z.lor_0_r. }
      by destruct Ep as [->| ->]; rewrite ?Eb.
  - specialize (IH address pd). cbv zeta in *.
    by destruct (watch_page _ _ _ _ w address pd) as [[a p] w'].
Qed.

(** A descriptor stripped of its page and of [IO_MEM_ROMD]. *)
Lemma romd_zone pd : is_u32 pd -> 17 <= page_off pd \/ page_off pd = 16 -> Z.testbit pd 3 = false ->
  let x := Z.land pd (Z.lnot (Z.lor TARGET_PAGE_MASK IO_MEM_ROMD)) in
  is_u32 x /\ Z.testbit x 3 = false /\ IO_MEM_ROM <= page_off x.
Proof using.
  intros Hp Hz Hb x. split; [by apply land_width_l|].
  split; [unfold x; by rewrite Z.land_spec, Hb|].
  assert (E : page_off x = 2 * (page_off pd / 2)).
  { unfold x, page_off. rewrite <- !Z.land_assoc.
    change (Z.land (Z.lnot (Z.lor TARGET_PAGE_MASK IO_MEM_ROMD)) 0xfff) with (Z.land 0xfff (Z.lnot (Z.ones 1))).
    rewrite Z.land_assoc. rewrite <- Z.ldiff_land, Z.ldiff_ones_r by lia.
    rewrite Z.shiftl_mul_pow2, Z.shiftr_div_pow2 by lia. change (2 ^ 1) with 2. lia. }
  rewrite E. unfold IO_MEM_ROM. pose proof (Z.div_mod (page_off pd) 2 ltac:(lia)).
  pose proof (Z.mod_pos_bound (page_off pd) 2 ltac:(lia)). lia.
Qed.

Lemma romd_off pd : truth (Z.land pd IO_MEM_ROMD) = true -> page_off pd <> 0 /\ page_off pd <> 16.
Proof using.
  intros H. assert (Hb : Z.testbit pd 0 = true).
  { change IO_MEM_ROMD with (Z.shiftl 1 0) in H. by rewrite truth_land_bit in H. }
  assert (Ho : Z.testbit (page_off pd) 0 = true) by (unfold page_off; by rewrite Z.land_spec, Hb).
  split; intros E; by rewrite E in Ho.
Qed.

(** The host page of a plain RAM entry of descriptor [pd], relative to the base of RAM. *)
Lemma fast_page_ram vaddr pd : is_u32 vaddr -> page_off vaddr = 0 -> is_u32 pd ->
  Z.shiftr (u32 (u32 (page_base vaddr + u32 (u32 (phys_ram_base + page_base pd) - vaddr)) - phys_ram_base))
    TARGET_PAGE_BITS = Z.shiftr pd TARGET_PAGE_BITS.
Proof using.
  intros Hv H0 Hp. destruct (page_split vaddr Hv) as (Ev & _).
  replace (page_base vaddr) with vaddr by lia. clear Ev.
  assert (E : u32 (u32 (vaddr + u32 (u32 (phys_ram_base + page_base pd) - vaddr)) - phys_ram_base)
    = page_base pd).
  { destruct (page_split pd Hp) as (_ & _ & _ & Hb). unfold u32, wrap.
    rewrite (Zminus_mod_idemp_l (phys_ram_base + page_base pd)), Zplus_mod_idemp_r, Zminus_mod_idemp_l.
    replace (vaddr + (phys_ram_base + page_base pd - vaddr) - phys_ram_base) with (page_base pd) by ring.
    apply Z.mod_small. pose proof (land_width_l 32 ltac:(lia) pd 0xfffff000 Hp) as Hw. exact Hw. }
  rewrite E. unfold TARGET_PAGE_BITS. destruct (page_split pd Hp) as (Es & Hr & Hm & _).
  rewrite !Z.shiftr_div_pow2 by lia. change (2 ^ 12) with 4096. rewrite Es at 2.
  pose proof (Z.div_mod (page_base pd) 4096 ltac:(lia)).
  apply Z.div_unique with (page_off pd); lia.
Qed.

(** The tag of a page with write permission: no callback only for all dirty RAM. *)
Lemma write_tag_ok vaddr address pd (s : phys) : is_u32 vaddr -> page_off vaddr = 0 ->
  is_u32 pd -> Z.testbit pd 3 = false -> page_off pd = IO_MEM_RAM \/ IO_MEM_ROM <= page_off pd ->
  tag_ok address ->
  (page_off address = 0 -> read_is_io pd = false) ->
  let a := write_tag vaddr address pd s in
  tag_ok a /\ (page_off a = 0 -> a = address /\ page_off pd = IO_MEM_RAM /\
                phys_ram_dirty s (Z.shiftr pd TARGET_PAGE_BITS) = 0xff).
Proof using.
  intros Hv H0 Hp Hb Hz Ha Hr. unfold write_tag.
  destruct ((page_off pd =? IO_MEM_ROM) || truth (Z.land pd IO_MEM_ROMD)) eqn:Er.
  - assert (Hz' : 17 <= page_off pd \/ page_off pd = 16).
    { unfold IO_MEM_ROM, IO_MEM_RAM in *. apply orb_true_iff in Er as [Er|Er]; [to_prop; auto|].
      destruct (romd_off pd Er). lia. }
    destruct (romd_zone pd Hp Hz' Hb) as (R1 & R2 & R3).
    destruct (tag_lor vaddr _ Hv H0 R1 R2 R3) as [T1 T2]. split; [exact T1|].
    rewrite T2. unfold IO_MEM_ROM in R3. lia.
  - to_prop. unfold cpu_physical_memory_is_dirty.
    destruct ((page_off pd =? IO_MEM_RAM) && _) eqn:Em.
    + destruct (tag_lor vaddr IO_MEM_NOTDIRTY Hv H0 ltac:(unfold in_width; done) eq_refl ltac:(done)) as [T1 T2].
      split; [exact T1|]. by rewrite T2.
    + split; [exact Ha|]. intros E. split; [done|]. specialize (Hr E). unfold read_is_io in Hr.
      assert (Hm : page_off pd = IO_MEM_RAM).
      { unfold IO_MEM_ROM, IO_MEM_RAM in *. destruct (truth (Z.land pd IO_MEM_ROMD)) eqn:Et; [by to_prop|].
        rewrite andb_true_r in Hr. to_prop. lia. }
      split; [done|]. rewrite Hm, Z.eqb_refl, andb_true_l in Em. by to_prop.
Qed.

(** A descriptor after the loop over the watchpoints. *)
Definition watched (pd : Z) : Z := Z.lor (Z.lor (page_base pd) io_mem_watch) IO_MEM_ROMD.

Lemma watched_ok pd : watch_ok -> is_u32 pd ->
  is_u32 (watched pd) /\ Z.testbit (watched pd) 3 = false /\ IO_MEM_ROM <= page_off (watched pd) /\
  truth (Z.land (watched pd) IO_MEM_ROMD) = true.
Proof using.
  intros Hw Hp. destruct (watch_zone Hw) as (W1 & W2 & W3 & W4). unfold watched.
  assert (Hb : Z.testbit (page_base pd) 3 = false).
  { apply page_off_bit; [lia|]. apply page_off_base. }
  split; [repeat apply lor_width; try done; by apply land_width_l|].
  split; [by rewrite !Z.lor_spec, Hb, W2|]. split.
  - rewrite !page_off_lor, page_off_base, W3, Z.lor_0_l. change (page_off IO_MEM_ROMD) with 1.
    unfold IO_MEM_ROM. pose proof (Z.add_nocarry_lxor io_mem_watch 1) as Hl.
    assert (E : Z.land io_mem_watch 1 = 0).
    { destruct Hw as (k & _ & ->). change 1 with (Z.ones 1). rewrite Z.land_ones by lia.
      replace (16 * k) with (0 + (8 * k) * 2 ^ 1) by lia. by rewrite Z_mod_plus_full. }
    rewrite <- Z.lxor_lor, <- Hl by done. lia.
  - apply truth_true. rewrite Z.land_lor_distr_l. intros E. apply Z.lor_eq_0_iff in E as [_ E]. done.
Qed.

Lemma page_off_lor_page v x : page_off v = 0 -> page_off (Z.lor v x) = page_off x.
Proof using. intros H. by rewrite page_off_lor, H, Z.lor_0_l. Qed.

Lemma page_bits a i : 0 <= i < 12 -> Z.testbit (page_off a) i = Z.testbit a i.
Proof using.
  intros Hi. unfold page_off. rewrite Z.land_spec. change 0xfff with (Z.ones 12).
  by rewrite Z.ones_spec_low, andb_true_r by lia.
Qed.

Lemma io_index_off a : io_index a = page_off a / 16.
Proof using.
  unfold io_index, page_off, IO_MEM_SHIFT, IO_MEM_NB_ENTRIES. change (256 - 1) with (Z.ones 8).
  change 0xfff with (Z.ones 12). rewrite !Z.land_ones, Z.shiftr_div_pow2 by lia.
  change (2 ^ 4) with 16. change (2 ^ 8) with 256. change (2 ^ 12) with (16 * 256).
  rewrite Z.rem_mul_r by lia. rewrite Z.mul_comm, Z.div_add by lia. rewrite (Z.div_small (a mod 16)); [lia|].
  apply Z.mod_pos_bound. lia.
Qed.

Lemma tag_lor_r v x : is_u32 v -> page_off v = 0 -> is_u32 x -> Z.testbit x 3 = false ->
  IO_MEM_UNASSIGNED <= page_off x -> io_index x <> 4 -> rtag_ok (Z.lor v x).
Proof using.
  intros Hv H0 Hx Hb Hl Hi. destruct (tag_lor v x Hv H0 Hx Hb) as [T1 T2];
    [unfold IO_MEM_ROM, IO_MEM_UNASSIGNED in *; lia|].
  split; [exact T1|]. intros _. rewrite !io_index_off, T2, <- io_index_off in *.
  rewrite io_index_off in *. unfold IO_MEM_UNASSIGNED in Hl. split; [|done].
  pose proof (Z.div_mod (page_off x) 16 ltac:(lia)). pose proof (Z.mod_pos_bound (page_off x) 16 ltac:(lia)). lia.
Qed.

Lemma rtag_page v : is_u32 v -> page_off v = 0 -> rtag_ok v.
Proof using. intros Hv H0. split; [by apply tag_page|]. by rewrite H0. Qed.

Lemma page_off_mod a : page_off a = a mod 4096.
Proof using. unfold page_off. change 0xfff with (Z.ones 12). by rewrite Z.land_ones by lia. Qed.

Lemma u32_page x : u32 x mod 4096 = x mod 4096.
Proof using. unfold u32, wrap. by rewrite <- Znumtheory.Zmod_div_mod by (done || (exists (2 ^ 20); done)). Qed.

Lemma page_base_mod a : page_base a mod 4096 = 0.
Proof using. by apply land_page_mod. Qed.

(** RAM starts at a page boundary of the host. *)
Definition base_ok : Prop := phys_ram_base mod 4096 = 0.

Lemma target_addend_ok vaddr paddr pd : base_ok -> page_off paddr = 0 ->
  (page_target phys_ram_base vaddr paddr pd).2 mod 4096 = 0.
Proof using.
  unfold page_target, base_ok. intros Hb Hp. destruct (_ && _); cbn [snd]; [by rewrite <- page_off_mod|].
  by rewrite u32_page, Zplus_mod, Hb, page_base_mod.
Qed.

Lemma new_entry_ok vaddr prot address pd addend (s : phys) : addend mod 4096 = 0 ->
  is_u32 vaddr -> page_off vaddr = 0 -> is_u32 pd -> Z.testbit pd 3 = false ->
  page_off pd = IO_MEM_RAM \/ IO_MEM_ROM <= page_off pd ->
  rtag_ok address -> (page_off address = 0 -> read_is_io pd = false) ->
  (page_off address = 0 -> page_off pd = IO_MEM_RAM -> address = vaddr /\ addend = u32 (phys_ram_base + page_base pd)) ->
  entry_ok s (fill_entry vaddr address addend pd prot s).
Proof using.
  intros Had Hv H0 Hp Hb Hz [Ha Hi] Hr Hd. unfold fill_entry.
  split; [cbn; rewrite u32_page, Zminus_mod, Had; by rewrite <- (page_off_mod vaddr), H0|].
  split; [split; cbn; [destruct (has prot PAGE_READ)|destruct (has prot PAGE_EXEC)]; by try apply invalid_rok|].
  cbn [addr_write]. destruct (has prot PAGE_WRITE); [|split; [apply invalid_ok|done]].
  destruct (write_tag_ok vaddr address pd s) as [T1 T2]; try done. split; [exact T1|].
  intros E. destruct (T2 E) as (Ea & Em & Hdirty). rewrite Ea in E. destruct (Hd E Em) as [-> ->].
  unfold fast_page, write_host. cbn [addr_write Tlb.addend]. rewrite Ea.
  by rewrite fast_page_ram.
Qed.

Lemma set_page_exec_ok vaddr paddr prot mmu_idx w t s : map_ok s -> watch_ok ->
  base_ok -> page_off paddr = 0 ->
  is_u32 vaddr -> page_off vaddr = 0 -> tlb_ok s t ->
  tlb_ok s (tlb_set_page_exec phys_ram_base io_mem_watch vaddr paddr prot mmu_idx w t s).2.
Proof using.
  intros Hm Hw Hbase Hpa Hv H0 Ht. unfold tlb_set_page_exec. destruct (Hm paddr) as (Hp & Hb & Hz).
  set (pd := page_desc paddr s) in *. clearbody pd. destruct (watch_zone Hw) as (W1 & W2 & W3 & W4).
  assert (Hz' : page_off pd = IO_MEM_RAM \/ IO_MEM_ROM <= page_off pd).
  { unfold IO_MEM_UNASSIGNED, IO_MEM_ROM in *. intuition lia. }
  pose proof (target_addend_ok vaddr paddr pd Hbase Hpa) as Had. unfold page_target in *.
  destruct ((IO_MEM_ROM <? page_off pd) && negb (truth (Z.land pd IO_MEM_ROMD))) eqn:Eio; cbn [snd] in Had.
  - to_prop. destruct (tag_lor vaddr pd Hv H0 Hp Hb ltac:(lia)) as [T1 T2].
    destruct (watch_page_spec vaddr paddr w Hw H0 (Z.lor vaddr pd) pd) as [_ HW].
    specialize (HW ltac:(rewrite T2; unfold IO_MEM_ROM in *; lia)).
    destruct (watch_page _ _ _ _ w _ _) as [[a p] w']. cbn [fst snd] in HW. destruct HW as [-> HW].
    destruct (tag_lor vaddr io_mem_watch Hv H0 W1 W2 ltac:(rewrite W3; unfold IO_MEM_ROM; lia)) as [T3 T4].
    apply upd_entry_ok; [done|]. rewrite W3 in T4.
    assert (Hn : page_off a <> 0) by (destruct HW as [-> | ->]; rewrite ?T2, ?T4; unfold IO_MEM_ROM in *; lia).
    apply new_entry_ok; try done.
    assert (Hio : IO_MEM_UNASSIGNED <= page_off pd /\ io_index pd <> 4).
    { unfold IO_MEM_RAM, IO_MEM_ROM in *. destruct Hz as [Hz | [Hz | (? & ? & _)]]; [lia|lia|done]. }
    destruct HW as [-> | ->]; apply tag_lor_r; try done; try apply Hio.
    + rewrite W3. unfold IO_MEM_UNASSIGNED. lia.
    + destruct Hw as (k & Hk & E). rewrite io_index_off, W3, E, (Z.mul_comm 16), Z.div_mul by lia. lia.
  - destruct (watch_page_spec vaddr paddr w Hw H0 vaddr pd) as [HW _]. specialize (HW H0).
    destruct (watch_page _ _ _ _ w _ _) as [[a p] w']. cbn [fst snd] in HW. destruct HW as [-> HW].
    destruct (watched_ok pd Hw Hp) as (V1 & V2 & V3 & V4).
    apply upd_entry_ok; [done|].
    apply new_entry_ok; try done; try (by apply rtag_page); destruct HW as [-> | ->]; auto.
    + intros _. unfold read_is_io. fold (watched pd). by rewrite V4, andb_false_r.
    + intros _ E. fold (watched pd) in E. rewrite E in V3. done.
Qed.

Lemma set_page_ok vaddr paddr prot mmu_idx w t s : map_ok s -> watch_ok ->
  base_ok -> page_off paddr = 0 ->
  is_u32 vaddr -> page_off vaddr = 0 -> tlb_ok s t ->
  tlb_ok s (tlb_set_page phys_ram_base io_mem_watch vaddr paddr prot mmu_idx w t s).2.
Proof using. intros. by apply set_page_exec_ok. Qed.

(** *** Dirty flags *)

Lemma upd_all_ok s s' f t : tlb_ok s t -> (forall e, entry_ok s e -> entry_ok s' (f e)) ->
  tlb_ok s' (upd_all f t).
Proof using. intros Ht Hf m i. apply Hf, Ht. Qed.

Lemma upd_flags_spec n : forall p f d q,
  upd_flags n p f d q = if (p <=? q) && (q <? p + Z.of_nat n) then f (d q) else d q.
Proof using.
  induction n as [|n IH]; intros p f d q; cbn [upd_flags].
  - destruct (p <=? q) eqn:E; [|done]. rewrite (proj2 (Z.ltb_ge _ _)) by (to_prop; lia). done.
  - rewrite IH. unfold mem_upd. destruct (Z.eqb_spec q p) as [->|].
    + rewrite (proj2 (Z.leb_gt _ _)) by lia. cbn [andb].
      by rewrite (proj2 (Z.leb_le p p)), (proj2 (Z.ltb_lt _ _)) by lia.
    + replace (p + 1 + Z.of_nat n) with (p + Z.of_nat (S n)) by lia.
      destruct (Z.leb_spec (p + 1) q), (Z.leb_spec p q); try done; lia.
Qed.

Lemma base_tag_ok a x : tag_ok a -> page_off a < 0xfff -> is_u32 x -> x < 4096 -> Z.testbit x 3 = false ->
  x = 0 \/ IO_MEM_ROM <= x -> tag_ok (Z.lor (page_base a) x) /\ page_off (Z.lor (page_base a) x) = x.
Proof using.
  intros [-> | (Ha & _ & _)] Ho Hx Hx1 Hb Hz; [done|].
  assert (Hp : is_u32 (page_base a)) by (by apply land_width_l).
  assert (E : page_off x = x) by (apply page_off_small; unfold in_width in Hx; lia).
  rewrite page_off_lor_page, E by apply page_off_base. split; [|done].
  destruct Hz as [-> | Hz]; [rewrite Z.lor_0_r; apply tag_page; [done|apply page_off_base]|].
  apply tag_lor; try done; [apply page_off_base|by rewrite E].
Qed.

(** Turning the callback on keeps an entry well formed, whatever the dirty flags. *)
Lemma notdirty_entry_ok s e : addend e mod 4096 = 0 -> rtag_ok (addr_read e) /\ rtag_ok (addr_code e) -> tag_ok (addr_write e) -> page_off (addr_write e) = IO_MEM_RAM ->
  entry_ok s (e <| addr_write := Z.lor (page_base (addr_write e)) IO_MEM_NOTDIRTY |>).
Proof using.
  intros H0 H1 H2 Ho. destruct (base_tag_ok (addr_write e) IO_MEM_NOTDIRTY H2) as [T1 T2];
    [rewrite Ho; done|unfold in_width; done|done|done|by right|].
  split; [exact H0|]. split; [exact H1|]. split; [exact T1|]. intros E. cbn in E. rewrite T2 in E. done.
Qed.

Lemma range_page x start length : 0 <= x -> 0 <= start -> 0 <= length <= 2 ^ 32 ->
  start mod 4096 = 0 -> length mod 4096 = 0 ->
  Z.shiftr start 12 <= Z.shiftr x 12 < Z.shiftr start 12 + Z.shiftr length 12 -> u32 (x - start) < length.
Proof using.
  intros Hx Hs Hl Ms Ml. rewrite !Z.shiftr_div_pow2 by lia. change (2 ^ 12) with 4096.
  pose proof (Z.div_mod x 4096 ltac:(lia)). pose proof (Z.div_mod start 4096 ltac:(lia)).
  pose proof (Z.div_mod length 4096 ltac:(lia)). pose proof (Z.mod_pos_bound x 4096 ltac:(lia)).
  intros Hr. unfold u32. rewrite wrap_small by (unfold in_width; lia). lia.
Qed.

Lemma u32_sub_cancel a b c : u32 (a - u32 (b + c)) = u32 (u32 (a - c) - b).
Proof using.
  unfold u32, wrap. rewrite Zminus_mod_idemp_r, Zminus_mod_idemp_l. f_equal. ring.
Qed.

Lemma reset_dirty_ok start stop flags t s t' s' : is_u32 start -> is_u32 stop -> dirty_u8 s -> tlb_ok s t ->
  cpu_physical_memory_reset_dirty phys_ram_base start stop flags t s = (t', s') ->
  tlb_ok s' t' /\ dirty_u8 s' /\ l1_phys_map s' = l1_phys_map s.
Proof using.
  intros Hs He Hu Ht. unfold cpu_physical_memory_reset_dirty.
  destruct (_ =? 0); [intros [= <- <-]; done|]. intros [= <- <-].
  set (start' := page_base start). set (length := u32 (TARGET_PAGE_ALIGN stop - start')).
  assert (Hl : in_width 32 length) by (apply wrap_range; lia).
  assert (Hst : is_u32 start') by (by apply land_width_l).
  assert (Ml : length mod 4096 = 0).
  { unfold length, u32, wrap. rewrite <- Znumtheory.Zmod_div_mod by (done || (exists (2 ^ 20); done)).
    unfold TARGET_PAGE_ALIGN, start'. by rewrite Zminus_mod, !page_base_mod. }
  unfold in_width in *. split; [|split; [|done]].
  - apply (upd_all_ok s); [done|]. intros e (E0 & E1 & E2 & E3). unfold tlb_reset_dirty_range.
    destruct (page_off (addr_write e) =? IO_MEM_RAM) eqn:Eo; to_prop; cycle 1.
    { repeat (split; [done|]). intros E. by rewrite E in Eo. }
    destruct (_ <? length) eqn:El; to_prop; [by apply notdirty_entry_ok|].
    repeat (split; [done|]). intros _. simpl. rewrite upd_flags_spec.
    destruct (_ && _) eqn:Er; [|by apply E3]. exfalso. to_prop.
    rewrite u32_sub_cancel in El. 
    pose proof (range_page (u32 (write_host e - phys_ram_base)) start' length) as Hr.
    pose proof (wrap_range 32 ltac:(lia) (write_host e - phys_ram_base)) as Hx. unfold in_width in Hx.
    unfold fast_page, TARGET_PAGE_BITS in *. rewrite Z2Nat.id in * by (apply Z.shiftr_nonneg; lia).
    fold (u32 (write_host e - phys_ram_base)) in Hx.
    specialize (Hr ltac:(lia) ltac:(lia) ltac:(lia) (page_base_mod start) Ml ltac:(lia)). lia.
  - intros p. cbn. rewrite upd_flags_spec. destruct (_ && _); [apply wrap_range; lia|apply Hu].
Qed.

Lemma update_dirty_ok s t : (forall m i, addend (t m i) mod 4096 = 0 /\ (rtag_ok (addr_read (t m i)) /\ rtag_ok (addr_code (t m i))) /\ tag_ok (addr_write (t m i))) ->
  tlb_ok s (cpu_tlb_update_dirty phys_ram_base t s).
Proof using.
  intros Ht m i. destruct (Ht m i) as (H0 & H1 & H2). unfold cpu_tlb_update_dirty, upd_all.
  set (e := t m i) in *. unfold tlb_update_dirty.
  destruct (page_off (addr_write e) =? IO_MEM_RAM) eqn:Eo; to_prop; cycle 1.
  { repeat (split; [done|]). intros E. by rewrite E in Eo. }
  destruct (negb _) eqn:Ed.
  - assert (Hu : is_u32 (addr_write e)) by (destruct H2 as [E|[? _]]; [rewrite E in Eo; done|done]).
    destruct (tag_lor (addr_write e) IO_MEM_NOTDIRTY Hu Eo ltac:(unfold in_width; done) eq_refl ltac:(done)) as [T1 T2].
    split; [exact H0|]. split; [exact H1|]. split; [exact T1|]. intros E. cbn in E. rewrite T2 in E. done.
  - to_prop. repeat (split; [done|]). intros _. unfold cpu_physical_memory_is_dirty in Ed. by to_prop.
Qed.

Lemma host_page x : base_ok -> is_u32 x ->
  Z.shiftr (u32 (page_base x - phys_ram_base)) 12 = Z.shiftr (u32 (x - phys_ram_base)) 12.
Proof using.
  intros Hb Hx. destruct (page_split x Hx) as (Es & Hr & Hm & _). unfold base_ok in Hb.
  set (b := phys_ram_base) in *.
  assert (E : u32 (x - b) = u32 (page_base x - b) + page_off x).
  { pose proof (wrap_range 32 ltac:(lia) (page_base x - b)) as Hw. fold (u32 (page_base x - b)) in Hw.
    assert (M : u32 (page_base x - b) mod 4096 = 0).
    { unfold u32, wrap. rewrite <- Znumtheory.Zmod_div_mod by (done || (exists (2 ^ 20); done)).
      by rewrite Zminus_mod, Hm, Hb. }
    rewrite Es at 1. replace (page_base x + page_off x - b) with ((page_base x - b) + page_off x) by lia.
    unfold u32, wrap in *. rewrite <- Zplus_mod_idemp_l. apply Z.mod_small. unfold in_width in Hw.
    pose proof (Z.div_mod ((page_base x - b) mod 2 ^ 32) 4096 ltac:(lia)). lia. }
  pose proof (wrap_range 32 ltac:(lia) (page_base x - b)) as Hw. fold (u32 (page_base x - b)) in Hw.
  unfold in_width in Hw. rewrite !Z.shiftr_div_pow2, E by lia. change (2 ^ 12) with 4096.
  assert (M : u32 (page_base x - b) mod 4096 = 0).
  { unfold u32, wrap. rewrite <- Znumtheory.Zmod_div_mod by (done || (exists (2 ^ 20); done)).
    by rewrite Zminus_mod, Hm, Hb. }
  pose proof (Z.div_mod (u32 (page_base x - b)) 4096 ltac:(lia)).
  apply Z.div_unique with (page_off x); lia.
Qed.

Lemma set_dirty_ok s t addr vaddr : base_ok -> is_u32 addr ->
  phys_ram_dirty s (Z.shiftr (u32 (addr - phys_ram_base)) TARGET_PAGE_BITS) = 0xff ->
  tlb_ok s t -> tlb_ok s (tlb_set_dirty addr vaddr t).
Proof using.
  intros Hb Ha Hd Ht. unfold tlb_set_dirty. apply upd_modes_ok; [done|]. intros e (E0 & E1 & E2 & E3).
  unfold tlb_set_dirty1. destruct (page_off (addr_write e) =? IO_MEM_NOTDIRTY) eqn:Eo; [|done].
  destruct (write_host e =? _) eqn:Eh; [|done]. to_prop.
  destruct (base_tag_ok (addr_write e) IO_MEM_RAM E2) as [T1 T2];
    [by rewrite Eo|unfold in_width; done|done|done|by left|].
  split; [exact E0|]. split; [exact E1|]. split; [exact T1|]. intros _. rewrite <- Hd. f_equal.
  unfold TARGET_PAGE_BITS. rewrite <- host_page by done. unfold fast_page, write_host, TARGET_PAGE_BITS in *.
  unfold IO_MEM_RAM. simpl. rewrite Z.lor_0_r, page_base_base.
  unfold page_base at 2. fold TARGET_PAGE_MASK. rewrite <- Eh. done.
Qed.

Lemma phys_set_dirty_step addr (s : phys) : mem_step s (cpu_physical_memory_set_dirty addr s).
Proof using.
  split; [done|]. intros Hu. unfold cpu_physical_memory_set_dirty. simpl. unfold mem_upd. split.
  - intros p. unfold mem_upd. simpl. destruct (p =? _); [unfold in_width; done|apply Hu].
  - intros p. by destruct (p =? _).
Qed.

Lemma unprotect_step addr (s : phys) : mem_step s (tlb_unprotect_code_phys addr s).
Proof using. by apply (or_flags_step _ _ (Z.shiftr addr TARGET_PAGE_BITS) CODE_DIRTY_FLAG). Qed.

(** *** The page that was filled is found *)

Lemma tag_base a : Z.testbit a 3 = false -> tag a = page_base a.
Proof using.
  intros Hb. unfold tag, page_base. rewrite Z.land_lor_distr_r.
  assert (E : Z.land a TLB_INVALID_MASK = 0).
  { change TLB_INVALID_MASK with (Z.shiftl 1 3). pose proof (truth_land_bit a 3 ltac:(lia)) as Ht.
    rewrite Hb in Ht. by to_prop. }
  rewrite E. apply Z.lor_0_r.
Qed.

Lemma tlb_index_base a : tlb_index (page_base a) = tlb_index a.
Proof using.
  unfold tlb_index, page_base. by rewrite Z.shiftr_land, <- Z.land_assoc.
Qed.

Lemma base_lor v x : page_base v = v -> page_base x = 0 -> page_base (Z.lor v x) = v.
Proof using. intros Hv Hx. by rewrite page_base_lor, Hv, Hx, Z.lor_0_r. Qed.

Lemma write_tag_base v address pd (s : phys) : page_base v = v -> page_base address = v ->
  page_base (write_tag v address pd s) = v.
Proof using.
  intros Hv Ha. unfold write_tag. split_ifs; [|by apply base_lor|done].
  apply base_lor; [done|]. unfold page_base. rewrite <- Z.land_assoc.
  replace (Z.land _ 0xfffff000) with 0 by done. apply Z.land_0_r.
Qed.

Lemma fill_entry_hit v address addend pd prot (s : phys) : is_u32 v -> page_off v = 0 ->
  page_base address = v -> Z.testbit address 3 = false -> Z.testbit pd 3 = false ->
  let e := fill_entry v address addend pd prot s in
  (has prot PAGE_READ = true -> tag (addr_read e) = v) /\
  (has prot PAGE_EXEC = true -> tag (addr_code e) = v) /\
  (has prot PAGE_WRITE = true -> tag (addr_write e) = v).
Proof using.
  intros Hv H0 Ha Hb Hp. cbn.
  assert (Hvb : Z.testbit v 3 = false) by (apply page_off_bit; [lia|done]).
  assert (Hvv : page_base v = v) by (destruct (page_split v Hv); lia).
  split; [|split]; intros ->; rewrite tag_base; try done; [by apply write_tag_base|].
  unfold write_tag. split_ifs; rewrite ?Z.lor_spec, ?Z.land_spec, ?Hvb, ?Hp; done.
Qed.

Lemma set_page_hit paddr a prot mmu_idx w t s : map_ok s -> watch_ok -> is_u32 a ->
  let e := (tlb_set_page_exec phys_ram_base io_mem_watch (page_base a) paddr prot mmu_idx w t s).2
             mmu_idx (tlb_index a) in
  (has prot PAGE_READ = true -> tag (addr_read e) = page_base a) /\
  (has prot PAGE_EXEC = true -> tag (addr_code e) = page_base a) /\
  (has prot PAGE_WRITE = true -> tag (addr_write e) = page_base a).
Proof using.
  intros Hm Hw Ha. unfold tlb_set_page_exec. destruct (Hm paddr) as (Hp & Hb & Hz).
  set (pd := page_desc paddr s) in *. clearbody pd. destruct (watch_zone Hw) as (W1 & W2 & W3 & W4).
  assert (Hv : is_u32 (page_base a)) by (by apply land_width_l).
  pose proof (page_off_base a) as H0. pose proof (page_base_base a) as Hvv.
  rewrite tlb_index_base. set (v := page_base a) in *. clearbody v.
  assert (Hvb : Z.testbit v 3 = false) by (apply page_off_bit; [lia|done]).
  assert (T : page_base (page_target phys_ram_base v paddr pd).1 = v /\
              Z.testbit (page_target phys_ram_base v paddr pd).1 3 = false).
  { unfold page_target. destruct (_ && _) eqn:Eio; cbn [fst]; [|done].
    split; [|by rewrite Z.lor_spec, Hvb, Hb]. apply base_lor; [done|].
    apply andb_true_iff in Eio as [E1 E2]. apply negb_true_iff in E2. to_prop.
    unfold IO_MEM_RAM, IO_MEM_ROM in *. destruct Hz as [Hz | [Hz | (_ & _ & Hz)]]; [lia|lia|].
    apply Hz. by apply truth_false. }
  destruct (page_target phys_ram_base v paddr pd) as [address ad]. cbn [fst] in T. destruct T as [T1 T2].
  destruct (watch_page_spec v paddr w Hw H0 address pd) as [G1 G2].
  destruct (watch_page _ _ _ _ w _ _) as [[a' p'] w']. cbn [fst snd] in *.
  unfold upd_entry. rewrite !Z.eqb_refl. cbn [andb].
  apply fill_entry_hit; [done|done|..].
  - destruct (decide (page_off address = 0)) as [E|E]; [by destruct (G1 E) as [-> _]|].
    destruct (G2 E) as [_ [-> | ->]]; [done|]. apply base_lor; [done|]. apply page_off_small. lia.
  - destruct (decide (page_off address = 0)) as [E|E]; [by destruct (G1 E) as [-> _]|].
    destruct (G2 E) as [_ [-> | ->]]; [done|]. by rewrite Z.lor_spec, Hvb, W2.
  - destruct (decide (page_off address = 0)) as [E|E]; [|by destruct (G2 E) as [-> _]].
    destruct (G1 E) as [_ [-> | ->]]; [done|]. by apply watched_ok.
Qed.

End Invariant.

End Tlb.
