(* ===== verification/Mips.v ===== *)
(** * The MIPS target

    The second processor MemCheck runs on: its TLB of pairs of pages with QEMU's hidden
    shadow entries, the translation of addresses, the exceptions
    (src/MemCheck-qemu/target-mips/helper.c, op_helper.c, op.c, exec.h, hw/mips_timer.c)
    and the machine interface over it (contrib/MemCheck/MachineQEMUmips.cpp).  The
    32-bit target (TARGET_MIPS64 not defined) with system emulation; the entries of the
    software TLB are those of [Tlb], for the three modes kernel, supervisor and user. *)

From Stdlib Require Import String.
From S2P Require Import Prelude Bytes IntervalMap SymbolTable PhysMem Mmu Machine Tlb.
Import PhysMem Mmu Tlb.

Module Mips.

(** ** The processor *)

Definition MIPS_TLB_MAX : Z := 128.
Definition NB_MMU_MODES : Z := 3.

(** An entry of the TLB maps two adjacent pages, the even one and the odd one. *)
Record r4k_tlb_t := mkR4k {
  VPN : Z;
  PageMask : Z;
  ASID : Z;
  G : Z;
  C0 : Z;
  C1 : Z;
  V0 : Z;
  V1 : Z;
  D0 : Z;
  D1 : Z;
  PFN0 : Z;
  PFN1 : Z;
}.

Definition zero_entry : r4k_tlb_t := mkR4k 0 0 0 0 0 0 0 0 0 0 0 0.

(** The function [map_address] of the TLB context. *)
Inductive map_kind : Type := no_mmu | fixed_mmu | r4k_mmu.

Record CPUMIPSState := mkMips {
  gpr : Z -> Z -> Z;
  PC : Z -> Z;
  current_tc : Z;
  CP0_Index : Z;
  CP0_EntryLo0 : Z;
  CP0_EntryLo1 : Z;
  CP0_Context : Z;
  CP0_PageMask : Z;
  CP0_Wired : Z;
  CP0_BadVAddr : Z;
  CP0_EntryHi : Z;
  CP0_Status : Z;
  CP0_Cause : Z;
  CP0_EPC : Z;
  CP0_EBase : Z;
  CP0_Config3 : Z;
  CP0_TCStatus : Z -> Z;
  CP0_LLAddr : Z;
  CP0_Debug : Z;
  CP0_DEPC : Z;
  CP0_ErrorEPC : Z;
  CP0_Status_rw_bitmask : Z;
  insn_flags : Z;
  fcr0 : Z;
  hflags : Z;
  exception_index : Z;
  error_code : Z;
  map_address : map_kind;
  nb_tlb : Z;
  tlb_in_use : Z;
  r4k : list r4k_tlb_t;
  tlb_table : tlb;
  watchpoint : list (Z * Z);
  seed : Z;
}.

#[global] Instance eta_mips : Eta CPUMIPSState := fun e =>
  mkMips (gpr e) (PC e) (current_tc e) (CP0_Index e) (CP0_EntryLo0 e) (CP0_EntryLo1 e)
    (CP0_Context e) (CP0_PageMask e) (CP0_Wired e) (CP0_BadVAddr e) (CP0_EntryHi e)
    (CP0_Status e) (CP0_Cause e) (CP0_EPC e) (CP0_EBase e) (CP0_Config3 e) (CP0_TCStatus e)
    (CP0_LLAddr e) (CP0_Debug e) (CP0_DEPC e) (CP0_ErrorEPC e) (CP0_Status_rw_bitmask e)
    (insn_flags e) (fcr0 e) (hflags e) (exception_index e) (error_code e) (map_address e)
    (nb_tlb e) (tlb_in_use e) (r4k e) (tlb_table e) (watchpoint e) (seed e).

Definition bit (n : Z) : Z := Z.shiftl 1 n.

Definition CP0St_CU3 : Z := 31.
Definition CP0St_CU1 : Z := 29.
Definition CP0St_CU0 : Z := 28.
Definition CP0St_FR : Z := 26.
Definition CP0St_BEV : Z := 22.
Definition CP0St_SR : Z := 20.
Definition CP0St_NMI : Z := 19.
Definition CP0St_KSU : Z := 3.
Definition CP0St_ERL : Z := 2.
Definition CP0St_EXL : Z := 1.
Definition CP0Ca_BD : Z := 31.
Definition CP0Ca_CE : Z := 28.
Definition CP0Ca_IV : Z := 23.
Definition CP0Ca_EC : Z := 2.
Definition CP0DB_VER : Z := 15.
Definition CP0DB_CNT : Z := 25.
Definition CP0C3_MT : Z := 2.

Definition MIPS_HFLAG_MODE : Z := 0x0007.
Definition MIPS_HFLAG_KSU : Z := 0x0003.
Definition MIPS_HFLAG_UM : Z := 0x0002.
Definition MIPS_HFLAG_SM : Z := 0x0001.
Definition MIPS_HFLAG_DM : Z := 0x0004.
Definition MIPS_HFLAG_64 : Z := 0x0008.
Definition MIPS_HFLAG_CP0 : Z := 0x0010.
Definition MIPS_HFLAG_FPU : Z := 0x0020.
Definition MIPS_HFLAG_F64 : Z := 0x0040.
Definition MIPS_HFLAG_COP1X : Z := 0x0080.
Definition MIPS_HFLAG_BMASK : Z := 0x0e00.

Definition ISA_MIPS4 : Z := 0x00000008.
Definition ISA_MIPS32 : Z := 0x00000020.
Definition ISA_MIPS32R2 : Z := 0x00000040.
Definition FCR0_F64 : Z := 22.

Definition cpu_mmu_index (env : CPUMIPSState) : Z := Z.land (hflags env) MIPS_HFLAG_KSU.

(** The current program counter. *)
Definition pc (env : CPUMIPSState) : Z := PC env (current_tc env).
Definition set_pc (v : Z) (env : CPUMIPSState) : CPUMIPSState :=
  env <| PC := mem_upd (PC env) (current_tc env) v |>.

(** ** Translation *)

Inductive tlbret : Type :=
| TLBRET_DIRTY
| TLBRET_INVALID
| TLBRET_NOMATCH
| TLBRET_BADADDR
| TLBRET_MATCH (physical prot : Z).

Definition no_mmu_map_address (address : Z) : tlbret :=
  TLBRET_MATCH address (Z.lor PAGE_READ PAGE_WRITE).

Definition fixed_mmu_map_address (env : CPUMIPSState) (address : Z) : tlbret :=
  let physical :=
    if address <=? 0x7fffffff then
      if negb (has (CP0_Status env) (bit CP0St_ERL)) then u32 (address + 0x40000000) else address
    else if address <=? 0xbfffffff then Z.land address 0x1fffffff
    else address in
  TLBRET_MATCH physical (Z.lor PAGE_READ PAGE_WRITE).

(** 1k pages are not supported. *)
Definition tlb_mask (e : r4k_tlb_t) : Z := Z.lor (PageMask e) 0x1fff.

(** The test of the address space, the virtual page number and the size. *)
Definition tlb_match (asid address : Z) (e : r4k_tlb_t) : bool :=
  let mask := tlb_mask e in
  ((G e =? 1) || (ASID e =? asid)) &&
  (Z.land (VPN e) (Z.lnot mask) =? Z.land address (Z.lnot mask)).

(** Which of its two pages an entry maps an address to. *)
Definition odd_page (address : Z) (e : r4k_tlb_t) : bool :=
  let mask := tlb_mask e in
  truth (Z.land (Z.land address mask) (Z.lnot (Z.shiftr mask 1))).

(** The access rights and the physical address of a matching entry. *)
Definition tlb_translate (address rw : Z) (e : r4k_tlb_t) : tlbret :=
  let n := odd_page address e in
  if negb (truth (if n then V1 e else V0 e)) then TLBRET_INVALID
  else if (rw =? 0) || truth (if n then D1 e else D0 e) then
    TLBRET_MATCH (Z.lor (if n then PFN1 e else PFN0 e) (Z.land address (Z.shiftr (tlb_mask e) 1)))
      (if truth (if n then D1 e else D0 e) then Z.lor PAGE_READ PAGE_WRITE else PAGE_READ)
  else TLBRET_DIRTY.

(** The entries the loops run over, shadow entries included. *)
Definition used (env : CPUMIPSState) : list r4k_tlb_t := take (Z.to_nat (tlb_in_use env)) (r4k env).

Fixpoint tlb_scan (asid address rw : Z) (l : list r4k_tlb_t) : tlbret :=
  match l with
  | [] => TLBRET_NOMATCH
  | e :: l' => if tlb_match asid address e then tlb_translate address rw e
               else tlb_scan asid address rw l'
  end.

Definition cur_asid (env : CPUMIPSState) : Z := Z.land (CP0_EntryHi env) 0xff.

Definition r4k_map_address (env : CPUMIPSState) (address rw : Z) : tlbret :=
  tlb_scan (cur_asid env) address rw (used env).

(** [env->tlb->map_address] *)
Definition do_map_address (env : CPUMIPSState) (address rw : Z) : tlbret :=
  match map_address env with
  | no_mmu => no_mmu_map_address address
  | fixed_mmu => fixed_mmu_map_address env address
  | r4k_mmu => r4k_map_address env address rw
  end.

Definition get_physical_address (env : CPUMIPSState) (address rw : Z) : tlbret :=
  let user_mode := Z.land (hflags env) MIPS_HFLAG_MODE =? MIPS_HFLAG_UM in
  let supervisor_mode := Z.land (hflags env) MIPS_HFLAG_MODE =? MIPS_HFLAG_SM in
  let kernel_mode := negb user_mode && negb supervisor_mode in
  if address <=? 0x7fffffff then
    if has (CP0_Status env) (bit CP0St_ERL)
    then TLBRET_MATCH (Z.land address 0xffffffff) (Z.lor PAGE_READ PAGE_WRITE)
    else do_map_address env address rw
  else if address <? 0xa0000000 then
    if kernel_mode then TLBRET_MATCH (address - 0x80000000) (Z.lor PAGE_READ PAGE_WRITE)
    else TLBRET_BADADDR
  else if address <? 0xc0000000 then
    if kernel_mode then TLBRET_MATCH (address - 0xa0000000) (Z.lor PAGE_READ PAGE_WRITE)
    else TLBRET_BADADDR
  else if address <? 0xe0000000 then
    if supervisor_mode || kernel_mode then do_map_address env address rw else TLBRET_BADADDR
  else
    if kernel_mode then do_map_address env address rw else TLBRET_BADADDR.

(** -1 as the 64-bit [target_phys_addr_t] of this target *)
Definition NO_PHYS : Z := 2 ^ 64 - 1.

Definition cpu_get_phys_page_debug (env : CPUMIPSState) (addr : Z) : Z :=
  match get_physical_address env addr 0 with
  | TLBRET_MATCH phys_addr _ => phys_addr
  | _ => NO_PHYS
  end.

(** ** Flushing

    [tlb_flush_page] of exec.c with the third table of this target. *)

Definition mips_flush_page (addr : Z) (t : tlb) : tlb :=
  let addr := Z.land addr TARGET_PAGE_MASK in
  let i := tlb_index addr in
  upd_entry 2 i (tlb_flush_entry addr)
    (upd_entry 1 i (tlb_flush_entry addr) (upd_entry 0 i (tlb_flush_entry addr) t)).

(** [while (addr < end) { tlb_flush_page(env, addr); addr += TARGET_PAGE_SIZE; }];
    [None] is running out of fuel. *)
Fixpoint flush_pages (fuel : nat) (addr stop : Z) (t : tlb) : option tlb :=
  if addr <? stop then
    match fuel with
    | O => None
    | S fuel' => flush_pages fuel' (u32 (addr + TARGET_PAGE_SIZE)) stop (mips_flush_page addr t)
    end
  else Some t.

(** One unit more than the pages between the two addresses. *)
Definition flush_fuel (addr stop : Z) : nat := S (Z.to_nat ((stop - addr) / TARGET_PAGE_SIZE)).

(** The even and the odd page of an entry: the first address and the end of the loop. *)
Definition even_start (e : r4k_tlb_t) : Z := Z.land (VPN e) (Z.lnot (tlb_mask e)).
Definition even_end (e : r4k_tlb_t) : Z := Z.lor (even_start e) (Z.shiftr (tlb_mask e) 1).
Definition odd_start (e : r4k_tlb_t) : Z :=
  Z.lor (Z.land (VPN e) (Z.lnot (tlb_mask e))) (Z.shiftr (tlb_mask e) 1 + 1).
Definition odd_end (e : r4k_tlb_t) : Z := Z.lor (odd_start e) (tlb_mask e).

(** The pages of an entry, as far as they are valid. *)
Definition flush_entry_pages (e : r4k_tlb_t) (t : tlb) : option tlb :=
  match
    if truth (V0 e) then flush_pages (flush_fuel (even_start e) (even_end e)) (even_start e) (even_end e) t
    else Some t
  with
  | None => None
  | Some t =>
    if truth (V1 e) then flush_pages (flush_fuel (odd_start e) (odd_end e)) (odd_start e) (odd_end e) t
    else Some t
  end.

Definition entry_at (env : CPUMIPSState) (idx : Z) : r4k_tlb_t :=
  default zero_entry (r4k env !! Z.to_nat idx).

(** [None] is a call that does not return. *)
Definition r4k_invalidate_tlb (idx : Z) (use_extra : bool) (env : CPUMIPSState)
  : option CPUMIPSState :=
  let tlb := entry_at env idx in
  if (G tlb =? 0) && negb (ASID tlb =? cur_asid env) then Some env
  else if use_extra && (tlb_in_use env <? MIPS_TLB_MAX) then
    let env := env <| r4k := <[Z.to_nat (tlb_in_use env) := tlb]> (r4k env) |> in
    Some (env <| tlb_in_use := tlb_in_use env + 1 |>)
  else
    match flush_entry_pages tlb (tlb_table env) with
    | None => None
    | Some t => Some (env <| tlb_table := t |>)
    end.

(** Flushes QEMU's TLB and discards all shadowed entries. *)
Definition cpu_mips_tlb_flush (flush_global : Z) (env : CPUMIPSState) : CPUMIPSState :=
  let env := env <| tlb_table := tlb_flush flush_global (tlb_table env) |> in
  env <| tlb_in_use := nb_tlb env |>.

(** Discards the entries from [first] onwards; [n] rounds are left. *)
Fixpoint flush_extra (n : nat) (env : CPUMIPSState) : option CPUMIPSState :=
  match n with
  | O => Some env
  | S n' =>
    let env := env <| tlb_in_use := tlb_in_use env - 1 |> in
    match r4k_invalidate_tlb (tlb_in_use env) false env with
    | None => None
    | Some env => flush_extra n' env
    end
  end.

Definition r4k_mips_tlb_flush_extra (first : Z) (env : CPUMIPSState) : option CPUMIPSState :=
  flush_extra (Z.to_nat (tlb_in_use env - first)) env.

(** ** The TLB instructions *)

(** The entry the registers describe. *)
Definition filled_entry (env : CPUMIPSState) : r4k_tlb_t := {|
  VPN := Z.land (CP0_EntryHi env) 0xffffe000;
  ASID := Z.land (CP0_EntryHi env) 0xff;
  PageMask := CP0_PageMask env;
  G := Z.land (Z.land (CP0_EntryLo0 env) (CP0_EntryLo1 env)) 1;
  V0 := b2z (has (CP0_EntryLo0 env) 2);
  D0 := b2z (has (CP0_EntryLo0 env) 4);
  C0 := Z.land (Z.shiftr (CP0_EntryLo0 env) 3) 7;
  PFN0 := u32 (Z.shiftl (Z.shiftr (CP0_EntryLo0 env) 6) 12);
  V1 := b2z (has (CP0_EntryLo1 env) 2);
  D1 := b2z (has (CP0_EntryLo1 env) 4);
  C1 := Z.land (Z.shiftr (CP0_EntryLo1 env) 3) 7;
  PFN1 := u32 (Z.shiftl (Z.shiftr (CP0_EntryLo1 env) 6) 12) |}.

Definition r4k_fill_tlb (idx : Z) (env : CPUMIPSState) : CPUMIPSState :=
  env <| r4k := <[Z.to_nat idx := filled_entry env]> (r4k env) |>.

(** The entry an instruction names: the index is read as an unsigned number. *)
Definition index_entry (env : CPUMIPSState) : Z := u32 (CP0_Index env) mod nb_tlb env.

Definition r4k_do_tlbwi (env : CPUMIPSState) : option CPUMIPSState :=
  match r4k_mips_tlb_flush_extra (nb_tlb env) env with
  | None => None
  | Some env =>
    match r4k_invalidate_tlb (index_entry env) false env with
    | None => None
    | Some env => Some (r4k_fill_tlb (index_entry env) env)
    end
  end.

Definition cpu_mips_get_random (env : CPUMIPSState) : Z * CPUMIPSState :=
  let env := env <| seed := u32 (seed env * 314159 + 1) |> in
  let idx := Z.shiftr (seed env) 16 mod (u32 (nb_tlb env - CP0_Wired env)) + CP0_Wired env in
  (u32 idx, env).

Definition r4k_do_tlbwr (env : CPUMIPSState) : option CPUMIPSState :=
  let '(r, env) := cpu_mips_get_random env in
  match r4k_invalidate_tlb r true env with
  | None => None
  | Some env => Some (r4k_fill_tlb r env)
  end.

(** The first entry of a list that matches, counted from [i]. *)
Fixpoint find_match (asid address i : Z) (l : list r4k_tlb_t) : option Z :=
  match l with
  | [] => None
  | e :: l' => if tlb_match asid address e then Some i else find_match asid address (i + 1) l'
  end.

Definition r4k_do_tlbp (env : CPUMIPSState) : option CPUMIPSState :=
  let asid := cur_asid env in
  let nb := Z.to_nat (nb_tlb env) in
  match find_match asid (CP0_EntryHi env) 0 (take nb (r4k env)) with
  | Some i => Some (env <| CP0_Index := i |>)
  | None =>
    let found := find_match asid (CP0_EntryHi env) (nb_tlb env) (drop nb (used env)) in
    match match found with Some i => r4k_mips_tlb_flush_extra i env | None => Some env end with
    | None => None
    | Some env => Some (env <| CP0_Index := Z.lor (u32 (CP0_Index env)) 0x80000000 |>)
    end
  end.

(** One of the EntryLo registers as an entry describes it. *)
Definition entry_lo (g v d c pfn : Z) : Z :=
  Z.lor (Z.lor (Z.lor (Z.lor g (Z.shiftl v 1)) (Z.shiftl d 2)) (Z.shiftl c 3)) (Z.shiftr pfn 6).

Definition r4k_do_tlbr (env : CPUMIPSState) : option CPUMIPSState :=
  let asid := cur_asid env in
  let tlb := entry_at env (index_entry env) in
  let env := if negb (asid =? ASID tlb) then cpu_mips_tlb_flush 1 env else env in
  match r4k_mips_tlb_flush_extra (nb_tlb env) env with
  | None => None
  | Some env =>
    let env := env <| CP0_EntryHi := Z.lor (VPN tlb) (ASID tlb) |> in
    let env := env <| CP0_PageMask := PageMask tlb |> in
    let env := env <| CP0_EntryLo0 := entry_lo (G tlb) (V0 tlb) (D0 tlb) (C0 tlb) (PFN0 tlb) |> in
    Some (env <| CP0_EntryLo1 := entry_lo (G tlb) (V1 tlb) (D1 tlb) (C1 tlb) (PFN1 tlb) |>)
  end.

(** ** The registers of the TLB *)

(** The mask of the bits an index needs: the loop doubles [num] while [tmp] halves. *)
Fixpoint index_bits (fuel : nat) (tmp num : Z) : Z :=
  let tmp := Z.shiftr tmp 1 in
  let num := Z.shiftl num 1 in
  match fuel with
  | O => num
  | S fuel' => if truth tmp then index_bits fuel' tmp num else num
  end.

Definition op_mtc0_index (T0 : Z) (env : CPUMIPSState) : CPUMIPSState :=
  let num := index_bits 32 (nb_tlb env) 1 in
  env <| CP0_Index := Z.lor (Z.land (u32 (CP0_Index env)) 0x80000000) (Z.land T0 (num - 1)) |>.

Definition op_mtc0_entrylo0 (T0 : Z) (env : CPUMIPSState) : CPUMIPSState :=
  env <| CP0_EntryLo0 := Z.land T0 0x3fffffff |>.
Definition op_mtc0_entrylo1 (T0 : Z) (env : CPUMIPSState) : CPUMIPSState :=
  env <| CP0_EntryLo1 := Z.land T0 0x3fffffff |>.
Definition op_mtc0_context (T0 : Z) (env : CPUMIPSState) : CPUMIPSState :=
  env <| CP0_Context := Z.lor (Z.land (CP0_Context env) 0x007fffff) (Z.land T0 0xff800000) |>.
Definition op_mtc0_pagemask (T0 : Z) (env : CPUMIPSState) : CPUMIPSState :=
  env <| CP0_PageMask := Z.land T0 (Z.land 0x1fffffff 0xffffe000) |>.
Definition op_mtc0_wired (T0 : Z) (env : CPUMIPSState) : CPUMIPSState :=
  env <| CP0_Wired := T0 mod nb_tlb env |>.

Definition op_mtc0_entryhi (T0 : Z) (env : CPUMIPSState) : CPUMIPSState :=
  let val := Z.land T0 (Z.lor 0xffffe000 0xff) in
  let old := CP0_EntryHi env in
  let env := env <| CP0_EntryHi := val |> in
  let env :=
    if has (CP0_Config3 env) (bit CP0C3_MT) then
      let tcst := Z.land (u32 (CP0_TCStatus env (current_tc env))) (Z.lnot 0xff) in
      env <| CP0_TCStatus := mem_upd (CP0_TCStatus env) (current_tc env)
                               (Z.lor tcst (Z.land val 0xff)) |>
    else env in
  if negb (Z.land old 0xff =? Z.land val 0xff) then cpu_mips_tlb_flush 1 env else env.

(** ** Execution modes *)

(** The flags [compute_hflags] computes again. *)
Definition HFLAGS_MASK : Z :=
  Z.lor (Z.lor (Z.lor (Z.lor (Z.lor MIPS_HFLAG_COP1X MIPS_HFLAG_64) MIPS_HFLAG_CP0)
    MIPS_HFLAG_F64) MIPS_HFLAG_FPU) MIPS_HFLAG_KSU.

Definition set_hflag (c : bool) (flag : Z) (env : CPUMIPSState) : CPUMIPSState :=
  if c then env <| hflags := Z.lor (hflags env) flag |> else env.

Definition status (env : CPUMIPSState) (n : Z) : bool := has (CP0_Status env) (bit n).

Definition compute_hflags (env : CPUMIPSState) : CPUMIPSState :=
  let env := env <| hflags := Z.land (hflags env) (Z.lnot HFLAGS_MASK) |> in
  let env :=
    set_hflag (negb (status env CP0St_EXL) && negb (status env CP0St_ERL) &&
               negb (has (hflags env) MIPS_HFLAG_DM))
      (Z.land (Z.shiftr (CP0_Status env) CP0St_KSU) MIPS_HFLAG_KSU) env in
  let env := set_hflag (status env CP0St_CU0 || negb (has (hflags env) MIPS_HFLAG_KSU))
               MIPS_HFLAG_CP0 env in
  let env := set_hflag (status env CP0St_CU1) MIPS_HFLAG_FPU env in
  let env := set_hflag (status env CP0St_FR) MIPS_HFLAG_F64 env in
  if has (insn_flags env) ISA_MIPS32R2 then
    set_hflag (has (fcr0 env) (bit FCR0_F64)) MIPS_HFLAG_COP1X env
  else if has (insn_flags env) ISA_MIPS32 then
    set_hflag (has (hflags env) MIPS_HFLAG_64) MIPS_HFLAG_COP1X env
  else if has (insn_flags env) ISA_MIPS4 then
    set_hflag (status env CP0St_CU3) MIPS_HFLAG_COP1X env
  else env.

(** The request of a hardware interrupt that follows is left out. *)
Definition op_mtc0_status (T0 : Z) (env : CPUMIPSState) : CPUMIPSState :=
  let mask := CP0_Status_rw_bitmask env in
  let val := Z.land T0 mask in
  compute_hflags (env <| CP0_Status := Z.lor (Z.land (CP0_Status env) (Z.lnot mask)) val |>).

(** ** Exceptions *)

Definition EXCP_NONE : Z := -1.
Definition EXCP_RESET : Z := 0.
Definition EXCP_SRESET : Z := 1.
Definition EXCP_DSS : Z := 2.
Definition EXCP_DINT : Z := 3.
Definition EXCP_DDBL : Z := 4.
Definition EXCP_DDBS : Z := 5.
Definition EXCP_NMI : Z := 6.
Definition EXCP_MCHECK : Z := 7.
Definition EXCP_EXT_INTERRUPT : Z := 8.
Definition EXCP_DIB : Z := 10.
Definition EXCP_AdEL : Z := 12.
Definition EXCP_AdES : Z := 13.
Definition EXCP_IBE : Z := 15.
Definition EXCP_DBp : Z := 16.
Definition EXCP_SYSCALL : Z := 17.
Definition EXCP_BREAK : Z := 18.
Definition EXCP_CpU : Z := 19.
Definition EXCP_RI : Z := 20.
Definition EXCP_OVERFLOW : Z := 21.
Definition EXCP_TRAP : Z := 22.
Definition EXCP_FPE : Z := 23.
Definition EXCP_DWATCH : Z := 24.
Definition EXCP_LTLBL : Z := 25.
Definition EXCP_TLBL : Z := 26.
Definition EXCP_TLBS : Z := 27.
Definition EXCP_DBE : Z := 28.
Definition EXCP_THREAD : Z := 29.
Definition EXCP_MDMX : Z := 30.
Definition EXCP_C2E : Z := 31.
Definition EXCP_CACHE : Z := 32.

(** The program counter to come back to: an exception in a delay slot comes back to
    the jump. *)
Definition return_pc (env : CPUMIPSState) : Z :=
  if has (hflags env) MIPS_HFLAG_BMASK then u32 (pc env - 4) else pc env.

Definition clear_hflags (mask : Z) (env : CPUMIPSState) : CPUMIPSState :=
  env <| hflags := Z.land (hflags env) (Z.lnot mask) |>.

Definition kernel_hflags (extra : Z) (env : CPUMIPSState) : CPUMIPSState :=
  let env := env <| hflags := Z.lor (hflags env) (Z.lor extra (Z.lor MIPS_HFLAG_64 MIPS_HFLAG_CP0)) |> in
  clear_hflags MIPS_HFLAG_KSU env.

Definition clear_bd (env : CPUMIPSState) : CPUMIPSState :=
  env <| CP0_Cause := Z.land (CP0_Cause env) (Z.lnot (bit CP0Ca_BD)) |>.

(** The label [enter_debug_mode]. *)
Definition enter_debug_mode (env : CPUMIPSState) : CPUMIPSState :=
  let env := kernel_hflags MIPS_HFLAG_DM env in
  let env := if negb (status env CP0St_EXL) then clear_bd env else env in
  set_pc 0xbfc00480 env.

(** The cases of the debug exceptions with the label [set_DEPC]. *)
Definition debug_exception (flag : Z) (env : CPUMIPSState) : CPUMIPSState :=
  let env := env <| CP0_Debug := Z.lor (CP0_Debug env) (bit flag) |> in
  let env := env <| CP0_DEPC := return_pc env |> in
  let env := if has (hflags env) MIPS_HFLAG_BMASK then clear_hflags MIPS_HFLAG_BMASK env else env in
  enter_debug_mode env.

(** The label [set_error_EPC]. *)
Definition set_error_EPC (env : CPUMIPSState) : CPUMIPSState :=
  let env := env <| CP0_ErrorEPC := return_pc env |> in
  let env := if has (hflags env) MIPS_HFLAG_BMASK then clear_hflags MIPS_HFLAG_BMASK env else env in
  let env := env <| CP0_Status := Z.lor (CP0_Status env) (Z.lor (bit CP0St_ERL) (bit CP0St_BEV)) |> in
  let env := kernel_hflags 0 env in
  let env := if negb (status env CP0St_EXL) then clear_bd env else env in
  set_pc 0xbfc00000 env.

(** The label [set_EPC]: the place to come back to is saved unless an exception is being
    handled already. *)
Definition save_EPC (env : CPUMIPSState) : CPUMIPSState :=
  let env := env <| CP0_EPC := return_pc env |> in
  let env := if has (hflags env) MIPS_HFLAG_BMASK
             then env <| CP0_Cause := Z.lor (CP0_Cause env) (bit CP0Ca_BD) |>
             else clear_bd env in
  kernel_hflags 0 (env <| CP0_Status := Z.lor (CP0_Status env) (bit CP0St_EXL) |>).

Definition set_EPC (cause offset : Z) (env : CPUMIPSState) : CPUMIPSState :=
  let env := if negb (status env CP0St_EXL) then save_EPC env else env in
  let env := clear_hflags MIPS_HFLAG_BMASK env in
  let env := if status env CP0St_BEV then set_pc 0xbfc00200 env
             else set_pc (Z.land (u32 (CP0_EBase env)) (Z.lnot 0x3ff)) env in
  let env := set_pc (u32 (pc env + offset)) env in
  env <| CP0_Cause := Z.lor (Z.land (CP0_Cause env) (Z.lnot (Z.shiftl 0x1f CP0Ca_EC)))
                            (Z.shiftl cause CP0Ca_EC) |>.

(** A refill has a vector of its own. *)
Definition refill_offset (env : CPUMIPSState) : Z :=
  if (error_code env =? 1) && negb (status env CP0St_EXL) then 0x000 else 0x180.

(** The causes of the exceptions that only go to [set_EPC]. *)
Definition plain_cause (x : Z) : option Z :=
  if x =? EXCP_LTLBL then Some 1 else if x =? EXCP_AdEL then Some 4
  else if x =? EXCP_AdES then Some 5 else if x =? EXCP_IBE then Some 6
  else if x =? EXCP_DBE then Some 7 else if x =? EXCP_SYSCALL then Some 8
  else if x =? EXCP_BREAK then Some 9 else if x =? EXCP_RI then Some 10
  else if x =? EXCP_OVERFLOW then Some 12 else if x =? EXCP_TRAP then Some 13
  else if x =? EXCP_FPE then Some 15 else if x =? EXCP_C2E then Some 18
  else if x =? EXCP_MDMX then Some 22 else if x =? EXCP_DWATCH then Some 23
  else if x =? EXCP_MCHECK then Some 24 else if x =? EXCP_THREAD then Some 25
  else None.

(** The exceptions that end at [set_EPC]: the cause, the offset of the vector and what is
    recorded before. *)
Definition epc_exception (x : Z) (env : CPUMIPSState) : option (Z * Z * CPUMIPSState) :=
  match plain_cause x with
  | Some cause => Some (cause, 0x180, env)
  | None =>
    if x =? EXCP_EXT_INTERRUPT then
      Some (0, if has (CP0_Cause env) (bit CP0Ca_IV) then 0x200 else 0x180, env)
    else if x =? EXCP_TLBL then Some (2, refill_offset env, env)
    else if x =? EXCP_TLBS then Some (3, refill_offset env, env)
    else if x =? EXCP_CpU then
      Some (11, 0x180, env <| CP0_Cause := Z.lor (Z.land (CP0_Cause env) (Z.lnot (Z.shiftl 3 CP0Ca_CE)))
                                                 (u32 (Z.shiftl (error_code env) CP0Ca_CE)) |>)
    else if x =? EXCP_CACHE then
      Some (30, if status env CP0St_BEV then 0x100 else 0x20000100, env)
    else None
  end.

(** The exceptions that enter debug mode with [set_DEPC]: the bit of the Debug register. *)
Definition debug_flag (x : Z) : option Z :=
  if x =? EXCP_DINT then Some 5 else if x =? EXCP_DIB then Some 4
  else if x =? EXCP_DBp then Some 1 else if x =? EXCP_DDBS then Some 3
  else if x =? EXCP_DDBL then Some 2 else None.

(** [do_interrupt], without the watch registers a soft reset clears; the reset of the CPU
    is an argument, [None] the exit of the program. *)
Definition do_interrupt (cpu_reset : CPUMIPSState -> option CPUMIPSState) (env : CPUMIPSState)
  : option CPUMIPSState :=
  let env :=
    if (exception_index env =? EXCP_EXT_INTERRUPT) && has (hflags env) MIPS_HFLAG_DM
    then env <| exception_index := EXCP_DINT |> else env in
  let x := exception_index env in
  let out :=
    match debug_flag x, epc_exception x env with
    | Some flag, _ => Some (debug_exception flag env)
    | None, Some (cause, offset, env) => Some (set_EPC cause offset env)
    | None, None =>
      if x =? EXCP_DSS then
        let env := env <| CP0_Debug := Z.lor (CP0_Debug env) (bit 0) |> in
        Some (enter_debug_mode (env <| CP0_DEPC := pc env |>))
      else if x =? EXCP_RESET then cpu_reset env
      else if x =? EXCP_SRESET then
        Some (set_error_EPC (env <| CP0_Status := Z.lor (CP0_Status env) (bit CP0St_SR) |>))
      else if x =? EXCP_NMI then
        Some (set_error_EPC (env <| CP0_Status := Z.lor (CP0_Status env) (bit CP0St_NMI) |>))
      else None
    end in
  match out with
  | None => None
  | Some env => Some (env <| exception_index := EXCP_NONE |>)
  end.

Definition op_eret (env : CPUMIPSState) : CPUMIPSState :=
  let env :=
    if status env CP0St_ERL then
      set_pc (CP0_ErrorEPC env) (env <| CP0_Status := Z.land (CP0_Status env) (Z.lnot (bit CP0St_ERL)) |>)
    else
      set_pc (CP0_EPC env) (env <| CP0_Status := Z.land (CP0_Status env) (Z.lnot (bit CP0St_EXL)) |>) in
  (compute_hflags env) <| CP0_LLAddr := 1 |>.

Definition op_deret (env : CPUMIPSState) : CPUMIPSState :=
  let env := set_pc (CP0_DEPC env) env in
  let env := env <| hflags := Z.land (hflags env) MIPS_HFLAG_DM |> in
  (compute_hflags env) <| CP0_LLAddr := 1 |>.

(** ** Reset *)

Inductive mips_mmu_types : Type :=
| MMU_TYPE_NONE | MMU_TYPE_R4000 | MMU_TYPE_RESERVED | MMU_TYPE_FMT
| MMU_TYPE_R3000 | MMU_TYPE_R6000 | MMU_TYPE_R8000.

(** What the model keeps of a CPU's description. *)
Record mips_def_t := mkDef {
  def_Config1 : Z;
  def_Config3 : Z;
  def_Status_rw_bitmask : Z;
  def_insn_flags : Z;
  def_fcr0 : Z;
  def_mmu_type : mips_mmu_types;
}.

Definition CP0C1_MMU : Z := 25.

(** [None] is [cpu_abort]. *)
Definition mmu_init (def : mips_def_t) (env : CPUMIPSState) : option CPUMIPSState :=
  let env := env <| r4k := replicate (Z.to_nat MIPS_TLB_MAX) zero_entry |> in
  match
    match def_mmu_type def with
    | MMU_TYPE_NONE => Some (env <| nb_tlb := 1 |> <| map_address := no_mmu |>)
    | MMU_TYPE_R4000 =>
      Some (env <| nb_tlb := 1 + Z.land (Z.shiftr (def_Config1 def) CP0C1_MMU) 63 |>
                <| map_address := r4k_mmu |>)
    | MMU_TYPE_FMT => Some (env <| nb_tlb := 1 |> <| map_address := fixed_mmu |>)
    | _ => None
    end
  with
  | None => None
  | Some env => Some (env <| tlb_in_use := nb_tlb env |>)
  end.

Definition cpu_mips_register (def : mips_def_t) (env : CPUMIPSState) : option CPUMIPSState :=
  let env := env <| CP0_Config3 := def_Config3 def |> in
  let env := env <| CP0_Status_rw_bitmask := def_Status_rw_bitmask def |> in
  let env := env <| insn_flags := def_insn_flags def |> in
  let env := env <| fcr0 := def_fcr0 def |> in
  mmu_init def env.

(** [cpu_reset]: all the registers are zeroed first; the watchpoints and the seed of the
    random register stay. *)
Definition cpu_reset (def : mips_def_t) (env : CPUMIPSState) : option CPUMIPSState :=
  let env := mkMips (fun _ _ => 0) (fun _ => 0) 0 0 0 0 0 0 0 0 0 0 0 0 0 0 (fun _ => 0) 0 0 0 0 0
               0 0 0 0 0 no_mmu 0 0 [] (fun _ _ => mkEntry 0 0 0 0) (watchpoint env) (seed env) in
  let env := env <| tlb_table := tlb_flush 1 (tlb_table env) |> in
  let env := env <| CP0_ErrorEPC := return_pc env |> in
  let env := set_pc 0xbfc00000 env in
  let env := env <| CP0_Wired := 0 |> in
  let env := env <| CP0_EBase := 0x80000000 |> in
  let env := env <| CP0_Status := Z.lor (bit CP0St_BEV) (bit CP0St_ERL) |> in
  let env := env <| CP0_Debug := Z.lor (bit CP0DB_CNT) (Z.shiftl 1 CP0DB_VER) |> in
  let env := env <| exception_index := EXCP_NONE |> in
  let env := env <| hflags := MIPS_HFLAG_CP0 |> in
  cpu_mips_register def env.

(** ** Faults and debug reads *)

Section Memory.
Context {D : Type}.
Context (io_mem_read : Z -> Z -> D -> Z -> Z * D).
Context (io_mem_write : Z -> Z -> D -> Z -> Z -> D).
Context (phys_ram_base io_mem_watch : Z).

Abbreviation phys := (phys (D := D)).

(** The exception and the error code of a failed translation. *)
Definition fault_code (ret : tlbret) (rw : Z) : Z * Z :=
  match ret with
  | TLBRET_NOMATCH => (if truth rw then EXCP_TLBS else EXCP_TLBL, 1)
  | TLBRET_INVALID => (if truth rw then EXCP_TLBS else EXCP_TLBL, 0)
  | TLBRET_DIRTY => (EXCP_LTLBL, 0)
  | _ => (if truth rw then EXCP_AdES else EXCP_AdEL, 0)
  end.

(** The label [do_fault]: the registers that tell the kernel of the failed access. *)
Definition raise_mmu_fault (ret : tlbret) (address rw : Z) (env : CPUMIPSState) : CPUMIPSState :=
  let '(exception, code) := fault_code ret rw in
  let env := env <| CP0_BadVAddr := address |> in
  let env := env <| CP0_Context := Z.lor (Z.land (CP0_Context env) (Z.lnot 0x007fffff))
                                         (Z.land (Z.shiftr address 9) 0x007ffff0) |> in
  let env := env <| CP0_EntryHi := Z.lor (Z.land (CP0_EntryHi env) 0xff) (Z.land address 0xffffe000) |> in
  let env := env <| exception_index := exception |> in
  env <| error_code := code |>.

(** [cpu_mips_handle_mmu_fault]: 0 when the page is entered in the software TLB, 1 when an
    exception is raised. *)
Definition cpu_mips_handle_mmu_fault (env : CPUMIPSState) (address rw mmu_idx : Z) (s : phys)
  : Z * CPUMIPSState :=
  let rw := Z.land rw 1 in
  match get_physical_address env address rw with
  | TLBRET_MATCH physical prot =>
    let '(w, t) := tlb_set_page phys_ram_base io_mem_watch (Z.land address TARGET_PAGE_MASK)
                     (Z.land physical TARGET_PAGE_MASK) prot mmu_idx (watchpoint env) (tlb_table env) s in
    (0, env <| watchpoint := w |> <| tlb_table := t |>)
  | ret => (1, raise_mmu_fault ret address rw env)
  end.

(** [cpu_memory_rw_debug] of exec.c compiled for this target: the page table is not in
    guest memory, so the walk leaves it as it is. *)
Fixpoint cpu_memory_rw_debug (fuel : nat) (env : CPUMIPSState) (addr : Z) (buf : list Z)
    (is_write : bool) (s : phys) : option (Z * list Z * phys) :=
  match buf with
  | [] => Some (0, [], s)
  | _ =>
    match fuel with
    | O => None
    | S fuel' =>
      let page := page_base addr in
      let phys_addr := cpu_get_phys_page_debug env page in
      if phys_addr =? NO_PHYS then Some (-1, buf, s) else
      let l := Z.to_nat (Z.min (u32 (page + TARGET_PAGE_SIZE - addr)) (Z.of_nat (length buf))) in
      match cpu_physical_memory_rw io_mem_read io_mem_write l
              (phys_addr + page_off addr) (take l buf) is_write s with
      | None => None
      | Some (chunk, s) =>
        match cpu_memory_rw_debug fuel' env (u32 (addr + Z.of_nat l)) (drop l buf) is_write s with
        | None => None
        | Some (ret, rest, s) => Some (ret, chunk ++ rest, s)
        end
      end
    end
  end.

(** ** The machine interface *)

Abbreviation cpu := (CPUMIPSState * phys)%type.

Definition reg (c : cpu) (r : Z) : Z := gpr c.1 r (current_tc c.1).

Definition MIPS_GPR_V0 : Z := 2.
Definition MIPS_GPR_A0 : Z := 4.
Definition MIPS_GPR_A1 : Z := 5.
Definition MIPS_GPR_A2 : Z := 6.
Definition MIPS_GPR_A3 : Z := 7.
Definition MIPS_GPR_RA : Z := 31.

Definition mips_GetReturnValue (c : cpu) : Z := reg c MIPS_GPR_V0.
Definition mips_GetReturnAddress (c : cpu) : Z * cpu := (reg c MIPS_GPR_RA, c).

Definition mips_GetArgumentN (c : cpu) (argN : Z) : Z * cpu :=
  (if argN =? 1 then reg c MIPS_GPR_A0
   else if argN =? 2 then reg c MIPS_GPR_A1
   else if argN =? 3 then reg c MIPS_GPR_A2
   else if argN =? 4 then reg c MIPS_GPR_A3
   else 0xffffffff, c).

Definition mips_GetArgument1 (c : cpu) : Z := reg c MIPS_GPR_A0.
Definition mips_GetArgument2 (c : cpu) : Z := reg c MIPS_GPR_A1.
Definition mips_GetPC (c : cpu) : Z := pc c.1.

Definition mips_ReadMemory (c : cpu) (address : Z) (buf : list Z) : list Z * cpu :=
  match cpu_memory_rw_debug (length buf) c.1 (u32 address) buf false c.2 with
  | Some (_, buf', s') => (buf', (c.1, s'))
  | None => (buf, c)
  end.

(** [RecurseStackTrace] is empty on this target. *)
Definition mips_StackTraceAtFunction (c : cpu) (t : SymbolTable.SymbolTable)
  : list Machine.trace_line * cpu :=
  ([Machine.TraceHead; Machine.PrintPC 0 (pc c.1) t; Machine.PrintPC 1 (reg c MIPS_GPR_RA) t], c).

Definition mips_StackTrace (c : cpu) (t : SymbolTable.SymbolTable)
  : list Machine.trace_line * cpu :=
  ([Machine.TraceHead; Machine.PrintPC 0 (pc c.1) t], c).

#[global] Instance MachineQEMUmips : Machine.Machine cpu := {
  Machine.GetReturnValue := mips_GetReturnValue;
  Machine.GetReturnAddress := mips_GetReturnAddress;
  Machine.GetArgumentN := mips_GetArgumentN;
  Machine.GetArgument1 := mips_GetArgument1;
  Machine.GetArgument2 := mips_GetArgument2;
  Machine.GetPC := mips_GetPC;
  Machine.ReadMemory := mips_ReadMemory;
  Machine.StackTrace := mips_StackTrace;
  Machine.StackTraceAtFunction := mips_StackTraceAtFunction;
}.
End Memory.

End Mips.
