(* ===== verification/Softmmu.v ===== *)
(** * Guest loads and stores

    The accesses of translated code to guest memory: the inlined fast paths
    (src/MemCheck-qemu/softmmu_header.h), which first report the address to MemCheck,
    the slow paths that fill the TLB, split accesses that cross a page and call the I/O
    callbacks (softmmu_template.h), [tlb_fill] (target-i386/helper.c), and the callbacks
    of exec.c for clean pages and for watchpoints.  A fault leaves the access by
    [longjmp]: an access returns a value or an exception. *)

From S2P Require Import Prelude Bytes SymbolTable PhysMem Mmu Machine MemCheck Tlb.
Import PhysMem Mmu Tlb.

Module Softmmu.

(** What the code cache promises the memory (exec.c, [tb_invalidate_phys_page_fast]): a
    write to a page that holds code changes only the code, and the dirty flags of the
    page, in which it sets the code flag when no code is left. *)
Class CodeCache (K D : Type) := {
  tb_invalidate_phys_page_fast : Z -> Z -> K -> phys (D := D) -> K * phys (D := D);
  invalidate_law start len k s :
    let s' := (tb_invalidate_phys_page_fast start len k s).2 in
    l1_phys_map s' = l1_phys_map s /\ phys_ram s' = phys_ram s /\ dev s' = dev s /\
    forall p, phys_ram_dirty s' p = phys_ram_dirty s p \/
              (p = Z.shiftr start TARGET_PAGE_BITS /\
               phys_ram_dirty s' p = Z.lor (phys_ram_dirty s p) CODE_DIRTY_FLAG);
}.

Section Softmmu.
Context {D K : Type} `{!CodeCache K D}.
Context (io_mem_read : Z -> Z -> D -> Z -> Z * D).
Context (io_mem_write : Z -> Z -> D -> Z -> Z -> D).
Context (phys_ram_base io_mem_watch : Z).

Record soft := mkSoft {
  env : CPUX86State;
  mem : phys (D := D);
  tlb_table : tlb;
  mem_write_vaddr : Z;
  watchpoint : list (Z * Z);
  watchpoint_hit : Z;
  code : K;
}.
#[global] Instance eta_soft : Eta soft := fun s =>
  mkSoft (env s) (mem s) (tlb_table s) (mem_write_vaddr s) (watchpoint s) (watchpoint_hit s) (code s).

(** ** Accesses that can fault *)

(** The vector and the error code. *)
Abbreviation exn := (Z * Z)%type.

(** An access: [None] is running out of fuel, or a call of a NULL callback. *)
Definition M (A : Type) : Type := soft -> option ((exn + A) * soft).

Definition retM {A} (a : A) : M A := fun s => Some (inr a, s).
Definition bindM {A B} (m : M A) (f : A -> M B) : M B := fun s =>
  match m s with
  | None => None
  | Some (inl e, s) => Some (inl e, s)
  | Some (inr a, s) => f a s
  end.
#[global] Instance soft_ret : MRet M := @retM.
#[global] Instance soft_bind : MBind M := fun A B f m => bindM m f.

Definition modify (f : soft -> soft) : M unit := fun s => Some (inr tt, f s).
Definition gets {A} (f : soft -> A) : M A := fun s => Some (inr (f s), s).

(** [tlb_fill(addr, is_write, mmu_idx, retaddr)] *)
Definition tlb_fill (addr is_write mmu_idx : Z) : M unit := fun s =>
  let '(r, e, m) := cpu_x86_handle_mmu_fault io_mem_read io_mem_write (env s) addr is_write mmu_idx (mem s) in
  let s := s <| env := e |> in
  let s := s <| mem := m |> in
  match r with
  | SetPage vaddr paddr prot =>
    let '(w, t) := tlb_set_page_exec phys_ram_base io_mem_watch vaddr paddr prot mmu_idx
                     (watchpoint s) (tlb_table s) (mem s) in
    let s := s <| watchpoint := w |> in
    Some (inr tt, s <| tlb_table := t |>)
  | Fault _ => Some (inl (exception_index (env s), error_code (env s)), s)
  end.

(** ** The host's view of RAM *)

Definition host_read (n : nat) (h : Z) (s : soft) : Z :=
  le_value (mem_read (phys_ram (mem s)) (u32 (h - phys_ram_base)) n).
Definition host_write (n : nat) (h v : Z) (s : soft) : soft :=
  s <| mem := ram_store (u32 (h - phys_ram_base)) (le_bytes n v) (mem s) |>.

(** [ldX_raw] and [stX_raw], for [n] bytes. *)
Definition ld_raw (n : nat) (h : Z) : M Z := gets (host_read n h).
Definition st_raw (n : nat) (h v : Z) : M unit := modify (host_write n h v).

(** ** Callbacks of exec.c *)

(** [notdirty_mem_writeb], [w] and [l], for 1, 2 and 4 bytes. *)
Definition notdirty_mem_write (n : nat) (addr val : Z) : M unit := modify (fun s =>
  let ram_addr := u32 (addr - phys_ram_base) in
  let p := Z.shiftr ram_addr TARGET_PAGE_BITS in
  let dirty_flags := phys_ram_dirty (mem s) p in
  let '(dirty_flags, s) :=
    if negb (has dirty_flags CODE_DIRTY_FLAG) then
      let '(k, m) := tb_invalidate_phys_page_fast ram_addr (Z.of_nat n) (code s) (mem s) in
      let s := s <| code := k |> in
      let s := s <| mem := m |> in
      (phys_ram_dirty (mem s) p, s)
    else (dirty_flags, s) in
  let s := host_write n addr val s in
  let dirty_flags := Z.lor dirty_flags (Z.land 0xff (Z.lnot CODE_DIRTY_FLAG)) in
  let s := s <| mem := (mem s) <| phys_ram_dirty := mem_upd (phys_ram_dirty (mem s)) p dirty_flags |> |> in
  if dirty_flags =? 0xff
  then s <| tlb_table := tlb_set_dirty addr (mem_write_vaddr s) (tlb_table s) |>
  else s).

(** The loop of [check_watchpoint] from watchpoint [i] on: the physical address, and the
    watchpoint that is hit, if any. *)
Fixpoint watch_loop (addr vaddr : Z) (w : list (Z * Z)) (i retaddr : Z) : Z * option Z :=
  match w with
  | [] => (retaddr, None)
  | (watch, waddend) :: w' =>
    if page_base (Z.lxor vaddr watch) =? 0 then
      let retaddr := u32 (addr - waddend) in
      if page_off (Z.lxor addr watch) =? 0 then (retaddr, Some (i + 1))
      else watch_loop addr vaddr w' (i + 1) retaddr
    else watch_loop addr vaddr w' (i + 1) retaddr
  end.

Definition CPU_INTERRUPT_DEBUG : Z := 0x80.

Definition check_watchpoint (addr : Z) : M Z := fun s =>
  let '(retaddr, hit) := watch_loop addr (mem_write_vaddr s) (watchpoint s) 0 addr in
  match hit with
  | Some h =>
    let s := s <| watchpoint_hit := h |> in
    let s := s <| env := (env s) <| interrupts := CPU_INTERRUPT_DEBUG :: interrupts (env s) |> |> in
    Some (inr retaddr, s)
  | None => Some (inr retaddr, s)
  end.

Definition set_mem (m : option (phys (D := D))) : M unit := fun s =>
  match m with Some m => Some (inr tt, s <| mem := m |>) | None => None end.

(** [watch_mem_writeb], [w] and [l], by access size. *)
Definition watch_mem_write (sz addr val : Z) : M unit :=
  addr ← check_watchpoint addr;
  m ← gets mem;
  if sz =? 0 then set_mem (stb_phys io_mem_read io_mem_write addr val m)
  else if sz =? 1 then set_mem (stw_phys io_mem_read io_mem_write addr val m)
  else set_mem (Some (stl_phys io_mem_write addr val m)).

Definition get_mem (r : option (Z * phys (D := D))) : M Z := fun s =>
  match r with Some (v, m) => Some (inr v, s <| mem := m |>) | None => None end.

Definition watch_mem_read (sz addr : Z) : M Z :=
  m ← gets mem;
  if sz =? 0 then get_mem (ldub_phys io_mem_read io_mem_write addr m)
  else if sz =? 1 then get_mem (lduw_phys io_mem_read io_mem_write addr m)
  else get_mem (Some (ldl_phys io_mem_read addr m)).

(** ** I/O accesses *)

(** [io_mem_read[index][sz](opaque, addr)]: the zones of exec.c, then the devices. *)
Definition call_read (index sz addr : Z) : M Z :=
  if index =? Z.shiftr io_mem_watch IO_MEM_SHIFT then watch_mem_read sz addr
  else if index =? Z.shiftr IO_MEM_UNASSIGNED IO_MEM_SHIFT then retM 0
  else if (index =? Z.shiftr IO_MEM_ROM IO_MEM_SHIFT) || (index =? Z.shiftr IO_MEM_NOTDIRTY IO_MEM_SHIFT)
  then (fun _ => None)
  else m ← gets mem;
       let '(v, d) := io_mem_read index sz (dev m) addr in
       modify (fun s => s <| mem := m <| dev := d |> |>);; retM v.

Definition call_write (index sz addr val : Z) : M unit :=
  if index =? Z.shiftr io_mem_watch IO_MEM_SHIFT then watch_mem_write sz addr val
  else if index =? Z.shiftr IO_MEM_NOTDIRTY IO_MEM_SHIFT
  then notdirty_mem_write (Z.to_nat (2 ^ sz)) addr val
  else if (index =? Z.shiftr IO_MEM_ROM IO_MEM_SHIFT) || (index =? Z.shiftr IO_MEM_UNASSIGNED IO_MEM_SHIFT)
  then retM tt
  else m ← gets mem;
       modify (fun s => s <| mem := m <| dev := io_mem_write index sz (dev m) addr val |> |>).

(** [SHIFT] for an access of [n] bytes. *)
Definition shift (n : nat) : Z := Z.log2 (Z.of_nat n).

Definition io_read (n : nat) (physaddr tlb_addr : Z) : M Z :=
  let index := io_index tlb_addr in
  if shift n <=? 2 then
    v ← call_read index (shift n) physaddr; retM (wrap (8 * Z.of_nat n) v)
  else
    lo ← call_read index 2 physaddr;
    hi ← call_read index 2 (u32 (physaddr + 4));
    retM (Z.lor (u32 lo) (Z.shiftl (u32 hi) 32)).

Definition io_write (n : nat) (physaddr val tlb_addr : Z) : M unit :=
  let index := io_index tlb_addr in
  modify (fun s => s <| mem_write_vaddr := tlb_addr |>);;
  if shift n <=? 2 then call_write index (shift n) physaddr val
  else
    call_write index 2 physaddr (u32 val);;
    call_write index 2 (u32 (physaddr + 4)) (u32 (Z.shiftr val 32)).

(** ** Slow paths

    [acc] selects the tag of the entry: 0 for data, 2 for code ([READ_ACCESS_TYPE]).
    The fuel pays for each [redo] after a fill and for the two halves of an access that
    crosses a page. *)

Definition read_tag (acc : Z) (e : CPUTLBEntry) : Z := if acc =? 2 then addr_code e else addr_read e.

(** [addr & TARGET_PAGE_MASK == tlb_addr & (TARGET_PAGE_MASK | TLB_INVALID_MASK)] *)
Definition tlb_hit (addr tlb_addr : Z) : bool := page_base addr =? tag tlb_addr.

Definition unaligned (n : nat) (addr : Z) : bool := negb (Z.land addr (Z.of_nat n - 1) =? 0).
Definition spans (n : nat) (addr : Z) : bool := TARGET_PAGE_SIZE <=? page_off addr + Z.of_nat n - 1.

(** [addr & ~(DATA_SIZE - 1)] *)
Definition align (n : nat) (addr : Z) : Z := addr - Z.land addr (Z.of_nat n - 1).

(** The bytes of an unaligned access from the two aligned words around it. *)
Definition join (n : nat) (addr res1 res2 : Z) : Z :=
  let shift := Z.land addr (Z.of_nat n - 1) * 8 in
  let bits := 8 * Z.of_nat n in
  wrap bits (Z.lor (Z.shiftr res1 shift) (Z.shiftl res2 (bits - shift))).

Fixpoint slow_ld (fuel : nat) (n : nat) (acc addr mmu_idx : Z) : M Z := fun s =>
  match fuel with
  | O => None
  | S fuel' =>
    let e := tlb_table s mmu_idx (tlb_index addr) in
    let tlb_addr := read_tag acc e in
    if tlb_hit addr tlb_addr then
      let physaddr := u32 (addr + addend e) in
      let do_unaligned_access :=
        let addr1 := align n addr in
        let addr2 := u32 (addr1 + Z.of_nat n) in
        res1 ← slow_ld fuel' n acc addr1 mmu_idx;
        res2 ← slow_ld fuel' n acc addr2 mmu_idx;
        retM (join n addr res1 res2) in
      (if truth (page_off tlb_addr) then
         if unaligned n addr then do_unaligned_access else io_read n physaddr tlb_addr
       else if spans n addr then do_unaligned_access
       else ld_raw n physaddr) s
    else (tlb_fill addr acc mmu_idx;; slow_ld fuel' n acc addr mmu_idx) s
  end.

(** [__ldX_mmu(addr, mmu_idx)] *)
Fixpoint ld_mmu (fuel : nat) (n : nat) (acc addr mmu_idx : Z) : M Z := fun s =>
  match fuel with
  | O => None
  | S fuel' =>
    let e := tlb_table s mmu_idx (tlb_index addr) in
    let tlb_addr := read_tag acc e in
    if tlb_hit addr tlb_addr then
      let physaddr := u32 (addr + addend e) in
      (if truth (page_off tlb_addr) then
         if unaligned n addr then slow_ld fuel' n acc addr mmu_idx else io_read n physaddr tlb_addr
       else if spans n addr then slow_ld fuel' n acc addr mmu_idx
       else ld_raw n physaddr) s
    else (tlb_fill addr acc mmu_idx;; ld_mmu fuel' n acc addr mmu_idx) s
  end.

(** The bytes of a store that crosses a page, the last one first; [store] stores one. *)
Fixpoint store_bytes (store : Z -> Z -> M unit) (i : nat) (addr val : Z) : M unit :=
  match i with
  | O => retM tt
  | S i' =>
    store (u32 (addr + Z.of_nat i')) (u8 (Z.shiftr val (Z.of_nat i' * 8)));;
    store_bytes store i' addr val
  end.

Fixpoint slow_st (fuel : nat) (n : nat) (addr val mmu_idx : Z) : M unit := fun s =>
  match fuel with
  | O => None
  | S fuel' =>
    let e := tlb_table s mmu_idx (tlb_index addr) in
    let tlb_addr := addr_write e in
    if tlb_hit addr tlb_addr then
      let physaddr := u32 (addr + addend e) in
      let do_unaligned_access :=
        store_bytes (fun a v => slow_st fuel' 1 a v mmu_idx) n addr val in
      (if truth (page_off tlb_addr) then
         if unaligned n addr then do_unaligned_access else io_write n physaddr val tlb_addr
       else if spans n addr then do_unaligned_access
       else st_raw n physaddr val) s
    else (tlb_fill addr 1 mmu_idx;; slow_st fuel' n addr val mmu_idx) s
  end.

(** [__stX_mmu(addr, val, mmu_idx)] *)
Fixpoint st_mmu (fuel : nat) (n : nat) (addr val mmu_idx : Z) : M unit := fun s =>
  match fuel with
  | O => None
  | S fuel' =>
    let e := tlb_table s mmu_idx (tlb_index addr) in
    let tlb_addr := addr_write e in
    if tlb_hit addr tlb_addr then
      let physaddr := u32 (addr + addend e) in
      (if truth (page_off tlb_addr) then
         if unaligned n addr then slow_st fuel' n addr val mmu_idx else io_write n physaddr val tlb_addr
       else if spans n addr then slow_st fuel' n addr val mmu_idx
       else st_raw n physaddr val) s
    else (tlb_fill addr 1 mmu_idx;; st_mmu fuel' n addr val mmu_idx) s
  end.

(** ** Fast paths *)

(** The inlined comparison: the page and the low bits of the address at once. *)
Definition fast_hit (n : nat) (addr tlb_addr : Z) : bool :=
  tlb_addr =? Z.land addr (Z.lor TARGET_PAGE_MASK (Z.of_nat n - 1)).

Definition FUEL : nat := 8.

Definition ld_fast (n : nat) (acc ptr mmu_idx : Z) : M Z := fun s =>
  let e := tlb_table s mmu_idx (tlb_index ptr) in
  if negb (fast_hit n ptr (read_tag acc e)) then ld_mmu FUEL n acc ptr mmu_idx s
  else ld_raw n (u32 (ptr + addend e)) s.

(** The slow path takes the value as a [DATA_TYPE]. *)
Definition st_fast (n : nat) (ptr v mmu_idx : Z) : M unit := fun s =>
  let e := tlb_table s mmu_idx (tlb_index ptr) in
  if negb (fast_hit n ptr (addr_write e)) then st_mmu FUEL n ptr (wrap (8 * Z.of_nat n) v) mmu_idx s
  else st_raw n (u32 (ptr + addend e)) v s.

(** ** Every access keeps the invariant, and returns

    The invariant: the page table holds descriptors the board can register, and the TLB
    is well formed for the dirty flags of the memory. *)

Context (Hwatch : watch_ok io_mem_watch) (Hbase : base_ok phys_ram_base).
(** The page table the board has set up. *)
Context (board : Z -> option (list Z)).

Definition board_ok (m : phys (D := D)) : Prop := l1_phys_map m = board /\ map_ok m.

Definition soft_ok (s : soft) : Prop :=
  board_ok (mem s) /\ dirty_u8 (mem s) /\ tlb_ok phys_ram_base (mem s) (tlb_table s).

(** From [s], [m] returns, with a value that satisfies [Q] unless it raises. *)
Definition returns {A} (Q : A -> soft -> Prop) (m : M A) (s : soft) : Prop :=
  exists r s', m s = Some (r, s') /\ soft_ok s' /\
    match r with inl _ => True | inr a => Q a s' end.

Lemma returns_bind {A B} (P : A -> soft -> Prop) (Q : B -> soft -> Prop) (m : M A) (f : A -> M B) s :
  returns P m s -> (forall a s', soft_ok s' -> P a s' -> returns Q (f a) s') -> returns Q (m ≫= f) s.
Proof using.
  intros (r & s1 & Em & Hok & Hr) Hf. unfold mbind, soft_bind, bindM, returns. rewrite Em.
  destruct r as [x|a]; [by eexists _, _|]. exact (Hf a s1 Hok Hr).
Qed.

Lemma returns_ret {A} (Q : A -> soft -> Prop) a s : soft_ok s -> Q a s -> returns Q (retM a) s.
Proof using. intros. by eexists _, _. Qed.

Lemma returns_gets {A} (Q : A -> soft -> Prop) f s : soft_ok s -> Q (f s) s -> returns Q (gets f) s.
Proof using. intros. by eexists _, _. Qed.

Lemma returns_modify (Q : unit -> soft -> Prop) f s : soft_ok (f s) -> Q tt (f s) -> returns Q (modify f) s.
Proof using. intros. by eexists _, _. Qed.

Lemma board_ok_step (m m' : phys (D := D)) : l1_phys_map m' = l1_phys_map m -> board_ok m -> board_ok m'.
Proof using. intros E [Hb H]. split; [congruence|]. intros a. by rewrite (page_desc_map _ _ E). Qed.

Lemma soft_ok_step s m : soft_ok s -> mem_step (mem s) m -> soft_ok (s <| mem := m |>).
Proof using.
  intros (H1 & H2 & H3) Hs. pose proof Hs as [E Hd]. destruct (Hd H2) as [Hu _].
  split; [by apply (board_ok_step (mem s))|]. split; [exact Hu|]. by apply (tlb_step _ (mem s)).
Qed.

Definition any {A} (_ : A) (_ : soft) : Prop := True.

Lemma tlb_fill_ok addr acc idx s : is_u32 addr -> soft_ok s ->
  returns (fun _ s' => let e := tlb_table s' idx (tlb_index addr) in
    tag (addr_read e) = page_base addr /\
    (truth (Z.land acc 1) = true -> tag (addr_write e) = page_base addr)) (tlb_fill addr acc idx) s.
Proof using Hwatch Hbase.
  intros Ha Hok. unfold returns, tlb_fill.
  destruct (cpu_x86_handle_mmu_fault _ _ _ _ _ _ _) as [[r e] m] eqn:Ef.
  pose proof (handle_fault_step _ _ _ _ _ _ _ _ _ _ Ef) as Hs.
  set (s0 := upd env _ s). set (s1 := upd mem _ s0).
  assert (Hok1 : soft_ok s1) by (apply (soft_ok_step s0); [exact Hok|exact Hs]).
  clearbody s1.
  destruct r as [vaddr paddr prot|ret]; [|by eexists _, _].
  destruct (fault_map _ _ _ _ _ _ _ _ _ _ _ _ Ha Ef) as (-> & Hr & _ & Hpo & Hw).
  destruct Hok1 as (H1 & H2 & H3).
  pose proof (set_page_exec_ok phys_ram_base io_mem_watch (page_base addr) paddr prot idx (watchpoint s1)
    (tlb_table s1) (mem s1) (proj2 H1) Hwatch Hbase Hpo ltac:(by apply land_width_l) (page_off_base addr) H3) as Hset.
  pose proof (set_page_hit phys_ram_base io_mem_watch paddr addr prot idx (watchpoint s1) (tlb_table s1)
    (mem s1) (proj2 H1) Hwatch Ha) as (G1 & _ & G2).
  destruct (tlb_set_page_exec _ _ _ _ _ _ _ _ _) as [w t]. cbn [snd] in *.
  eexists _, _. split; [reflexivity|]. split; [done|]. cbn. auto.
Qed.
(** *** The callbacks *)

Lemma invalidate_step start len k m : mem_step m (tb_invalidate_phys_page_fast start len k m).2.
Proof using.
  pose proof (invalidate_law start len k m) as (E & _ & _ & Hd).
  set (m' := (tb_invalidate_phys_page_fast start len k m).2) in *. clearbody m'.
  split; [exact E|]. intros Hu. split.
  - intros p. destruct (Hd p) as [-> | [_ ->]]; [apply Hu|]. apply lor_width; [lia|apply Hu|].
    unfold in_width; done.
  - intros p Hp. destruct (Hd p) as [-> | [_ ->]]; rewrite Hp; done.
Qed.

Lemma notdirty_ok n addr val s : is_u32 addr -> soft_ok s ->
  returns any (notdirty_mem_write n addr val) s.
Proof using Hbase.
  intros Ha Hok. unfold notdirty_mem_write. set (p := Z.shiftr _ _). apply returns_modify; [|done].
  match goal with |- soft_ok (let '(d, x) := ?c in _) => set (inv := c) end.
  assert (Hi : exists m, soft_ok inv.2 /\ mem inv.2 = m /\ inv.1 = phys_ram_dirty m p).
  { unfold inv. destruct (negb _); [|by eexists].
    pose proof (invalidate_step (u32 (addr - phys_ram_base)) (Z.of_nat n) (code s) (mem s)) as Hs.
    destruct (tb_invalidate_phys_page_fast _ _ _ _) as [k m]. cbn [snd] in Hs.
    set (s0 := upd code _ s). exists m. split; [|done]. apply (soft_ok_step s0); [exact Hok|exact Hs]. }
  clearbody inv. destruct inv as [flags s1]. cbn [fst snd] in Hi. destruct Hi as (m & Hok1 & <- & ->).
  assert (Hok2 : soft_ok (host_write n addr val s1)) by (apply (soft_ok_step s1); [exact Hok1|apply ram_store_step]).
  assert (Ed : phys_ram_dirty (mem (host_write n addr val s1)) = phys_ram_dirty (mem s1)) by done.
  set (s2 := host_write n addr val s1) in *. clearbody s2.
  set (flags := Z.lor _ _). set (m3 := upd phys_ram_dirty _ _). set (s3 := upd mem _ s2).
  assert (Hok3 : soft_ok s3).
  { apply (soft_ok_step s2 m3); [exact Hok2|].
    apply (or_flags_step _ _ p (Z.land 0xff (Z.lnot CODE_DIRTY_FLAG))); [unfold in_width; done|done|].
    unfold m3, flags. simpl. by rewrite Ed. }
  assert (E3 : phys_ram_dirty (mem s3) p = flags) by (simpl; unfold mem_upd; by rewrite Z.eqb_refl).
  clearbody s3 flags. destruct (flags =? 0xff) eqn:Ef; [|exact Hok3].
  destruct Hok3 as (H1 & H2 & H3). split; [exact H1|]. split; [exact H2|].
  apply set_dirty_ok; [done|done| |exact H3]. to_prop. by rewrite <- Ef.
Qed.

Lemma watch_loop_u32 addr vaddr w : forall i r, is_u32 r -> is_u32 (watch_loop addr vaddr w i r).1.
Proof using.
  induction w as [|[wv wa] w IH]; intros i r Hr; cbn [watch_loop]; [done|].
  destruct (_ =? 0); [|by apply IH]. destruct (_ =? 0); [|apply IH]; apply wrap_range; lia.
Qed.

Lemma check_watchpoint_ok addr s : is_u32 addr -> soft_ok s ->
  returns (fun a _ => is_u32 a) (check_watchpoint addr) s.
Proof using.
  intros Ha Hok. unfold returns, check_watchpoint.
  pose proof (watch_loop_u32 addr (mem_write_vaddr s) (watchpoint s) 0 addr Ha) as Hr.
  destruct (watch_loop _ _ _ _ _) as [r [h|]]; by eexists _, _.
Qed.

Lemma rw_returns addr buf w m : is_u32 addr -> exists r,
  cpu_physical_memory_rw io_mem_read io_mem_write (length buf) addr buf w m = Some r /\ mem_step m r.2.
Proof using.
  intros Ha. destruct (rw_terminates io_mem_read io_mem_write (length buf) addr buf w m Ha) as (b & m' & E & _); [lia|].
  eexists. split; [exact E|]. exact (rw_step _ _ _ _ _ _ _ _ E).
Qed.

Lemma set_mem_ok s m : soft_ok s -> mem_step (mem s) m -> returns any (set_mem (Some m)) s.
Proof using. intros Hok Hs. eexists _, _. split; [reflexivity|]. split; [by apply soft_ok_step|done]. Qed.

Lemma get_mem_ok s v m : soft_ok s -> mem_step (mem s) m -> returns any (get_mem (Some (v, m))) s.
Proof using. intros Hok Hs. eexists _, _. split; [reflexivity|]. split; [by apply soft_ok_step|done]. Qed.

Lemma watch_write_ok sz addr val s : is_u32 addr -> soft_ok s -> returns any (watch_mem_write sz addr val) s.
Proof using.
  intros Ha Hok. unfold watch_mem_write. eapply returns_bind; [by apply check_watchpoint_ok|].
  intros a s1 Hok1 Hu. cbv beta in Hu. eapply (returns_bind (fun m s' => m = mem s')); [by apply returns_gets|].
  intros m s2 Hok2 ->. destruct (sz =? 0); [|destruct (sz =? 1)].
  - unfold stb_phys. destruct (rw_returns a (le_bytes 1 val) true (mem s2) Hu) as (r & E & Hs).
    rewrite length_le_bytes in E. rewrite E. by apply set_mem_ok.
  - unfold stw_phys. destruct (rw_returns a (le_bytes 2 val) true (mem s2) Hu) as (r & E & Hs).
    rewrite length_le_bytes in E. rewrite E. by apply set_mem_ok.
  - apply set_mem_ok; [done|]. apply stl_step.
Qed.

Lemma watch_read_ok sz addr s : is_u32 addr -> soft_ok s -> returns any (watch_mem_read sz addr) s.
Proof using.
  intros Hu Hok. unfold watch_mem_read. eapply (returns_bind (fun m s' => m = mem s')); [by apply returns_gets|].
  intros m s2 Hok2 ->. destruct (sz =? 0); [|destruct (sz =? 1)].
  - unfold ldub_phys. destruct (rw_returns addr [0] false (mem s2) Hu) as ([buf m'] & E & Hs).
    cbn [length] in E. rewrite E. by apply get_mem_ok.
  - unfold lduw_phys. destruct (rw_returns addr [0; 0] false (mem s2) Hu) as ([buf m'] & E & Hs).
    cbn [length] in E. rewrite E. by apply get_mem_ok.
  - pose proof (ldl_step io_mem_read addr (mem s2)) as Hs.
    destruct (ldl_phys io_mem_read addr (mem s2)) as [v m']. by apply get_mem_ok.
Qed.
Lemma call_read_ok index sz addr s : is_u32 addr -> index <> 1 -> index <> 4 -> soft_ok s ->
  returns any (call_read index sz addr) s.
Proof using Hwatch Hbase.
  intros Ha H1 H4 Hok. unfold call_read. change (Z.shiftr IO_MEM_ROM IO_MEM_SHIFT) with 1.
  change (Z.shiftr IO_MEM_NOTDIRTY IO_MEM_SHIFT) with 4.
  rewrite (proj2 (Z.eqb_neq index 1)), (proj2 (Z.eqb_neq index 4)) by done. cbn [orb].
  destruct (_ =? _); [by apply watch_read_ok|]. destruct (_ =? _); [by apply returns_ret|].
  eapply (returns_bind (fun m s' => m = mem s')); [by apply returns_gets|].
  intros m s2 Hok2 ->. destruct (io_mem_read index sz _ addr) as [v d].
  eapply (returns_bind any); [apply returns_modify; [|done]|intros; by apply returns_ret].
  apply soft_ok_step; [done|apply dev_step].
Qed.

Lemma call_write_ok index sz addr val s : is_u32 addr -> soft_ok s ->
  returns any (call_write index sz addr val) s.
Proof using Hwatch Hbase.
  intros Ha Hok. unfold call_write.
  destruct (_ =? _); [by apply watch_write_ok|]. destruct (_ =? _); [by apply notdirty_ok|].
  destruct (_ || _); [by apply returns_ret|].
  eapply (returns_bind (fun m s' => m = mem s')); [by apply returns_gets|].
  intros m s2 Hok2 ->. apply returns_modify; [|done]. apply soft_ok_step; [done|apply dev_step].
Qed.

Lemma io_read_ok n a tlb_addr s : is_u32 a -> rtag_ok tlb_addr -> page_off tlb_addr <> 0 -> soft_ok s ->
  returns any (io_read n a tlb_addr) s.
Proof using Hwatch Hbase.
  intros Ha [_ Hi] H0 Hok. destruct (Hi H0) as [H1 H4]. unfold io_read.
  destruct (shift n <=? 2).
  - eapply returns_bind; [by apply call_read_ok|]. intros. by apply returns_ret.
  - eapply returns_bind; [by apply call_read_ok|]. intros lo s1 Hok1 _.
    eapply returns_bind; [apply call_read_ok; try done; apply wrap_range; lia|].
    intros. by apply returns_ret.
Qed.

Lemma io_write_ok n a val tlb_addr s : is_u32 a -> soft_ok s -> returns any (io_write n a val tlb_addr) s.
Proof using Hwatch Hbase.
  intros Ha Hok. unfold io_write. eapply (returns_bind any); [apply returns_modify; [exact Hok|done]|].
  intros _ s1 Hok1 _. destruct (shift n <=? 2); [by apply call_write_ok|].
  eapply returns_bind; [by apply call_write_ok|]. intros _ s2 Hok2 _.
  apply call_write_ok; [apply wrap_range; lia|done].
Qed.

Lemma st_raw_ok n h v s : soft_ok s -> returns any (st_raw n h v) s.
Proof using.
  intros Hok. apply returns_modify; [|done]. apply soft_ok_step; [done|apply ram_store_step].
Qed.

(** *** The slow paths *)

(** The access sizes. *)
Definition size_ok (n : nat) : Prop := n = 1%nat \/ n = 2%nat \/ n = 4%nat \/ n = 8%nat.

Lemma size_pow n : size_ok n -> exists k, 0 <= k <= 3 /\ Z.of_nat n = 2 ^ k /\ Z.of_nat n - 1 = Z.ones k.
Proof using.
  intros [-> | [-> | [-> | ->]]]; [exists 0|exists 1|exists 2|exists 3]; done.
Qed.

Lemma low_bits n a : size_ok n -> Z.land a (Z.of_nat n - 1) = a mod Z.of_nat n.
Proof using. intros (k & Hk & E1 & E2)%size_pow. rewrite E2, E1. apply Z.land_ones. lia. Qed.

Lemma size_divides n : size_ok n -> (Z.of_nat n | 4096) /\ 0 < Z.of_nat n <= 8.
Proof using.
  intros [-> | [-> | [-> | ->]]]; (split; [|lia]); [exists 4096|exists 2048|exists 1024|exists 512]; done.
Qed.

Lemma aligned_spans n a : size_ok n -> unaligned n a = false -> spans n a = false.
Proof using.
  intros Hn. unfold unaligned, spans. rewrite low_bits, page_off_mod by done.
  intros H. to_prop. unfold TARGET_PAGE_SIZE. apply Z.leb_gt.
  destruct Hn as [-> | [-> | [-> | ->]]]; simpl Z.of_nat in *; clear -H; Z.to_euclidean_division_equations; lia.
Qed.

Lemma align_aligned n a : size_ok n -> is_u32 a -> is_u32 (align n a) /\ unaligned n (align n a) = false.
Proof using.
  intros Hn Ha. destruct (size_divides n Hn) as [[k Hk] Hr]. unfold align, unaligned. rewrite !low_bits by done.
  unfold in_width in *. pose proof (Z.mod_pos_bound a (Z.of_nat n) ltac:(lia)).
  pose proof (Z.mod_le a (Z.of_nat n) ltac:(lia) ltac:(lia)). split; [lia|].
  rewrite Zminus_mod_idemp_r, Z.sub_diag. done.
Qed.

Lemma next_aligned n a : size_ok n -> unaligned n a = false -> unaligned n (u32 (a + Z.of_nat n)) = false.
Proof using.
  intros Hn. destruct (size_divides n Hn) as [[k Hk] Hr]. unfold unaligned, u32, wrap. rewrite !low_bits by done.
  intros H. to_prop. apply negb_false_iff, Z.eqb_eq.
  rewrite <- Znumtheory.Zmod_div_mod; [|lia|lia|exists (2 ^ 20 * k); rewrite <- Z.mul_assoc, <- Hk; done].
  rewrite <- Zplus_mod_idemp_l, H, Z.add_0_l. apply Z_mod_same_full.
Qed.
Lemma read_tag_ok s idx i : soft_ok s -> rtag_ok (read_tag 0 (tlb_table s idx i)).
Proof using. intros (_ & _ & H). apply H. Qed.

Abbreviation entry s idx addr := (tlb_table s idx (tlb_index addr)).

(** A miss is filled, and the access is done again with one unit of fuel less. *)
Lemma ld_redo (ld : M Z) addr idx s : is_u32 addr -> soft_ok s ->
  (forall s, soft_ok s -> tlb_hit addr (read_tag 0 (entry s idx addr)) = true -> returns any ld s) ->
  returns any (tlb_fill addr 0 idx;; ld) s.
Proof using Hwatch Hbase.
  intros Ha Hok Hld. eapply returns_bind; [by apply tlb_fill_ok|]. intros _ s1 Hok1 [Hr _].
  apply Hld; [done|]. unfold tlb_hit. apply Z.eqb_eq. symmetry. exact Hr.
Qed.

Lemma st_redo (st : M unit) addr idx s : is_u32 addr -> soft_ok s ->
  (forall s, soft_ok s -> tlb_hit addr (addr_write (entry s idx addr)) = true -> returns any st s) ->
  returns any (tlb_fill addr 1 idx;; st) s.
Proof using Hwatch Hbase.
  intros Ha Hok Hst. eapply returns_bind; [by apply tlb_fill_ok|]. intros _ s1 Hok1 [_ Hw].
  apply Hst; [done|]. unfold tlb_hit. apply Z.eqb_eq. symmetry. by apply Hw.
Qed.

(** An entry that is found: I/O or RAM, aligned or not. *)
Lemma ld_found n addr a tlb_addr (split : M Z) s : soft_ok s -> is_u32 a -> rtag_ok tlb_addr -> size_ok n ->
  (unaligned n addr = true -> returns any split s) ->
  returns any (if truth (page_off tlb_addr) then
                 if unaligned n addr then split else io_read n a tlb_addr
               else if spans n addr then split else ld_raw n a) s.
Proof using Hwatch Hbase.
  intros Hok Ha Ht Hn Hs. destruct (truth (page_off tlb_addr)) eqn:Et; to_prop.
  - destruct (unaligned n addr); [by apply Hs|by apply io_read_ok].
  - destruct (spans n addr) eqn:Es; [|by apply returns_gets]. apply Hs.
    destruct (unaligned n addr) eqn:Eu; [done|]. by rewrite (aligned_spans n addr Hn Eu) in Es.
Qed.

Lemma st_found n addr a val tlb_addr (split : M unit) s : soft_ok s -> is_u32 a -> size_ok n ->
  (unaligned n addr = true -> returns any split s) ->
  returns any (if truth (page_off tlb_addr) then
                 if unaligned n addr then split else io_write n a val tlb_addr
               else if spans n addr then split else st_raw n a val) s.
Proof using Hwatch Hbase.
  intros Hok Ha Hn Hs. destruct (truth (page_off tlb_addr)) eqn:Et; to_prop.
  - destruct (unaligned n addr); [by apply Hs|by apply io_write_ok].
  - destruct (spans n addr) eqn:Es; [|by apply st_raw_ok]. apply Hs.
    destruct (unaligned n addr) eqn:Eu; [done|]. by rewrite (aligned_spans n addr Hn Eu) in Es.
Qed.

Lemma u32_is_u32 z : is_u32 (u32 z).
Proof using. apply wrap_range. lia. Qed.

(** An aligned access needs a fill and a second try. *)
Lemma slow_ld_aligned f n addr idx s : size_ok n -> is_u32 addr -> unaligned n addr = false -> soft_ok s ->
  returns any (slow_ld (S (S f)) n 0 addr idx) s.
Proof using Hwatch Hbase.
  intros Hn Ha Hu. assert (H1 : forall f s, soft_ok s -> tlb_hit addr (read_tag 0 (entry s idx addr)) = true ->
    returns any (slow_ld (S f) n 0 addr idx) s).
  { intros f' s' Hok Hh. unfold returns. cbn [slow_ld]. rewrite Hh.
    apply (ld_found n addr); [done|apply u32_is_u32|by apply read_tag_ok|done|congruence]. }
  intros Hok. destruct (tlb_hit addr (read_tag 0 (entry s idx addr))) eqn:Hh; [by apply H1|].
  unfold returns. remember (S f) as f1. cbn [slow_ld]. rewrite Hh. subst f1. apply ld_redo; auto.
Qed.

Lemma slow_ld_returns f n addr idx s : size_ok n -> is_u32 addr -> soft_ok s ->
  returns any (slow_ld (S (S (S (S f)))) n 0 addr idx) s.
Proof using Hwatch Hbase.
  intros Hn Ha. destruct (align_aligned n addr Hn Ha) as [Ua Ual].
  assert (H1 : forall f s, soft_ok s -> tlb_hit addr (read_tag 0 (entry s idx addr)) = true ->
    returns any (slow_ld (S (S (S f))) n 0 addr idx) s).
  { intros f' s' Hok Hh. unfold returns. remember (S (S f')) as f2. cbn [slow_ld]. rewrite Hh. subst f2.
    apply (ld_found n addr); [done|apply u32_is_u32|by apply read_tag_ok|done|]. intros _.
    eapply returns_bind; [by apply slow_ld_aligned|]. intros r1 s1 Hok1 _.
    eapply returns_bind; [apply slow_ld_aligned; [done|apply u32_is_u32|by apply next_aligned|done]|].
    intros r2 s2 Hok2 _. by apply returns_ret. }
  intros Hok. destruct (tlb_hit addr (read_tag 0 (entry s idx addr))) eqn:Hh; [by apply H1|].
  unfold returns. remember (S (S (S f))) as f3. cbn [slow_ld]. rewrite Hh. subst f3. apply ld_redo; auto.
Qed.

Lemma ld_mmu_returns f n addr idx s : size_ok n -> is_u32 addr -> soft_ok s ->
  returns any (ld_mmu (S (S (S (S (S (S f)))))) n 0 addr idx) s.
Proof using Hwatch Hbase.
  intros Hn Ha.
  assert (H1 : forall f s, soft_ok s -> tlb_hit addr (read_tag 0 (entry s idx addr)) = true ->
    returns any (ld_mmu (S (S (S (S (S f))))) n 0 addr idx) s).
  { intros f' s' Hok Hh. unfold returns. remember (S (S (S (S f')))) as f4. cbn [ld_mmu]. rewrite Hh. subst f4.
    apply (ld_found n addr); [done|apply u32_is_u32|by apply read_tag_ok|done|]. intros _. by apply slow_ld_returns. }
  intros Hok. destruct (tlb_hit addr (read_tag 0 (entry s idx addr))) eqn:Hh; [by apply H1|].
  unfold returns. remember (S (S (S (S (S f))))) as f5. cbn [ld_mmu]. rewrite Hh. subst f5. apply ld_redo; auto.
Qed.

Lemma slow_st_byte f addr val idx s : is_u32 addr -> soft_ok s ->
  returns any (slow_st (S (S f)) 1 addr val idx) s.
Proof using Hwatch Hbase.
  intros Ha. assert (Hn : size_ok 1) by (by left).
  assert (Hu : unaligned 1 addr = false) by (unfold unaligned; rewrite low_bits by done; by rewrite Z.mod_1_r).
  assert (H1 : forall f s, soft_ok s -> tlb_hit addr (addr_write (entry s idx addr)) = true ->
    returns any (slow_st (S f) 1 addr val idx) s).
  { intros f' s' Hok Hh. unfold returns. cbn [slow_st]. rewrite Hh.
    apply (st_found 1 addr); [done|apply u32_is_u32|done|congruence]. }
  intros Hok. destruct (tlb_hit addr (addr_write (entry s idx addr))) eqn:Hh; [by apply H1|].
  unfold returns. remember (S f) as f1. cbn [slow_st]. rewrite Hh. subst f1. apply st_redo; auto.
Qed.

Lemma store_bytes_returns (store : Z -> Z -> M unit) i addr val :
  (forall a v s, is_u32 a -> soft_ok s -> returns any (store a v) s) ->
  forall s, soft_ok s -> returns any (store_bytes store i addr val) s.
Proof using.
  intros Hs. induction i as [|i IH]; intros s Hok; cbn [store_bytes]; [by apply returns_ret|].
  eapply returns_bind; [apply Hs; [apply u32_is_u32|done]|]. intros _ s1 Hok1 _. by apply IH.
Qed.

Lemma slow_st_returns f n addr val idx s : size_ok n -> is_u32 addr -> soft_ok s ->
  returns any (slow_st (S (S (S (S f)))) n addr val idx) s.
Proof using Hwatch Hbase.
  intros Hn Ha.
  assert (H1 : forall f s, soft_ok s -> tlb_hit addr (addr_write (entry s idx addr)) = true ->
    returns any (slow_st (S (S (S f))) n addr val idx) s).
  { intros f' s' Hok Hh. unfold returns. remember (S (S f')) as f2. cbn [slow_st]. rewrite Hh. subst f2.
    apply (st_found n addr); [done|apply u32_is_u32|done|]. intros _.
    apply store_bytes_returns; [|done]. intros. by apply slow_st_byte. }
  intros Hok. destruct (tlb_hit addr (addr_write (entry s idx addr))) eqn:Hh; [by apply H1|].
  unfold returns. remember (S (S (S f))) as f3. cbn [slow_st]. rewrite Hh. subst f3. apply st_redo; auto.
Qed.

Lemma st_mmu_returns f n addr val idx s : size_ok n -> is_u32 addr -> soft_ok s ->
  returns any (st_mmu (S (S (S (S (S (S f)))))) n addr val idx) s.
Proof using Hwatch Hbase.
  intros Hn Ha.
  assert (H1 : forall f s, soft_ok s -> tlb_hit addr (addr_write (entry s idx addr)) = true ->
    returns any (st_mmu (S (S (S (S (S f))))) n addr val idx) s).
  { intros f' s' Hok Hh. unfold returns. remember (S (S (S (S f')))) as f4. cbn [st_mmu]. rewrite Hh. subst f4.
    apply (st_found n addr); [done|apply u32_is_u32|done|]. intros _. by apply slow_st_returns. }
  intros Hok. destruct (tlb_hit addr (addr_write (entry s idx addr))) eqn:Hh; [by apply H1|].
  unfold returns. remember (S (S (S (S (S f))))) as f5. cbn [st_mmu]. rewrite Hh. subst f5. apply st_redo; auto.
Qed.

Lemma ld_fast_returns n addr idx s : size_ok n -> is_u32 addr -> soft_ok s ->
  returns any (ld_fast n 0 addr idx) s.
Proof using Hwatch Hbase.
  intros. unfold returns, ld_fast. destruct (negb _); [by apply ld_mmu_returns|]. by apply returns_gets.
Qed.

Lemma st_fast_returns n addr v idx s : size_ok n -> is_u32 addr -> soft_ok s ->
  returns any (st_fast n addr v idx) s.
Proof using Hwatch Hbase.
  intros. unfold returns, st_fast. destruct (negb _); [by apply st_mmu_returns|]. by apply st_raw_ok.
Qed.
(** ** A machine that runs *)

(** What uses the TLB: the guest's accesses, its writes to the control registers, the
    flushes, the watchpoints of the debugger, the code cache and the displays through the
    dirty flags, and the accesses of devices to RAM. *)
Inductive soft_op : Type :=
| Load (n : nat) (addr mmu_idx : Z)
| Store (n : nat) (addr v mmu_idx : Z)
| Control (op : mmu_op)
| FlushPage (addr : Z)
| ResetDirty (start stop flags : Z)
| ProtectCode (ram_addr : Z)
| UnprotectCode (ram_addr : Z)
| SetDirty (addr : Z)
| WatchInsert (addr : Z)
| WatchRemove (addr : Z)
| Dma (addr : Z) (buf : list Z) (is_write : bool).

Definition with_memory (r : tlb * phys (D := D)) (s : soft) : soft :=
  let s := s <| tlb_table := r.1 |> in s <| mem := r.2 |>.

Definition with_watch (r : Z * list (Z * Z) * tlb) (s : soft) : soft :=
  let s := s <| watchpoint := r.1.2 |> in s <| tlb_table := r.2 |>.

(** A write to a control register; it flushes the TLB if it changes the translation. *)
Definition control (op : mmu_op) (s : soft) : soft :=
  let e := mmu_exec op (env s) in
  let flushed := negb (Nat.eqb (length (tlb_flushes e)) (length (tlb_flushes (env s)))) in
  let s := s <| env := e |> in
  if flushed then s <| tlb_table := tlb_flush 1 (tlb_table s) |> else s.

Definition exec (op : soft_op) (s : soft) : option soft :=
  match op with
  | Load n addr mmu_idx => snd <$> ld_fast n 0 addr mmu_idx s
  | Store n addr v mmu_idx => snd <$> st_fast n addr v mmu_idx s
  | Control op => Some (control op s)
  | FlushPage addr => Some (s <| tlb_table := tlb_flush_page addr (tlb_table s) |>)
  | ResetDirty start stop flags =>
    Some (with_memory (cpu_physical_memory_reset_dirty phys_ram_base start stop flags (tlb_table s) (mem s)) s)
  | ProtectCode a => Some (with_memory (tlb_protect_code phys_ram_base a (tlb_table s) (mem s)) s)
  | UnprotectCode a => Some (s <| mem := tlb_unprotect_code_phys a (mem s) |>)
  | SetDirty a => Some (s <| mem := cpu_physical_memory_set_dirty a (mem s) |>)
  | WatchInsert a => Some (with_watch (cpu_watchpoint_insert a (watchpoint s) (tlb_table s)) s)
  | WatchRemove a => Some (with_watch (cpu_watchpoint_remove a (watchpoint s) (tlb_table s)) s)
  | Dma addr buf is_write =>
    (fun r => s <| mem := r.2 |>) <$>
      cpu_physical_memory_rw io_mem_read io_mem_write (length buf) addr buf is_write (mem s)
  end.

Definition op_ok (op : soft_op) : Prop :=
  match op with
  | Load n addr _ | Store n addr _ _ => size_ok n /\ is_u32 addr
  | ResetDirty start stop _ => is_u32 start /\ is_u32 stop
  | ProtectCode a => is_u32 a
  | Dma addr _ _ => is_u32 addr
  | _ => True
  end.

Fixpoint run (ops : list soft_op) (s : soft) : option soft :=
  match ops with
  | [] => Some s
  | op :: ops => s ← exec op s; run ops s
  end.

Lemma returns_snd {A} (m : M A) s : returns any m s -> exists s', snd <$> m s = Some s' /\ soft_ok s'.
Proof using. intros (r & s' & -> & Hok & _). by exists s'. Qed.

Lemma with_memory_ok s start stop flags : soft_ok s -> is_u32 start -> is_u32 stop ->
  soft_ok (with_memory (cpu_physical_memory_reset_dirty phys_ram_base start stop flags (tlb_table s) (mem s)) s).
Proof using.
  intros (H1 & H2 & H3) Hs He.
  destruct (cpu_physical_memory_reset_dirty phys_ram_base start stop flags (tlb_table s) (mem s)) as [t m] eqn:E.
  destruct (reset_dirty_ok _ _ _ _ _ _ _ _ Hs He H2 H3 E) as (G1 & G2 & G3).
  split; [by apply (board_ok_step (mem s))|]. by split.
Qed.

Lemma watch_flushes s (r : Z * list (Z * Z) * tlb) a : soft_ok s ->
  r.2 = tlb_table s \/ r.2 = tlb_flush_page a (tlb_table s) -> soft_ok (with_watch r s).
Proof using.
  intros (H1 & H2 & H3) Hr. split; [exact H1|]. split; [exact H2|].
  cbn. destruct Hr as [-> | ->]; [exact H3|]. by apply flush_page_ok.
Qed.

Lemma exec_ok op s : op_ok op -> soft_ok s -> exists s', exec op s = Some s' /\ soft_ok s'.
Proof using Hwatch Hbase.
  intros Hop Hok. pose proof Hok as (H1 & H2 & H3).
  destruct op; cbn [exec op_ok] in *; try (eexists; split; [reflexivity|]).
  - apply returns_snd. apply ld_fast_returns; [apply Hop|apply Hop|exact Hok].
  - apply returns_snd. apply st_fast_returns; [apply Hop|apply Hop|exact Hok].
  - unfold control. destruct (negb _); (split; [exact H1|]); (split; [exact H2|]); [|exact H3].
    apply flush_ok. intros m i. apply H3.
  - split; [exact H1|]. split; [exact H2|]. by apply flush_page_ok.
  - apply with_memory_ok; [done|apply Hop|apply Hop].
  - apply with_memory_ok; [done|done|]. apply u32_is_u32.
  - apply soft_ok_step; [done|]. apply unprotect_step.
  - apply soft_ok_step; [done|]. apply phys_set_dirty_step.
  - apply (watch_flushes s _ addr); [done|]. unfold cpu_watchpoint_insert.
    destruct (existsb _ _); [by left|]. destruct (_ <=? _)%nat; [by left|by right].
  - apply (watch_flushes s _ addr); [done|]. unfold cpu_watchpoint_remove.
    destruct (watch_position _ _); [by right|by left].
  - destruct (rw_returns addr buf is_write (mem s) Hop) as (r & E & Hs). rewrite E.
    eexists. split; [reflexivity|]. by apply soft_ok_step.
Qed.

Lemma run_ok ops : forall s, Forall op_ok ops -> soft_ok s -> exists s', run ops s = Some s' /\ soft_ok s'.
Proof using Hwatch Hbase.
  induction ops as [|op ops IH]; intros s Hf Hok; cbn [run]; [by exists s|].
  apply Forall_cons in Hf as [Hop Hf]. destruct (exec_ok op s Hop Hok) as (s1 & -> & Hok1). by apply IH.
Qed.

(** *** Properties *)

(** C24. Every access returns: a load or a store of 1, 2, 4 or 8 bytes, at any address and
    through any page tables, ends in a value or in a page fault, within the fuel of the
    fast paths, and calls no callback the board did not register: the fill of a missing
    page is found by the second try, also for the halves and the bytes of an access
    that crosses a page; and it keeps the TLB well formed. *)
Theorem guest_access_total n addr v idx s : size_ok n -> is_u32 addr -> soft_ok s ->
  (exists r s', ld_fast n 0 addr idx s = Some (r, s') /\ soft_ok s') /\
  (exists r s', st_fast n addr v idx s = Some (r, s') /\ soft_ok s').
Proof using Hwatch Hbase.
  intros Hn Ha Hok. split.
  - destruct (ld_fast_returns n addr idx s Hn Ha Hok) as (r & s' & E & H & _). eauto.
  - destruct (st_fast_returns n addr v idx s Hn Ha Hok) as (r & s' & E & H & _). eauto.
Qed.

Lemma fast_hit_page n ptr a : size_ok n -> is_u32 ptr -> tag_ok a -> fast_hit n ptr a = true ->
  page_off a = 0 /\ a = page_base ptr /\ unaligned n ptr = false.
Proof using.
  intros Hn Hp Ht Hh. unfold fast_hit in Hh. to_prop.
  assert (Eo : page_off a = ptr mod Z.of_nat n).
  { rewrite Hh. unfold page_off. rewrite <- Z.land_assoc, Z.land_lor_distr_l.
    change (Z.land TARGET_PAGE_MASK 0xfff) with 0. rewrite Z.lor_0_l.
    replace (Z.land (Z.of_nat n - 1) 0xfff) with (Z.of_nat n - 1); [by apply low_bits|].
    destruct Hn as [-> | [-> | [-> | ->]]]; done. }
  destruct (size_divides n Hn) as [_ Hr].
  pose proof (Z.mod_pos_bound ptr (Z.of_nat n) ltac:(lia)) as Hm.
  assert (H0 : page_off a = 0).
  { destruct Ht as [-> | (_ & _ & [E|E])]; [|done|unfold IO_MEM_ROM in E; lia].
    change (page_off INVALID) with 0xfff in Eo. lia. }
  split; [done|]. split; [|unfold unaligned; rewrite low_bits by done; by rewrite <- Eo, H0].
  assert (Hb : page_base a = page_base ptr).
  { rewrite Hh. unfold page_base. rewrite <- Z.land_assoc. f_equal.
    destruct Hn as [-> | [-> | [-> | ->]]]; done. }
  assert (Ha : is_u32 a) by (rewrite Hh; by apply land_width_l).
  destruct (page_split a Ha) as (Ea & _). lia.
Qed.

(** C25. The inlined fast paths do what the slow paths do: with a well formed TLB, a load
    or store through the one comparison of the generated code gives the result, and
    leaves the state, of the out of line routine that checks validity, I/O zones,
    alignment and page crossing one after the other. *)
Theorem fast_path_agrees n addr v idx s : size_ok n -> is_u32 addr -> soft_ok s ->
  ld_fast n 0 addr idx s = ld_mmu FUEL n 0 addr idx s /\
  ld_fast n 2 addr idx s = ld_mmu FUEL n 2 addr idx s /\
  st_fast n addr v idx s = st_mmu FUEL n addr (wrap (8 * Z.of_nat n) v) idx s.
Proof using.
  intros Hn Ha (_ & _ & Ht). set (e := entry s idx addr).
  destruct (Ht idx (tlb_index addr)) as (_ & [Hr Hc] & Hw & _). fold e in Hr, Hc, Hw.
  assert (G : forall a, tag_ok a -> fast_hit n addr a = true ->
    tlb_hit addr a = true /\ truth (page_off a) = false /\ spans n addr = false).
  { intros a Hta Hf. destruct (fast_hit_page n addr a Hn Ha Hta Hf) as (H0 & E & Hu).
    split; [|split; [by rewrite H0|by apply aligned_spans]].
    unfold tlb_hit. rewrite tag_base by (apply page_off_bit; [lia|done]).
    by rewrite E, page_base_base, Z.eqb_refl. }
  unfold ld_fast, st_fast. fold e. split; [|split].
  - destruct (fast_hit n addr (read_tag 0 e)) eqn:Ef; [|done]. cbn [negb].
    destruct (G (read_tag 0 e) (proj1 Hr) Ef) as (G1 & G2 & G3).
    cbn [ld_mmu FUEL]. fold e. by rewrite G1, G2, G3.
  - destruct (fast_hit n addr (read_tag 2 e)) eqn:Ef; [|done]. cbn [negb].
    destruct (G (read_tag 2 e) (proj1 Hc) Ef) as (G1 & G2 & G3).
    cbn [ld_mmu FUEL]. fold e. by rewrite G1, G2, G3.
  - destruct (fast_hit n addr (addr_write e)) eqn:Ef; [|done]. cbn [negb].
    destruct (G _ Hw Ef) as (G1 & G2 & G3).
    cbn [st_mmu FUEL]. fold e. rewrite G1, G2, G3. unfold st_raw, modify, host_write. by rewrite le_bytes_wrap.
Qed.
Lemma page_shift A o : A mod 4096 = 0 -> 0 <= o < 4096 ->
  u32 (A + o) = u32 A + o /\ forall i, 0 <= o + i < 4096 -> Z.shiftr (u32 (A + o) + i) 12 = Z.shiftr (u32 A) 12.
Proof using.
  intros HA Ho. pose proof (u32_is_u32 A) as Hu. unfold in_width in Hu.
  assert (Hm : u32 A mod 4096 = 0) by (by rewrite u32_page).
  assert (E : u32 (A + o) = u32 A + o).
  { unfold u32, wrap. rewrite <- Zplus_mod_idemp_l. apply Z.mod_small. fold (wrap 32 A). fold (u32 A).
    pose proof (Z.div_mod (u32 A) 4096 ltac:(lia)). lia. }
  split; [exact E|]. intros i Hi. rewrite E, !Z.shiftr_div_pow2 by lia. change (2 ^ 12) with 4096.
  pose proof (Z.div_mod (u32 A) 4096 ltac:(lia)). symmetry. apply Z.div_unique with (o + i); lia.
Qed.

Lemma u32_add a b : u32 (u32 a + b) = u32 (a + b).
Proof using. unfold u32, wrap. by rewrite Zplus_mod_idemp_l. Qed.

(** The RAM address of a byte of an access that an entry maps, relative to its page. *)
Lemma ram_page ptr ad : is_u32 ptr -> ad mod 4096 = 0 -> forall i, 0 <= page_off ptr + i < 4096 ->
  Z.shiftr (u32 (u32 (ptr + ad) - phys_ram_base) + i) 12
  = Z.shiftr (u32 (u32 (page_base ptr + ad) - phys_ram_base)) 12.
Proof using Hbase.
  intros Hp Ha i Hi. destruct (page_split ptr Hp) as (Es & Hr & Hm & _).
  assert (HA : (page_base ptr + ad - phys_ram_base) mod 4096 = 0)
    by (rewrite Zminus_mod, Zplus_mod, Hm, Ha, Hbase; done).
  unfold Z.sub in *. rewrite !u32_add.
  replace (ptr + ad + - phys_ram_base) with (page_base ptr + ad + - phys_ram_base + page_off ptr) by lia.
  by apply (page_shift _ _ HA Hr).
Qed.

(** C11. No store escapes the dirty tracking.  After any sequence of guest accesses,
    control register writes, page flushes, watchpoints, resets of dirty flags,
    protections of translated pages and device accesses, every byte that a store would
    write on the fast path, with no callback, is in a page all of whose dirty flags are
    set: a page that holds translated code, or one a display has reset, is never
    written behind the back of its owner. *)
Theorem fast_store_all_dirty ops s0 s n ptr idx : soft_ok s0 -> Forall op_ok ops -> run ops s0 = Some s ->
  size_ok n -> is_u32 ptr -> fast_hit n ptr (addr_write (entry s idx ptr)) = true ->
  forall i, 0 <= i < Z.of_nat n ->
  let x := u32 (u32 (ptr + addend (entry s idx ptr)) - phys_ram_base) + i in
  phys_ram_dirty (mem s) (Z.shiftr x TARGET_PAGE_BITS) = 0xff.
Proof using Hwatch Hbase.
  intros Hok Hops Hrun Hn Hp Hh i Hi x. destruct (run_ok ops s0 Hops Hok) as (s1 & E & _ & _ & Ht).
  rewrite Hrun in E. injection E as <-. destruct (Ht idx (tlb_index ptr)) as (Ha & _ & Hw & Hd).
  destruct (fast_hit_page n ptr _ Hn Hp Hw Hh) as (H0 & Eb & Hu). rewrite <- Hd by done. f_equal.
  unfold fast_page, write_host, TARGET_PAGE_BITS, x. rewrite Eb, page_base_base.
  apply ram_page; [done|done|]. pose proof (aligned_spans n ptr Hn Hu) as Hs. unfold spans in Hs. to_prop.
  unfold TARGET_PAGE_SIZE in Hs. pose proof (page_off_range ptr). lia.
Qed.


(** A clean page of RAM, and an aligned store inside it. *)
Definition clean_store (n : nat) (ptr : Z) (idx : Z) (s : soft) : Prop :=
  let e := entry s idx ptr in
  tlb_hit ptr (addr_write e) = true /\ page_off (addr_write e) = IO_MEM_NOTDIRTY /\
  unaligned n ptr = false.

Lemma clean_store_io n ptr v idx s : size_ok n -> is_u32 ptr -> soft_ok s -> clean_store n ptr idx s ->
  st_fast n ptr v idx s
  = io_write n (u32 (ptr + addend (entry s idx ptr))) (wrap (8 * Z.of_nat n) v) (addr_write (entry s idx ptr)) s.
Proof using.
  intros Hn Hp (_ & _ & Ht) (Hh & Ho & Hu). unfold st_fast.
  destruct (fast_hit n ptr _) eqn:Ef.
  - destruct (Ht idx (tlb_index ptr)) as (_ & _ & Hw & _).
    destruct (fast_hit_page n ptr _ Hn Hp Hw Ef) as (H0 & _). by rewrite H0 in Ho.
  - cbn [negb st_mmu FUEL]. by rewrite Hh, Ho, Hu.
Qed.

Lemma call_notdirty sz addr v s : 0 <= sz ->
  call_write 4 sz addr v s = notdirty_mem_write (Z.to_nat (2 ^ sz)) addr v s.
Proof using Hwatch.
  intros Hsz. unfold call_write. destruct Hwatch as (k & Hk & ->).
  replace (Z.shiftr (16 * k) IO_MEM_SHIFT) with k
    by (unfold IO_MEM_SHIFT; rewrite Z.shiftr_div_pow2, Z.mul_comm by lia; by rewrite Z.div_mul).
  by rewrite (proj2 (Z.eqb_neq 4 k)) by lia.
Qed.

Lemma notdirty_bits d i : 0 <= i < 8 -> i <> 1 ->
  Z.testbit (Z.lor d (Z.land 0xff (Z.lnot CODE_DIRTY_FLAG))) i = true.
Proof using.
  intros Hi H1. rewrite Z.lor_spec.
  assert (E : i = 0 \/ i = 2 \/ i = 3 \/ i = 4 \/ i = 5 \/ i = 6 \/ i = 7) by lia.
  destruct E as [-> | [-> | [-> | [-> | [-> | [-> | ->]]]]]]; apply orb_true_r.
Qed.

Lemma notdirty_spec n addr v s :
  let a := u32 (addr - phys_ram_base) in
  let p := Z.shiftr a TARGET_PAGE_BITS in
  exists s', notdirty_mem_write n addr v s = Some (inr tt, s') /\
    phys_ram (mem s') = mem_write (phys_ram (mem s)) a (le_bytes n v) /\
    code s' = (if has (phys_ram_dirty (mem s) p) CODE_DIRTY_FLAG then code s
               else (tb_invalidate_phys_page_fast a (Z.of_nat n) (code s) (mem s)).1) /\
    (forall i, 0 <= i < 8 -> i <> 1 -> Z.testbit (phys_ram_dirty (mem s') p) i = true) /\
    (forall q, q <> p -> phys_ram_dirty (mem s') q = phys_ram_dirty (mem s) q) /\
    dev (mem s') = dev (mem s).
Proof using.
  intros a p. unfold notdirty_mem_write, modify. fold a. fold p.
  pose proof (invalidate_law a (Z.of_nat n) (code s) (mem s)) as (_ & I2 & I3 & I4). fold p in I4.
  eexists. split; [reflexivity|]. destruct (has _ CODE_DIRTY_FLAG); cbn [negb];
    [|destruct (tb_invalidate_phys_page_fast a _ _ _) as [k m]; cbn [fst snd] in *];
    (destruct (_ =? 0xff); simpl; fold a; rewrite ?I2, ?I3; unfold mem_upd; rewrite Z.eqb_refl;
     repeat (split; [done|]); (split; [apply notdirty_bits|]); (split; [|done]); intros q Hq;
     rewrite (proj2 (Z.eqb_neq q p) Hq); try done; by destruct (I4 q) as [E | [E _]]).
Qed.

(** What a store to a clean page of RAM does: if the page holds translated code, the
    code cache is told of the bytes first; then exactly the bytes of the value are
    written, every dirty flag of the page but the code flag is set, and the flags of
    the other pages and the devices stay as they are. *)
Theorem clean_store_tracked n ptr v idx s : n = 1%nat \/ n = 2%nat \/ n = 4%nat -> is_u32 ptr -> soft_ok s ->
  clean_store n ptr idx s ->
  let a := u32 (u32 (ptr + addend (entry s idx ptr)) - phys_ram_base) in
  let p := Z.shiftr a TARGET_PAGE_BITS in
  exists s', st_fast n ptr v idx s = Some (inr tt, s') /\
    phys_ram (mem s') = mem_write (phys_ram (mem s)) a (le_bytes n v) /\
    code s' = (if has (phys_ram_dirty (mem s) p) CODE_DIRTY_FLAG then code s
               else (tb_invalidate_phys_page_fast a (Z.of_nat n) (code s) (mem s)).1) /\
    (forall i, 0 <= i < 8 -> i <> 1 -> Z.testbit (phys_ram_dirty (mem s') p) i = true) /\
    (forall q, q <> p -> phys_ram_dirty (mem s') q = phys_ram_dirty (mem s) q) /\
    dev (mem s') = dev (mem s).
Proof using Hwatch.
  intros Hn Hp Hok Hc a p.
  assert (Hsz : size_ok n) by (unfold size_ok; tauto).
  rewrite (clean_store_io n ptr v idx s Hsz Hp Hok Hc). destruct Hc as (_ & Ho & _).
  unfold io_write. rewrite io_index_off, Ho. change (IO_MEM_NOTDIRTY / 16) with 4.
  assert (Hs : shift n <=? 2 = true /\ 0 <= shift n /\ Z.to_nat (2 ^ shift n) = n)
    by (destruct Hn as [-> | [-> | ->]]; done).
  destruct Hs as (Hs1 & Hs2 & Hs3). rewrite Hs1. unfold mbind, soft_bind, bindM, modify.
  set (s1 := upd mem_write_vaddr _ s). rewrite call_notdirty, Hs3 by done.
  rewrite <- (le_bytes_wrap n v).
  exact (notdirty_spec n (u32 (ptr + addend (entry s idx ptr))) (wrap (8 * Z.of_nat n) v) s1).
Qed.
(** *** Watchpoints *)

Lemma land_lxor_distr a b m : Z.land (Z.lxor a b) m = Z.lxor (Z.land a m) (Z.land b m).
Proof using.
  apply Z.bits_inj'. intros i Hi. rewrite Z.land_spec, !Z.lxor_spec, !Z.land_spec.
  by destruct (Z.testbit a i), (Z.testbit b i), (Z.testbit m i).
Qed.

Lemma lxor_page a b : page_base (Z.lxor a b) = 0 <-> page_base a = page_base b.
Proof using. unfold page_base. rewrite land_lxor_distr. apply Z.lxor_eq_0_iff. Qed.

Lemma lxor_off a b : page_off (Z.lxor a b) = 0 <-> page_off a = page_off b.
Proof using. unfold page_off. rewrite land_lxor_distr. apply Z.lxor_eq_0_iff. Qed.

(** Watchpoints of other pages than [vaddr]'s. *)
Abbreviation elsewhere vaddr := (Forall (fun p : Z * Z => page_base p.1 <> vaddr)).

Lemma watch_page_elsewhere vaddr paddr w : elsewhere vaddr w -> forall w2 address pd,
  watch_page phys_ram_base io_mem_watch vaddr paddr (w ++ w2) address pd
  = (let '(a, p, w') := watch_page phys_ram_base io_mem_watch vaddr paddr w2 address pd in (a, p, w ++ w')).
Proof using.
  induction w as [|[wv wa] w IH]; intros Hw w2 address pd; cbn [app].
  - by destruct (watch_page _ _ _ _ w2 address pd) as [[a p] w'].
  - apply Forall_cons in Hw as [H1 Hw]. cbn [watch_page]. cbn [fst] in H1.
    rewrite (proj2 (Z.eqb_neq _ _)) by congruence. rewrite IH by done.
    by destruct (watch_page _ _ _ _ w2 address pd) as [[a p] w'].
Qed.

Lemma watch_loop_elsewhere addr tlb_addr w : elsewhere (page_base tlb_addr) w -> forall w2 i r,
  watch_loop addr tlb_addr (w ++ w2) i r = watch_loop addr tlb_addr w2 (i + Z.of_nat (length w)) r.
Proof using.
  induction w as [|[wv wa] w IH]; intros Hw w2 i r; cbn [app length].
  - by rewrite Z.add_0_r.
  - apply Forall_cons in Hw as [H1 Hw]. cbn [watch_loop]. cbn [fst] in *.
    rewrite (proj2 (Z.eqb_neq _ _)) by (rewrite lxor_page; congruence).
    rewrite IH by done. f_equal. lia.
Qed.

Lemma watch_loop_step addr tlb_addr wv wa w i r : page_base tlb_addr = page_base wv ->
  watch_loop addr tlb_addr ((wv, wa) :: w) i r
  = if page_off addr =? page_off wv then (u32 (addr - wa), Some (i + 1))
    else watch_loop addr tlb_addr w (i + 1) (u32 (addr - wa)).
Proof using.
  intros H. cbn [watch_loop]. rewrite (proj2 (Z.eqb_eq (page_base (Z.lxor tlb_addr wv)) 0)) by (by rewrite lxor_page).
  destruct (Z.eqb_spec (page_off addr) (page_off wv)) as [E|E].
  - by rewrite (proj2 (Z.eqb_eq _ _)) by (by rewrite lxor_off).
  - by rewrite (proj2 (Z.eqb_neq _ _)) by (by rewrite lxor_off).
Qed.

(** The store of [ptr] through the entry of its page, which has watchpoints: the host
    address, and the tag that [io_write] puts in [mem_write_vaddr]. *)
Definition watched_store (s : soft) (paddr prot idx : Z) (w : list (Z * Z)) (ptr : Z) : Z * option Z :=
  let '(w', t) := tlb_set_page_exec phys_ram_base io_mem_watch (page_base ptr) paddr prot idx w
                    (tlb_table s) (mem s) in
  let e := t idx (tlb_index ptr) in
  let h := u32 (ptr + addend e) in
  watch_loop h (addr_write e) w' 0 h.

(** RAM, mapped for writing. *)
Definition ram_fill (s : soft) (paddr prot : Z) : Prop :=
  is_u32 (page_desc paddr (mem s)) /\ page_off (page_desc paddr (mem s)) = IO_MEM_RAM /\
  page_off paddr = 0 /\ has prot PAGE_WRITE = true.

Lemma watched_store_eq s paddr prot idx w1 wv wa w2 ptr : is_u32 ptr -> ram_fill s paddr prot ->
  elsewhere (page_base ptr) w1 -> page_base wv = page_base ptr ->
  let pd := page_desc paddr (mem s) in
  let h := u32 (ptr + (phys_ram_base + pd - page_base ptr)) in
  let w2' := (watch_page phys_ram_base io_mem_watch (page_base ptr) paddr w2 (page_base ptr)
                (watched io_mem_watch pd)).2 in
  exists tag, page_base tag = page_base ptr /\ page_off h = page_off ptr /\
  watched_store s paddr prot idx (w1 ++ (wv, wa) :: w2) ptr
  = watch_loop h tag ((wv, u32 (pd - paddr + phys_ram_base)) :: w2') (Z.of_nat (length w1)) h.
Proof using Hbase Hwatch.
  intros Hp (Hu & Ho & Hpo & Hprot) H1 Hv pd. unfold watched_store, tlb_set_page_exec. fold pd in Hu, Ho |- *.
  assert (Ep : page_base pd = pd) by (destruct (page_split pd Hu) as (Es & _); unfold IO_MEM_RAM in Ho; lia).
  assert (Et : page_target phys_ram_base (page_base ptr) paddr pd = (page_base ptr, u32 (phys_ram_base + pd)))
    by (unfold page_target; by rewrite Ho, Ep).
  rewrite Et, watch_page_elsewhere by done. cbn [watch_page].
  rewrite Hv, Z.eqb_refl. rewrite page_off_base. cbn [truth Z.eqb negb]. fold (watched io_mem_watch pd).
  destruct (watch_page_spec phys_ram_base io_mem_watch (page_base ptr) paddr w2 Hwatch (page_off_base ptr)
    (page_base ptr) (watched io_mem_watch pd)) as [Hs _]. specialize (Hs (page_off_base ptr)).
  destruct (watch_page _ _ _ _ w2 _ _) as [[a p] w2']. cbn [fst snd] in *. destruct Hs as [-> _].
  unfold upd_entry. rewrite tlb_index_base, !Z.eqb_refl. cbn [andb].
  unfold fill_entry. cbn [addend addr_write]. rewrite Hprot.
  set (wt := write_tag _ _ _ _). assert (Hwt : page_base wt = page_base ptr)
    by (apply write_tag_base; apply page_base_base).
  exists wt. split; [done|].
  assert (Eh : u32 (ptr + u32 (u32 (phys_ram_base + pd) - page_base ptr))
             = u32 (ptr + (phys_ram_base + pd - page_base ptr))).
  { unfold Z.sub. by rewrite u32_add, !(Z.add_comm ptr), u32_add. }
  rewrite Eh. split.
  - rewrite page_off_mod, u32_page, (page_off_mod ptr).
    rewrite <- Zplus_mod_idemp_r. unfold base_ok in Hbase.
    assert (E0 : (phys_ram_base + pd - page_base ptr) mod 4096 = 0).
    { rewrite Zminus_mod, Zplus_mod, Hbase, page_base_mod. rewrite <- Ep, page_base_mod. done. }
    by rewrite E0, Z.add_0_r.
  - rewrite watch_loop_elsewhere by (by rewrite Hwt). done.
Qed.

Lemma watch_back pd paddr ptr x : is_u32 ptr ->
  u32 (u32 (ptr + (phys_ram_base + pd - page_base ptr)) - u32 (pd + x - paddr + phys_ram_base))
  = u32 (paddr + page_off ptr - x).
Proof using.
  intros Hp. destruct (page_split ptr Hp) as (Es & _). unfold u32, wrap.
  rewrite Zminus_mod_idemp_l, Zminus_mod_idemp_r. f_equal. lia.
Qed.

Lemma lor_add a b : Z.land a b = 0 -> Z.lor a b = a + b.
Proof using. intros H. rewrite Z.add_nocarry_lxor by done. symmetry. by apply Z.lxor_lor. Qed.

Lemma page_land_small a x : 0 <= x < 4096 -> Z.land (page_base a) x = 0.
Proof using.
  intros Hx. destruct (page_off_small x Hx) as [_ Hb]. unfold page_base in *.
  by rewrite <- Z.land_assoc, (Z.land_comm _ x), Hb, Z.land_0_r.
Qed.

Lemma romd_land k : 0 <= k -> Z.land (16 * k) IO_MEM_ROMD = 0.
Proof using.
  intros Hk. change IO_MEM_ROMD with (Z.ones 1). rewrite Z.land_ones by lia.
  replace (16 * k) with (8 * k * 2 ^ 1) by lia. by apply Z_mod_mult.
Qed.

(** One watchpoint on a page of RAM: the store that its callback passes on goes to the
    physical address the page tables give, whether or not the watchpoint is hit, and it
    is hit exactly by a store to the watched address. *)
Theorem watchpoint_store_address s paddr prot idx w1 wv wa w2 ptr : is_u32 ptr -> ram_fill s paddr prot ->
  elsewhere (page_base ptr) w1 -> elsewhere (page_base ptr) w2 -> page_base wv = page_base ptr ->
  watched_store s paddr prot idx (w1 ++ (wv, wa) :: w2) ptr
  = (u32 (paddr + page_off ptr),
     if page_off ptr =? page_off wv then Some (Z.of_nat (length w1) + 1) else None).
Proof using Hbase Hwatch.
  intros Hp Hf H1 H2 Hv.
  destruct (watched_store_eq s paddr prot idx w1 wv wa w2 ptr Hp Hf H1 Hv) as (tg & Ht & Ho & ->).
  rewrite watch_loop_step by congruence. rewrite Ho.
  set (pd := page_desc paddr (mem s)). pose proof (watch_back pd paddr ptr 0 Hp) as Hb.
  rewrite Z.add_0_r, Z.sub_0_r in Hb. rewrite Hb.
  destruct (page_off ptr =? page_off wv); [done|].
  pose proof (watch_page_elsewhere (page_base ptr) paddr w2 H2 [] (page_base ptr) (watched io_mem_watch pd)) as Hw.
  rewrite app_nil_r in Hw. cbn [watch_page] in Hw. rewrite Hw. cbn [snd].
  rewrite watch_loop_elsewhere by (by rewrite Ht). done.
Qed.

(** Two watchpoints on a page of RAM: a store that does not hit the first one is passed
    on to the wrong physical address, the number of the watchpoints' I/O zone (and
    [IO_MEM_ROMD]) below the right one: the addend of the second watchpoint is computed
    from the page descriptor the first one has changed. *)
Theorem second_watchpoint_misdirects s paddr prot idx w1 wv wa wv2 wa2 ptr : is_u32 ptr ->
  ram_fill s paddr prot -> elsewhere (page_base ptr) w1 ->
  page_base wv = page_base ptr -> page_base wv2 = page_base ptr -> page_off ptr <> page_off wv ->
  (watched_store s paddr prot idx (w1 ++ [(wv, wa); (wv2, wa2)]) ptr).1
  = u32 (paddr + page_off ptr - (io_mem_watch + IO_MEM_ROMD)).
Proof using Hbase Hwatch.
  intros Hp Hf H1 Hv Hv2 Hne.
  destruct (watched_store_eq s paddr prot idx w1 wv wa [(wv2, wa2)] ptr Hp Hf H1 Hv) as (tg & Ht & Ho & ->).
  rewrite watch_loop_step by congruence. rewrite Ho, (proj2 (Z.eqb_neq _ _)) by done.
  set (pd := page_desc paddr (mem s)). destruct Hf as (Hu & Hram & _). fold pd in Hu, Hram.
  cbn [watch_page]. rewrite Hv2, Z.eqb_refl, page_off_base. cbn [truth Z.eqb negb snd].
  assert (Ew : watched io_mem_watch pd = pd + (io_mem_watch + IO_MEM_ROMD)).
  { destruct (page_split pd Hu) as (Es & _). unfold IO_MEM_RAM in Hram. rewrite Hram, Z.add_0_r in Es.
    unfold watched. rewrite <- Es. destruct Hwatch as (k & Hk & ->).
    rewrite <- Z.lor_assoc, (lor_add (16 * k)) by (apply romd_land; lia).
    rewrite lor_add; [done|]. rewrite Es. apply page_land_small. unfold IO_MEM_ROMD. lia. }
  rewrite watch_loop_step by congruence. rewrite Ew.
  destruct (_ =? _); cbn [fst watch_loop]; rewrite watch_back by done; done.
Qed.
End Softmmu.

(** ** A concrete machine

    The flat memory of [Mmu.flat_phys], all of whose pages are clean, an empty TLB, and a
    code cache that keeps a log of what it is told and never has code. *)

Definition log_cache (start len : Z) (k : list (Z * Z)) (s : phys (D := unit)) : list (Z * Z) * phys :=
  let p := Z.shiftr start TARGET_PAGE_BITS in
  ((start, len) :: k,
   s <| phys_ram_dirty := mem_upd (phys_ram_dirty s) p (Z.lor (phys_ram_dirty s p) CODE_DIRTY_FLAG) |>).

#[export] Instance log_code_cache : CodeCache (list (Z * Z)) unit.
Proof.
  refine {| tb_invalidate_phys_page_fast := log_cache |}.
  intros start len k s. cbn. repeat (split; [done|]). intros p. unfold mem_upd.
  destruct (Z.eqb_spec p (Z.shiftr start TARGET_PAGE_BITS)) as [->|]; auto.
Defined.

Definition sample_base : Z := 0x40000000.
Definition sample_watch : Z := 0x50.

Definition sample_soft : soft (D := unit) (K := list (Z * Z)) :=
  mkSoft flat_cpu flat_phys (fun _ _ => mkEntry INVALID INVALID INVALID 0) 0 [] 0 [].

Lemma sample_watch_ok : watch_ok sample_watch.
Proof. exists 5. split; [lia|done]. Qed.

Lemma sample_base_ok : base_ok sample_base.
Proof. done. Qed.

Lemma flat_map_ok : map_ok flat_phys.
Proof.
  intros a. unfold page_desc, phys_page_find, phys_page_find_alloc. cbn [flat_phys l1_phys_map snd].
  set (q := Z.shiftr a TARGET_PAGE_BITS). unfold L1_SIZE, L2_SIZE. change (1024 - 1) with (Z.ones 10).
  rewrite !Z.land_ones by lia. change (2 ^ 10) with 1024.
  pose proof (Z.mod_pos_bound q 1024 ltac:(lia)). pose proof (Z.mod_pos_bound (Z.shiftr q L2_BITS) 1024 ltac:(lia)).
  rewrite lookup_pages_from by lia. rewrite Z2Nat.id by lia.
  set (d := _ + _). assert (Hd : d mod 4096 = 0).
  { unfold d. rewrite Zplus_mod, Z_mod_mult. replace 4194304 with (1024 * 4096) by done.
    by rewrite Z.mul_assoc, Z_mod_mult. }
  assert (Ho : page_off d = 0) by (by rewrite page_off_mod).
  split; [unfold in_width; lia|]. split; [apply page_off_bit; [lia|done]|by left].
Qed.

Lemma sample_soft_ok : soft_ok sample_base (l1_phys_map flat_phys) sample_soft.
Proof.
  split; [split; [done|exact flat_map_ok]|]. split; [intros p; unfold in_width; cbn; lia|].
  intros m i. split; [done|]. split; [split; apply invalid_rok|]. split; [apply invalid_ok|done].
Qed.

Abbreviation sample_ld := (ld_fast no_read no_write sample_base sample_watch).
Abbreviation sample_st := (st_fast no_read no_write sample_base sample_watch).
Abbreviation sample_run := (run no_read no_write sample_base sample_watch).

(** A word of the page [0x1000], which is mapped, and one of a page that is not. *)
Example sample_load :
  fst <$> sample_ld 4 0 0x1ffe 1 sample_soft = Some (inr 0x12345678) /\
  fst <$> sample_ld 4 0 0x7ffe 1 sample_soft = Some (inl (14, 4)).
Proof. by vm_compute. Qed.

Lemma guest_access_total_witness :
  exists r s', sample_ld 4 0 0x1ffe 1 sample_soft = Some (r, s') /\ soft_ok sample_base (l1_phys_map flat_phys) s'.
Proof.
  apply (guest_access_total no_read no_write sample_base sample_watch sample_watch_ok sample_base_ok (l1_phys_map flat_phys)
    4 0x1ffe 0 1 sample_soft); [unfold size_ok; auto|unfold in_width; lia|exact sample_soft_ok].
Defined.

Lemma fast_path_agrees_witness :
  sample_st 4 0x1ff0 7 1 sample_soft = st_mmu no_read no_write sample_base sample_watch FUEL 4 0x1ff0 (wrap 32 7) 1 sample_soft.
Proof.
  apply (fast_path_agrees no_read no_write sample_base sample_watch (l1_phys_map flat_phys) 4 0x1ff0 7 1 sample_soft);
    [unfold size_ok; auto|unfold in_width; lia|exact sample_soft_ok].
Defined.

(** A store to the clean page: the second one takes the fast path. *)
Definition sample_ops : list soft_op := [Store 4 0x1230 0xabcd 1].

Lemma fast_store_all_dirty_witness : exists s, sample_run sample_ops sample_soft = Some s /\
  fast_hit 4 0x1ff0 (addr_write (tlb_table s 1 1)) = true /\ phys_ram_dirty (mem s) 5 = 0xff.
Proof.
  destruct (sample_run sample_ops sample_soft) as [s|] eqn:E.
  - assert (G : match sample_run sample_ops sample_soft with
      | Some s => fast_hit 4 0x1ff0 (addr_write (tlb_table s 1 1)) &&
                  (addend (tlb_table s 1 1) =? 0x40004000) | None => false end = true) by (by vm_compute).
    rewrite E in G. apply andb_true_iff in G as [G1 G2]. apply Z.eqb_eq in G2.
    exists s. split; [reflexivity|]. split; [exact G1|].
    assert (Hops : Forall op_ok sample_ops).
    { constructor; [|constructor]. split; [unfold size_ok; auto|unfold in_width; lia]. }
    pose proof (fast_store_all_dirty no_read no_write sample_base sample_watch sample_watch_ok sample_base_ok (l1_phys_map flat_phys)
      sample_ops sample_soft s 4 0x1ff0 1 sample_soft_ok Hops E ltac:(unfold size_ok; auto)
      ltac:(unfold in_width; lia) G1 0 ltac:(lia)) as H.
    change (tlb_index 0x1ff0) with 1 in H. rewrite G2 in H. exact H.
  - assert (G : match sample_run sample_ops sample_soft with Some _ => true | None => false end = true)
      by (by vm_compute).
    rewrite E in G. discriminate G.
Defined.

(** The page after a load and a store have been filled, made clean again. *)
Lemma clean_store_tracked_witness : exists s s', sample_run [Store 4 0x1230 1 1; ResetDirty 0x5000 0x6000 3] sample_soft = Some s /\
  sample_st 2 0x1ff0 0xabcd 1 s = Some (inr tt, s') /\ code s' = (0x5ff0, 2) :: code s.
Proof.
  set (ops := [Store 4 0x1230 1 1; ResetDirty 0x5000 0x6000 3]).
  assert (Hops : Forall op_ok ops).
  { constructor; [split; [unfold size_ok; auto|unfold in_width; lia]|].
    constructor; [split; unfold in_width; lia|constructor]. }
  destruct (run_ok no_read no_write sample_base sample_watch sample_watch_ok sample_base_ok (l1_phys_map flat_phys) ops sample_soft
    Hops sample_soft_ok) as (s & E & Hok).
  assert (G : match sample_run ops sample_soft with
    | Some s => tlb_hit 0x1ff0 (addr_write (tlb_table s 1 1)) && (page_off (addr_write (tlb_table s 1 1)) =? 64) &&
                (addend (tlb_table s 1 1) =? 0x40004000) && (phys_ram_dirty (mem s) 5 =? 0xfc)
    | None => false end = true) by (by vm_compute).
  rewrite E in G. apply andb_true_iff in G as [G G4]. apply andb_true_iff in G as [G G3].
  apply andb_true_iff in G as [G1 G2]. apply Z.eqb_eq in G2, G3, G4.
  destruct (clean_store_tracked no_read no_write sample_base sample_watch sample_watch_ok (l1_phys_map flat_phys)
    2 0x1ff0 0xabcd 1 s ltac:(auto) ltac:(unfold in_width; lia) Hok) as (s' & E1 & _ & E2 & _).
  { split; [exact G1|]. split; [exact G2|reflexivity]. }
  exists s, s'. split; [exact E|]. split; [exact E1|]. change (tlb_index 0x1ff0) with 1 in E2.
  rewrite G3 in E2. change (Z.shiftr (u32 (u32 (0x1ff0 + 0x40004000) - sample_base)) TARGET_PAGE_BITS) with 5 in E2.
  rewrite G4 in E2. exact E2.
Defined.

Lemma sample_fill : ram_fill sample_soft 0x5000 7.
Proof. split; [unfold in_width; by vm_compute|]. split; [by vm_compute|]. split; by vm_compute. Qed.

Lemma watchpoint_store_address_witness :
  watched_store sample_base sample_watch sample_soft 0x5000 7 1 [(0x7010, 0); (0x1010, 0)] 0x1010 = (0x5010, Some 2).
Proof.
  apply (watchpoint_store_address sample_base sample_watch sample_watch_ok sample_base_ok sample_soft 0x5000 7 1
    [(0x7010, 0)] 0x1010 0 [] 0x1010); [unfold in_width; lia|exact sample_fill| | |reflexivity].
  - constructor; [by vm_compute|constructor].
  - constructor.
Defined.

Lemma second_watchpoint_misdirects_witness :
  (watched_store sample_base sample_watch sample_soft 0x5000 7 1 [(0x1010, 0); (0x1020, 0)] 0x1100).1 = 0x50af.
Proof.
  apply (second_watchpoint_misdirects sample_base sample_watch sample_watch_ok sample_base_ok sample_soft 0x5000 7 1
    [] 0x1010 0 0x1020 0 0x1100); [unfold in_width; lia|exact sample_fill| |reflexivity|reflexivity|by vm_compute].
  constructor.
Defined.

End Softmmu.
