(* ===== verification/MipsTlb.v ===== *)
(** * The TLB of the MIPS target

    What the TLB instructions, the misses and the exceptions of [Mips] guarantee: the
    software TLB agrees with the MMU, the shadow entries cannot be observed, a refill
    resolves a miss, an entry written can be read back, an exception returns, and MemCheck
    reads the bytes the guest would load. *)

From S2P Require Import Prelude Bytes PhysMem Mmu Tlb Softmmu Mips.
Import PhysMem Mmu Tlb Mips.

Module MipsTlb.

(** ** The pages of an entry

    The page mask of a well formed entry is a block of ones: each of its two pages has
    [2 ^ k] bytes. *)

Definition page_shift (e : r4k_tlb_t) (k : Z) : Prop :=
  12 <= k <= 28 /\ tlb_mask e = Z.ones (k + 1).

Definition entry_wf (e : r4k_tlb_t) : Prop :=
  (exists k, page_shift e k) /\ is_u32 (VPN e) /\ Z.land (VPN e) 0xff = 0 /\ is_u8 (ASID e) /\
  (is_u32 (PFN0 e) /\ PFN0 e mod 4096 = 0) /\ (is_u32 (PFN1 e) /\ PFN1 e mod 4096 = 0).

Section Geometry.
Context (e : r4k_tlb_t) (k : Z) (Hk : page_shift e k).

Lemma land_mask x : Z.land x (Z.lnot (tlb_mask e)) = 2 ^ (k + 1) * (x / 2 ^ (k + 1)).
Proof using Hk.
  destruct Hk as [H ->]. fold (Z.ldiff x (Z.ones (k + 1))).
  rewrite <- Z.ldiff_land, Z.ldiff_ones_r, Z.shiftl_mul_pow2, Z.shiftr_div_pow2 by lia. lia.
Qed.

Lemma mask_half : Z.shiftr (tlb_mask e) 1 = Z.ones k.
Proof using Hk.
  destruct Hk as [H ->]. apply Z.bits_inj'. intros i Hi.
  rewrite Z.shiftr_spec by lia. destruct (Z.ltb_spec i k).
  - by rewrite !Z.ones_spec_low by lia.
  - by rewrite !Z.ones_spec_high by lia.
Qed.

Lemma odd_page_bit a : 0 <= a -> odd_page a e = Z.testbit a k.
Proof using Hk.
  intros Ha. unfold odd_page. rewrite mask_half. destruct Hk as [H ->].
  replace (Z.land _ _) with (Z.land a (Z.shiftl 1 k)); [by apply truth_land_bit; lia|].
  apply Z.bits_inj'. intros i Hi. rewrite !Z.land_spec, Z.lnot_spec, testbit_shiftl1 by lia.
  destruct (Z.testbit a i); [|done]. cbn [andb]. case_bool_decide as E.
  - subst. by rewrite Z.ones_spec_low, Z.ones_spec_high by lia.
  - destruct (decide (i < k)); [by rewrite !Z.ones_spec_low by lia|].
    by rewrite !Z.ones_spec_high by lia.
Qed.

Lemma tlb_match_div asid a : tlb_match asid a e =
  ((G e =? 1) || (ASID e =? asid)) && (VPN e / 2 ^ (k + 1) =? a / 2 ^ (k + 1)).
Proof using Hk.
  unfold tlb_match. rewrite !land_mask. f_equal.
  assert (0 < 2 ^ (k + 1)) by (apply Z.pow_pos_nonneg; destruct Hk; lia).
  apply eq_true_iff_eq. rewrite !Z.eqb_eq. nia.
Qed.

(** The addresses the loops flush. *)
Abbreviation base := (2 ^ (k + 1) * (VPN e / 2 ^ (k + 1))).

Lemma lor_low b n x : 0 <= x < 2 ^ n -> Z.lor (2 ^ n * b) x = 2 ^ n * b + x.
Proof using.
  intros Hx. destruct (decide (0 <= n)); [|rewrite Z.pow_neg_r in Hx by lia; lia].
  assert (E : Z.land (2 ^ n * b) x = 0).
  { rewrite <- (Z.mod_small x (2 ^ n)), <- Z.land_ones by lia.
    rewrite (Z.land_comm x), Z.land_assoc, Z.land_ones, Z.mul_comm, Z.mod_mul by lia. done. }
  by rewrite Z.add_nocarry_lxor, Z.lxor_lor.
Qed.

Lemma entry_pages :
  even_start e = base /\ even_end e = base + 2 ^ k - 1 /\
  odd_start e = base + 2 ^ k /\ odd_end e = base + 2 ^ (k + 1) - 1.
Proof using Hk.
  pose proof mask_half as Hm. pose proof (land_mask (VPN e)) as Hb. destruct Hk as [H E].
  assert (P : 2 ^ (k + 1) = 2 * 2 ^ k) by (rewrite Z.pow_add_r by lia; lia).
  assert (0 < 2 ^ k) by lia.
  assert (Ho : odd_start e = base + 2 ^ k).
  { unfold odd_start. rewrite Hb, Hm, Z.ones_equiv. replace (Z.pred _ + 1) with (2 ^ k) by lia.
    apply lor_low. lia. }
  split; [exact Hb|]. split; [|split; [exact Ho|]].
  - unfold even_end, even_start. rewrite Hb, Hm, Z.ones_equiv, lor_low by lia. lia.
  - unfold odd_end. rewrite Ho, <- lor_low, <- Z.lor_assoc, E by lia.
    replace (Z.lor (2 ^ k) (Z.ones (k + 1))) with (Z.ones (k + 1)).
    + rewrite Z.ones_equiv, lor_low by lia. lia.
    + symmetry. apply Z.bits_inj'. intros i Hi. rewrite Z.lor_spec.
      destruct (decide (i < k + 1)); [by rewrite Z.ones_spec_low, orb_true_r by lia|].
      rewrite Z.pow2_bits_false by lia. done.
Qed.

(** Pages, pairs and the address space as multiples of 4 KB. *)
Lemma page_grid : exists c t, 0 < c /\ 2 ^ k = 4096 * c /\ 2 ^ (k + 1) = 2 * (4096 * c) /\
  2 ^ 32 = 2 * (4096 * c) * t /\ forall x, is_u32 x -> 0 <= x / (2 * (4096 * c)) < t.
Proof using Hk.
  destruct Hk as [H _].
  assert (P : 2 ^ (k + 1) = 2 * 2 ^ k) by (rewrite Z.pow_add_r by lia; lia).
  assert (C : 2 ^ k = 4096 * 2 ^ (k - 12)).
  { change 4096 with (2 ^ 12). rewrite <- Z.pow_add_r by lia. f_equal. lia. }
  assert (T : 2 ^ 32 = 2 ^ (k + 1) * 2 ^ (31 - k)).
  { rewrite <- Z.pow_add_r by lia. f_equal. lia. }
  assert (0 < 2 ^ (k - 12)) by lia.
  exists (2 ^ (k - 12)), (2 ^ (31 - k)). rewrite <- C, <- P. repeat split; try done.
  - apply Z.div_pos; unfold in_width in *; lia.
  - apply Z.div_lt_upper_bound; [lia|]. rewrite <- T. unfold in_width in *. lia.
Qed.

Lemma grid_mod x y : x = 4096 * y -> x mod 4096 = 0.
Proof using. intros ->. rewrite Z.mul_comm. by apply Z.mod_mul. Qed.

Lemma grid_last x y : x = 4096 * y - 1 -> x mod 4096 = 4095.
Proof using. intros ->. symmetry. apply (Z.mod_unique _ _ (y - 1)); lia. Qed.

(** The half of a pair an address is in. *)
Lemma half_cases a : 0 <= a -> exists r : Z, a = 2 ^ (k + 1) * (a / 2 ^ (k + 1)) + r /\
  if Z.testbit a k then 2 ^ k <= r < 2 * 2 ^ k else 0 <= r < 2 ^ k.
Proof using Hk.
  intros Ha. destruct page_grid as (c & t & Hc & E1 & E2 & _). destruct Hk as [H _].
  pose proof (Z.testbit_spec' a k ltac:(lia)) as Hb. rewrite E1, E2 in *.
  set (h := 4096 * c) in *. assert (0 < h) by lia. clearbody h. clear E1 E2 c Hc.
  pose proof (Z.div_mod a (2 * h) ltac:(lia)) as Hd.
  pose proof (Z.mod_pos_bound a (2 * h) ltac:(lia)) as Hr.
  exists (a mod (2 * h)). split; [done|]. set (q := a / (2 * h)) in *. set (r := a mod (2 * h)) in *.
  assert (Hq : a / h = r / h + q * 2).
  { rewrite Hd. replace (2 * h * q + r) with (r + (q * 2) * h) by lia. by rewrite Z.div_add by lia. }
  rewrite Hq, Z.mod_add in Hb by lia. clearbody q r.
  destruct (decide (r < h)) as [D|D].
  - rewrite Z.div_small in Hb by lia. destruct (Z.testbit a k); [done|lia].
  - rewrite <- (Z.div_unique r h 1 (r - h)) in Hb by lia. destruct (Z.testbit a k); [lia|done].
Qed.

(** A page an entry matches is one of its halves, inside the range the loop flushes. *)
Lemma match_range asid a : is_u32 a -> page_off a = 0 -> tlb_match asid a e = true ->
  let n := odd_page a e in
  let lo := if n then odd_start e else even_start e in
  let hi := if n then odd_end e else even_end e in
  lo <= a < hi /\ (a - lo) mod 4096 = 0.
Proof using Hk.
  rewrite page_off_mod, tlb_match_div, andb_true_iff, Z.eqb_eq. intros Ha H0 [_ Hq].
  assert (Ha0 : 0 <= a) by (unfold in_width in Ha; lia). rewrite odd_page_bit by done.
  destruct (half_cases a Ha0) as (r & Hr & Hb). destruct entry_pages as (-> & -> & -> & ->).
  destruct page_grid as (c & t & Hc & E1 & E2 & _). rewrite Hq, E1, E2 in *. clear Hq.
  apply Z.mod_divide in H0 as [a' Ha']; [|lia]. set (q := a / _) in *. clearbody q.
  destruct (Z.testbit a k); cbn zeta; (split; [lia|]).
  - apply (grid_mod _ (a' - 2 * c * q - c)). lia.
  - apply (grid_mod _ (a' - 2 * c * q)). lia.
Qed.

(** The ranges of the loops. *)
Lemma entry_ranges : is_u32 (VPN e) ->
  (is_u32 (even_start e) /\ page_off (even_start e) = 0 /\ is_u32 (even_end e) /\
   even_end e <= 2 ^ 32 - 4096) /\
  (is_u32 (odd_start e) /\ page_off (odd_start e) = 0 /\ is_u32 (odd_end e) /\
   (odd_end e = 2 ^ 32 - 1 \/ odd_end e <= 2 ^ 32 - 4096)).
Proof using Hk.
  intros Hv. destruct entry_pages as (-> & -> & -> & ->). rewrite !page_off_mod.
  destruct page_grid as (c & t & Hc & E1 & E2 & E3 & Hq). specialize (Hq _ Hv). unfold in_width in *.
  rewrite E1, E2, E3 in *. set (q := VPN e / _) in *. clearbody q.
  assert (H : 2 * (4096 * c) * q + 2 * (4096 * c) <= 2 * (4096 * c) * t) by nia.
  assert (0 <= 2 * (4096 * c) * q) by nia.
  assert (q = t - 1 \/ 2 * (4096 * c) * q + 2 * (2 * (4096 * c)) <= 2 * (4096 * c) * t) by nia.
  rewrite (grid_mod _ (2 * c * q)), (grid_mod _ (2 * c * q + c)) by lia. repeat split; try lia.
Qed.
End Geometry.

(** ** Flushed pages *)

(** The entry caches the page [a]: the test of [tlb_flush_entry]. *)
Definition caches (e : CPUTLBEntry) (a : Z) : bool :=
  (a =? tag (addr_read e)) || (a =? tag (addr_write e)) || (a =? tag (addr_code e)).

Definition page_addr (a : Z) : Prop := is_u32 a /\ page_off a = 0.

(** No mode of the software TLB caches the page. *)
Definition uncached (t : tlb) (a : Z) : Prop :=
  forall m, 0 <= m < NB_MMU_MODES -> caches (t m (tlb_index a)) a = false.

(** Entries have only been invalidated. *)
Definition only_flushed (t t' : tlb) : Prop := forall m i, t' m i = t m i \/ t' m i = invalidate (t m i).

#[export] Instance only_flushed_preorder : PreOrder only_flushed.
Proof.
  split; [by left|]. intros t1 t2 t3 H1 H2 m i.
  destruct (H2 m i) as [-> | ->], (H1 m i) as [-> | ->]; auto.
Qed.

Lemma page_addr_base a : page_addr a -> page_base a = a.
Proof. intros [Ha H0]. destruct (page_split a Ha). lia. Qed.

Lemma page_base_addr a : is_u32 a -> page_addr (page_base a).
Proof. intros Ha. split; [by apply land_width_l|apply page_off_base]. Qed.

Lemma tag_invalid a : page_addr a -> a =? tag INVALID = false.
Proof.
  intros [_ H0]. apply Z.eqb_neq. intros ->. vm_compute in H0. done.
Qed.

Lemma caches_invalid e a : page_addr a -> caches (invalidate e) a = false.
Proof. intros Ha. unfold caches. cbn. by rewrite !(tag_invalid a). Qed.

Lemma flushed_caches t t' m a : only_flushed t t' -> page_addr a ->
  caches (t' m (tlb_index a)) a = true -> t' m (tlb_index a) = t m (tlb_index a).
Proof.
  intros Hs Ha. destruct (Hs m (tlb_index a)) as [-> | ->]; [done|]. by rewrite caches_invalid.
Qed.

Lemma uncached_mono t t' a : only_flushed t t' -> page_addr a -> uncached t a -> uncached t' a.
Proof.
  intros Hs Ha Hu m Hm. destruct (caches (t' m _) a) eqn:E; [|done].
  rewrite (flushed_caches t t') in E by done. by rewrite Hu in E.
Qed.

Lemma upd_entry_flushed m i a t : only_flushed t (upd_entry m i (tlb_flush_entry a) t).
Proof.
  intros m' i'. unfold upd_entry, tlb_flush_entry. split_ifs; auto.
Qed.

Lemma flush_page_only addr t : only_flushed t (mips_flush_page addr t).
Proof.
  unfold mips_flush_page. etransitivity; [apply upd_entry_flushed|].
  etransitivity; apply upd_entry_flushed.
Qed.

Lemma upd_entry_uncached m i a t : page_addr a -> i = tlb_index a ->
  caches (upd_entry m i (tlb_flush_entry a) t m i) a = false.
Proof.
  intros Ha ->. unfold upd_entry. rewrite !Z.eqb_refl. cbn [andb]. unfold tlb_flush_entry.
  fold (caches (t m (tlb_index a)) a).
  destruct (caches (t m (tlb_index a)) a) eqn:E; [by apply caches_invalid|done].
Qed.

Lemma flush_page_uncached a t : page_addr a -> uncached (mips_flush_page a t) a.
Proof.
  intros Ha m Hm. unfold mips_flush_page.
  change (Z.land a TARGET_PAGE_MASK) with (page_base a). rewrite page_addr_base by done.
  destruct (caches _ a) eqn:E; [|done].
  assert (C : forall t n, m = n -> caches (upd_entry n (tlb_index a) (tlb_flush_entry a) t m (tlb_index a)) a = false)
    by (intros ? ? ->; by apply upd_entry_uncached).
  unfold NB_MMU_MODES in Hm.
  destruct (decide (m = 2)); [by rewrite C in E|].
  rewrite (flushed_caches _ _ _ _ (upd_entry_flushed 2 _ _ _) Ha E) in E.
  destruct (decide (m = 1)); [by rewrite C in E|].
  rewrite (flushed_caches _ _ _ _ (upd_entry_flushed 1 _ _ _) Ha E) in E. rewrite C in E; [done|lia].
Qed.

Lemma flush_pages_only fuel : forall addr stop t t', flush_pages fuel addr stop t = Some t' ->
  only_flushed t t'.
Proof.
  induction fuel as [|fuel IH]; intros addr stop t t'; cbn [flush_pages]; destruct (addr <? stop);
    try done; try (by intros [= <-]).
  intros H. etransitivity; [apply (flush_page_only addr)|by eapply IH].
Qed.

Lemma flush_pages_uncached fuel : forall addr stop t t' a, flush_pages fuel addr stop t = Some t' ->
  page_addr addr -> is_u32 stop -> addr <= a < stop -> (a - addr) mod 4096 = 0 -> uncached t' a.
Proof.
  induction fuel as [|fuel IH]; intros addr stop t t' a; cbn [flush_pages];
    destruct (Z.ltb_spec addr stop); try done; try lia.
  intros Hf Haddr Hs Ha Hm. destruct (decide (a = addr)) as [->|Hne].
  - eapply uncached_mono; [by eapply flush_pages_only|done|by apply flush_page_uncached].
  - destruct Haddr as [Hu H0]. rewrite page_off_mod in H0. unfold in_width in *.
    apply Z.mod_divide in Hm as [q Hq]; [|lia].
    eapply (IH _ _ _ _ a Hf).
    + split; [apply wrap_range; lia|]. rewrite page_off_mod. unfold u32, wrap, TARGET_PAGE_SIZE.
      rewrite (Z.mod_small (addr + 4096)) by lia. by rewrite Z.add_mod, H0 by lia.
    + done.
    + unfold u32, wrap, TARGET_PAGE_SIZE. rewrite (Z.mod_small (addr + 4096)) by lia. lia.
    + unfold u32, wrap, TARGET_PAGE_SIZE. rewrite (Z.mod_small (addr + 4096)) by lia.
      replace (a - (addr + 4096)) with ((q - 1) * 4096) by lia. by apply Z.mod_mul.
Qed.

(** The loop ends when its end is at least a page below 4 GB, and never otherwise: the
    address wraps around. *)
Lemma flush_pages_total fuel : forall addr stop t, 0 <= addr -> stop <= 2 ^ 32 - 4096 ->
  (stop - addr) / 4096 < Z.of_nat fuel -> exists t', flush_pages fuel addr stop t = Some t'.
Proof.
  induction fuel as [|fuel IH]; intros addr stop t Ha Hs Hf; cbn [flush_pages].
  - destruct (Z.ltb_spec addr stop); [|eauto]. assert (0 <= (stop - addr) / 4096) by (apply Z.div_pos; lia). lia.
  - destruct (Z.ltb_spec addr stop); [|eauto]. apply IH.
    + apply wrap_range. lia.
    + done.
    + unfold u32, wrap, TARGET_PAGE_SIZE. rewrite (Z.mod_small (addr + 4096)) by lia.
      replace (stop - (addr + 4096)) with (stop - addr + -1 * 4096) by lia. rewrite Z.div_add by lia. lia.
Qed.

Lemma flush_pages_loops fuel : forall addr stop t, page_addr addr -> 2 ^ 32 - 4096 < stop ->
  flush_pages fuel addr stop t = None.
Proof.
  assert (E : 2 ^ 32 = 4096 * 1048576) by done.
  induction fuel as [|fuel IH]; intros addr stop t [Ha H0] Hs; cbn [flush_pages];
    rewrite page_off_mod in H0; unfold in_width in Ha;
    (destruct (Z.ltb_spec addr stop) as [|Hge]; [|apply Z.mod_divide in H0 as [q ->]; lia]); [done|].
  apply IH; [|done]. split; [apply wrap_range; lia|].
  by rewrite page_off_mod, u32_page, Z.add_mod, H0 by lia.
Qed.

(** ** Flushing entries *)

(** No mode of the software TLB caches a page that the entry translates. *)
Definition gone (asid : Z) (e : r4k_tlb_t) (t : tlb) : Prop :=
  forall a p q, page_addr a -> tlb_match asid a e = true -> tlb_translate a 0 e = TLBRET_MATCH p q ->
  uncached t a.

Lemma gone_mono asid e t t' : only_flushed t t' -> gone asid e t -> gone asid e t'.
Proof. intros Hs Hg a p q Ha H1 H2. eapply uncached_mono; [done..|by eapply Hg]. Qed.

(** The entry whose flush does not end: its odd page is valid and ends the address space. *)
Definition last_page (e : r4k_tlb_t) : bool := truth (V1 e) && (odd_end e =? 0xffffffff).

Lemma flush_entry_gone asid e t t' : entry_wf e -> flush_entry_pages e t = Some t' ->
  only_flushed t t' /\ gone asid e t'.
Proof.
  intros Hw. pose proof Hw as ((k & Hk) & Hv & _).
  destruct (entry_ranges e k Hk Hv) as [(R1 & R1' & R2 & _) (R3 & R3' & R4 & _)].
  unfold flush_entry_pages. intros H.
  destruct (if truth (V0 e) then _ else _) as [t1|] eqn:E0; [|done].
  assert (S0 : only_flushed t t1).
  { destruct (truth (V0 e)); [by eapply flush_pages_only|by injection E0 as ->]. }
  assert (S1 : only_flushed t1 t').
  { destruct (truth (V1 e)); [by eapply flush_pages_only|by injection H as ->]. }
  split; [by etransitivity|]. intros a p q Ha Hm Ht.
  pose proof (match_range e k Hk asid a) as M.
  destruct Ha as [Hu H0]. specialize (M Hu H0 Hm). unfold tlb_translate in Ht.
  destruct (odd_page a e); cbn [negb] in Ht; cbn zeta in M; destruct M as [M1 M2].
  - destruct (truth (V1 e)); [|done]. by eapply flush_pages_uncached.
  - destruct (truth (V0 e)); [|done]. eapply uncached_mono; [exact S1|done|].
    by eapply flush_pages_uncached.
Qed.

Lemma flush_fuel_enough lo hi : (hi - lo) / 4096 < Z.of_nat (flush_fuel lo hi).
Proof. unfold flush_fuel, TARGET_PAGE_SIZE. lia. Qed.

(** The flush of an entry ends unless the entry is of the last page. *)
Lemma flush_entry_ends e t : entry_wf e -> (exists t', flush_entry_pages e t = Some t') \/ last_page e = true.
Proof.
  intros ((k & Hk) & Hv & _).
  destruct (entry_ranges e k Hk Hv) as [(R1 & _ & _ & R3) (R4 & _ & _ & R6)].
  unfold flush_entry_pages, last_page. destruct (Z.eqb_spec (odd_end e) 0xffffffff) as [E|E].
  - destruct (truth (V1 e)); [by right|]. left.
    destruct (truth (V0 e)); [|eauto].
    destruct (flush_pages_total (flush_fuel (even_start e) (even_end e)) (even_start e) (even_end e) t)
      as [t' ->]; [apply R1|done|apply flush_fuel_enough|eauto].
  - left. assert (A : exists t1, (if truth (V0 e) then
      flush_pages (flush_fuel (even_start e) (even_end e)) (even_start e) (even_end e) t else Some t) = Some t1).
    { destruct (truth (V0 e)); [|eauto]. apply flush_pages_total; [apply R1|done|apply flush_fuel_enough]. }
    destruct A as [t1 ->]. destruct (truth (V1 e)); [|eauto].
    apply flush_pages_total; [apply R4|lia|apply flush_fuel_enough].
Qed.

Lemma set_table_same (env : CPUMIPSState) : env <| tlb_table := tlb_table env |> = env.
Proof. by destruct env. Qed.

Lemma invalidate_flushes idx env env' : entry_wf (entry_at env idx) ->
  r4k_invalidate_tlb idx false env = Some env' ->
  exists t, env' = env <| tlb_table := t |> /\ only_flushed (tlb_table env) t /\
    gone (cur_asid env) (entry_at env idx) t.
Proof.
  intros Hw. unfold r4k_invalidate_tlb. destruct (_ && negb _) eqn:E.
  - intros [= <-]. exists (tlb_table env). split; [by rewrite set_table_same|]. split; [done|].
    intros a p q _ Hm. exfalso. unfold tlb_match in Hm. apply andb_true_iff in Hm as [Hm _].
    apply andb_true_iff in E as [E1 E2]. to_prop. rewrite E1 in Hm. cbn in Hm. to_prop. congruence.
  - cbn [andb]. destruct (flush_entry_pages _ _) as [t|] eqn:F; [|done]. intros [= <-].
    exists t. split; [done|]. by apply (flush_entry_gone (cur_asid env) (entry_at env idx)).
Qed.

Lemma flush_extra_flushes n : forall env env', Z.of_nat n <= tlb_in_use env ->
  (forall i, tlb_in_use env - Z.of_nat n <= i < tlb_in_use env -> entry_wf (entry_at env i)) ->
  flush_extra n env = Some env' ->
  exists t, env' = env <| tlb_in_use := tlb_in_use env - Z.of_nat n |> <| tlb_table := t |> /\
    only_flushed (tlb_table env) t /\
    forall i, tlb_in_use env - Z.of_nat n <= i < tlb_in_use env -> gone (cur_asid env) (entry_at env i) t.
Proof.
  induction n as [|n IH]; intros env env' Hn Hw; cbn [flush_extra].
  - intros [= <-]. exists (tlb_table env). split; [|split; [done|lia]].
    rewrite Z.sub_0_r. by destruct env.
  - set (env0 := env <| tlb_in_use := tlb_in_use env - 1 |>).
    destruct (r4k_invalidate_tlb (tlb_in_use env0) false env0) as [env1|] eqn:E; [|done]. intros H.
    destruct (invalidate_flushes (tlb_in_use env - 1) env0 env1) as (t & -> & Hs & Gn); [apply Hw; lia|done|].
    destruct (IH (env0 <| tlb_table := t |>) env') as (t' & -> & Hs' & Gn'); [cbn; lia|..|done|].
    { intros i Hi. apply Hw. cbn in Hi. lia. }
    exists t'. split; [|split; [by etransitivity|]].
    + replace (tlb_in_use env - Z.of_nat (Datatypes.S n)) with (tlb_in_use env - 1 - Z.of_nat n) by lia. done.
    + intros i Hi. destruct (decide (i = tlb_in_use env - 1)) as [->|].
      * by eapply gone_mono.
      * apply Gn'. cbn. lia.
Qed.

(** ** The invariant *)

(** Two entries that translate a common page in a common address space. *)
Definition overlap (e1 e2 : r4k_tlb_t) : Prop :=
  exists asid a, page_addr a /\ tlb_match asid a e1 = true /\ tlb_match asid a e2 = true.

Definition distinct (l : list r4k_tlb_t) : Prop :=
  forall i j e1 e2, l !! i = Some e1 -> l !! j = Some e2 -> i <> j -> ~ overlap e1 e2.

Lemma overlap_sym e1 e2 : overlap e1 e2 -> overlap e2 e1.
Proof. intros (asid & a & Ha & H1 & H2). by exists asid, a. Qed.

Lemma distinct_take n l : distinct l -> distinct (take n l).
Proof.
  intros H i j e1 e2 H1 H2. apply lookup_take_Some in H1 as [H1 _], H2 as [H2 _]. by eapply H.
Qed.

Lemma distinct_insert l r e : distinct l -> (forall j e', l !! j = Some e' -> j <> r -> ~ overlap e e') ->
  distinct (<[r := e]> l).
Proof.
  intros Hd Hf i j e1 e2 H1 H2 Hne.
  apply list_lookup_insert_Some in H1 as [(-> & <- & _)|[H1 H1']];
    apply list_lookup_insert_Some in H2 as [(-> & <- & _)|[H2 H2']]; [done|by eapply Hf| |by eapply Hd].
  intros Ho. eapply (Hf i); [done|done|by apply overlap_sym].
Qed.

Lemma scan_match asid a rw l p q : tlb_scan asid a rw l = TLBRET_MATCH p q ->
  exists j e, l !! j = Some e /\ tlb_match asid a e = true /\ tlb_translate a rw e = TLBRET_MATCH p q.
Proof.
  induction l as [|e l IH]; cbn; [done|]. destruct (tlb_match asid a e) eqn:E.
  - intros H. by exists O, e.
  - intros H. destruct (IH H) as (j & e' & H'). by exists (S j), e'.
Qed.

Lemma scan_distinct asid a rw l e : distinct l -> page_addr a -> e ∈ l -> tlb_match asid a e = true ->
  tlb_scan asid a rw l = tlb_translate a rw e.
Proof.
  induction l as [|e' l IH]; intros Hd Ha He Hm; [by apply elem_of_nil in He|]. cbn.
  assert (Hd' : distinct l) by (intros i j ? ? H1 H2 Hn; apply (Hd (S i) (S j)); [done|done|congruence]).
  apply elem_of_cons in He as [->|He]; [by rewrite Hm|].
  destruct (tlb_match asid a e') eqn:E; [|by apply IH]. exfalso.
  apply list_elem_of_lookup in He as [j Hj].
  apply (Hd O (S j) e' e); [done|done|done|by exists asid, a].
Qed.

(** A translation is kept when the entry behind it is. *)
Lemma scan_transfer asid a l l' p q : distinct l' -> page_addr a ->
  tlb_scan asid a 0 l = TLBRET_MATCH p q ->
  (forall j e, l !! j = Some e -> tlb_match asid a e = true -> tlb_translate a 0 e = TLBRET_MATCH p q -> e ∈ l') ->
  tlb_scan asid a 0 l' = TLBRET_MATCH p q.
Proof.
  intros Hd Ha H Hin. apply scan_match in H as (j & e & Hj & Hm & Ht).
  rewrite (scan_distinct _ _ _ _ e) by eauto. done.
Qed.

Definition mask_wf (m : Z) : Prop := exists k, 12 <= k <= 28 /\ Z.lor m 0x1fff = Z.ones (k + 1).

(** What the TLB instructions and the translation depend on. *)
Definition view (env : CPUMIPSState) :=
  (map_address env, r4k env, tlb_in_use env, nb_tlb env, CP0_EntryHi env, CP0_PageMask env,
   CP0_Wired env, tlb_table env).

Record mips_wf (env : CPUMIPSState) : Prop := {
  wf_map : map_address env = r4k_mmu;
  wf_len : length (r4k env) = Z.to_nat MIPS_TLB_MAX;
  wf_use : 0 < nb_tlb env <= tlb_in_use env /\ tlb_in_use env <= MIPS_TLB_MAX;
  wf_wired : 0 <= CP0_Wired env < nb_tlb env;
  wf_hi : is_u32 (CP0_EntryHi env);
  wf_mask : mask_wf (CP0_PageMask env);
  wf_entries : Forall entry_wf (r4k env);
  wf_distinct : distinct (used env);
}.

(** The shape the instructions need of the table. *)
Definition shape (env : CPUMIPSState) : Prop :=
  length (r4k env) = Z.to_nat MIPS_TLB_MAX /\ 0 < nb_tlb env <= tlb_in_use env /\
  tlb_in_use env <= MIPS_TLB_MAX /\ 0 <= CP0_Wired env < nb_tlb env.

Lemma wf_shape env : mips_wf env -> shape env.
Proof. intros [W1 W2 [W3 W3'] W4 W5 W6 W7 W8]. do 3 (split; [done|]). done. Qed.

(** The random index is one of the entries that are not wired. *)
Lemma random_range env : shape env ->
  let '(r, env') := cpu_mips_get_random env in
  CP0_Wired env <= r < nb_tlb env /\ env' = env <| seed := seed env' |>.
Proof.
  intros (S1 & S2 & S3 & S4). unfold MIPS_TLB_MAX in *. unfold cpu_mips_get_random. cbn. split; [|done].
  assert (E : u32 (nb_tlb env - CP0_Wired env) = nb_tlb env - CP0_Wired env) by (apply wrap_small; unfold in_width; lia).
  rewrite E. pose proof (Z.mod_pos_bound (Z.shiftr (u32 (seed env * 314159 + 1)) 16) (nb_tlb env - CP0_Wired env) ltac:(lia)).
  unfold u32 at 1 3. rewrite wrap_small by (unfold in_width; lia). lia.
Qed.

Lemma filled_wf env : is_u32 (CP0_EntryHi env) -> mask_wf (CP0_PageMask env) -> entry_wf (filled_entry env).
Proof.
  intros Hh (k & Hk & Hm). split; [by exists k|]. cbn. split; [by apply land_width_l|].
  rewrite <- Z.land_assoc. split; [by rewrite Z.land_0_r|].
  split; [apply land_width_r; [lia|unfold in_width; lia]|].
  assert (P : forall x, is_u32 (u32 (Z.shiftl x 12)) /\ u32 (Z.shiftl x 12) mod 4096 = 0).
  { intros x. split; [apply wrap_range; lia|]. rewrite u32_page, Z.shiftl_mul_pow2 by lia. by apply Z.mod_mul. }
  by split.
Qed.

Lemma entry_at_lookup env i e : r4k env !! Z.to_nat i = Some e -> entry_at env i = e.
Proof. unfold entry_at. by intros ->. Qed.

Lemma entry_wf_at env i : mips_wf env -> 0 <= i < MIPS_TLB_MAX ->
  entry_wf (entry_at env i) /\ r4k env !! Z.to_nat i = Some (entry_at env i).
Proof.
  intros Hw Hi. destruct (lookup_lt_is_Some_2 (r4k env) (Z.to_nat i)) as [e He].
  { rewrite (wf_len _ Hw). lia. }
  rewrite (entry_at_lookup _ _ _ He). split; [|done].
  eapply Forall_lookup_1; [apply (wf_entries _ Hw)|done].
Qed.

Lemma used_lookup env j e : used env !! j = Some e ->
  r4k env !! j = Some e /\ Z.of_nat j < tlb_in_use env /\ entry_at env (Z.of_nat j) = e.
Proof.
  unfold used. intros H. apply lookup_take_Some in H as [H1 H2]. split; [done|]. split; [lia|].
  apply entry_at_lookup. by rewrite Nat2Z.id.
Qed.

Section Coherence.
Context {D : Type}.
Context (phys_ram_base io_mem_watch : Z).
Context (s0 : phys (D := D)).
Context (Hmap : map_ok s0) (Hwatch : watch_ok io_mem_watch).

Abbreviation phys := (phys (D := D)).

Definition at_mode (m : Z) (env : CPUMIPSState) : CPUMIPSState := env <| hflags := m |>.

(** The entry of the software TLB leads from the page [a] to the physical page [pa]. *)
Definition entry_maps (e : CPUTLBEntry) (a pa prot : Z) : Prop :=
  addend e = u32 ((page_target phys_ram_base a pa (page_desc pa s0)).2 - a) /\
  (addr_write e <> INVALID -> has prot PAGE_WRITE = true).

(** Every page the software TLB caches for a mode is what the MMU gives in that mode. *)
Definition coherent (env : CPUMIPSState) : Prop :=
  forall m a, 0 <= m < NB_MMU_MODES -> page_addr a ->
  caches (tlb_table env m (tlb_index a)) a = true ->
  exists pa prot, get_physical_address (at_mode m env) a 0 = TLBRET_MATCH pa prot /\
    entry_maps (tlb_table env m (tlb_index a)) a (page_base pa) prot.

Lemma gpa_change env env' a p q :
  hflags env' = hflags env -> status env' CP0St_ERL = status env CP0St_ERL ->
  map_address env = r4k_mmu -> map_address env' = r4k_mmu ->
  (r4k_map_address env a 0 = TLBRET_MATCH p q -> r4k_map_address env' a 0 = TLBRET_MATCH p q) ->
  get_physical_address env a 0 = TLBRET_MATCH p q -> get_physical_address env' a 0 = TLBRET_MATCH p q.
Proof using.
  unfold get_physical_address, do_map_address, status. intros -> -> -> -> H. split_ifs; auto.
Qed.

Lemma r4k_at_mode env m a rw : r4k_map_address (at_mode m env) a rw = r4k_map_address env a rw.
Proof using. done. Qed.

Lemma coherent_change env env' : coherent env -> status env' CP0St_ERL = status env CP0St_ERL ->
  map_address env = r4k_mmu -> map_address env' = r4k_mmu ->
  only_flushed (tlb_table env) (tlb_table env') ->
  (forall m a p q, 0 <= m < NB_MMU_MODES -> page_addr a ->
     caches (tlb_table env' m (tlb_index a)) a = true ->
     r4k_map_address env a 0 = TLBRET_MATCH p q -> r4k_map_address env' a 0 = TLBRET_MATCH p q) ->
  coherent env'.
Proof using.
  intros Hc He Hm Hm' Hs Ht m a Hr Ha Hh. pose proof (flushed_caches _ _ _ _ Hs Ha Hh) as E.
  destruct (Hc m a Hr Ha) as (pa & prot & G & M); [by rewrite <- E|].
  exists pa, prot. rewrite E. split; [|done].
  eapply gpa_change; [..|exact G]; try done. rewrite !r4k_at_mode. by eapply Ht.
Qed.

(** A change of other registers. *)
Lemma coherent_view env env' : view env' = view env -> status env' CP0St_ERL = status env CP0St_ERL ->
  map_address env = r4k_mmu -> coherent env -> coherent env'.
Proof using.
  unfold view. intros [= H1 H2 H3 H4 H5 H6 H7 H8] He Hm Hc.
  apply (coherent_change env); try done; [congruence|by rewrite H8|].
  unfold r4k_map_address, used, cur_asid. by rewrite H2, H3, H5.
Qed.

Lemma wf_view env env' : view env' = view env -> mips_wf env -> mips_wf env'.
Proof using.
  unfold view. intros [= H1 H2 H3 H4 H5 H6 H7 H8] [W1 W2 W3 W4 W5 W6 W7 W8].
  constructor; unfold used in *; rewrite ?H1, ?H2, ?H3, ?H4, ?H5, ?H6, ?H7; done.
Qed.

(** ** The TLB instructions keep the invariant *)

Lemma used_take env n : (n <= Z.to_nat (tlb_in_use env))%nat -> take n (used env) = take n (r4k env).
Proof using. intros H. unfold used. rewrite take_take. f_equal. lia. Qed.

(** What discarding the shadow entries leaves. *)
Definition left_in_use (env : CPUMIPSState) (first : Z) : Z := Z.min (tlb_in_use env) first.

Lemma flush_extra_ok first env env' : mips_wf env -> nb_tlb env <= first ->
  r4k_mips_tlb_flush_extra first env = Some env' ->
  exists t, env' = env <| tlb_in_use := left_in_use env first |> <| tlb_table := t |> /\
    only_flushed (tlb_table env) t /\
    forall i, left_in_use env first <= i < tlb_in_use env -> gone (cur_asid env) (entry_at env i) t.
Proof using.
  intros Hw Hf. destruct (wf_use _ Hw) as [[U0 U1] U2]. unfold r4k_mips_tlb_flush_extra, left_in_use.
  set (k := Z.to_nat _). intros H.
  replace (Z.min (tlb_in_use env) first) with (tlb_in_use env - Z.of_nat k) by lia.
  apply flush_extra_flushes; [lia| |done]. intros i Hi. apply entry_wf_at; [done|]. lia.
Qed.

Lemma shrink_wf env n t : mips_wf env -> nb_tlb env <= n <= tlb_in_use env ->
  mips_wf (env <| tlb_in_use := n |> <| tlb_table := t |>).
Proof using.
  intros [W1 W2 W3 W4 W5 W6 W7 W8] Hn. constructor; try done; [cbn; lia|].
  unfold used. cbn. replace (take (Z.to_nat n) (r4k env)) with (take (Z.to_nat n) (used env)).
  - by apply distinct_take.
  - apply used_take. lia.
Qed.

(** The entries left after some were dropped still translate the pages that are cached. *)
Lemma kept_entry env (n : Z) t (l : list r4k_tlb_t) j e a : mips_wf env -> page_addr a ->
  (forall i, n <= i < tlb_in_use env -> gone (cur_asid env) (entry_at env i) t) ->
  (exists m, 0 <= m < NB_MMU_MODES /\ caches (t m (tlb_index a)) a = true) ->
  used env !! j = Some e -> tlb_match (cur_asid env) a e = true ->
  (exists p q, tlb_translate a 0 e = TLBRET_MATCH p q) ->
  (Z.of_nat j < n -> e ∈ l) -> e ∈ l.
Proof using.
  intros Hw Ha Hg (m & Hm & Hc) Hj Hma (p & q & Ht) Hin. destruct (used_lookup _ _ _ Hj) as (Hr & Hlt & He).
  destruct (decide (Z.of_nat j < n)); [auto|]. exfalso.
  assert (U : uncached t a). { eapply (Hg (Z.of_nat j)); [lia|done|by rewrite He..]. }
  by rewrite U in Hc.
Qed.

Lemma shrink_coherent env n t : mips_wf env -> coherent env -> nb_tlb env <= n <= tlb_in_use env ->
  only_flushed (tlb_table env) t ->
  (forall i, n <= i < tlb_in_use env -> gone (cur_asid env) (entry_at env i) t) ->
  coherent (env <| tlb_in_use := n |> <| tlb_table := t |>).
Proof using.
  intros Hw Hc Hn Hs Hg. pose proof (wf_distinct _ (shrink_wf _ n t Hw Hn)) as Hd.
  eapply coherent_change; [exact Hc|done|apply (wf_map _ Hw)|apply (wf_map _ Hw)|done|].
  intros m a p q Hm Ha Hca. unfold r4k_map_address. intros H.
  eapply scan_transfer; [exact Hd|done|exact H|]. intros j e Hj Hma Ht.
  eapply kept_entry; eauto. intros Hlt. apply list_elem_of_lookup. exists j.
  unfold used. cbn. destruct (used_lookup _ _ _ Hj) as (Hr & _ & _).
  rewrite lookup_take_lt by lia. done.
Qed.

(** Replacing an entry by the one of the registers, which overlaps no other. *)
Definition fresh_for (env : CPUMIPSState) (idx n : Z) : Prop :=
  forall j, 0 <= j < n -> j <> idx -> ~ overlap (filled_entry env) (entry_at env j).

Lemma used_fill env idx : used (r4k_fill_tlb idx env) = <[Z.to_nat idx := filled_entry env]> (used env) \/
  tlb_in_use env <= idx.
Proof using.
  destruct (decide (tlb_in_use env <= idx)); [by right|left]. unfold used. cbn.
  destruct (decide (0 <= tlb_in_use env)); [|by rewrite Z2Nat.nonpos by lia].
  destruct (decide (0 <= idx)); [by rewrite take_insert_lt by lia|].
  rewrite (Z2Nat.nonpos idx) by lia.
  destruct (decide (tlb_in_use env = 0)) as [E|]; [by rewrite E|]. by rewrite take_insert_lt by lia.
Qed.

Lemma fill_wf env idx : mips_wf env -> 0 <= idx < tlb_in_use env -> fresh_for env idx (tlb_in_use env) ->
  mips_wf (r4k_fill_tlb idx env).
Proof using.
  intros Hw Hi Hf. pose proof (used_fill env idx) as [U|U]; [|lia].
  destruct Hw as [W1 W2 W3 W4 W5 W6 W7 W8]. constructor; try done.
  - cbn. by rewrite length_insert.
  - cbn. apply Forall_insert; [done|by apply filled_wf].
  - rewrite U. apply distinct_insert; [done|]. intros j e Hj Hne.
    destruct (used_lookup _ _ _ Hj) as (_ & Hlt & <-). apply Hf; lia.
Qed.

Lemma fill_coherent env idx : mips_wf env -> coherent env -> 0 <= idx < tlb_in_use env ->
  fresh_for env idx (tlb_in_use env) -> gone (cur_asid env) (entry_at env idx) (tlb_table env) ->
  coherent (r4k_fill_tlb idx env).
Proof using.
  intros Hw Hc Hi Hf Hg. pose proof (fill_wf _ _ Hw Hi Hf) as Hw'.
  pose proof (used_fill env idx) as [U|U]; [|lia].
  eapply coherent_change; [exact Hc|done|apply (wf_map _ Hw)|apply (wf_map _ Hw)|done|].
  intros m a p q Hm Ha Hca. unfold r4k_map_address. intros H.
  eapply scan_transfer; [apply (wf_distinct _ Hw')|done|exact H|]. intros j e Hj Hma Ht.
  destruct (used_lookup _ _ _ Hj) as (Hr & Hlt & He).
  destruct (decide (Z.of_nat j = idx)) as [E|E].
  - exfalso. assert (Hu : uncached (tlb_table env) a) by (rewrite <- E, He in Hg; by eapply Hg).
    specialize (Hu m Hm). cbn in Hca. by rewrite Hu in Hca.
  - rewrite U. apply list_elem_of_lookup. exists j. rewrite list_lookup_insert_ne by lia. done.
Qed.

Definition inv (env : CPUMIPSState) : Prop := mips_wf env /\ coherent env.

Lemma inv_view env env' : inv env -> view env' = view env ->
  status env' CP0St_ERL = status env CP0St_ERL -> inv env'.
Proof using.
  intros [Hw Hc] Hv He. split; [by eapply wf_view|].
  eapply coherent_view; [done..|apply (wf_map _ Hw)|done].
Qed.

Lemma flush_extra_inv first env env' : inv env -> nb_tlb env <= first ->
  r4k_mips_tlb_flush_extra first env = Some env' ->
  inv env' /\ exists t, env' = env <| tlb_in_use := left_in_use env first |> <| tlb_table := t |>.
Proof using.
  intros [Hw Hc] Hf H. destruct (flush_extra_ok first env env' Hw Hf H) as (t & -> & Hs & Hg).
  destruct (wf_use _ Hw) as [[U0 U1] U2].
  split; [|by exists t]. split; [apply shrink_wf|apply shrink_coherent]; try done; unfold left_in_use; lia.
Qed.

Lemma index_range env : mips_wf env -> 0 <= index_entry env < nb_tlb env.
Proof using. intros Hw. apply Z.mod_pos_bound. apply (wf_use _ Hw). Qed.

Lemma tlbwi_inv env env' : inv env -> fresh_for env (index_entry env) (nb_tlb env) ->
  r4k_do_tlbwi env = Some env' -> inv env'.
Proof using.
  unfold r4k_do_tlbwi. intros Hi Hf H.
  destruct (r4k_mips_tlb_flush_extra _ _) as [env1|] eqn:E1; [|done].
  pose proof (index_range _ (proj1 Hi)) as Hidx.
  destruct (flush_extra_inv _ _ _ Hi (Z.le_refl _) E1) as [Hi1 [t ->]].
  destruct (wf_use _ (proj1 Hi)) as [[U0 U1] U2]. clear E1 Hi.
  assert (L : left_in_use env (nb_tlb env) = nb_tlb env) by (unfold left_in_use; lia). rewrite L in *.
  set (env1 := env <| tlb_in_use := _ |> <| tlb_table := t |>) in *.
  destruct Hi1 as [Hw1 Hc1].
  assert (Hx : index_entry env1 = index_entry env) by done. rewrite Hx in H.
  destruct (r4k_invalidate_tlb _ _ _) as [env2|] eqn:E2; [|done]. injection H as <-.
  assert (Hu : tlb_in_use env1 = nb_tlb env) by done. assert (Hnb : nb_tlb env1 = nb_tlb env) by done.
  assert (We : entry_wf (entry_at env1 (index_entry env))) by (apply entry_wf_at; [done|lia]).
  destruct (invalidate_flushes _ env1 env2 We E2) as (t' & -> & S2 & G2).
  assert (Hw2 : mips_wf (env1 <| tlb_table := t' |>)) by (destruct Hw1; by constructor).
  assert (Hc2 : coherent (env1 <| tlb_table := t' |>)).
  { eapply coherent_change; [exact Hc1|done|apply (wf_map _ Hw1)|apply (wf_map _ Hw1)|exact S2|done]. }
  change (index_entry (env1 <| tlb_table := t' |>)) with (index_entry env).
  split; [apply fill_wf|apply fill_coherent]; try done; cbn; lia.
Qed.

Lemma distinct_snoc l e : distinct l -> (forall j e', l !! j = Some e' -> ~ overlap e e') -> distinct (l ++ [e]).
Proof using.
  intros Hd Hf i j e1 e2 H1 H2 Hne.
  apply lookup_snoc_Some in H1 as [[L1 H1]|[L1 <-]]; apply lookup_snoc_Some in H2 as [[L2 H2]|[L2 <-]].
  - by eapply Hd.
  - intros Ho. eapply Hf; [exact H1|by apply overlap_sym].
  - by eapply Hf.
  - lia.
Qed.

Definition fresh_all (env : CPUMIPSState) : Prop :=
  forall j, 0 <= j < tlb_in_use env -> ~ overlap (filled_entry env) (entry_at env j).

(** Moving the replaced entry to the shadow entries. *)
Definition shadowed (env : CPUMIPSState) (r : Z) : CPUMIPSState :=
  r4k_fill_tlb r (env <| r4k := <[Z.to_nat (tlb_in_use env) := entry_at env r]> (r4k env) |>
                      <| tlb_in_use := tlb_in_use env + 1 |>).

Lemma used_shadowed env r : mips_wf env -> 0 <= r < tlb_in_use env -> tlb_in_use env < MIPS_TLB_MAX ->
  used (shadowed env r) = <[Z.to_nat r := filled_entry env]> (used env) ++ [entry_at env r].
Proof using.
  intros Hw Hr Hm. destruct (wf_use _ Hw) as [[U0 U1] U2]. unfold shadowed.
  destruct (used_fill (env <| r4k := <[Z.to_nat (tlb_in_use env) := entry_at env r]> (r4k env) |>
                           <| tlb_in_use := tlb_in_use env + 1 |>) r) as [->|U]; [|cbn in U; lia].
  assert (E : used (env <| r4k := <[Z.to_nat (tlb_in_use env) := entry_at env r]> (r4k env) |>
                        <| tlb_in_use := tlb_in_use env + 1 |>) = used env ++ [entry_at env r]).
  { unfold used. cbn. rewrite Z2Nat.inj_add by lia. change (Z.to_nat 1) with 1%nat. rewrite Nat.add_1_r.
    erewrite take_S_r; [|apply list_lookup_insert_eq; rewrite (wf_len _ Hw); lia].
    by rewrite take_insert_ge by lia. }
  rewrite E, insert_app_l; [done|]. unfold used. rewrite length_take, (wf_len _ Hw). lia.
Qed.

Lemma used_at env r : mips_wf env -> 0 <= r < tlb_in_use env -> used env !! Z.to_nat r = Some (entry_at env r).
Proof using.
  intros Hw Hr. destruct (wf_use _ Hw) as [_ U2]. unfold used. rewrite lookup_take_lt by lia.
  apply entry_wf_at; [done|lia].
Qed.

Lemma shadowed_wf env r : mips_wf env -> 0 <= r < tlb_in_use env -> tlb_in_use env < MIPS_TLB_MAX ->
  fresh_all env -> mips_wf (shadowed env r).
Proof using.
  intros Hw Hr Hm Hf. pose proof (used_shadowed env r Hw Hr Hm) as Hu.
  pose proof (used_at env r Hw Hr) as Hat. destruct (entry_wf_at env r Hw ltac:(lia)) as [We _].
  destruct Hw as [W1 W2 W3 W4 W5 W6 W7 W8]. constructor; try done.
  - cbn. by rewrite !length_insert.
  - cbn. lia.
  - cbn. apply Forall_insert; [by apply Forall_insert|]. change (entry_wf (filled_entry env)). by apply filled_wf.
  - rewrite Hu. assert (Hfe : forall j e', used env !! j = Some e' -> ~ overlap (filled_entry env) e').
    { intros j e' Hj. destruct (used_lookup _ _ _ Hj) as (_ & Hlt & <-). apply Hf. lia. }
    apply distinct_snoc.
    + apply distinct_insert; [done|]. intros j e' Hj _. by eapply Hfe.
    + intros j e' Hj. apply list_lookup_insert_Some in Hj as [(<- & <- & _)|[Hne Hj]].
      * intros Ho. eapply Hfe; [exact Hat|by apply overlap_sym].
      * eapply W8; [exact Hat|exact Hj|done].
Qed.

Lemma shadowed_coherent env r : mips_wf env -> coherent env -> 0 <= r < tlb_in_use env ->
  tlb_in_use env < MIPS_TLB_MAX -> fresh_all env -> coherent (shadowed env r).
Proof using.
  intros Hw Hc Hr Hm Hf. pose proof (shadowed_wf env r Hw Hr Hm Hf) as Hw'.
  pose proof (used_shadowed env r Hw Hr Hm) as Hu.
  eapply coherent_change; [exact Hc|done|apply (wf_map _ Hw)|apply (wf_map _ Hw)|done|].
  intros m a p q Hmm Ha Hca. unfold r4k_map_address. intros H.
  eapply scan_transfer; [apply (wf_distinct _ Hw')|done|exact H|]. intros j e Hj Hma Ht.
  rewrite Hu. apply elem_of_app. destruct (decide (Z.of_nat j = r)) as [E|E].
  - right. destruct (used_lookup _ _ _ Hj) as (_ & _ & <-). rewrite E. by left.
  - left. apply list_elem_of_lookup. exists j. rewrite list_lookup_insert_ne by lia. done.
Qed.

Lemma tlbwr_inv env env' : inv env -> fresh_all env -> r4k_do_tlbwr env = Some env' -> inv env'.
Proof using.
  unfold r4k_do_tlbwr. intros Hi Hf H. destruct (wf_use _ (proj1 Hi)) as [[U0 U1] U2].
  pose proof (random_range env (wf_shape _ (proj1 Hi))) as R.
  destruct (cpu_mips_get_random env) as [r env0]. destruct R as [R E0].
  pose proof (wf_wired _ (proj1 Hi)) as Hwi.
  assert (Hi0 : inv env0) by (apply (inv_view env); [done|by rewrite E0..]).
  assert (Hf0 : fresh_all env0) by (rewrite E0; done).
  assert (Hin : tlb_in_use env0 = tlb_in_use env) by (by rewrite E0).
  destruct Hi0 as [Hw0 Hc0]. clear Hi Hf E0.
  assert (We : entry_wf (entry_at env0 r)) by (apply entry_wf_at; [done|lia]).
  assert (Hgone : forall env1, r4k_invalidate_tlb r false env0 = Some env1 -> inv (r4k_fill_tlb r env1)).
  { intros env1 E. destruct (invalidate_flushes r env0 env1 We E) as (t & -> & S2 & G2).
    assert (Hw2 : mips_wf (env0 <| tlb_table := t |>)) by (destruct Hw0; by constructor).
    assert (Hc2 : coherent (env0 <| tlb_table := t |>)).
    { eapply coherent_change; [exact Hc0|done|apply (wf_map _ Hw0)|apply (wf_map _ Hw0)|exact S2|done]. }
    assert (Hf2 : fresh_for (env0 <| tlb_table := t |>) r (tlb_in_use env0)) by (intros j Hj _; by apply Hf0).
    split; [apply fill_wf|apply fill_coherent]; try done; cbn; lia. }
  destruct (r4k_invalidate_tlb r true env0) as [env1|] eqn:E; [|done]. injection H as <-.
  unfold r4k_invalidate_tlb in E, Hgone. cbn [andb] in E, Hgone. destruct (_ && negb _) eqn:Ea.
  - injection E as <-. by apply Hgone.
  - destruct (Z.ltb_spec (tlb_in_use env0) MIPS_TLB_MAX) as [Hlt|Hge]; [|by apply Hgone].
    injection E as <-. split; [apply (shadowed_wf env0 r)|apply (shadowed_coherent env0 r)]; done || lia.
Qed.

Lemma find_range asid a i l j : find_match asid a i l = Some j -> i <= j < i + Z.of_nat (length l).
Proof using.
  revert i. induction l as [|e l IH]; intros i; cbn; [done|].
  destruct (tlb_match asid a e); [intros [= <-]; lia|]. intros H. apply IH in H. lia.
Qed.

Lemma tlbp_inv env env' : inv env -> r4k_do_tlbp env = Some env' -> inv env'.
Proof using.
  unfold r4k_do_tlbp. intros Hi. destruct (find_match _ _ 0 _) as [i|] eqn:E0.
  - intros [= <-]. by apply (inv_view env).
  - destruct (find_match _ _ (nb_tlb env) _) as [i|] eqn:E1.
    + destruct (r4k_mips_tlb_flush_extra i env) as [env1|] eqn:E2; [|done]. intros [= <-].
      apply find_range in E1. destruct (flush_extra_inv i env env1 Hi ltac:(lia) E2) as [Hi1 _].
      by apply (inv_view env1).
    + intros [= <-]. by apply (inv_view env).
Qed.

(** ** The other operations *)

Lemma hi_inv env v : inv env -> is_u32 v -> Z.land v 0xff = cur_asid env -> inv (env <| CP0_EntryHi := v |>).
Proof using.
  intros [Hw Hc] Hv Ha. split; [destruct Hw; by constructor|].
  eapply coherent_change; [exact Hc|done|apply (wf_map _ Hw)|apply (wf_map _ Hw)|done|].
  intros m a p q _ _ _. unfold r4k_map_address. unfold cur_asid at 2. cbn. by rewrite Ha.
Qed.

Lemma flush_inv g env : mips_wf env -> inv (cpu_mips_tlb_flush g env).
Proof using.
  intros Hw. destruct (wf_use _ Hw) as [[U0 U1] U2]. split.
  - pose proof (shrink_wf env (nb_tlb env) (tlb_flush g (tlb_table env)) Hw ltac:(lia)) as W. destruct W. by constructor.
  - intros m a _ Ha H. exfalso. cbn in H. unfold tlb_flush, upd_all in H. by rewrite caches_invalid in H.
Qed.

Lemma entryhi_inv T0 env : inv env -> is_u32 T0 -> inv (op_mtc0_entryhi T0 env).
Proof using.
  intros Hi HT. unfold op_mtc0_entryhi. set (val := Z.land T0 _). cbv zeta.
  set (env1 := if has _ _ then _ else _).
  assert (Hv : is_u32 val) by (by apply land_width_l).
  assert (E : env1 = env <| CP0_EntryHi := val |> <| CP0_TCStatus := CP0_TCStatus env1 |>)
    by (unfold env1; destruct (has _ _); by destruct env).
  rewrite E. clearbody env1. destruct (Z.eqb_spec (Z.land (CP0_EntryHi env) 0xff) (Z.land val 0xff)) as [Ea|Ea]; cbn [negb].
  - apply (inv_view (env <| CP0_EntryHi := val |>)); [|done..]. by apply hi_inv.
  - apply flush_inv. destruct Hi as [[] _]. by constructor.
Qed.

Lemma asid_lor v x : Z.land v 0xff = 0 -> is_u8 x -> Z.land (Z.lor v x) 0xff = x.
Proof using.
  intros Hv Hx. rewrite Z.land_lor_distr_l, Hv, Z.lor_0_l.
  change 0xff with (Z.ones 8). rewrite Z.land_ones by lia. by apply wrap_small.
Qed.

Lemma tlbr_inv env env' : inv env -> r4k_do_tlbr env = Some env' -> inv env'.
Proof using.
  unfold r4k_do_tlbr. intros Hi. pose proof (index_range _ (proj1 Hi)) as Hidx.
  destruct (wf_use _ (proj1 Hi)) as [[U0 U1] U2].
  destruct (entry_wf_at env (index_entry env) (proj1 Hi) ltac:(lia)) as [((k & Hk) & V1 & V2 & As & _) _].
  set (e := entry_at env (index_entry env)) in *. set (env1 := if negb _ then _ else _).
  assert (Hi1 : inv env1) by (unfold env1; destruct (negb _); [by apply flush_inv, Hi|done]).
  assert (Hasid : cur_asid env1 = cur_asid env) by (unfold env1; by destruct (negb _)).
  assert (Hempty : cur_asid env = ASID e \/ forall m a, page_addr a -> caches (tlb_table env1 m (tlb_index a)) a = false).
  { destruct (Z.eqb_spec (cur_asid env) (ASID e)); [by left|right]. intros m a Ha.
    unfold env1. cbn. unfold tlb_flush, upd_all. by apply caches_invalid. }
  destruct (r4k_mips_tlb_flush_extra _ _) as [env2|] eqn:E2; [|done]. intros [= <-].
  destruct (flush_extra_ok _ env1 env2 (proj1 Hi1) (Z.le_refl _) E2) as (t & E3 & Hs & _).
  destruct (flush_extra_inv _ env1 env2 Hi1 (Z.le_refl _) E2) as [Hi2 _].
  assert (Hv : is_u32 (Z.lor (VPN e) (ASID e))).
  { apply lor_width; [lia|done|]. unfold in_width in *. lia. }
  assert (Hw3 : mips_wf (env2 <| CP0_EntryHi := Z.lor (VPN e) (ASID e) |> <| CP0_PageMask := PageMask e |>)).
  { destruct Hi2 as [[] _]. constructor; try done. exists k. by destruct Hk. }
  apply (inv_view (env2 <| CP0_EntryHi := Z.lor (VPN e) (ASID e) |> <| CP0_PageMask := PageMask e |>)); [|done..].
  split; [done|]. destruct Hempty as [Ha|Ha].
  - destruct (hi_inv env2 _ Hi2 Hv) as [_ Hc]; [|exact Hc].
    rewrite asid_lor by done. rewrite E3. change (cur_asid _) with (cur_asid env1). congruence.
  - intros m a _ Hp Hca. exfalso. cbn in Hca. rewrite E3 in Hca. cbn in Hca.
    rewrite (flushed_caches _ _ _ _ Hs Hp Hca) in Hca. by rewrite Ha in Hca.
Qed.

Lemma mask_inv T0 env : inv env -> mask_wf (Z.land T0 0x1fffe000) -> inv (op_mtc0_pagemask T0 env).
Proof using.
  intros [Hw Hc] Hm. unfold op_mtc0_pagemask. change (Z.land 0x1fffffff 0xffffe000) with 0x1fffe000.
  split; [destruct Hw; by constructor|].
  eapply coherent_change; [exact Hc|done|apply (wf_map _ Hw)|apply (wf_map _ Hw)|done|done].
Qed.

Lemma wired_inv T0 env : inv env -> inv (op_mtc0_wired T0 env).
Proof using.
  intros [Hw Hc]. split.
  - destruct Hw as [W1 W2 [W3 W3'] W4 W5 W6 W7 W8]. constructor; try done. cbn. apply Z.mod_pos_bound. lia.
  - eapply coherent_change; [exact Hc|done|apply (wf_map _ Hw)|apply (wf_map _ Hw)|done|done].
Qed.

(** Changes of registers that neither the translation nor the TLB instructions read. *)
Lemma hflags_view v env : view (env <| hflags := v |>) = view env. Proof using. done. Qed.
Lemma cause_view v env : view (env <| CP0_Cause := v |>) = view env. Proof using. done. Qed.
Lemma status_view v env : view (env <| CP0_Status := v |>) = view env. Proof using. done. Qed.
Lemma epc_view v env : view (env <| CP0_EPC := v |>) = view env. Proof using. done. Qed.
Lemma depc_view v env : view (env <| CP0_DEPC := v |>) = view env. Proof using. done. Qed.
Lemma error_epc_view v env : view (env <| CP0_ErrorEPC := v |>) = view env. Proof using. done. Qed.
Lemma debug_view v env : view (env <| CP0_Debug := v |>) = view env. Proof using. done. Qed.
Lemma pc_view v env : view (set_pc v env) = view env. Proof using. done. Qed.
Lemma lladdr_view v env : view (env <| CP0_LLAddr := v |>) = view env. Proof using. done. Qed.
Lemma lladdr_status v env : CP0_Status (env <| CP0_LLAddr := v |>) = CP0_Status env. Proof using. done. Qed.
Lemma index_view v env : view (env <| exception_index := v |>) = view env. Proof using. done. Qed.
Lemma bd_view env : view (clear_bd env) = view env. Proof using. done. Qed.
Lemma clear_view m env : view (clear_hflags m env) = view env. Proof using. done. Qed.
Lemma kernel_view x env : view (kernel_hflags x env) = view env. Proof using. done. Qed.
Lemma if_view (b : bool) x y : view (if b then x else y) = if b then view x else view y.
Proof using. by destruct b. Qed.
Lemma if_same (b : bool) (A : Type) (x : A) : (if b then x else x) = x.
Proof using. by destruct b. Qed.

#[local] Hint Rewrite hflags_view cause_view status_view epc_view depc_view error_epc_view debug_view
  pc_view lladdr_view index_view bd_view clear_view kernel_view if_view if_same : mview.

Lemma set_hflag_view c f env : view (set_hflag c f env) = view env.
Proof using. by destruct c. Qed.
Lemma set_hflag_status c f env : CP0_Status (set_hflag c f env) = CP0_Status env.
Proof using. by destruct c. Qed.
#[local] Hint Rewrite set_hflag_view : mview.

Lemma compute_hflags_view env : view (compute_hflags env) = view env.
Proof using. unfold compute_hflags. cbv zeta. by autorewrite with mview. Qed.

Lemma compute_hflags_status env : CP0_Status (compute_hflags env) = CP0_Status env.
Proof using.
  unfold compute_hflags. cbv zeta. do 3 (destruct (has _ _); [|]); by rewrite ?set_hflag_status.
Qed.
#[local] Hint Rewrite compute_hflags_view : mview.

Lemma set_EPC_view cause offset env : view (set_EPC cause offset env) = view env.
Proof using. unfold set_EPC, save_EPC. cbv zeta. by autorewrite with mview. Qed.
Lemma enter_debug_view env : view (enter_debug_mode env) = view env.
Proof using. unfold enter_debug_mode. cbv zeta. by autorewrite with mview. Qed.
Lemma debug_exception_view f env : view (debug_exception f env) = view env.
Proof using. unfold debug_exception, enter_debug_mode. cbv zeta. by autorewrite with mview. Qed.
Lemma set_error_EPC_view env : view (set_error_EPC env) = view env.
Proof using. unfold set_error_EPC. cbv zeta. by autorewrite with mview. Qed.
#[local] Hint Rewrite set_EPC_view debug_exception_view set_error_EPC_view enter_debug_view : mview.

Lemma epc_exception_view x env cause offset env' :
  epc_exception x env = Some (cause, offset, env') -> view env' = view env.
Proof using.
  unfold epc_exception. destruct (plain_cause x); [by intros [= _ _ <-]|].
  by repeat (destruct (x =? _); [intros [= _ _ <-]; done|]).
Qed.

Lemma interrupt_view reset env env' : exception_index env <> EXCP_RESET ->
  do_interrupt reset env = Some env' -> view env' = view env.
Proof using.
  unfold do_interrupt. cbv zeta. set (env1 := if (_ && _) then _ else env).
  assert (Hv : view env1 = view env) by (unfold env1; by destruct (_ && _)).
  assert (Hx : exception_index env1 <> EXCP_RESET \/ env1 = env) by (unfold env1; destruct (_ && _); [by left|by right]).
  clearbody env1. intros Hr. rewrite <- Hv.
  assert (Hnr : exception_index env1 =? EXCP_RESET = false).
  { apply Z.eqb_neq. destruct Hx as [|E]; [done|congruence]. }
  destruct (debug_flag _) as [f|]; [by intros [= <-]; autorewrite with mview|].
  destruct (epc_exception _ _) as [[[c o] e]|] eqn:E.
  - intros [= <-]. autorewrite with mview. by eapply epc_exception_view.
  - rewrite Hnr. destruct (exception_index env1 =? EXCP_DSS); [intros [= <-]; by autorewrite with mview|].
    destruct (exception_index env1 =? EXCP_SRESET); [intros [= <-]; by autorewrite with mview|].
    destruct (exception_index env1 =? EXCP_NMI); [intros [= <-]; by autorewrite with mview|done].
Qed.

(** ** Faults keep the invariant *)

Lemma base_div a : is_u32 a -> page_base a = 4096 * (a / 4096).
Proof using.
  intros Ha. destruct (page_split a Ha) as [E _]. rewrite page_off_mod in E.
  pose proof (Z.div_mod a 4096 ltac:(lia)). lia.
Qed.

Lemma base_testbit a k : is_u32 a -> 12 <= k -> Z.testbit (page_base a) k = Z.testbit a k.
Proof using.
  intros Ha Hk. rewrite (base_div a Ha).
  replace k with (k - 12 + 12) by lia. rewrite <- !Z.div_pow2_bits by lia. change (2 ^ 12) with 4096.
  by rewrite Z.mul_comm, Z.div_mul by lia.
Qed.

Lemma base_pair a k : is_u32 a -> 12 <= k -> page_base a / 2 ^ (k + 1) = a / 2 ^ (k + 1).
Proof using.
  intros Ha Hk. rewrite (base_div a Ha).
  replace (2 ^ (k + 1)) with (4096 * 2 ^ (k - 11)).
  - rewrite <- !Z.div_div by lia. by rewrite (Z.mul_comm 4096), Z.div_mul by lia.
  - change 4096 with (2 ^ 12). rewrite <- Z.pow_add_r by lia. f_equal. lia.
Qed.

(** An entry translates the page like any address in it. *)
Lemma translate_page e a rw p q : entry_wf e -> is_u32 a -> tlb_translate a rw e = TLBRET_MATCH p q ->
  exists p', tlb_translate (page_base a) 0 e = TLBRET_MATCH p' q /\ page_base p' = page_base p.
Proof using.
  intros ((k & Hk) & _) Ha. pose proof (page_base_addr a Ha) as [Hb _].
  unfold tlb_translate. rewrite !(odd_page_bit e k Hk) by (unfold in_width in *; lia).
  rewrite base_testbit by (destruct Hk; done || lia).
  destruct (negb _); [done|]. destruct (_ || _); [|done]. intros [= <- <-].
  eexists. split; [done|]. rewrite !page_base_lor. f_equal.
  unfold page_base. rewrite <- !Z.land_assoc. f_equal.
  by rewrite (Z.land_comm _ 0xfffff000), Z.land_assoc.
Qed.

Lemma match_page e asid a : entry_wf e -> is_u32 a -> tlb_match asid (page_base a) e = tlb_match asid a e.
Proof using.
  intros ((k & Hk) & _) Ha. rewrite !(tlb_match_div e k Hk). rewrite base_pair; [done|done|].
  destruct Hk; lia.
Qed.

Lemma scan_page asid a rw l p q : Forall entry_wf l -> is_u32 a -> tlb_scan asid a rw l = TLBRET_MATCH p q ->
  exists p', tlb_scan asid (page_base a) 0 l = TLBRET_MATCH p' q /\ page_base p' = page_base p.
Proof using.
  intros Hl Ha. induction Hl as [|e l He Hl IH]; cbn; [done|]. rewrite match_page by done.
  destruct (tlb_match asid a e); [by apply translate_page|done].
Qed.

Lemma base_sub a b : is_u32 a -> b mod 4096 = 0 -> 0 <= b <= a -> page_base (a - b) = page_base a - b.
Proof using.
  intros Ha Hb Hab. unfold in_width in *. rewrite !base_div by (unfold in_width; lia).
  apply Z.mod_divide in Hb as [c ->]; [|lia].
  replace (a - c * 4096) with (a + - c * 4096) by lia. rewrite Z.div_add by lia. lia.
Qed.

Lemma gpa_page env a rw p q : mips_wf env -> is_u32 a -> get_physical_address env a rw = TLBRET_MATCH p q ->
  exists p', get_physical_address env (page_base a) 0 = TLBRET_MATCH p' q /\ page_base p' = page_base p.
Proof using.
  intros Hw Ha. unfold get_physical_address, do_map_address. rewrite (wf_map _ Hw).
  assert (HM : r4k_map_address env a rw = TLBRET_MATCH p q ->
    exists p', r4k_map_address env (page_base a) 0 = TLBRET_MATCH p' q /\ page_base p' = page_base p).
  { apply scan_page; [apply Forall_take, Hw|done]. }
  assert (Hd : 4096 * (a / 4096) <= a < 4096 * (a / 4096) + 4096)
    by (pose proof (Z.div_mod a 4096 ltac:(lia)); pose proof (Z.mod_pos_bound a 4096 ltac:(lia)); lia).
  pose proof (base_div a Ha) as Hb. pose proof (page_base_base a) as Hbb.
  assert (C : forall x, (page_base a <=? 4096 * x + 4095) = (a <=? 4096 * x + 4095)) by
    (intros x; rewrite Hb; apply eq_true_iff_eq; rewrite !Z.leb_le; lia).
  assert (C' : forall x, (page_base a <? 4096 * x) = (a <? 4096 * x)) by
    (intros x; rewrite Hb; apply eq_true_iff_eq; rewrite !Z.ltb_lt; lia).
  pose proof (C 0x7ffff) as C0. change (4096 * 0x7ffff + 4095) with 0x7fffffff in C0.
  pose proof (C' 0xa0000) as C1. change (4096 * 0xa0000) with 0xa0000000 in C1.
  pose proof (C' 0xc0000) as C2. change (4096 * 0xc0000) with 0xc0000000 in C2.
  pose proof (C' 0xe0000) as C3. change (4096 * 0xe0000) with 0xe0000000 in C3.
  rewrite C0, C1, C2, C3. clear C C' C0 C1 C2 C3.
  destruct (Z.leb_spec a 0x7fffffff); [destruct (has _ _); [|done]|].
  - intros [= <- <-]. eexists. split; [done|]. unfold page_base. rewrite <- !Z.land_assoc. done.
  - destruct (Z.ltb_spec a 0xa0000000); [destruct (_ && _); [|done]|].
    + intros [= <- <-]. eexists. split; [done|].
      rewrite !base_sub; [by rewrite Hbb|..]; try done; try lia. by apply page_base_addr.
    + destruct (Z.ltb_spec a 0xc0000000); [destruct (_ && _); [|done]|].
      * intros [= <- <-]. eexists. split; [done|].
        rewrite !base_sub; [by rewrite Hbb|..]; try done; try lia. by apply page_base_addr.
      * destruct (a <? 0xe0000000); [destruct (_ || _)|destruct (_ && _)]; done.
Qed.

Lemma gpa_prot env a rw p q : map_address env = r4k_mmu -> get_physical_address env a rw = TLBRET_MATCH p q ->
  q = PAGE_READ \/ q = Z.lor PAGE_READ PAGE_WRITE.
Proof using.
  assert (S : forall l asid, tlb_scan asid a rw l = TLBRET_MATCH p q -> q = PAGE_READ \/ q = Z.lor PAGE_READ PAGE_WRITE).
  { induction l as [|e l IH]; intros asid; cbn; [done|]. destruct (tlb_match _ _ _); [|apply IH].
    unfold tlb_translate. destruct (negb _); [done|]. destruct (_ || _); [|done].
    intros [= _ <-]. destruct (truth _); auto. }
  unfold get_physical_address, do_map_address. intros ->. cbv zeta.
  split_ifs; try done; first [apply S | (intros [= _ <-]; auto)].
Qed.

(** The entry [tlb_set_page] makes. *)
Lemma set_page_entry a pa prot mode w t (s : phys) : l1_phys_map s = l1_phys_map s0 -> page_addr a ->
  prot = PAGE_READ \/ prot = Z.lor PAGE_READ PAGE_WRITE ->
  let t' := (tlb_set_page phys_ram_base io_mem_watch a pa prot mode w t s).2 in
  (forall m i, (m, i) <> (mode, tlb_index a) -> t' m i = t m i) /\
  (forall b, page_addr b -> caches (t' mode (tlb_index a)) b = true -> b = a) /\
  entry_maps (t' mode (tlb_index a)) a pa prot.
Proof using Hmap Hwatch.
  intros Hl Ha Hp. assert (Hm : map_ok s).
  { intros x. rewrite (page_desc_map s0 s) by done. apply Hmap. }
  assert (Hpd : page_desc pa s = page_desc pa s0) by (by apply page_desc_map).
  unfold tlb_set_page. set (prot' := if has prot PAGE_READ then _ else _).
  assert (R : has prot' PAGE_READ = true /\ has prot' PAGE_EXEC = true /\
              has prot' PAGE_WRITE = has prot PAGE_WRITE) by (by destruct Hp as [-> | ->]).
  destruct R as (R1 & R2 & R3).
  pose proof (set_page_hit phys_ram_base io_mem_watch pa a prot' mode w t s Hm Hwatch (proj1 Ha)) as Hhit.
  rewrite (page_addr_base a Ha) in Hhit. cbv zeta in Hhit. destruct Hhit as (H1 & H2 & H3).
  specialize (H1 R1). specialize (H2 R2). revert H1 H2 H3. unfold tlb_set_page_exec. rewrite Hpd.
  destruct (page_target phys_ram_base a pa (page_desc pa s0)) as [address ad] eqn:Et.
  destruct (watch_page _ _ _ _ _ _ _) as [[address' pd'] w']. cbn [snd].
  unfold upd_entry. rewrite !Z.eqb_refl. cbn [andb]. intros H1 H2 H3. split; [|split].
  - intros m i Hne. destruct (Z.eqb_spec m mode), (Z.eqb_spec i (tlb_index a)); cbn [andb]; congruence.
  - intros b Hb. unfold caches. rewrite H1, H2, !orb_true_iff, !Z.eqb_eq.
    intros [[H|H]|H]; [done| |done]. destruct (has prot' PAGE_WRITE) eqn:Ew; [by rewrite H3 in H|].
    cbn in H. rewrite Ew in H. exfalso. pose proof (tag_invalid b Hb) as HI. apply Z.eqb_neq in HI. done.
  - split; [cbn; by rewrite Et|]. cbn. rewrite R3. by destruct (has prot PAGE_WRITE).
Qed.

(** The CPU is in one of its three modes; debug mode is a kernel mode. *)
Definition mode_ok (env : CPUMIPSState) : Prop :=
  cpu_mmu_index env < NB_MMU_MODES /\ (has (hflags env) MIPS_HFLAG_DM = true -> cpu_mmu_index env = 0).

Lemma mode_cases h : let x := Z.land h 7 in 0 <= x < 8 /\ Z.land h 3 = Z.land x 3 /\ Z.land h 4 = Z.land x 4.
Proof using.
  split; [|by rewrite <- !Z.land_assoc]. change 7 with (Z.ones 3). rewrite Z.land_ones by lia.
  by apply Z.mod_pos_bound.
Qed.

Lemma gpa_mode env a rw : mode_ok env ->
  get_physical_address (at_mode (cpu_mmu_index env) env) a rw = get_physical_address env a rw.
Proof using.
  intros [H1 H2]. unfold get_physical_address, at_mode, do_map_address.
  assert (E : let k1 := Z.land (hflags env) MIPS_HFLAG_MODE in
              let k2 := Z.land (cpu_mmu_index env) MIPS_HFLAG_MODE in
              (k1 =? MIPS_HFLAG_UM) = (k2 =? MIPS_HFLAG_UM) /\ (k1 =? MIPS_HFLAG_SM) = (k2 =? MIPS_HFLAG_SM)).
  { unfold cpu_mmu_index, has, MIPS_HFLAG_MODE, MIPS_HFLAG_KSU, MIPS_HFLAG_DM, NB_MMU_MODES in *.
    pose proof (mode_cases (hflags env)) as M. cbv zeta in M. destruct M as (M1 & M2 & M3).
    rewrite M2, M3 in *. set (x := Z.land (hflags env) 7) in *. clearbody x. clear M2 M3.
    assert (C : x = 0 \/ x = 1 \/ x = 2 \/ x = 3 \/ x = 4 \/ x = 5 \/ x = 6 \/ x = 7) by lia.
    destruct C as [->|[->|[->|[->|[->|[->|[->| ->]]]]]]]; try done; try (by specialize (H2 eq_refl)). }
  destruct E as [E1 E2]. cbn [hflags]. cbv zeta.
  change (hflags (env <| hflags := cpu_mmu_index env |>)) with (cpu_mmu_index env). by rewrite E1, E2.
Qed.

Lemma fault_inv env address rw (s : phys) r env' : inv env -> mode_ok env -> is_u32 address ->
  l1_phys_map s = l1_phys_map s0 ->
  cpu_mips_handle_mmu_fault phys_ram_base io_mem_watch env address rw (cpu_mmu_index env) s = (r, env') ->
  inv env'.
Proof using Hmap Hwatch.
  intros Hi Hmo Ha Hl. unfold cpu_mips_handle_mmu_fault. destruct Hi as [Hw Hc].
  assert (Hr : forall ret, inv (raise_mmu_fault ret address (Z.land rw 1) env)).
  { intros ret. unfold raise_mmu_fault. destruct (fault_code ret _) as [ex cd].
    set (hi := Z.lor (Z.land (CP0_EntryHi env) 0xff) (Z.land address 0xffffe000)).
    assert (Hh : is_u32 hi) by (apply lor_width; [lia|apply land_width_l; [lia|apply Hw]|by apply land_width_l]).
    eapply (inv_view (env <| CP0_EntryHi := hi |>)); [|done..]. apply hi_inv; [done|done|].
    unfold hi. rewrite Z.land_lor_distr_l, <- !Z.land_assoc, Z.land_0_r, Z.lor_0_r. done. }
  destruct (get_physical_address env address (Z.land rw 1)) as [| | | |p q] eqn:G;
    [intros [= _ <-]; apply Hr..|].
  clear Hr. change (Z.land address TARGET_PAGE_MASK) with (page_base address).
  change (Z.land p TARGET_PAGE_MASK) with (page_base p).
  pose proof (page_base_addr address Ha) as Hb. set (a := page_base address) in *.
  destruct (set_page_entry a (page_base p) q (cpu_mmu_index env) (watchpoint env) (tlb_table env) s Hl Hb
              (gpa_prot env address _ p q (wf_map _ Hw) G)) as (T1 & T2 & T3).
  destruct (gpa_page env address _ p q Hw Ha G) as (p' & G' & Hp').
  destruct (tlb_set_page _ _ _ _ _ _ _ _ _) as [w' t']. cbn [snd] in T1, T2, T3. intros [= _ <-].
  split; [destruct Hw; by constructor|]. intros m b Hm Hbb. cbn [tlb_table].
  change (tlb_table (env <| watchpoint := w' |> <| tlb_table := t' |>)) with t'. intros Hca.
  destruct (decide ((m, tlb_index b) = (cpu_mmu_index env, tlb_index a))) as [E|E].
  - injection E as Em Ei. rewrite Em, Ei in *. assert (b = a) as -> by (by apply T2).
    exists p', q. split; [|by rewrite Hp']. rewrite <- G'. by rewrite <- (gpa_mode env).
  - rewrite (T1 _ _ E) in *. destruct (Hc m b Hm Hbb Hca) as (pa & prot & G2 & M2). by exists pa, prot.
Qed.

(** ** Runs *)

(** A step of the guest: an instruction on the system registers or the TLB, an exception,
    a return, an access that misses the software TLB, or anything on the general registers
    and the program counter.  A TLB entry is written only where it overlaps no other,
    and ERL, on which the user segment depends, does not change. *)
Inductive mips_step (env : CPUMIPSState) : CPUMIPSState -> Prop :=
| StepRun g p : mips_step env (env <| gpr := g |> <| PC := p |>)
| StepIndex T0 : mips_step env (op_mtc0_index T0 env)
| StepLo0 T0 : mips_step env (op_mtc0_entrylo0 T0 env)
| StepLo1 T0 : mips_step env (op_mtc0_entrylo1 T0 env)
| StepContext T0 : mips_step env (op_mtc0_context T0 env)
| StepWired T0 : mips_step env (op_mtc0_wired T0 env)
| StepPageMask T0 : mask_wf (Z.land T0 0x1fffe000) -> mips_step env (op_mtc0_pagemask T0 env)
| StepEntryHi T0 : is_u32 T0 -> mips_step env (op_mtc0_entryhi T0 env)
| StepStatus T0 : status (op_mtc0_status T0 env) CP0St_ERL = status env CP0St_ERL ->
    mips_step env (op_mtc0_status T0 env)
| StepTlbwi env' : fresh_for env (index_entry env) (nb_tlb env) -> r4k_do_tlbwi env = Some env' ->
    mips_step env env'
| StepTlbwr env' : fresh_all env -> r4k_do_tlbwr env = Some env' -> mips_step env env'
| StepTlbp env' : r4k_do_tlbp env = Some env' -> mips_step env env'
| StepTlbr env' : r4k_do_tlbr env = Some env' -> mips_step env env'
| StepMiss address rw (s : phys) r env' : mode_ok env -> is_u32 address -> l1_phys_map s = l1_phys_map s0 ->
    cpu_mips_handle_mmu_fault phys_ram_base io_mem_watch env address rw (cpu_mmu_index env) s = (r, env') ->
    mips_step env env'
| StepRaise x code : mips_step env (env <| exception_index := x |> <| error_code := code |>)
| StepInterrupt reset env' : exception_index env <> EXCP_RESET -> do_interrupt reset env = Some env' ->
    status env' CP0St_ERL = status env CP0St_ERL -> mips_step env env'
| StepEret : status (op_eret env) CP0St_ERL = status env CP0St_ERL -> mips_step env (op_eret env)
| StepDeret : mips_step env (op_deret env).

Lemma step_inv env env' : inv env -> mips_step env env' -> inv env'.
Proof using Hmap Hwatch.
  intros Hi Hs. destruct Hs; try (by apply (inv_view env)).
  - by apply wired_inv.
  - by apply mask_inv.
  - by apply entryhi_inv.
  - apply (inv_view env); [done| |done]. unfold op_mtc0_status. cbv zeta. by autorewrite with mview.
  - by eapply tlbwi_inv.
  - by eapply tlbwr_inv.
  - by eapply tlbp_inv.
  - by eapply tlbr_inv.
  - by eapply fault_inv.
  - apply (inv_view env); [done|by eapply interrupt_view|done].
  - apply (inv_view env); [done| |done]. unfold op_eret. cbv zeta. rewrite lladdr_view. by autorewrite with mview.
  - apply (inv_view env); [done| |].
    + unfold op_deret. cbv zeta. rewrite lladdr_view. by autorewrite with mview.
    + unfold status, op_deret. cbv zeta. by rewrite lladdr_status, compute_hflags_status.
Qed.

Lemma run_inv env env' : inv env -> rtc mips_step env env' -> inv env'.
Proof using Hmap Hwatch. intros Hi Hr. induction Hr; [done|]. eapply IHHr, step_inv; eauto. Qed.


End Coherence.

(** ** Refills *)

Lemma scan_nomatch asid a rw l j e : tlb_scan asid a rw l = TLBRET_NOMATCH -> l !! j = Some e ->
  tlb_match asid a e = false.
Proof.
  revert j. induction l as [|e' l IH]; intros j; cbn; [done|].
  destruct (tlb_match asid a e') eqn:E.
  - unfold tlb_translate. split_ifs; done.
  - intros H. destruct j as [|j]; cbn; [by intros [= <-]|by apply IH].
Qed.

Lemma scan_only asid a rw l j e : l !! j = Some e -> tlb_match asid a e = true ->
  (forall i e', l !! i = Some e' -> i <> j -> tlb_match asid a e' = false) ->
  tlb_scan asid a rw l = tlb_translate a rw e.
Proof.
  revert j. induction l as [|e' l IH]; intros j; [done|]. destruct j as [|j]; cbn.
  - intros [= ->] Hm _. by rewrite Hm.
  - intros Hj Hm Hu. rewrite (Hu O e') by done. apply (IH j); [done|done|].
    intros i e2 Hi Hne. apply (Hu (S i)); [done|congruence].
Qed.

(** The registers a translation depends on, the TLB apart. *)
Definition mode_regs (env : CPUMIPSState) := (cur_asid env, map_address env, hflags env, CP0_Status env).

(** A random write puts the entry of the registers somewhere among the entries, the others
    are ones there were. *)
Lemma tlbwr_used env env' : mips_wf env -> r4k_do_tlbwr env = Some env' ->
  mode_regs env' = mode_regs env /\
  exists j, used env' !! j = Some (filled_entry env) /\
    forall i e, used env' !! i = Some e -> i <> j -> exists i', used env !! i' = Some e.
Proof.
  unfold r4k_do_tlbwr. intros Hw H. destruct (wf_use _ Hw) as [[U0 U1] U2].
  pose proof (random_range env (wf_shape _ Hw)) as R.
  destruct (cpu_mips_get_random env) as [r env0]. destruct R as [R E0].
  pose proof (wf_wired _ Hw) as Hwi.
  assert (Hw0 : mips_wf env0) by (rewrite E0; destruct Hw; by constructor).
  assert (Hin : tlb_in_use env0 = tlb_in_use env) by (by rewrite E0).
  assert (Hused : used env0 = used env) by (by rewrite E0).
  assert (Hfe : filled_entry env0 = filled_entry env) by (by rewrite E0).
  destruct (r4k_invalidate_tlb r true env0) as [env1|] eqn:E; [|done]. injection H as <-.
  assert (Hreplace : forall t, let env1 := env0 <| tlb_table := t |> in
    exists j, used (r4k_fill_tlb r env1) !! j = Some (filled_entry env) /\
    forall i e, used (r4k_fill_tlb r env1) !! i = Some e -> i <> j -> exists i', used env !! i' = Some e).
  { intros t e1. unfold e1. exists (Z.to_nat r).
    destruct (used_fill (env0 <| tlb_table := t |>) r) as [->|Hu]; [|cbn in Hu; lia].
    change (used (env0 <| tlb_table := t |>)) with (used env0). change (filled_entry (env0 <| tlb_table := t |>)) with (filled_entry env0).
    split.
    - rewrite Hfe. apply list_lookup_insert_eq. unfold used. rewrite length_take, (wf_len _ Hw0). lia.
    - intros i e Hi Hne. exists i. rewrite list_lookup_insert_ne in Hi by done. by rewrite Hused in Hi. }
  unfold r4k_invalidate_tlb in E. cbn [andb] in E. destruct (_ && negb _).
  - injection E as <-. split; [by rewrite E0|].
    destruct (Hreplace (tlb_table env0)) as (j & Hj). rewrite set_table_same in Hj. by exists j.
  - destruct (Z.ltb_spec (tlb_in_use env0) MIPS_TLB_MAX) as [Hlt|Hge].
    + injection E as <-. split; [by rewrite E0|].
      exists (Z.to_nat r).
      change (r4k_fill_tlb r _) with (shadowed env0 r). rewrite used_shadowed by (done || lia).
      pose proof (used_at env0 r Hw0 ltac:(lia)) as Hat.
      assert (Hlen : (Z.to_nat r < length (used env0))%nat) by (by apply lookup_lt_Some in Hat).
      rewrite Hfe. split.
      * rewrite lookup_app_l by (by rewrite length_insert). by apply list_lookup_insert_eq.
      * intros i e Hi Hne. apply lookup_snoc_Some in Hi as [[_ Hi]|[_ <-]].
        -- exists i. rewrite list_lookup_insert_ne in Hi by done. by rewrite Hused in Hi.
        -- exists (Z.to_nat r). by rewrite <- Hused.
    + destruct (flush_entry_pages _ _) as [t|]; [|done]. injection E as <-.
      split; [by rewrite E0|].
      apply Hreplace.
Qed.

Lemma gpa_nomatch env a rw : map_address env = r4k_mmu -> get_physical_address env a rw = TLBRET_NOMATCH ->
  r4k_map_address env a rw = TLBRET_NOMATCH /\
  forall env', mode_regs env' = mode_regs env -> get_physical_address env' a rw = r4k_map_address env' a rw.
Proof.
  intros Hm. unfold mode_regs, get_physical_address, do_map_address. rewrite Hm. cbv zeta.
  intros H. split; [revert H; split_ifs; done|]. intros env' [= _ -> -> ->]. revert H. split_ifs; done.
Qed.

Lemma shiftr_page x : is_u32 x -> Z.land x 0xffffe000 / 2 ^ 13 = x / 2 ^ 13.
Proof.
  intros Hx. rewrite <- !Z.shiftr_div_pow2, Z.shiftr_land by lia. change (Z.shiftr 0xffffe000 13) with (Z.ones 19).
  rewrite Z.land_ones, Z.mod_small; [done| |lia].
  rewrite Z.shiftr_div_pow2 by lia. unfold in_width in Hx. split; [apply Z.div_pos; lia|].
  apply Z.div_lt_upper_bound; lia.
Qed.

Lemma translate_filled env a rw : page_shift (filled_entry env) 12 -> is_u32 a ->
  let lo := if Z.testbit a 12 then CP0_EntryLo1 env else CP0_EntryLo0 env in
  tlb_translate a rw (filled_entry env) =
    if negb (has lo 2) then TLBRET_INVALID
    else if (rw =? 0) || has lo 4 then
      TLBRET_MATCH (Z.lor (u32 (Z.shiftl (Z.shiftr lo 6) 12)) (Z.land a 0xfff))
        (if has lo 4 then Z.lor PAGE_READ PAGE_WRITE else PAGE_READ)
    else TLBRET_DIRTY.
Proof.
  intros Hk Ha. unfold tlb_translate. rewrite (odd_page_bit _ 12 Hk), (mask_half _ 12 Hk) by (unfold in_width in Ha; lia).
  assert (Ev : forall b : bool, truth (b2z b) = b) by (by intros []).
  change (V0 (filled_entry env)) with (b2z (has (CP0_EntryLo0 env) 2)).
  change (V1 (filled_entry env)) with (b2z (has (CP0_EntryLo1 env) 2)).
  change (D0 (filled_entry env)) with (b2z (has (CP0_EntryLo0 env) 4)).
  change (D1 (filled_entry env)) with (b2z (has (CP0_EntryLo1 env) 4)).
  cbv zeta. destruct (Z.testbit a 12); by rewrite !Ev.
Qed.

(** The entry of the registers, with 4 KB pages, is one for the address in EntryHi. *)
Lemma filled_match env address : is_u32 address -> CP0_PageMask env = 0 ->
  Z.land (CP0_EntryHi env) 0xffffe000 = Z.land address 0xffffe000 ->
  page_shift (filled_entry env) 12 /\ tlb_match (cur_asid env) address (filled_entry env) = true.
Proof.
  intros Ha Hm Hh. assert (Hk : page_shift (filled_entry env) 12).
  { split; [lia|]. unfold tlb_mask. change (PageMask (filled_entry env)) with (CP0_PageMask env). by rewrite Hm. }
  split; [done|]. rewrite (tlb_match_div _ 12 Hk).
  change (VPN (filled_entry env)) with (Z.land (CP0_EntryHi env) 0xffffe000).
  change (ASID (filled_entry env)) with (cur_asid env). rewrite Z.eqb_refl, orb_true_r. cbn [andb].
  apply Z.eqb_eq. rewrite Hh. change (12 + 1) with 13. by apply shiftr_page.
Qed.

(** What a failed access leaves. *)
Lemma raise_facts ret address rw env : mips_wf env -> is_u32 address ->
  let env1 := raise_mmu_fault ret address rw env in
  mips_wf env1 /\ mode_regs env1 = mode_regs env /\ used env1 = used env /\
  tlb_in_use env1 = tlb_in_use env /\ CP0_PageMask env1 = CP0_PageMask env /\
  Z.land (CP0_EntryHi env1) 0xffffe000 = Z.land address 0xffffe000 /\
  (exception_index env1, error_code env1) = fault_code ret rw /\ CP0_BadVAddr env1 = address.
Proof.
  intros Hw Ha. cbv zeta. unfold raise_mmu_fault. destruct (fault_code ret rw) as [ex cd].
  set (hi := Z.lor (Z.land (CP0_EntryHi env) 0xff) (Z.land address 0xffffe000)).
  assert (Has : Z.land hi 0xff = cur_asid env).
  { unfold hi. rewrite Z.land_lor_distr_l, <- !Z.land_assoc, Z.land_0_r, Z.lor_0_r. done. }
  assert (Hv : Z.land hi 0xffffe000 = Z.land address 0xffffe000).
  { unfold hi. by rewrite Z.land_lor_distr_l, <- !Z.land_assoc, Z.land_0_r, Z.lor_0_l. }
  assert (Hh : is_u32 hi) by (apply lor_width; [lia|apply land_width_l; [lia|apply Hw]|by apply land_width_l]).
  split; [destruct Hw; constructor; try done; exact Hh|].
  split.
  - transitivity (Z.land hi 0xff, map_address env, hflags env, CP0_Status env); [done|]. by rewrite Has.
  - do 3 (split; [done|]). split; [exact Hv|done].
Qed.

(** What the handler's loads leave. *)
Lemma load_facts lo0 lo1 env : mips_wf env -> in_width 30 lo0 -> in_width 30 lo1 ->
  let env1 := op_mtc0_entrylo1 lo1 (op_mtc0_entrylo0 lo0 env) in
  mips_wf env1 /\ mode_regs env1 = mode_regs env /\ used env1 = used env /\
  tlb_in_use env1 = tlb_in_use env /\ CP0_PageMask env1 = CP0_PageMask env /\
  CP0_EntryHi env1 = CP0_EntryHi env /\ CP0_EntryLo0 env1 = lo0 /\ CP0_EntryLo1 env1 = lo1.
Proof.
  intros Hw H0 H1.
  assert (L : forall x, in_width 30 x -> Z.land x 0x3fffffff = x).
  { intros x Hx. change 0x3fffffff with (Z.ones 30). rewrite Z.land_ones by lia. by apply Z.mod_small. }
  cbv zeta. unfold op_mtc0_entrylo1, op_mtc0_entrylo0. rewrite !L by done.
  split; [destruct Hw; by constructor|]. done.
Qed.

Lemma tlbwr_returns env : mips_wf env ->
  (tlb_in_use env < MIPS_TLB_MAX \/ forall e, e ∈ used env -> last_page e = false) ->
  exists env', r4k_do_tlbwr env = Some env'.
Proof.
  intros Hw Hl. destruct (wf_use _ Hw) as [[U0 U1] U2]. unfold r4k_do_tlbwr.
  pose proof (random_range env (wf_shape _ Hw)) as R.
  destruct (cpu_mips_get_random env) as [r env0]. destruct R as [R E0]. pose proof (wf_wired _ Hw) as Hwi.
  assert (Hw0 : mips_wf env0) by (rewrite E0; destruct Hw; by constructor).
  assert (Hin : tlb_in_use env0 = tlb_in_use env) by (by rewrite E0).
  unfold r4k_invalidate_tlb. destruct (_ && negb _); [eauto|]. cbn [andb].
  destruct (Z.ltb_spec (tlb_in_use env0) MIPS_TLB_MAX); [eauto|].
  destruct Hl as [|Hl]; [lia|]. destruct (entry_wf_at env0 r Hw0 ltac:(lia)) as [We _].
  destruct (flush_entry_ends (entry_at env0 r) (tlb_table env0) We) as [[t ->]|Hlast]; [eauto|].
  rewrite Hl in Hlast; [done|]. apply list_elem_of_lookup. exists (Z.to_nat r).
  replace (used env) with (used env0) by (by rewrite E0). apply used_at; [done|lia].
Qed.

(** The kernel's refill handler: it loads the pair of pages and writes a random entry. *)
Definition refill (lo0 lo1 : Z) (env : CPUMIPSState) : option CPUMIPSState :=
  r4k_do_tlbwr (op_mtc0_entrylo1 lo1 (op_mtc0_entrylo0 lo0 env)).

Section Refill.
Context {D : Type}.
Context (phys_ram_base io_mem_watch : Z).

(** C29. A TLB miss is resolved by the refill handler, without a probe: the miss raises the
    refill exception with the address in the registers, and once the handler has loaded
    a pair of valid pages (writable ones for a store) and executed [tlbwr], the access
    translates to the page the handler gave, whichever entry was replaced, and the
    retry enters it into the software TLB. *)
Theorem refill_resolves_miss env address rw (s : phys (D := D)) lo0 lo1 :
  mips_wf env -> is_u32 address -> CP0_PageMask env = 0 -> in_width 30 lo0 -> in_width 30 lo1 ->
  get_physical_address env address (Z.land rw 1) = TLBRET_NOMATCH ->
  let lo := if Z.testbit address 12 then lo1 else lo0 in
  has lo 2 = true -> Z.land rw 1 = 0 \/ has lo 4 = true ->
  tlb_in_use env < MIPS_TLB_MAX \/ (forall e, e ∈ used env -> last_page e = false) ->
  exists env1 env2 prot,
    cpu_mips_handle_mmu_fault phys_ram_base io_mem_watch env address rw (cpu_mmu_index env) s = (1, env1) /\
    exception_index env1 = (if truth (Z.land rw 1) then EXCP_TLBS else EXCP_TLBL) /\ error_code env1 = 1 /\
    CP0_BadVAddr env1 = address /\
    refill lo0 lo1 env1 = Some env2 /\
    get_physical_address env2 address (Z.land rw 1) =
      TLBRET_MATCH (Z.lor (u32 (Z.shiftl (Z.shiftr lo 6) 12)) (Z.land address 0xfff)) prot /\
    (cpu_mips_handle_mmu_fault phys_ram_base io_mem_watch env2 address rw (cpu_mmu_index env2) s).1 = 0.
Proof using.
  intros Hw Ha Hpm Hlo0 Hlo1 Hn lo Hv Hd Hl. unfold cpu_mips_handle_mmu_fault at 1. rewrite Hn.
  pose proof (raise_facts TLBRET_NOMATCH address (Z.land rw 1) env Hw Ha) as F. cbv zeta in F.
  destruct F as (Hw1 & Hr1 & Hu1 & Hin1 & Hp1 & Hh1 & Hx1 & Hb1).
  set (env1 := raise_mmu_fault _ _ _ _) in *. clearbody env1. exists env1. unfold refill.
  pose proof (load_facts lo0 lo1 env1 Hw1 Hlo0 Hlo1) as F. cbv zeta in F.
  destruct F as (Hwh & Hrh & Huh & Hinh & Hph & Hhh & E0 & E1).
  set (envh := op_mtc0_entrylo1 lo1 (op_mtc0_entrylo0 lo0 env1)) in *. clearbody envh.
  destruct (tlbwr_returns envh Hwh) as [env2 E2]; [by rewrite Hinh, Hin1, Huh, Hu1|].
  destruct (tlbwr_used envh env2 Hwh E2) as (Hr2 & j & Hj & Hrest).
  destruct (gpa_nomatch env address (Z.land rw 1) (wf_map _ Hw) Hn) as [Hscan Hgpa].
  assert (Hr : mode_regs env2 = mode_regs env) by congruence.
  destruct (filled_match envh address Ha) as [Hke Hme]; [congruence|congruence|].
  assert (Hasid : cur_asid envh = cur_asid env2) by (unfold mode_regs in *; congruence).
  assert (Hasid2 : cur_asid env2 = cur_asid env) by (unfold mode_regs in *; congruence).
  rewrite Hasid in Hme.
  assert (Hscan2 : r4k_map_address env2 address (Z.land rw 1) = tlb_translate address (Z.land rw 1) (filled_entry envh)).
  { apply (scan_only _ _ _ _ j _ Hj Hme). intros i e' Hi Hne. destruct (Hrest i e' Hi Hne) as [i' Hi'].
    rewrite Huh, Hu1 in Hi'. rewrite Hasid2. by eapply scan_nomatch. }
  pose proof (Hgpa env2 Hr) as G2. rewrite Hscan2, translate_filled, E0, E1 in G2 by done. fold lo in G2.
  rewrite Hv in G2. cbn [negb] in G2.
  replace (_ || _) with true in G2 by (destruct Hd as [->| ->]; by rewrite ?orb_true_r).
  exists env2, (if has lo 4 then Z.lor PAGE_READ PAGE_WRITE else PAGE_READ). cbn in Hx1. injection Hx1 as X1 X2.
  do 6 (split; [done|]). unfold cpu_mips_handle_mmu_fault. rewrite G2. by destruct (tlb_set_page _ _ _ _ _ _ _ _ _).
Qed.
End Refill.

(** ** The shadow entries are invisible

    The TLB of the architecture: the entries an instruction can name, without the shadow
    entries and the software TLB. *)

Definition visible (env : CPUMIPSState) : CPUMIPSState :=
  env <| r4k := take (Z.to_nat (nb_tlb env)) (r4k env) |> <| tlb_in_use := nb_tlb env |>
      <| tlb_table := fun _ _ => mkEntry INVALID INVALID INVALID 0 |>.

Inductive tlb_op : Type := TLBWI | TLBWR | TLBP | TLBR | MTC0_EntryHi (v : Z).

Definition exec_tlb (op : tlb_op) (env : CPUMIPSState) : option CPUMIPSState :=
  match op with
  | TLBWI => r4k_do_tlbwi env
  | TLBWR => r4k_do_tlbwr env
  | TLBP => r4k_do_tlbp env
  | TLBR => r4k_do_tlbr env
  | MTC0_EntryHi v => Some (op_mtc0_entryhi v env)
  end.

Fixpoint run_tlb (ops : list tlb_op) (env : CPUMIPSState) : option CPUMIPSState :=
  match ops with
  | [] => Some env
  | op :: ops' => match exec_tlb op env with Some env => run_tlb ops' env | None => None end
  end.

(** What the instructions do to the architecture's TLB and registers. *)
Definition arch_tlb (op : tlb_op) (env : CPUMIPSState) : CPUMIPSState :=
  match op with
  | TLBWI => r4k_fill_tlb (index_entry env) env
  | TLBWR => let '(r, env) := cpu_mips_get_random env in r4k_fill_tlb r env
  | TLBP =>
    env <| CP0_Index := match find_match (cur_asid env) (CP0_EntryHi env) 0 (r4k env) with
                        | Some i => i
                        | None => Z.lor (u32 (CP0_Index env)) 0x80000000
                        end |>
  | TLBR =>
    let e := entry_at env (index_entry env) in
    env <| CP0_EntryHi := Z.lor (VPN e) (ASID e) |> <| CP0_PageMask := PageMask e |>
        <| CP0_EntryLo0 := entry_lo (G e) (V0 e) (D0 e) (C0 e) (PFN0 e) |>
        <| CP0_EntryLo1 := entry_lo (G e) (V1 e) (D1 e) (C1 e) (PFN1 e) |>
  | MTC0_EntryHi v =>
    let val := Z.land v (Z.lor 0xffffe000 0xff) in
    let env := env <| CP0_EntryHi := val |> in
    if has (CP0_Config3 env) (bit CP0C3_MT) then
      env <| CP0_TCStatus := mem_upd (CP0_TCStatus env) (current_tc env)
               (Z.lor (Z.land (u32 (CP0_TCStatus env (current_tc env))) (Z.lnot 0xff)) (Z.land val 0xff)) |>
    else env
  end.

Definition shrunk (env : CPUMIPSState) (n : Z) (t : tlb) : CPUMIPSState :=
  env <| tlb_in_use := n |> <| tlb_table := t |>.

Lemma visible_shrunk env n t : visible (shrunk env n t) = visible env.
Proof. done. Qed.

Lemma shrunk_shrunk env n t n' t' : shrunk (shrunk env n t) n' t' = shrunk env n' t'.
Proof. done. Qed.

Lemma invalidate_shape idx env env' : r4k_invalidate_tlb idx false env = Some env' ->
  exists t, env' = shrunk env (tlb_in_use env) t.
Proof.
  unfold r4k_invalidate_tlb. destruct (_ && _); [intros [= <-]; exists (tlb_table env); by destruct env|].
  cbn [andb]. destruct (flush_entry_pages _ _) as [t|]; [|done]. intros [= <-]. exists t. by destruct env.
Qed.

Lemma flush_extra_shape n : forall env env', flush_extra n env = Some env' ->
  exists t, env' = shrunk env (tlb_in_use env - Z.of_nat n) t.
Proof.
  induction n as [|n IH]; intros env env'; cbn [flush_extra].
  - intros [= <-]. exists (tlb_table env). rewrite Z.sub_0_r. by destruct env.
  - destruct (r4k_invalidate_tlb _ _ _) as [env1|] eqn:E; [|done]. intros H.
    apply invalidate_shape in E as [t E]. apply IH in H as [t' ->]. exists t'. subst env1.
    change (env <| tlb_in_use := tlb_in_use env - 1 |>) with (shrunk env (tlb_in_use env - 1) (tlb_table env)).
    rewrite !shrunk_shrunk.
    replace (tlb_in_use env - Z.of_nat (Datatypes.S n)) with (tlb_in_use env - 1 - Z.of_nat n) by lia. done.
Qed.

Lemma flush_from_shape first env env' : shape env -> nb_tlb env <= first ->
  r4k_mips_tlb_flush_extra first env = Some env' ->
  exists n t, env' = shrunk env n t /\ shape env' /\ n <= tlb_in_use env /\ (first <= tlb_in_use env -> n = first).
Proof.
  intros (S1 & S2 & S3 & S4) Hf H. apply flush_extra_shape in H as [t ->]. eexists _, t. split; [done|].
  split; [|lia]. repeat split; try done; cbn; lia.
Qed.

Lemma fill_visible idx env : 0 <= idx < nb_tlb env -> visible (r4k_fill_tlb idx env) = r4k_fill_tlb idx (visible env).
Proof.
  intros Hi. assert (E : take (Z.to_nat (nb_tlb env)) (<[Z.to_nat idx := filled_entry env]> (r4k env)) =
    <[Z.to_nat idx := filled_entry env]> (take (Z.to_nat (nb_tlb env)) (r4k env))) by (apply take_insert_lt; lia).
  transitivity (env <| r4k := take (Z.to_nat (nb_tlb env)) (<[Z.to_nat idx := filled_entry env]> (r4k env)) |>
    <| tlb_in_use := nb_tlb env |> <| tlb_table := fun _ _ => mkEntry INVALID INVALID INVALID 0 |>); [done|].
  by rewrite E.
Qed.

Lemma fill_shape idx env : shape env -> shape (r4k_fill_tlb idx env).
Proof. intros (S1 & S2). split; [|done]. cbn. by rewrite length_insert. Qed.

Lemma index_shape env : shape env -> 0 <= index_entry env < nb_tlb env.
Proof. intros (_ & S2 & _). apply Z.mod_pos_bound. lia. Qed.

Lemma entry_visible env i : 0 <= i < nb_tlb env -> entry_at (visible env) i = entry_at env i.
Proof.
  intros Hi. unfold entry_at. change (r4k (visible env)) with (take (Z.to_nat (nb_tlb env)) (r4k env)).
  by rewrite lookup_take_lt by lia.
Qed.

Lemma random_visible env : cpu_mips_get_random (visible env) =
  ((cpu_mips_get_random env).1, visible (cpu_mips_get_random env).2).
Proof. done. Qed.

Lemma tlbwi_visible env env' : shape env -> r4k_do_tlbwi env = Some env' ->
  shape env' /\ visible env' = arch_tlb TLBWI (visible env).
Proof.
  unfold r4k_do_tlbwi. intros Hs. destruct (r4k_mips_tlb_flush_extra _ _) as [env1|] eqn:E1; [|done].
  destruct (flush_from_shape _ _ _ Hs (Z.le_refl _) E1) as (n & t & E & Hs1 & _).
  destruct (r4k_invalidate_tlb _ _ _) as [env2|] eqn:E2; [|done]. intros [= <-].
  apply invalidate_shape in E2 as [t2 E2].
  assert (Hs2 : shape env2) by (by rewrite E2).
  assert (Hv : visible env2 = visible env) by (by rewrite E2, visible_shrunk, E, visible_shrunk).
  split; [by apply fill_shape|]. rewrite fill_visible by (by apply index_shape). rewrite Hv. cbn [arch_tlb].
  f_equal. by rewrite E2, E.
Qed.

Lemma tlbwr_visible env env' : shape env -> r4k_do_tlbwr env = Some env' ->
  shape env' /\ visible env' = arch_tlb TLBWR (visible env).
Proof.
  unfold r4k_do_tlbwr, arch_tlb. intros Hs. rewrite random_visible. pose proof (random_range env Hs) as R.
  destruct (cpu_mips_get_random env) as [r env0]. destruct R as [R E0]. cbn [fst snd].
  assert (Hs0 : shape env0) by (by rewrite E0). assert (Hn : nb_tlb env0 = nb_tlb env) by (by rewrite E0).
  destruct Hs as (_ & _ & _ & Hwi).
  destruct (r4k_invalidate_tlb _ _ _) as [env1|] eqn:E1; [|done]. intros [= <-].
  assert (H1 : shape env1 /\ visible env1 = visible env0 /\ nb_tlb env1 = nb_tlb env0).
  { unfold r4k_invalidate_tlb in E1. destruct (_ && negb _); [injection E1 as <-; done|]. cbn [andb] in E1.
    destruct (Z.ltb_spec (tlb_in_use env0) MIPS_TLB_MAX).
    - injection E1 as <-. destruct Hs0 as (S1 & S2 & S3 & S4). split.
      + repeat split; cbn; rewrite ?length_insert; done || lia.
      + split; [|done]. set (e := entry_at env0 r). set (k := Z.to_nat (tlb_in_use env0)).
        transitivity (env0 <| r4k := take (Z.to_nat (nb_tlb env0)) (<[k := e]> (r4k env0)) |>
          <| tlb_in_use := nb_tlb env0 |> <| tlb_table := fun _ _ => mkEntry INVALID INVALID INVALID 0 |>); [done|].
        by rewrite take_insert_ge by lia.
    - destruct (flush_entry_pages _ _) as [t|]; [|done]. by injection E1 as <-. }
  destruct H1 as (Hs1 & Hv & Hn1). split; [by apply fill_shape|]. rewrite fill_visible by lia. by rewrite Hv.
Qed.

Lemma tlbp_visible env env' : shape env -> r4k_do_tlbp env = Some env' ->
  shape env' /\ visible env' = arch_tlb TLBP (visible env).
Proof.
  unfold r4k_do_tlbp, arch_tlb. intros Hs.
  change (find_match (cur_asid (visible env)) (CP0_EntryHi (visible env)) 0 (r4k (visible env)))
    with (find_match (cur_asid env) (CP0_EntryHi env) 0 (take (Z.to_nat (nb_tlb env)) (r4k env))).
  destruct (find_match _ _ 0 _) as [i|]; [by intros [= <-]|].
  destruct (match find_match _ _ _ _ with Some i => _ | None => _ end) as [env1|] eqn:E; [|done]. intros [= <-].
  destruct (find_match _ _ (nb_tlb env) _) as [i|] eqn:Ei; [|by injection E as <-].
  apply find_range in Ei. destruct (flush_from_shape i env env1 Hs ltac:(lia) E) as (n & t & -> & Hs1 & _). done.
Qed.

Lemma tlbr_visible env env' : shape env -> r4k_do_tlbr env = Some env' ->
  shape env' /\ visible env' = arch_tlb TLBR (visible env).
Proof.
  unfold r4k_do_tlbr, arch_tlb. intros Hs.
  change (index_entry (visible env)) with (index_entry env).
  rewrite entry_visible by (by apply index_shape). set (e := entry_at env (index_entry env)). clearbody e.
  set (env1 := if negb _ then _ else _).
  assert (H1 : shape env1 /\ visible env1 = visible env).
  { unfold env1. destruct (negb _); [|done]. split; [|done]. destruct Hs as (S1 & S2 & S3 & S4).
    repeat split; try done; cbn; lia. }
  clearbody env1. destruct H1 as [Hs1 Hv1].
  destruct (r4k_mips_tlb_flush_extra _ _) as [env2|] eqn:E; [|done]. intros [= <-].
  destruct (flush_from_shape _ _ _ Hs1 (Z.le_refl _) E) as (n & t & E2 & Hs2 & _).
  assert (Hv2 : visible env2 = visible env) by (by rewrite E2, visible_shrunk).
  split; [done|]. by rewrite <- Hv2.
Qed.

Lemma entryhi_visible v env : shape env ->
  shape (op_mtc0_entryhi v env) /\ visible (op_mtc0_entryhi v env) = arch_tlb (MTC0_EntryHi v) (visible env).
Proof.
  intros (S1 & S2 & S3 & S4). unfold op_mtc0_entryhi, arch_tlb. cbv zeta.
  assert (Hx : shape (cpu_mips_tlb_flush 1 env)) by (repeat split; try done; cbn; lia).
  change (has (CP0_Config3 (visible env <| CP0_EntryHi := Z.land v (Z.lor 0xffffe000 0xff) |>)) (bit CP0C3_MT))
    with (has (CP0_Config3 (env <| CP0_EntryHi := Z.land v (Z.lor 0xffffe000 0xff) |>)) (bit CP0C3_MT)).
  destruct (has _ _), (negb _); done.
Qed.

Lemma exec_visible op env env' : shape env -> exec_tlb op env = Some env' ->
  shape env' /\ visible env' = arch_tlb op (visible env).
Proof.
  destruct op; cbn [exec_tlb]; [apply tlbwi_visible|apply tlbwr_visible|apply tlbp_visible|apply tlbr_visible|].
  intros Hs [= <-]. by apply entryhi_visible.
Qed.

Lemma run_visible ops : forall env env', shape env -> run_tlb ops env = Some env' ->
  shape env' /\ visible env' = foldl (fun e op => arch_tlb op e) (visible env) ops.
Proof.
  induction ops as [|op ops IH]; intros env env' Hs; cbn [run_tlb foldl]; [by intros [= <-]|].
  destruct (exec_tlb op env) as [env1|] eqn:E; [|done]. intros H.
  destruct (exec_visible op env env1 Hs E) as [Hs1 <-]. by apply IH.
Qed.

Lemma scan_app asid a rw l l' : tlb_scan asid a rw l <> TLBRET_NOMATCH ->
  tlb_scan asid a rw (l ++ l') = tlb_scan asid a rw l.
Proof. induction l as [|e l IH]; cbn; [done|]. destruct (tlb_match asid a e); [done|apply IH]. Qed.


(** ** Writes that do not return *)


(** ** Writing and reading an entry *)

Lemma bits_above x i : in_width 26 x -> 26 <= i -> Z.testbit x i = false.
Proof. intros Hx. by apply (testbit_high 26). Qed.

Lemma b2z_bit (b : bool) i : 0 <= i -> Z.testbit (b2z b) i = b && (i =? 0).
Proof.
  intros Hi. destruct b; cbn [b2z andb]; [|by rewrite Z.testbit_0_l].
  destruct (Z.eqb_spec i 0) as [->|]; [done|]. change 1 with (2 ^ 0). apply Z.pow2_bits_false. lia.
Qed.

Lemma has_bit x n : 0 <= n -> has x (2 ^ n) = Z.testbit x n.
Proof. intros Hn. unfold has. rewrite <- Z.shiftl_1_l. by apply truth_land_bit. Qed.

Lemma shiftl_bit x n i : 0 <= i -> Z.testbit (Z.shiftl x n) i = (n <=? i) && Z.testbit x (i - n).
Proof.
  intros Hi. rewrite Z.shiftl_spec by lia. destruct (Z.leb_spec n i); [done|]. apply Z.testbit_neg_r. lia.
Qed.

(** The EntryLo register an entry gives back: the global bit is the one of the pair. *)
Lemma entry_lo_filled lo g : in_width 26 lo -> 0 <= g <= 1 ->
  entry_lo g (b2z (has lo 2)) (b2z (has lo 4)) (Z.land (Z.shiftr lo 3) 7) (u32 (Z.shiftl (Z.shiftr lo 6) 12))
  = Z.lor (Z.land lo 0x3fffffe) g.
Proof.
  intros Hl Hg. assert (E : u32 (Z.shiftl (Z.shiftr lo 6) 12) = Z.shiftl (Z.shiftr lo 6) 12).
  { apply wrap_small, in_width_bits; [lia|apply Z.shiftl_nonneg, Z.shiftr_nonneg; unfold in_width in Hl; lia|].
    intros i Hi. rewrite Z.shiftl_spec, Z.shiftr_spec by lia. apply bits_above; [done|lia]. }
  rewrite E. unfold entry_lo.
  change (has lo 2) with (has lo (2 ^ 1)). change (has lo 4) with (has lo (2 ^ 2)). rewrite !has_bit by lia.
  assert (Gb : forall i, 0 <= i -> Z.testbit g i = (g =? 1) && (i =? 0)).
  { intros i Hi. rewrite <- (b2z_bit (g =? 1) i Hi). f_equal. assert (C : g = 0 \/ g = 1) by lia. by destruct C as [-> | ->]. }
  apply Z.bits_inj'. intros i Hi.
  rewrite !Z.lor_spec, Z.land_spec, Z.shiftr_spec, !shiftl_bit, Gb by lia.
  set (f := Z.testbit lo). set (b := g =? 1). clearbody b.
  replace ((12 <=? i + 6) && Z.testbit (Z.shiftr lo 6) (i + 6 - 12)) with ((6 <=? i) && f i).
  2: { destruct (Z.leb_spec 6 i), (Z.leb_spec 12 (i + 6)); try (exfalso; lia); try done. cbn [andb].
       rewrite Z.shiftr_spec by lia. unfold f. f_equal. lia. }
  replace ((3 <=? i) && Z.testbit (Z.land (Z.shiftr lo 3) 7) (i - 3)) with ((3 <=? i) && (f i && Z.testbit 7 (i - 3))).
  2: { destruct (Z.leb_spec 3 i); [|done]. rewrite Z.land_spec, Z.shiftr_spec by lia. unfold f. by replace (i - 3 + 3) with i by lia. }
  replace ((1 <=? i) && Z.testbit (b2z (f 1)) (i - 1)) with (f 1 && (i =? 1)).
  2: { destruct (Z.leb_spec 1 i); [|destruct (Z.eqb_spec i 1); [lia|by rewrite andb_false_r]].
       rewrite b2z_bit by lia. cbn [andb]. by destruct (Z.eqb_spec i 1), (Z.eqb_spec (i - 1) 0); try lia. }
  replace ((2 <=? i) && Z.testbit (b2z (f 2)) (i - 2)) with (f 2 && (i =? 2)).
  2: { destruct (Z.leb_spec 2 i); [|destruct (Z.eqb_spec i 2); [lia|by rewrite andb_false_r]].
       rewrite b2z_bit by lia. cbn [andb]. by destruct (Z.eqb_spec i 2), (Z.eqb_spec (i - 2) 0); try lia. }
  destruct (decide (i < 6)) as [Hlt|Hge].
  - clearbody f. assert (C : i = 0 \/ i = 1 \/ i = 2 \/ i = 3 \/ i = 4 \/ i = 5) by lia.
    destruct C as [->|[->|[->|[->|[->| ->]]]]];
      [destruct b, (f 0)|destruct (f 1)|destruct (f 2)|destruct (f 3)|destruct (f 4)|destruct (f 5)];
      destruct (f 1), (f 2); try destruct b; done.
  - rewrite (proj2 (Z.leb_le 6 i)), (proj2 (Z.leb_le 3 i)), !(proj2 (Z.eqb_neq i _)) by lia.
    rewrite !andb_false_r. cbn [andb orb]. rewrite orb_false_r.
    change 7 with (Z.ones 3). rewrite Z.ones_spec_high, andb_false_r by lia. cbn [orb].
    destruct (decide (i < 26)).
    + replace (Z.testbit 0x3fffffe i) with true; [by rewrite andb_true_r|].
      change 0x3fffffe with (Z.shiftl (Z.ones 25) 1). rewrite Z.shiftl_spec, Z.ones_spec_low by lia. done.
    + unfold f. by rewrite bits_above by (done || lia).
Qed.

Lemma visible_regs env : CP0_EntryHi (visible env) = CP0_EntryHi env /\
  CP0_PageMask (visible env) = CP0_PageMask env /\ CP0_EntryLo0 (visible env) = CP0_EntryLo0 env /\
  CP0_EntryLo1 (visible env) = CP0_EntryLo1 env.
Proof. done. Qed.

(** What reading the entry just filled gives. *)
Lemma arch_read_filled env : (Z.to_nat (index_entry env) < length (r4k env))%nat ->
  let env1 := arch_tlb TLBR (r4k_fill_tlb (index_entry env) env) in
  let e := filled_entry env in
  CP0_EntryHi env1 = Z.lor (VPN e) (ASID e) /\ CP0_PageMask env1 = PageMask e /\
  CP0_EntryLo0 env1 = entry_lo (G e) (V0 e) (D0 e) (C0 e) (PFN0 e) /\
  CP0_EntryLo1 env1 = entry_lo (G e) (V1 e) (D1 e) (C1 e) (PFN1 e).
Proof.
  intros Hl. cbv zeta. assert (He : entry_at (r4k_fill_tlb (index_entry env) env) (index_entry env) = filled_entry env).
  { apply entry_at_lookup. by apply list_lookup_insert_eq. }
  unfold arch_tlb. change (index_entry (r4k_fill_tlb (index_entry env) env)) with (index_entry env). rewrite He. done.
Qed.

(** An indexed write leaves no shadow entries, so a read that follows returns. *)
Lemma tlbwi_no_shadow env env1 : shape env -> r4k_do_tlbwi env = Some env1 -> tlb_in_use env1 = nb_tlb env1.
Proof.
  intros Hs. unfold r4k_do_tlbwi. destruct (r4k_mips_tlb_flush_extra _ _) as [e1|] eqn:E1; [|done].
  destruct (flush_from_shape _ _ _ Hs (Z.le_refl _) E1) as (n & t & -> & _ & _ & Hn).
  destruct (r4k_invalidate_tlb _ _ _) as [e2|] eqn:E2; [|done]. apply invalidate_shape in E2 as [t2 ->].
  intros [= <-]. cbn. apply Hn. apply Hs.
Qed.

Lemma tlbr_returns env : tlb_in_use env = nb_tlb env -> exists env', r4k_do_tlbr env = Some env'.
Proof.
  intros Hu. unfold r4k_do_tlbr. set (env1 := if negb _ then _ else _).
  assert (Hu1 : tlb_in_use env1 = nb_tlb env1) by (unfold env1; destruct (negb _); done).
  clearbody env1. unfold r4k_mips_tlb_flush_extra. rewrite Hu1, Z.sub_diag.
  change (flush_extra (Z.to_nat 0) env1) with (Some env1). by eexists.
Qed.

(** What an indexed write stores, an indexed read gives back: the virtual page and the
    address space, the page mask, and both EntryLo registers with the global bit that both
    had to have (physical addresses up to 32 bits). *)
Theorem tlb_write_read env env1 : mips_wf env -> in_width 26 (CP0_EntryLo0 env) -> in_width 26 (CP0_EntryLo1 env) ->
  r4k_do_tlbwi env = Some env1 ->
  let g := Z.land (Z.land (CP0_EntryLo0 env) (CP0_EntryLo1 env)) 1 in
  exists env2, r4k_do_tlbr env1 = Some env2 /\
    CP0_EntryHi env2 = Z.land (CP0_EntryHi env) 0xffffe0ff /\ CP0_PageMask env2 = CP0_PageMask env /\
    CP0_EntryLo0 env2 = Z.lor (Z.land (CP0_EntryLo0 env) 0x3fffffe) g /\
    CP0_EntryLo1 env2 = Z.lor (Z.land (CP0_EntryLo1 env) 0x3fffffe) g.
Proof.
  intros Hw H0 H1 H g. pose proof (wf_shape _ Hw) as Hs.
  destruct (tlbwi_visible env env1 Hs H) as [Hs1 Hv].
  destruct (tlbr_returns env1 (tlbwi_no_shadow _ _ Hs H)) as [env2 E2]. exists env2. split; [done|].
  destruct (tlbr_visible env1 env2 Hs1 E2) as [_ Hv2]. rewrite Hv in Hv2.
  assert (Hl : (Z.to_nat (index_entry (visible env)) < length (r4k (visible env)))%nat).
  { change (index_entry (visible env)) with (index_entry env). pose proof (index_shape env Hs).
    change (r4k (visible env)) with (take (Z.to_nat (nb_tlb env)) (r4k env)). destruct Hs as (S1 & S2 & S3 & _).
    rewrite length_take. lia. }
  destruct (arch_read_filled (visible env) Hl) as (A1 & A2 & A3 & A4).
  change (r4k_fill_tlb (index_entry (visible env)) (visible env)) with (arch_tlb TLBWI (visible env)) in *.
  rewrite <- Hv2 in A1, A2, A3, A4. destruct (visible_regs env2) as (R1 & R2 & R3 & R4).
  rewrite R1 in A1. rewrite R2 in A2. rewrite R3 in A3. rewrite R4 in A4.
  change (filled_entry (visible env)) with (filled_entry env) in *.
  assert (Hg : 0 <= g <= 1).
  { assert (Eg : g = Z.land (CP0_EntryLo0 env) (CP0_EntryLo1 env) mod 2 ^ 1) by (by rewrite <- Z.land_ones).
    rewrite Eg. pose proof (Z.mod_pos_bound (Z.land (CP0_EntryLo0 env) (CP0_EntryLo1 env)) (2 ^ 1) ltac:(lia)). lia. }
  rewrite A1, A2, A3, A4. split; [|split; [done|split]].
  - unfold filled_entry. cbn [VPN ASID]. by rewrite <- Z.land_lor_distr_r.
  - by apply entry_lo_filled.
  - by apply entry_lo_filled.
Qed.

(** ** Exceptions and returns *)

Section Flags.
Context (m : Z) (Hm : Z.land 0xff m = 0xff).

(** The flags of [e2] are those of [e1] under the mask. *)
Definition masked (e1 e2 : CPUMIPSState) : Prop :=
  hflags e2 = Z.land (hflags e1) m /\ CP0_Status e2 = CP0_Status e1 /\
  insn_flags e2 = insn_flags e1 /\ fcr0 e2 = fcr0 e1.

Lemma masked_flag e1 e2 f : masked e1 e2 -> Z.land f 0xff = f -> has (hflags e2) f = has (hflags e1) f.
Proof using Hm.
  intros (-> & _) Hf. unfold has. f_equal. rewrite <- Hf, <- Z.land_assoc. f_equal.
  by rewrite (Z.land_comm f), Z.land_assoc, (Z.land_comm m), Hm.
Qed.

Lemma set_masked c1 c2 f e1 e2 : masked e1 e2 -> c1 = c2 -> Z.land f 0xff = f ->
  masked (set_hflag c1 f e1) (set_hflag c2 f e2).
Proof using Hm.
  intros H -> Hf. destruct c2; [|done]. destruct H as (H1 & H2 & H3 & H4). split; [|done]. cbn.
  rewrite H1, Z.land_lor_distr_l. f_equal. rewrite <- Hf at 2. by rewrite <- Z.land_assoc, Hm.
Qed.

Lemma masked_status e1 e2 n : masked e1 e2 -> status e2 n = status e1 n.
Proof using. unfold status. by intros (_ & -> & _). Qed.

Lemma compute_masked e1 e2 : CP0_Status e2 = CP0_Status e1 -> insn_flags e2 = insn_flags e1 -> fcr0 e2 = fcr0 e1 ->
  Z.land (hflags e2) (Z.lnot HFLAGS_MASK) = Z.land (Z.land (hflags e1) (Z.lnot HFLAGS_MASK)) m ->
  masked (compute_hflags e1) (compute_hflags e2).
Proof using Hm.
  intros H1 H2 H3 H4. unfold compute_hflags. cbv zeta.
  set (a1 := e1 <| hflags := _ |>). set (a2 := e2 <| hflags := _ |>).
  assert (Ha : masked a1 a2) by done. clearbody a1 a2. clear H1 H2 H3 H4.
  set (b1 := set_hflag _ _ a1). set (b2 := set_hflag _ _ a2).
  assert (Hb : masked b1 b2).
  { unfold b1, b2. destruct Ha as (A1 & A2 & A3 & A4) eqn:Ea. rewrite A2. apply set_masked; [done| |].
    - rewrite !(masked_status a1 a2) by done. by rewrite (masked_flag a1 a2).
    - rewrite <- Z.land_assoc. done. }
  clearbody b1 b2. set (c1 := set_hflag _ _ b1). set (c2 := set_hflag _ _ b2).
  assert (Hc : masked c1 c2).
  { apply set_masked; [done| |done]. by rewrite !(masked_status b1 b2), (masked_flag b1 b2). }
  clearbody c1 c2. set (d1 := set_hflag _ _ c1). set (d2 := set_hflag _ _ c2).
  assert (Hd : masked d1 d2) by (apply set_masked; [done|by rewrite !(masked_status c1 c2)|done]).
  clearbody d1 d2. set (f1 := set_hflag _ _ d1). set (f2 := set_hflag _ _ d2).
  assert (Hf : masked f1 f2) by (apply set_masked; [done|by rewrite !(masked_status d1 d2)|done]).
  clearbody f1 f2. pose proof Hf as (_ & _ & F3 & F4). rewrite F3, F4.
  destruct (has _ ISA_MIPS32R2); [by apply set_masked|].
  destruct (has _ ISA_MIPS32); [apply set_masked; [done|by rewrite (masked_flag f1 f2)|done]|].
  destruct (has _ ISA_MIPS4); [|done]. apply set_masked; [done|by rewrite (masked_status f1 f2)|done].
Qed.
End Flags.

(** Debug mode is not among the flags computed again. *)
Lemma compute_dm env : has (hflags (compute_hflags env)) MIPS_HFLAG_DM = has (hflags env) MIPS_HFLAG_DM.
Proof.
  assert (S : forall c f e, Z.land f MIPS_HFLAG_DM = 0 ->
    has (hflags (set_hflag c f e)) MIPS_HFLAG_DM = has (hflags e) MIPS_HFLAG_DM).
  { intros [] f e Hf; [|done]. unfold has. cbn. by rewrite Z.land_lor_distr_l, Hf, Z.lor_0_r. }
  unfold compute_hflags. cbv zeta. set (a := env <| hflags := _ |>).
  assert (Ha : has (hflags a) MIPS_HFLAG_DM = has (hflags env) MIPS_HFLAG_DM).
  { unfold has, a. cbn [hflags]. change (hflags (env <| hflags := ?v |>)) with v. by rewrite <- Z.land_assoc. }
  clearbody a. rewrite <- Ha.
  destruct (has _ ISA_MIPS32R2); [|destruct (has _ ISA_MIPS32); [|destruct (has _ ISA_MIPS4)]];
    rewrite !S; try done; by rewrite <- Z.land_assoc, Z.land_0_r.
Qed.

(** An ordinary exception is not one of the debug exceptions, and what it records before
    the vector is taken is in the Cause register. *)
Lemma epc_not_debug x env r : epc_exception x env = Some r -> debug_flag x = None.
Proof.
  unfold debug_flag. intros H.
  destruct (Z.eqb_spec x EXCP_DINT) as [->|]; [vm_compute in H; done|]. destruct (Z.eqb_spec x EXCP_DIB) as [->|]; [vm_compute in H; done|].
  destruct (Z.eqb_spec x EXCP_DBp) as [->|]; [vm_compute in H; done|]. destruct (Z.eqb_spec x EXCP_DDBS) as [->|]; [vm_compute in H; done|].
  destruct (Z.eqb_spec x EXCP_DDBL) as [->|]; [vm_compute in H; done|]. done.
Qed.

Definition exc_regs (env : CPUMIPSState) := (PC env, current_tc env, hflags env, CP0_Status env, insn_flags env, fcr0 env).

Lemma epc_exception_regs x env cause offset e : epc_exception x env = Some (cause, offset, e) -> exc_regs e = exc_regs env.
Proof.
  unfold epc_exception. destruct (plain_cause x); [by intros [= _ _ <-]|].
  by repeat (destruct (x =? _); [intros [= _ _ <-]; done|]).
Qed.

Lemma save_EPC_regs env : let e := save_EPC env in
  CP0_EPC e = return_pc env /\ CP0_Status e = Z.lor (CP0_Status env) (bit CP0St_EXL) /\
  hflags e = Z.land (Z.lor (hflags env) 0x18) (Z.lnot 3) /\ current_tc e = current_tc env /\
  insn_flags e = insn_flags env /\ fcr0 e = fcr0 env.
Proof. cbv zeta. unfold save_EPC. destruct (has _ _); done. Qed.

Lemma set_EPC_regs cause offset env : status env CP0St_EXL = false -> let e := set_EPC cause offset env in
  CP0_EPC e = return_pc env /\ CP0_Status e = Z.lor (CP0_Status env) (bit CP0St_EXL) /\
  hflags e = Z.land (Z.land (Z.lor (hflags env) 0x18) (Z.lnot 3)) (Z.lnot MIPS_HFLAG_BMASK) /\
  current_tc e = current_tc env /\ insn_flags e = insn_flags env /\ fcr0 e = fcr0 env.
Proof.
  intros Hx. cbv zeta. unfold set_EPC. rewrite Hx. cbn [negb]. cbv zeta.
  destruct (save_EPC_regs env) as (R1 & R2 & R3 & R4 & R5 & R6). set (e := save_EPC env) in *. clearbody e.
  rewrite <- R1, <- R2, <- R3, <- R4, <- R5, <- R6. destruct (status _ CP0St_BEV); done.
Qed.

(** What the handler leaves as the exception entered it. *)
Definition handler_keeps (env1 env2 : CPUMIPSState) : Prop :=
  CP0_EPC env2 = CP0_EPC env1 /\ CP0_Status env2 = CP0_Status env1 /\ hflags env2 = hflags env1 /\
  current_tc env2 = current_tc env1 /\ insn_flags env2 = insn_flags env1 /\ fcr0 env2 = fcr0 env1.

Lemma status_bit env n : 0 <= n -> status env n = Z.testbit (CP0_Status env) n.
Proof. intros Hn. unfold status, has, bit. by apply truth_land_bit. Qed.

Lemma exl_restored s : Z.testbit s CP0St_EXL = false -> Z.land (Z.lor s (bit CP0St_EXL)) (Z.lnot (bit CP0St_EXL)) = s.
Proof.
  intros Hs. apply Z.bits_inj'. intros i Hi. unfold bit in *. unfold CP0St_EXL in *.
  rewrite testbit_clear, testbit_set by lia. case_bool_decide as E; [subst; by rewrite Hs|].
  by rewrite orb_false_r, andb_true_r.
Qed.

(** An exception taken outside exception and debug level enters the kernel, and the
    return from its handler, which left the status and the return address alone, brings
    back the program counter (the jump, for an exception in a delay slot), the status
    register and the execution mode, whatever the exception. *)
Theorem exception_returns reset env env1 env2 r :
  status env CP0St_EXL = false -> status env CP0St_ERL = false -> has (hflags env) MIPS_HFLAG_DM = false ->
  hflags (compute_hflags env) = hflags env ->
  epc_exception (exception_index env) env = Some r -> do_interrupt reset env = Some env1 ->
  handler_keeps env1 env2 ->
  cpu_mmu_index env1 = 0 /\ status env1 CP0St_EXL = true /\
  pc (op_eret env2) = return_pc env /\ CP0_Status (op_eret env2) = CP0_Status env /\
  hflags (op_eret env2) = Z.land (hflags env) (Z.lnot MIPS_HFLAG_BMASK).
Proof.
  intros Hexl Herl Hdm Hfl Hx. unfold do_interrupt. rewrite Hdm, andb_false_r. cbv zeta.
  rewrite (epc_not_debug _ _ _ Hx), Hx. destruct r as [[cause offset] e]. intros [= <-].
  pose proof (epc_exception_regs _ _ _ _ _ Hx) as He. clear Hx.
  assert (Hst : status e CP0St_EXL = false) by (unfold status in *; unfold exc_regs in He; congruence).
  destruct (set_EPC_regs cause offset e Hst) as (E1 & E2 & E3 & E4 & E5 & E6).
  set (env1 := set_EPC cause offset e) in *. clearbody env1.
  intros (K1 & K2 & K3 & K4 & K5 & K6).
  change (CP0_EPC env2 = CP0_EPC env1) in K1. change (CP0_Status env2 = CP0_Status env1) in K2.
  change (hflags env2 = hflags env1) in K3. change (current_tc env2 = current_tc env1) in K4.
  change (insn_flags env2 = insn_flags env1) in K5. change (fcr0 env2 = fcr0 env1) in K6.
  change (cpu_mmu_index (env1 <| exception_index := EXCP_NONE |>)) with (Z.land (hflags env1) MIPS_HFLAG_KSU).
  change (status (env1 <| exception_index := EXCP_NONE |>) CP0St_EXL) with (status env1 CP0St_EXL).
  assert (R : PC e = PC env /\ current_tc e = current_tc env /\ hflags e = hflags env /\
    CP0_Status e = CP0_Status env /\ insn_flags e = insn_flags env /\ fcr0 e = fcr0 env)
    by (unfold exc_regs in He; repeat split; congruence).
  clear He. destruct R as (R1 & R2 & R3 & R4 & R5 & R6). rewrite status_bit in Hexl, Herl by done.
  assert (Hret : return_pc e = return_pc env) by (unfold return_pc, pc; by rewrite R1, R2, R3).
  rewrite Hret in E1. rewrite R3 in E3. rewrite R4 in E2. clear Hret R1.
  split; [|split].
  - rewrite E3, <- !Z.land_assoc. replace (Z.land (Z.lnot 3) _) with 0 by done. by rewrite Z.land_0_r.
  - rewrite status_bit, E2 by done. unfold bit. rewrite testbit_set by done. by rewrite orb_true_r.
  - assert (Serl : status env2 CP0St_ERL = false).
    { rewrite status_bit, K2, E2 by done. unfold bit. rewrite testbit_set by done.
      rewrite Herl. done. }
    unfold op_eret. rewrite Serl. set (s2 := Z.land (CP0_Status env2) (Z.lnot (bit CP0St_EXL))).
    assert (Hs2 : s2 = CP0_Status env) by (unfold s2; rewrite K2, E2; by apply exl_restored). clearbody s2.
    set (e3 := set_pc (CP0_EPC env2) (env2 <| CP0_Status := s2 |>)).
    assert (M : masked (Z.lnot MIPS_HFLAG_BMASK) (compute_hflags env) (compute_hflags e3)).
    { apply compute_masked; [done|exact Hs2|change (insn_flags env2 = insn_flags env); congruence
        |change (fcr0 env2 = fcr0 env); congruence|].
      change (hflags e3) with (hflags env2). rewrite K3, E3.
      apply Z.bits_inj'. intros i Hi. rewrite !Z.land_spec, Z.lor_spec, !Z.lnot_spec by done.
      assert (B : i < 12 \/ 12 <= i) by lia. destruct B as [B|B].
      - assert (C : i = 0 \/ i = 1 \/ i = 2 \/ i = 3 \/ i = 4 \/ i = 5 \/ i = 6 \/ i = 7 \/ i = 8 \/ i = 9 \/ i = 10 \/ i = 11) by lia.
        by destruct C as [->|[->|[->|[->|[->|[->|[->|[->|[->|[->|[->| ->]]]]]]]]]]]; destruct (Z.testbit (hflags env) _).
      - assert (W : forall x, in_width 12 x -> Z.testbit x i = false) by (intros; by apply (testbit_high 12)).
        rewrite (W 0x18), (W 3), (W MIPS_HFLAG_BMASK), (W HFLAGS_MASK) by (split; vm_compute; done). cbn [negb]. by rewrite !andb_true_r, orb_false_r. }
    destruct M as (M1 & M2 & _).
    split; [|split].
    + assert (P : pc (compute_hflags e3) = pc e3).
      { unfold pc, compute_hflags. cbv zeta.
        assert (Q : forall c f a, PC (set_hflag c f a) = PC a /\ current_tc (set_hflag c f a) = current_tc a) by (by intros []).
        destruct (has _ ISA_MIPS32R2); [|destruct (has _ ISA_MIPS32); [|destruct (has _ ISA_MIPS4)]];
          by rewrite ?(proj1 (Q _ _ _)), ?(proj2 (Q _ _ _)). }
      change (pc (compute_hflags e3) = return_pc env). rewrite P. unfold pc, e3, set_pc. cbn.
      unfold mem_upd. by rewrite Z.eqb_refl, K1.
    + change (CP0_Status (compute_hflags e3) = CP0_Status env). rewrite compute_hflags_status. exact Hs2.
    + change (hflags (compute_hflags e3) = Z.land (hflags env) (Z.lnot MIPS_HFLAG_BMASK)). by rewrite M1, Hfl.
Qed.

Lemma lladdr_hflags v env : hflags (env <| CP0_LLAddr := v |>) = hflags env.
Proof. done. Qed.

(** [op_deret] keeps the flag of debug mode it should clear: the CPU stays in debug mode,
    with the rights of the kernel, whatever the mode it was in before. *)
Lemma deret_stays_in_debug env : has (hflags env) MIPS_HFLAG_DM = true ->
  has (hflags (op_deret env)) MIPS_HFLAG_DM = true /\ cpu_mmu_index (op_deret env) = 0.
Proof.
  intros Hd. unfold op_deret. set (e := set_pc _ _). set (e1 := e <| hflags := _ |>). cbv zeta.
  assert (H1 : has (hflags e1) MIPS_HFLAG_DM = true).
  { change (hflags e1) with (Z.land (hflags env) MIPS_HFLAG_DM). unfold has in *. by rewrite <- Z.land_assoc. }
  split; [change (has (hflags (compute_hflags e1)) MIPS_HFLAG_DM = true); by rewrite compute_dm|].
  unfold cpu_mmu_index. rewrite lladdr_hflags.
  clearbody e1. clear e Hd. unfold compute_hflags. cbv zeta. set (a := e1 <| hflags := _ |>).
  assert (Ha : Z.land (hflags a) 3 = 0 /\ has (hflags a) MIPS_HFLAG_DM = true).
  { change (hflags a) with (Z.land (hflags e1) (Z.lnot HFLAGS_MASK)). unfold has in *.
    rewrite <- !Z.land_assoc. split; [by rewrite Z.land_0_r|done]. }
  clearbody a. destruct Ha as [A1 A2]. rewrite A2, andb_false_r.
  change (set_hflag false (Z.land (Z.shiftr (CP0_Status a) CP0St_KSU) MIPS_HFLAG_KSU) a) with a.
  assert (S : forall c f b, Z.land f 3 = 0 -> Z.land (hflags (set_hflag c f b)) 3 = Z.land (hflags b) 3).
  { intros [] f b Hf; [|done]. cbn. by rewrite Z.land_lor_distr_l, Hf, Z.lor_0_r. }
  unfold MIPS_HFLAG_KSU. destruct (has _ ISA_MIPS32R2); [|destruct (has _ ISA_MIPS32); [|destruct (has _ ISA_MIPS4)]];
    by rewrite !S.
Qed.

(** ** Debug reads *)

Section DebugRead.
Context {D : Type}.
Context (io_mem_read : Z -> Z -> D -> Z -> Z * D).
Context (io_mem_write : Z -> Z -> D -> Z -> Z -> D).

Abbreviation phys := (phys (D := D)).

(** The physical address of a load. *)
Definition load_addr (env : CPUMIPSState) (a : Z) : Z :=
  match get_physical_address env a 0 with TLBRET_MATCH p _ => p | _ => NO_PHYS end.

Definition loadable (env : CPUMIPSState) (a : Z) : Prop :=
  exists p q, get_physical_address env a 0 = TLBRET_MATCH p q.

Lemma translate_range e a rw p q : entry_wf e -> is_u32 a -> tlb_translate a rw e = TLBRET_MATCH p q ->
  is_u32 p /\ page_off p = page_off a.
Proof using.
  intros ((k & Hk) & _ & _ & _ & [F1 F2] & [F3 F4]) Ha. unfold tlb_translate. rewrite (mask_half e k Hk).
  destruct (negb _); [done|]. destruct (_ || _); [|done]. intros [= <- _].
  assert (F : forall pfn, is_u32 pfn -> pfn mod 4096 = 0 ->
    is_u32 (Z.lor pfn (Z.land a (Z.ones k))) /\ page_off (Z.lor pfn (Z.land a (Z.ones k))) = page_off a).
  { intros pfn G1 G2. split; [apply lor_width; [lia|done|by apply land_width_l]|].
    rewrite page_off_lor. rewrite <- page_off_mod in G2. rewrite G2, Z.lor_0_l. unfold page_off.
    rewrite <- Z.land_assoc. f_equal. change 0xfff with (Z.ones 12). apply Z.bits_inj'. intros i Hi.
    rewrite Z.land_spec. destruct Hk as [K _]. destruct (decide (i < 12)); [by rewrite !Z.ones_spec_low by lia|].
    by rewrite (Z.ones_spec_high 12), andb_false_r by lia. }
  by destruct (odd_page a e); apply F.
Qed.

Lemma scan_range asid a rw l p q : Forall entry_wf l -> is_u32 a -> tlb_scan asid a rw l = TLBRET_MATCH p q ->
  is_u32 p /\ page_off p = page_off a.
Proof using.
  intros Hl Ha. induction Hl as [|e l He Hl IH]; cbn; [done|].
  destruct (tlb_match asid a e); [by apply translate_range|done].
Qed.

Lemma gpa_range env a rw p q : mips_wf env -> is_u32 a -> get_physical_address env a rw = TLBRET_MATCH p q ->
  is_u32 p /\ page_off p = page_off a.
Proof using.
  intros Hw Ha. unfold get_physical_address, do_map_address. rewrite (wf_map _ Hw).
  assert (HM : r4k_map_address env a rw = TLBRET_MATCH p q -> is_u32 p /\ page_off p = page_off a)
    by (apply scan_range; [apply Forall_take, Hw|done]).
  assert (Sub : forall c, 0 <= 4096 * c <= a -> is_u32 (a - 4096 * c) /\ page_off (a - 4096 * c) = page_off a).
  { intros c Hc. unfold in_width in *. split; [lia|]. rewrite !page_off_mod.
    replace (a - 4096 * c) with (a + - c * 4096) by lia. by apply Z.mod_add. }
  destruct (Z.leb_spec a 0x7fffffff); [destruct (has _ _); [|done]|].
  - intros [= <- _]. change 0xffffffff with (Z.ones 32). rewrite Z.land_ones by lia.
    by rewrite Z.mod_small by done.
  - destruct (Z.ltb_spec a 0xa0000000); [destruct (_ && _); [|done]|].
    + intros [= <- _]. apply (Sub 0x80000). lia.
    + destruct (Z.ltb_spec a 0xc0000000); [destruct (_ && _); [|done]|].
      * intros [= <- _]. apply (Sub 0xa0000). lia.
      * destruct (a <? 0xe0000000); [destruct (_ || _)|destruct (_ && _)]; done.
Qed.

(** The debug walk finds the page of a load. *)
Lemma debug_page_load env a : mips_wf env -> is_u32 a -> loadable env a ->
  exists pa, cpu_get_phys_page_debug env (page_base a) = pa /\ 0 <= pa /\ pa + 4096 <= 2 ^ 32 /\ pa mod 4096 = 0 /\
    load_addr env a = pa + page_off a.
Proof using.
  intros Hw Ha (p & q & G). destruct (gpa_page env a 0 p q Hw Ha G) as (p' & G' & Hp).
  destruct (gpa_range env a 0 p q Hw Ha G) as [R1 R2].
  destruct (gpa_range env (page_base a) 0 p' q Hw ltac:(by apply land_width_l) G') as [R3 R4].
  unfold cpu_get_phys_page_debug, load_addr. rewrite G, G'. exists p'. split; [done|].
  rewrite page_off_base in R4. destruct (page_split p R1) as (E1 & _). destruct (page_split p' R3) as (E2 & _ & E3 & _).
  unfold in_width in *. rewrite page_off_mod in R4. pose proof (Z.div_mod p' 4096 ltac:(lia)).
  assert (2 ^ 32 = 4096 * 1048576) by done. split; [lia|]. split; [lia|]. split; [done|].
  rewrite <- page_off_mod in R4. rewrite E1, R2, <- Hp. lia.
Qed.

Lemma load_addr_step env a i : mips_wf env -> is_u32 a -> 0 <= i -> page_off a + i < 4096 ->
  loadable env a -> loadable env (a + i) -> load_addr env (a + i) = load_addr env a + i.
Proof using.
  intros Hw Ha H0 H1 L1 L2. destruct (same_page a i Ha H0 H1) as [B1 B2].
  assert (Hai : is_u32 (a + i)).
  { destruct (page_split a Ha) as (E & R & M & _). unfold in_width in *.
    apply Z.mod_divide in M as [c M]; [|lia]. assert (2 ^ 32 = 4096 * 1048576) by done. lia. }
  destruct (debug_page_load env a Hw Ha L1) as (pa & P1 & _ & _ & _ & ->).
  destruct (debug_page_load env (a + i) Hw Hai L2) as (pb & P2 & _ & _ & _ & ->).
  rewrite B1, P1 in P2. subst pb. lia.
Qed.

(** C31. What MemCheck reads of the guest's memory on this target is what the guest would
    load: on flat memory, when every address of the range can be loaded, the debug read
    succeeds, changes nothing, and each byte is the byte of RAM at the physical address
    the MMU gives a load of it, whatever segments and TLB entries it crosses. *)
Theorem mips_debug_read env s fuel : mips_wf env -> flat s -> forall addr buf, 0 <= addr ->
  addr + Z.of_nat (length buf) <= 2 ^ 32 ->
  (forall a, addr <= a < addr + Z.of_nat (length buf) -> loadable env a) ->
  (length buf <= fuel)%nat ->
  cpu_memory_rw_debug io_mem_read io_mem_write fuel env addr buf false s =
  Some (0, ram_read (load_addr env) (phys_ram s) addr (length buf), s).
Proof using.
  intros Hwf Hf. induction fuel as [|fuel IH]; intros addr buf H0 H1 Hp Hl.
  - destruct buf; simpl in *; [done|lia].
  - destruct buf as [|b buf']; [done|]. set (buf := b :: buf') in *.
    assert (Hlen : (0 < length buf)%nat) by (simpl; lia).
    assert (Ha : is_u32 addr) by (unfold in_width; lia).
    cbn [cpu_memory_rw_debug]. fold buf.
    destruct (debug_page_load env addr Hwf Ha (Hp addr ltac:(lia))) as (pa & -> & D0 & D1 & _ & D2).
    rewrite (proj2 (Z.eqb_neq pa NO_PHYS)) by (unfold NO_PHYS; lia).
    destruct (chunk_bounds addr (length buf) Ha Hlen) as (Hm & Ho & _).
    set (l := Z.min _ _) in *. clearbody l.
    rewrite <- D2. destruct (page_split addr Ha) as (_ & Hr & _).
    assert (Hc : length (take (Z.to_nat l) buf) = Z.to_nat l) by (rewrite length_take; lia).
    destruct (flat_ram s (load_addr env addr) l (proj1 Hf) ltac:(lia) ltac:(lia)) as [Hram Htr].
    rewrite rw_read_ram by (rewrite Hc, ?Z2Nat.id by lia; done || lia). rewrite Hc.
    rewrite (ram_read_shift (translate s) (load_addr env) _ _ _ addr).
    2: { intros i Hi. rewrite Htr by lia. rewrite load_addr_step; [done|done|done|lia|lia|apply Hp; lia|apply Hp; lia]. }
    destruct (decide (l = Z.of_nat (length buf))) as [El|El].
    + rewrite drop_ge by lia. replace (length buf) with (Z.to_nat l) by lia.
      destruct fuel; simpl; by rewrite app_nil_r.
    + unfold u32. rewrite wrap_small by (unfold in_width; lia).
      rewrite IH; rewrite ?length_drop; [|lia|lia| |lia].
      * do 2 f_equal. rewrite <- ram_read_app. do 2 f_equal. lia.
      * intros a Hx. apply Hp. lia.
Qed.
End DebugRead.

(** ** A booted machine

    A 24Kc with 16 entries, after the boot code of a kernel: every entry has a virtual page
    of its own in the unmapped segment and is invalid, ERL is clear. *)

Definition demo_def : mips_def_t := mkDef (Z.shiftl 15 CP0C1_MMU) 0 0x1278ff1f 0x60 0 MMU_TYPE_R4000.

Definition some_mips : CPUMIPSState :=
  mkMips (fun _ _ => 0) (fun _ => 0) 0 0 0 0 0 0 0 0 0 0 0 0 0 0 (fun _ => 0) 0 0 0 0 0
    0 0 0 0 0 r4k_mmu 0 0 [] (fun _ _ => mkEntry 0 0 0 0) [] 0.

(** Writes the entry [idx] for the pair of pages at [vpn]. *)
Definition write_at (idx vpn lo0 lo1 : Z) (env : CPUMIPSState) : option CPUMIPSState :=
  r4k_do_tlbwi (op_mtc0_index idx (op_mtc0_entrylo1 lo1 (op_mtc0_entrylo0 lo0 (op_mtc0_entryhi vpn env)))).

Fixpoint boot_tlb (n : nat) (env : CPUMIPSState) : option CPUMIPSState :=
  match n with
  | O => Some env
  | S n' => match write_at (Z.of_nat n') (0x80000000 + 0x2000 * Z.of_nat n') 0 0 env with
            | Some env => boot_tlb n' env
            | None => None
            end
  end.

Definition boot : option CPUMIPSState :=
  match cpu_reset demo_def some_mips with
  | Some env => boot_tlb 16 (op_mtc0_status 0 env)
  | None => None
  end.

Definition demo : CPUMIPSState := default some_mips boot.

(** A check of an entry with 4 KB pages. *)
Definition check_entry (e : r4k_tlb_t) : bool :=
  (tlb_mask e =? 0x1fff) && (0 <=? VPN e) && (VPN e <? 2 ^ 32) && (Z.land (VPN e) 0xff =? 0) &&
  (0 <=? ASID e) && (ASID e <? 2 ^ 8) && (0 <=? PFN0 e) && (PFN0 e <? 2 ^ 32) && (PFN0 e mod 4096 =? 0) &&
  (0 <=? PFN1 e) && (PFN1 e <? 2 ^ 32) && (PFN1 e mod 4096 =? 0).

Lemma check_entry_ok e : check_entry e = true -> entry_wf e /\ page_shift e 12.
Proof.
  unfold check_entry. rewrite !andb_true_iff, !Z.leb_le, !Z.ltb_lt, !Z.eqb_eq. intros H.
  destruct H as (((((((((((H1 & H2) & H3) & H4) & H5) & H6) & H7) & H8) & H9) & H10) & H11) & H12).
  assert (Hk : page_shift e 12) by (split; [lia|exact H1]).
  split; [|done]. repeat split; try done. by exists 12.
Qed.

Lemma distinct_pairs l : Forall (fun e => page_shift e 12) l -> NoDup ((fun e => VPN e / 2 ^ 13) <$> l) -> distinct l.
Proof.
  intros Hs Hn i j e1 e2 H1 H2 Hne (asid & a & _ & M1 & M2).
  rewrite Forall_lookup in Hs. rewrite (tlb_match_div e1 12) in M1 by eauto. rewrite (tlb_match_div e2 12) in M2 by eauto.
  apply andb_true_iff in M1 as [_ M1], M2 as [_ M2]. to_prop. change (12 + 1) with 13 in *.
  apply Hne. eapply NoDup_lookup; [exact Hn|..]; rewrite list_lookup_fmap; [by rewrite H1|]. rewrite H2. cbn. congruence.
Qed.

(** Decides the well-formedness of a processor with 4 KB pages. *)
Definition check_mips (env : CPUMIPSState) : bool :=
  match map_address env with r4k_mmu => true | _ => false end &&
  (Z.of_nat (length (r4k env)) =? MIPS_TLB_MAX) && (0 <? nb_tlb env) && (nb_tlb env <=? tlb_in_use env) &&
  (tlb_in_use env <=? MIPS_TLB_MAX) && (0 <=? CP0_Wired env) && (CP0_Wired env <? nb_tlb env) &&
  (0 <=? CP0_EntryHi env) && (CP0_EntryHi env <? 2 ^ 32) && (CP0_PageMask env =? 0) &&
  forallb check_entry (r4k env) && bool_decide (NoDup ((fun e => VPN e / 2 ^ 13) <$> used env)).

Lemma check_mips_ok env : check_mips env = true -> mips_wf env.
Proof.
  unfold check_mips. rewrite !andb_true_iff, !Z.leb_le, !Z.ltb_lt, !Z.eqb_eq, forallb_forall, bool_decide_eq_true. intros H.
  destruct H as (((((((((((H1 & H2) & H3) & H4) & H5) & H6) & H7) & H8) & H9) & H10) & H11) & H12).
  assert (Hf : Forall (fun e => entry_wf e /\ page_shift e 12) (r4k env)).
  { apply Forall_forall. intros e He. apply check_entry_ok, H11. by apply list_elem_of_In. }
  unfold MIPS_TLB_MAX in *. constructor.
  - by destruct (map_address env).
  - unfold MIPS_TLB_MAX. lia.
  - unfold MIPS_TLB_MAX. lia.
  - lia.
  - unfold in_width. lia.
  - exists 12. rewrite H10. done.
  - eapply Forall_impl; [exact Hf|by intros ? []].
  - apply distinct_pairs; [|done]. apply Forall_take. eapply Forall_impl; [exact Hf|by intros ? []].
Qed.

Lemma demo_mips_wf : mips_wf demo.
Proof. apply check_mips_ok. vm_compute. reflexivity. Qed.

(** A check that the entry of the registers overlaps none in use. *)
Definition check_fresh (env : CPUMIPSState) : bool :=
  (CP0_PageMask env =? 0) && forallb check_entry (used env) &&
  forallb (fun e => negb (VPN e / 2 ^ 13 =? VPN (filled_entry env) / 2 ^ 13)) (used env).

Lemma check_fresh_ok env : mips_wf env -> check_fresh env = true -> fresh_all env.
Proof.
  intros Hw. unfold check_fresh. rewrite !andb_true_iff, !forallb_forall, Z.eqb_eq. intros ((Hm & Hc) & Hn) j Hj.
  pose proof (used_at env j Hw Hj) as Hat. apply list_elem_of_lookup_2, list_elem_of_In in Hat.
  destruct (check_entry_ok _ (Hc _ Hat)) as [_ Hk]. specialize (Hn _ Hat). apply negb_true_iff in Hn. to_prop.
  intros (asid & a & _ & M1 & M2).
  assert (Hf : page_shift (filled_entry env) 12).
  { split; [lia|]. unfold tlb_mask. change (PageMask (filled_entry env)) with (CP0_PageMask env). by rewrite Hm. }
  rewrite (tlb_match_div _ 12 Hf) in M1. rewrite (tlb_match_div _ 12 Hk) in M2.
  apply andb_true_iff in M1 as [_ M1], M2 as [_ M2]. to_prop. change (12 + 1) with 13 in *. congruence.
Qed.

Lemma some_default {A} (d : A) (o : option A) : match o with Some _ => true | None => false end = true -> o = Some (default d o).
Proof. by destruct o. Qed.

(** The kernel of the booted machine changes to address space 5 and misses on the page at
    4 MB; its handler maps pages 5 and 7 there. *)
Definition demo_lo (pfn : Z) : Z := Z.lor (Z.shiftl pfn 6) 6.
Definition demo_hi : CPUMIPSState := op_mtc0_entryhi 5 (cpu_mips_tlb_flush 1 demo).
Definition demo_fault (env : CPUMIPSState) (address rw : Z) : Z * CPUMIPSState :=
  cpu_mips_handle_mmu_fault Softmmu.sample_base Softmmu.sample_watch env address rw (cpu_mmu_index env) flat_phys.
Definition demo_miss : CPUMIPSState := (demo_fault demo_hi 0x400123 0).2.
Definition demo_load : CPUMIPSState := op_mtc0_entrylo1 (demo_lo 7) (op_mtc0_entrylo0 (demo_lo 5) demo_miss).
Definition demo_mapped : CPUMIPSState := default some_mips (r4k_do_tlbwr demo_load).
Definition demo_cached : CPUMIPSState := (demo_fault demo_mapped 0x400123 1).2.

Lemma demo_hi_wf : mips_wf demo_hi.
Proof. apply check_mips_ok. vm_compute. reflexivity. Qed.
Lemma demo_load_wf : mips_wf demo_load.
Proof. apply check_mips_ok. vm_compute. reflexivity. Qed.
Lemma demo_mapped_wf : mips_wf demo_mapped.
Proof. apply check_mips_ok. vm_compute. reflexivity. Qed.
Lemma demo_mapped_some : r4k_do_tlbwr demo_load = Some demo_mapped.
Proof. apply some_default. vm_compute. reflexivity. Qed.
Lemma demo_fresh : fresh_all demo_load.
Proof. apply check_fresh_ok; [exact demo_load_wf|]. vm_compute. reflexivity. Qed.

Lemma mode_ok_0 env : cpu_mmu_index env = 0 -> mode_ok env.
Proof. intros E. split; [rewrite E; done|done]. Qed.

Abbreviation demo_step := (mips_step Softmmu.sample_base Softmmu.sample_watch flat_phys).

Lemma miss_step env address rw : cpu_mmu_index env = 0 -> is_u32 address ->
  demo_step env (demo_fault env address rw).2.
Proof.
  intros Hm Ha. eapply StepMiss; [by apply mode_ok_0|exact Ha|reflexivity|apply surjective_pairing].
Qed.

Lemma demo_run : rtc demo_step (cpu_mips_tlb_flush 1 demo) demo_cached.
Proof.
  apply (rtc_l _ _ demo_hi); [apply StepEntryHi; split; [discriminate|reflexivity]|].
  apply (rtc_l _ _ demo_miss); [apply miss_step; [vm_compute; reflexivity|split; [discriminate|reflexivity]]|].
  apply (rtc_l _ _ (op_mtc0_entrylo0 (demo_lo 5) demo_miss)); [apply StepLo0|].
  apply (rtc_l _ _ demo_load); [apply StepLo1|].
  apply (rtc_l _ _ demo_mapped); [apply StepTlbwr; [exact demo_fresh|exact demo_mapped_some]|].
  apply rtc_once, miss_step; [vm_compute; reflexivity|split; [discriminate|reflexivity]].
Qed.


Lemma demo_nomatch : get_physical_address demo_hi 0x400123 (Z.land 1 1) = TLBRET_NOMATCH.
Proof. vm_compute. reflexivity. Qed.
Lemma demo_not_full : tlb_in_use demo_hi < MIPS_TLB_MAX.
Proof. vm_compute. reflexivity. Qed.
Lemma demo_mask : CP0_PageMask demo_hi = 0.
Proof. vm_compute. reflexivity. Qed.

Lemma refill_resolves_miss_witness : exists env1 env2 prot,
  demo_fault demo_hi 0x400123 1 = (1, env1) /\ exception_index env1 = EXCP_TLBS /\ error_code env1 = 1 /\
  CP0_BadVAddr env1 = 0x400123 /\ refill (demo_lo 5) (demo_lo 7) env1 = Some env2 /\
  get_physical_address env2 0x400123 1 = TLBRET_MATCH 0x5123 prot /\
  (demo_fault env2 0x400123 1).1 = 0.
Proof.
  destruct (refill_resolves_miss Softmmu.sample_base Softmmu.sample_watch demo_hi 0x400123 1 flat_phys
    (demo_lo 5) (demo_lo 7) demo_hi_wf ltac:(split; [discriminate|reflexivity]) demo_mask
    ltac:(split; [discriminate|reflexivity]) ltac:(split; [discriminate|reflexivity]) demo_nomatch
    ltac:(reflexivity) ltac:(right; reflexivity) (or_introl demo_not_full))
    as (env1 & env2 & prot & H1 & H2 & H3 & H4 & H5 & H6 & H7).
  exists env1, env2, prot. split; [exact H1|]. split; [exact H2|]. split; [exact H3|]. split; [exact H4|].
  split; [exact H5|]. split; [exact H6|exact H7].
Defined.

(** A sequence of instructions with a shadow entry in it. *)
Definition demo_ops : list tlb_op :=
  [MTC0_EntryHi 0x400000; TLBWR; MTC0_EntryHi 0x600000; TLBWR; TLBP; MTC0_EntryHi 0x800000; TLBP; TLBR; TLBWI].

Definition demo_ran : CPUMIPSState := default some_mips (run_tlb demo_ops demo).
Lemma demo_ops_run : run_tlb demo_ops demo = Some demo_ran.
Proof. apply some_default. vm_compute. reflexivity. Qed.


(** A machine whose entry 3 maps the last pair of pages. *)
Definition demo_last : CPUMIPSState := default some_mips (write_at 3 0xffffe000 (demo_lo 5) (demo_lo 7) demo).
Lemma demo_last_wf : mips_wf demo_last.
Proof. apply check_mips_ok. vm_compute. reflexivity. Qed.
Lemma demo_last_use : tlb_in_use demo_last = nb_tlb demo_last.
Proof. vm_compute. reflexivity. Qed.
Lemma demo_last_entry : ASID (entry_at demo_last (index_entry demo_last)) = cur_asid demo_last /\
  last_page (entry_at demo_last (index_entry demo_last)) = true.
Proof. split; vm_compute; reflexivity. Qed.


Definition demo_written : CPUMIPSState := default some_mips (r4k_do_tlbwi demo_load).
Lemma demo_written_some : r4k_do_tlbwi demo_load = Some demo_written.
Proof. apply some_default. vm_compute. reflexivity. Qed.
Lemma demo_load_lo : CP0_EntryLo0 demo_load = demo_lo 5 /\ CP0_EntryLo1 demo_load = demo_lo 7.
Proof. split; vm_compute; reflexivity. Qed.

Lemma tlb_write_read_witness : exists env2, r4k_do_tlbr demo_written = Some env2 /\
  CP0_EntryLo0 env2 = demo_lo 5 /\ CP0_EntryLo1 env2 = demo_lo 7.
Proof.
  destruct demo_load_lo as [L0 L1].
  assert (W0 : in_width 26 (CP0_EntryLo0 demo_load)) by (rewrite L0; split; vm_compute; done).
  assert (W1 : in_width 26 (CP0_EntryLo1 demo_load)) by (rewrite L1; split; vm_compute; done).
  destruct (tlb_write_read demo_load demo_written demo_load_wf W0 W1 demo_written_some) as (env2 & E & _ & _ & E0 & E1).
  exists env2. split; [exact E|]. rewrite E0, E1, L0, L1. split; vm_compute; reflexivity.
Defined.

(** A system call of a user program. *)
Definition demo_user : CPUMIPSState :=
  (set_pc 0x401000 (op_mtc0_status 0x10 demo)) <| exception_index := EXCP_SYSCALL |>.
Definition demo_reset (env : CPUMIPSState) : option CPUMIPSState := cpu_reset demo_def env.
Definition demo_kernel : CPUMIPSState := default some_mips (do_interrupt demo_reset demo_user).
Lemma demo_kernel_some : do_interrupt demo_reset demo_user = Some demo_kernel.
Proof. apply some_default. vm_compute. reflexivity. Qed.
Lemma demo_user_flags : status demo_user CP0St_EXL = false /\ status demo_user CP0St_ERL = false /\
  has (hflags demo_user) MIPS_HFLAG_DM = false /\ hflags (compute_hflags demo_user) = hflags demo_user /\
  cpu_mmu_index demo_user = 2.
Proof. do 4 (split; [vm_compute; reflexivity|]). vm_compute. reflexivity. Qed.
Lemma keeps_itself env : handler_keeps env env.
Proof. by repeat split. Qed.

Lemma exception_returns_witness : cpu_mmu_index demo_user = 2 /\ cpu_mmu_index demo_kernel = 0 /\
  pc (op_eret demo_kernel) = 0x401000 /\ cpu_mmu_index (op_eret demo_kernel) = 2.
Proof.
  destruct demo_user_flags as (F1 & F2 & F3 & F4 & F5).
  destruct (exception_returns demo_reset demo_user demo_kernel demo_kernel (8, 0x180, demo_user) F1 F2 F3 F4 eq_refl
              demo_kernel_some (keeps_itself _)) as (R1 & _ & R3 & _ & R5).
  split; [exact F5|]. split; [exact R1|]. split; [rewrite R3; vm_compute; reflexivity|].
  unfold cpu_mmu_index. rewrite R5. vm_compute. reflexivity.
Defined.

Lemma demo_loadable a : 0x400ffe <= a < 0x400ffe + 4 -> loadable demo_mapped a.
Proof.
  intros Ha. assert (C : a = 0x400ffe \/ a = 0x400fff \/ a = 0x401000 \/ a = 0x401001) by lia.
  destruct C as [->|[->|[->| ->]]]; eexists _, _; vm_compute; reflexivity.
Qed.

Lemma mips_debug_read_witness :
  map (load_addr demo_mapped) [0x400ffe; 0x401000] = [0x5ffe; 0x7000] /\
  cpu_memory_rw_debug no_read no_write 4 demo_mapped 0x400ffe [0; 0; 0; 0] false flat_phys =
  Some (0, ram_read (load_addr demo_mapped) (phys_ram flat_phys) 0x400ffe 4, flat_phys).
Proof.
  split; [vm_compute; reflexivity|].
  exact (mips_debug_read no_read no_write demo_mapped flat_phys 4 demo_mapped_wf flat_phys_flat 0x400ffe [0; 0; 0; 0]
           ltac:(lia) ltac:(vm_compute; discriminate) demo_loadable (le_n 4)).
Defined.

(** ** What the software TLB keeps too long *)

(** The replaced entry of a random write keeps its pages in the software TLB even when the
    new entry maps the same pages: the CPU goes on with the old page, while the MMU gives
    the new one. *)
Definition demo_again : CPUMIPSState :=
  default some_mips (r4k_do_tlbwr (op_mtc0_entrylo0 (demo_lo 9) demo_cached <| seed := 0 |> )).

Lemma tlbwr_leaves_stale : get_physical_address demo_again 0x400123 0 = TLBRET_MATCH 0x9123 (Z.lor PAGE_READ PAGE_WRITE) /\
  caches (tlb_table demo_again 0 (tlb_index 0x400000)) 0x400000 = true /\
  addend (tlb_table demo_again 0 (tlb_index 0x400000)) = u32 (Softmmu.sample_base + 0x5000 - 0x400000).
Proof. vm_compute. repeat split. Qed.

(** Under ERL the user segment is not translated; a return that clears ERL leaves the
    pages of the segment in the software TLB. *)
Definition demo_error : CPUMIPSState := (demo_fault (op_mtc0_status 4 demo) 0x600123 0).2.

Lemma eret_leaves_stale : status (op_eret demo_error) CP0St_ERL = false /\
  get_physical_address (op_eret demo_error) 0x600123 0 = TLBRET_NOMATCH /\
  caches (tlb_table (op_eret demo_error) 0 (tlb_index 0x600000)) 0x600000 = true.
Proof. vm_compute. repeat split. Qed.

(** Both mode bits of the status register set give an index outside the tables of the
    software TLB. *)
Lemma mode_out_of_range : cpu_mmu_index (op_mtc0_status 0x18 demo) = NB_MMU_MODES.
Proof. vm_compute. reflexivity. Qed.

End MipsTlb.
