(* ===== verification/Guest.v ===== *)
(** * The guest under MemCheck

    The accesses of translated code as softmmu_header.h compiles them: a call of MemCheck
    with the address, then the access through the TLB.  On flat memory, where MemCheck
    reads guest memory through the walk the TLB is filled from, a load returns the bytes
    that walk leads to, MemCheck changes nothing the guest can see, and its log holds
    the accesses that miss every allocation. *)

From S2P Require Import Prelude Bytes IntervalMap ShadowMemory SymbolTable PhysMem Mmu Machine MemCheck Tlb Softmmu.
Import PhysMem Mmu Machine MemCheck Tlb Softmmu.

Module Guest.

(** ** The marks of a walk keep every translation *)

Section Walks.
Context {D : Type}.
Context (io_mem_read : Z -> Z -> D -> Z -> Z * D).
Context (io_mem_write : Z -> Z -> D -> Z -> Z -> D).

Abbreviation phys := (phys (D := D)).

(** Aligned words agree but for the accessed and dirty bits of a table entry. *)
Definition same_tables (s s' : phys) : Prop := forall b k, b mod 4 = 0 ->
  Z.land PG_ACCESSED_MASK k = 0 -> Z.land PG_DIRTY_MASK k = 0 -> Z.land (rd s' b) k = Z.land (rd s b) k.

#[export] Instance same_tables_preorder : PreOrder same_tables.
Proof using.
  split; [by intros s b k|]. intros s1 s2 s3 H1 H2 b k Hb Ha Hd. rewrite H2 by done. by apply H1.
Qed.

Lemma same_store s a v : a mod 4 = 0 -> is_u32 v ->
  (forall k, Z.land PG_ACCESSED_MASK k = 0 -> Z.land PG_DIRTY_MASK k = 0 -> Z.land v k = Z.land (rd s a) k) ->
  same_tables s (ram_store a (le_bytes 4 v) s).
Proof using.
  intros Ha Hv Hk b k Hb H1 H2. destruct (decide (a = b)) as [<-|Hne]; [|by rewrite rd_store_other].
  rewrite rd_store_same. unfold u32. rewrite wrap_small by done. by apply Hk.
Qed.

Lemma mark_dir_same a s e' s' : flat s -> is_u32 a -> a mod 4 = 0 ->
  mark_dir io_mem_write a (rd s a) s = (e', s') -> same_tables s s' /\ flat s'.
Proof using.
  intros Hf Ha Ha4 E. destruct (mark_dir_spec io_mem_write a _ s e' s' Hf Ha (rd_range s a Hf) E)
    as (He & Hu & _ & Hs & Hf'). split; [|done].
  destruct Hs as [-> | ->]; [done|]. apply same_store; [done|done|]. intros k H1 H2.
  destruct He as [-> | ->]; [done|]. by apply land_lor_disjoint.
Qed.

Lemma mark_entry_u32 w a e s : is_u32 e -> is_u32 (mark_entry io_mem_write w a e s).1.
Proof using.
  intros He. unfold mark_entry. split_ifs; cbn [fst]; repeat apply lor_width; try done; unfold in_width; lia.
Qed.

Lemma mark_entry_same w a s e' s' : flat s -> is_u32 a -> a mod 4 = 0 ->
  mark_entry io_mem_write w a (rd s a) s = (e', s') -> same_tables s s' /\ flat s'.
Proof using.
  intros Hf Ha Ha4 E. pose proof (mark_entry_u32 w a (rd s a) s (rd_range s a Hf)) as Hu. rewrite E in Hu.
  destruct (mark_entry_spec io_mem_write w a _ s e' s' Hf Ha (rd_range s a Hf) E) as (Hk & _ & _ & Hs & Hf').
  split; [|done]. destruct Hs as [-> | ->]; [done|]. by apply same_store.
Qed.

Lemma walk_same e a w u s r s' : flat s ->
  walk_legacy io_mem_read io_mem_write e a w u s = (r, s') -> same_tables s s' /\ flat s'.
Proof using.
  intros Hf Hw. unfold walk_legacy in Hw.
  destruct (table_addr_ok (Z.land (cr3 e) 0xfffff000) (Z.land (Z.shiftr a 20) 0xffc) (a20_mask e)
    ltac:(by apply land_const_mod4) ltac:(by apply land_const_mod4)) as [Hpd Hpd4].
  set (pde_addr := Z.land (u32 (Z.land (cr3 e) 4294963200 + _)) _) in *.
  rewrite (ldl_flat _ s pde_addr Hf Hpd) in Hw.
  destruct (negb (has (rd s pde_addr) PG_PRESENT_MASK)); [by injection Hw as <- <-|].
  destruct (_ && _).
  - destruct (negb _); [by injection Hw as <- <-|]. destruct (mark_entry _ _ _ _ _) as [e1 s1] eqn:Em.
    injection Hw as _ <-. by eapply mark_entry_same.
  - destruct (mark_dir _ _ _ _) as [e1 s1] eqn:Em. destruct (mark_dir_same _ _ _ _ Hf Hpd Hpd4 Em) as [S1 F1].
    destruct (table_addr_ok (Z.land e1 0xfffff000) (Z.land (Z.shiftr a 10) 0xffc) (a20_mask e)
      ltac:(by apply land_const_mod4) ltac:(by apply land_const_mod4)) as [Hpt Hpt4].
    set (pte_addr := Z.land (u32 (Z.land e1 4294963200 + _)) _) in *.
    rewrite (ldl_flat _ s1 pte_addr F1 Hpt) in Hw.
    destruct (negb (has (rd s1 pte_addr) PG_PRESENT_MASK)); [by injection Hw as <- <-|].
    destruct (negb _); [by injection Hw as <- <-|]. destruct (mark_entry _ _ _ _ _) as [e2 s2] eqn:Em2.
    injection Hw as _ <-. destruct (mark_entry_same _ _ _ _ _ F1 Hpt Hpt4 Em2) as [S2 F2].
    split; [by etransitivity|done].
Qed.

(** The debug walk sees the same translations. *)
Lemma debug_same e a s s' : flat s -> flat s' -> same_tables s s' -> has (cr4 e) CR4_PAE_MASK = false ->
  (cpu_get_phys_page_debug io_mem_read e a s').1 = (cpu_get_phys_page_debug io_mem_read e a s).1.
Proof using.
  intros Hf Hf' Hs Hpae. unfold cpu_get_phys_page_debug. rewrite Hpae.
  destruct (negb (has (cr0 e) CR0_PG_MASK)); [done|].
  destruct (table_addr_ok (Z.land (cr3 e) 0xfffff000) (Z.land (Z.shiftr a 20) 0xffc) (a20_mask e)
    ltac:(by apply land_const_mod4) ltac:(by apply land_const_mod4)) as [Hpd Hpd4].
  set (pde_addr := Z.land (u32 (Z.land (cr3 e) 4294963200 + _)) _) in *.
  rewrite (ldl_flat _ s' pde_addr), (ldl_flat _ s pde_addr) by done. cbv beta iota.
  rewrite !(has_eq (rd s' pde_addr) (rd s pde_addr)) by (by apply Hs).
  destruct (negb (has (rd s pde_addr) PG_PRESENT_MASK)); [done|].
  destruct (_ && _).
  - cbn [fst]. apply finish_eq. rewrite <- !Z.land_assoc. by apply Hs.
  - rewrite (Hs pde_addr 0xfffff000) by done.
    destruct (table_addr_ok (Z.land (rd s pde_addr) 0xfffff000) (Z.land (Z.shiftr a 10) 0xffc) (a20_mask e)
      ltac:(by apply land_const_mod4) ltac:(by apply land_const_mod4)) as [Hpt Hpt4].
    set (pte_addr := Z.land (u32 (Z.land (rd s pde_addr) 4294963200 + _)) _) in *.
    rewrite (ldl_flat _ s' pte_addr), (ldl_flat _ s pte_addr) by done. cbv beta iota.
    rewrite !(has_eq (rd s' pte_addr) (rd s pte_addr)) by (by apply Hs).
    destruct (negb (has (rd s pte_addr) PG_PRESENT_MASK)); [done|].
    cbn [fst]. apply finish_eq. by apply Hs.
Qed.

(** The faults of a guest are not intercepted by a hypervisor, and it does not use PAE. *)
Definition plain_paging (e : CPUX86State) : Prop :=
  has (cr4 e) CR4_PAE_MASK = false /\ has (intercept_exceptions e) (Z.shiftl 1 EXCP0E_PAGE) = false.

(** The registers the debug walk depends on. *)
Definition same_control (e e' : CPUX86State) : Prop :=
  cr0 e' = cr0 e /\ cr3 e' = cr3 e /\ cr4 e' = cr4 e /\ a20_mask e' = a20_mask e /\
  intercept_exceptions e' = intercept_exceptions e.

Lemma fault_same e a w idx s r e' s' : flat s -> plain_paging e ->
  cpu_x86_handle_mmu_fault io_mem_read io_mem_write e a w idx s = (r, e', s') ->
  same_tables s s' /\ flat s' /\ same_control e e' /\
  match r with SetPage _ _ _ => e' = e | Fault ret => ret = 1 /\ cr2 e' = a /\ exception_index e' = EXCP0E_PAGE end.
Proof using.
  intros Hf [Hpae Hint]. unfold cpu_x86_handle_mmu_fault. rewrite Hpae.
  assert (Hc : same_control e e) by (by repeat split).
  destruct (negb _); [intros [= <- <- <-]; split; [done|]; by split|].
  destruct (walk_legacy _ _ _ _ _ _ s) as [wk s1] eqn:Ew. destruct (walk_same _ _ _ _ _ _ _ Hf Ew) as [S1 F1].
  destruct wk; [unfold do_fault; rewrite Hint|]; intros [= <- <- <-]; (split; [done|]); (split; [done|]);
    (split; [by repeat split|done]).
Qed.

Lemma debug_control e e' a s : same_control e e' ->
  cpu_get_phys_page_debug io_mem_read e' a s = cpu_get_phys_page_debug io_mem_read e a s.
Proof using.
  intros (H0 & H3 & H4 & Ha & _). unfold cpu_get_phys_page_debug. by rewrite H0, H3, H4, Ha.
Qed.
End Walks.
(** ** Loads read what MemCheck reads *)

Section Loads.
Context {D K : Type} `{!CodeCache K D}.
Context (io_mem_read : Z -> Z -> D -> Z -> Z * D).
Context (io_mem_write : Z -> Z -> D -> Z -> Z -> D).
Context (phys_ram_base io_mem_watch : Z).
Context (Hwatch : watch_ok io_mem_watch).

Abbreviation phys := (phys (D := D)).
Abbreviation soft := (soft (D := D) (K := K)).
Abbreviation page s a := (debug_page io_mem_read (env s) (mem s) a).

(** An entry for reads is invalid, or leads to the page the debug walk finds. *)
Definition entry_coherent (s : soft) (e : CPUTLBEntry) : Prop :=
  addr_read e = INVALID \/
  (is_u32 (addr_read e) /\ page_off (addr_read e) = 0 /\ page s (addr_read e) <> NO_PAGE /\
   u32 (addr_read e + addend e) = u32 (phys_ram_base + page s (addr_read e))).

Definition coherent (s : soft) : Prop :=
  flat (mem s) /\ plain_paging (env s) /\ forall idx i, entry_coherent s (tlb_table s idx i).

Lemma flush_coherent g (s : soft) : flat (mem s) -> plain_paging (env s) ->
  coherent (s <| tlb_table := tlb_flush g (tlb_table s) |>).
Proof using. intros Hf Hp. split; [exact Hf|]. split; [exact Hp|]. intros idx i. by left. Qed.

Lemma page_step (s s' : soft) : flat (mem s) -> flat (mem s') -> same_tables (mem s) (mem s') -> plain_paging (env s) ->
  same_control (env s) (env s') -> forall a, page s' a = page s a.
Proof using.
  intros Hf Hf' Ht [Hp _] Hc a. unfold debug_page. rewrite (debug_control _ _ _ _ _ Hc). by apply debug_same.
Qed.

Lemma plain_step e e' : plain_paging e -> same_control e e' -> plain_paging e'.
Proof using. intros [H1 H2] (E0 & E3 & E4 & Ea & Ei). split; congruence. Qed.

Lemma coherent_step (s s' : soft) : coherent s -> flat (mem s') -> same_tables (mem s) (mem s') ->
  same_control (env s) (env s') -> tlb_table s' = tlb_table s -> coherent s'.
Proof using.
  intros (Hf & Hp & He) Hf' Ht Hc Et. split; [done|]. split; [by eapply plain_step|]. intros idx i. rewrite Et.
  destruct (He idx i) as [H|(H1 & H2 & H3 & H4)]; [by left|right].
  by rewrite (page_step s s' Hf Hf' Ht Hp Hc).
Qed.

(** What an entry that is found reads. *)
Lemma found_read n ptr (s : soft) e : coherent s -> entry_coherent s e -> is_u32 ptr ->
  page_off ptr + Z.of_nat n <= 4096 -> tlb_hit ptr (addr_read e) = true ->
  page_off (addr_read e) = 0 /\
  exists bs, cpu_memory_rw_debug io_mem_read io_mem_write n (env s) ptr (replicate n 0) false (mem s)
             = Some (0, bs, mem s) /\
    host_read phys_ram_base n (u32 (ptr + addend e)) s = le_value bs.
Proof using.
  intros (Hf & Hp & _) He Hu Hn Hh. unfold tlb_hit in Hh. to_prop.
  destruct He as [E|(Ea & Eo & Enp & Ead)].
  { exfalso. rewrite E in Hh. pose proof (page_off_base ptr) as Ho. rewrite Hh in Ho. done. }
  split; [done|]. rewrite tag_base in Hh by (apply page_off_bit; [lia|done]).
  destruct (page_split (addr_read e) Ea) as (Es & _). rewrite Eo, Z.add_0_r, <- Hh in Es.
  rewrite Es in Enp, Ead.
  assert (Epg : page s (page_base ptr) = page s ptr) by (unfold debug_page; by rewrite page_base_base).
  rewrite Epg in Enp, Ead. destruct (page_split ptr Hu) as (Ep & Hr & _).
  destruct (debug_addr_chunk io_mem_read (env s) (mem s) ptr n Hf Hu Hn Enp) as (D1 & D2 & D3 & D4).
  eexists. split.
  - pose proof (debug_read_ram io_mem_read io_mem_write (env s) (mem s) n Hf ptr (replicate n 0)) as H.
    rewrite length_replicate in H. unfold in_width in Hu. apply H; [lia| | |lia].
    + destruct (page_split ptr ltac:(unfold in_width; lia)) as (_ & _ & Hm & Hb).
      pose proof (Z.div_mod (page_base ptr) 4096 ltac:(lia)). lia.
    + intros a Ha. destruct (same_page ptr (a - ptr)) as [Eb _]; [unfold in_width; lia|lia|lia|].
      unfold debug_page. replace a with (ptr + (a - ptr)) by lia. rewrite Eb. exact Enp.
  - unfold host_read. f_equal.
    assert (Ea2 : u32 (u32 (ptr + addend e) - phys_ram_base) = debug_addr io_mem_read (env s) (mem s) ptr).
    { unfold debug_addr. rewrite Ep at 1. unfold Z.sub. rewrite u32_add.
      replace (page_base ptr + page_off ptr + addend e + - phys_ram_base)
        with (page_base ptr + addend e + (page_off ptr - phys_ram_base)) by lia.
      rewrite <- u32_add, Ead, u32_add. f_equal. lia. }
    rewrite Ea2. clear Ea2. revert D4. generalize (debug_addr io_mem_read (env s) (mem s)). intros tr Htr.
    assert (G : forall m k, (m + k = n)%nat -> mem_read (phys_ram (mem s)) (tr ptr + Z.of_nat k) m
      = ram_read tr (phys_ram (mem s)) (ptr + Z.of_nat k) m).
    { induction m as [|m IH]; intros k Hk; cbn [mem_read ram_read]; [done|].
      rewrite Htr by lia. f_equal. specialize (IH (S k) ltac:(lia)).
      rewrite Nat2Z.inj_succ in IH. replace (tr ptr + Z.of_nat k + 1) with (tr ptr + Z.succ (Z.of_nat k)) by lia.
      replace (ptr + Z.of_nat k + 1) with (ptr + Z.succ (Z.of_nat k)) by lia. exact IH. }
    specialize (G n 0%nat ltac:(lia)). by rewrite !Z.add_0_r in G.
Qed.
Lemma debug_base (e : CPUX86State) a (m : phys) : has (cr4 e) CR4_PAE_MASK = false ->
  cpu_get_phys_page_debug io_mem_read e (page_base a) m = cpu_get_phys_page_debug io_mem_read e a m.
Proof using.
  intros Hp. unfold cpu_get_phys_page_debug, page_base. rewrite Hp.
  assert (E1 : Z.land (Z.shiftr (Z.land a 0xfffff000) 20) 0xffc = Z.land (Z.shiftr a 20) 0xffc)
    by (by rewrite Z.shiftr_land, <- Z.land_assoc).
  assert (E2 : Z.land (Z.shiftr (Z.land a 0xfffff000) 10) 0xffc = Z.land (Z.shiftr a 10) 0xffc)
    by (by rewrite Z.shiftr_land, <- Z.land_assoc).
  assert (E3 : Z.land (Z.land a 0xfffff000) 0xfffff000 = Z.land a 0xfffff000) by (by rewrite <- Z.land_assoc).
  assert (E4 : Z.land (Z.land (Z.land a 0xfffff000) (a20_mask e)) 0xfffff000 = Z.land (Z.land a (a20_mask e)) 0xfffff000).
  { rewrite <- !Z.land_assoc, (Z.land_comm 0xfffff000), <- !Z.land_assoc. done. }
  by rewrite E1, E2, E3, E4.
Qed.

Lemma u32_back v x : u32 (v + u32 (u32 x - v)) = u32 x.
Proof using.
  unfold u32, wrap. rewrite Zminus_mod_idemp_l, Zplus_mod_idemp_r. f_equal. lia.
Qed.

(** The entry [tlb_fill] makes for a page of flat memory. *)
Lemma set_page_flat vaddr paddr prot idx w t (m : phys) : flat m -> is_u32 paddr -> page_off paddr = 0 ->
  is_u32 vaddr -> page_off vaddr = 0 -> has prot PAGE_READ = true ->
  exists w' e, tlb_set_page_exec phys_ram_base io_mem_watch vaddr paddr prot idx w t m
    = (w', upd_entry idx (tlb_index vaddr) (fun _ => e) t) /\
    addr_read e = vaddr /\ addend e = u32 (u32 (phys_ram_base + paddr) - vaddr).
Proof using Hwatch.
  intros [Hf _] Hp Hp0 Hv Hv0 Hr. unfold tlb_set_page_exec. rewrite Hf by done.
  destruct (page_split paddr Hp) as (Ep & _). rewrite Hp0, Z.add_0_r in Ep. rewrite <- Ep.
  unfold page_target. rewrite Hp0. cbn [Z.ltb IO_MEM_ROM Z.compare andb].
  destruct (watch_page_spec phys_ram_base io_mem_watch vaddr paddr w Hwatch Hv0 vaddr paddr) as [Hs _].
  specialize (Hs Hv0). destruct (watch_page _ _ _ _ w _ _) as [[a p] w']. cbn [fst snd] in Hs.
  destruct Hs as [-> _]. eexists _, _. split; [reflexivity|]. cbn. by rewrite Hr, <- Ep.
Qed.

Lemma fill_read ptr idx (s : soft) : coherent s -> is_u32 ptr ->
  exists r s', tlb_fill io_mem_read io_mem_write phys_ram_base io_mem_watch ptr 0 idx s = Some (r, s') /\
    coherent s' /\ same_tables (mem s) (mem s') /\ same_control (env s) (env s') /\
    match r with
    | inr _ => tlb_hit ptr (addr_read (tlb_table s' idx (tlb_index ptr))) = true
    | inl (vec, _) => vec = EXCP0E_PAGE /\ cr2 (env s') = ptr
    end.
Proof using Hwatch.
  intros Hc Hu. pose proof Hc as (Hf & Hp & He). unfold tlb_fill.
  destruct (cpu_x86_handle_mmu_fault _ _ _ _ _ _ _) as [[r e] m] eqn:Ef.
  destruct (fault_same _ _ _ _ _ _ _ _ _ _ Hf Hp Ef) as (St & F1 & Sc & Hr).
  set (s0 := upd env _ s). set (s1 := upd mem _ s0).
  assert (Hc1 : coherent s1) by (by apply (coherent_step s s1)).
  assert (Em : mem s1 = m) by done. assert (Ee : env s1 = e) by done. rewrite Em.
  destruct r as [vaddr paddr prot|ret].
  - destruct (fault_map _ _ _ _ _ _ _ _ _ _ _ _ Hu Ef) as (-> & Hrd & Hpu & Hpo & _).
    destruct (fault_debug_agrees _ _ _ _ _ _ _ _ _ _ _ _ Hf Hu (proj1 Hp) Ef) as [Hd _].
    destruct (set_page_flat (page_base ptr) paddr prot idx (watchpoint s1) (tlb_table s1) m F1 Hpu Hpo
      ltac:(by apply land_width_l) (page_off_base ptr) Hrd) as (w' & te & -> & E1 & E2).
    eexists _, _. split; [reflexivity|]. cbn [fst snd]. rewrite tlb_index_base.
    split; [|split; [exact St|]; split; [exact Sc|]].
    + destruct Hc1 as (G1 & G2 & G3). split; [exact G1|]. split; [exact G2|]. intros idx' i. simpl.
      unfold upd_entry. destruct (_ && _); [|exact (G3 idx' i)]. right. rewrite E1.
      assert (Epg : page s1 (page_base ptr) = paddr).
      { unfold debug_page. rewrite page_base_base, debug_base by (rewrite Ee; by apply (plain_step (env s))).
        rewrite Em, Ee, (debug_control _ _ _ _ _ Sc), (debug_same _ _ _ (mem s)) by (done || apply Hp).
        by rewrite Hd. }
      split; [by apply land_width_l|]. split; [apply page_off_base|]. simpl in *. rewrite Epg.
      split; [intros ->; done|]. rewrite E2. apply u32_back.
    + simpl. unfold upd_entry. rewrite !Z.eqb_refl. cbn [andb]. rewrite E1. unfold tlb_hit. apply Z.eqb_eq.
      rewrite tag_base by (apply page_off_bit; [lia|apply page_off_base]). by rewrite page_base_base.
  - eexists _, _. split; [reflexivity|]. split; [exact Hc1|]. split; [exact St|]. split; [exact Sc|].
    rewrite Ee. by destruct Hr as (_ & -> & ->).
Qed.
Abbreviation ld := (ld_fast io_mem_read io_mem_write phys_ram_base io_mem_watch).
Abbreviation ldm := (ld_mmu io_mem_read io_mem_write phys_ram_base io_mem_watch).

(** The result of a load: what a debug read of the state it leaves returns, or a page fault. *)
Definition load_result (n : nat) (ptr : Z) (r : (Z * Z) + Z) (s : soft) : Prop :=
  match r with
  | inr v => exists bs, cpu_memory_rw_debug io_mem_read io_mem_write n (env s) ptr (replicate n 0) false (mem s)
                        = Some (0, bs, mem s) /\ v = le_value bs
  | inl (vec, _) => vec = EXCP0E_PAGE /\ cr2 (env s) = ptr
  end.

Lemma coherent_tag_ok s idx i : coherent s -> tag_ok (addr_read (tlb_table s idx i)).
Proof using.
  intros (_ & _ & He). destruct (He idx i) as [-> | (H1 & H2 & _)]; [apply invalid_ok|by apply tag_page].
Qed.

Lemma ld_hit f n ptr idx s : coherent s -> is_u32 ptr -> page_off ptr + Z.of_nat n <= 4096 ->
  tlb_hit ptr (addr_read (tlb_table s idx (tlb_index ptr))) = true ->
  ldm (S f) n 0 ptr idx s = ld_raw phys_ram_base n (u32 (ptr + addend (tlb_table s idx (tlb_index ptr)))) s /\
  exists v, ld_raw phys_ram_base n (u32 (ptr + addend (tlb_table s idx (tlb_index ptr)))) s = Some (inr v, s) /\
    load_result n ptr (inr v) s.
Proof using.
  intros Hc Hu Hn Hh. pose proof Hc as (_ & _ & He).
  destruct (found_read n ptr s _ Hc (He idx (tlb_index ptr)) Hu Hn Hh) as (H0 & bs & E1 & E2). split.
  - cbn [ld_mmu]. change (read_tag 0 ?e) with (addr_read e). rewrite Hh, H0. cbn [truth Z.eqb negb].
    unfold spans. by rewrite (proj2 (Z.leb_gt _ _)) by (unfold TARGET_PAGE_SIZE; lia).
  - eexists. split; [reflexivity|]. by exists bs.
Qed.

Lemma ld_result n ptr idx s : size_ok n -> coherent s -> is_u32 ptr -> page_off ptr + Z.of_nat n <= 4096 ->
  exists r s', ld n 0 ptr idx s = Some (r, s') /\ coherent s' /\ same_tables (mem s) (mem s') /\
    load_result n ptr r s'.
Proof using Hwatch.
  intros Hsz Hc Hu Hn. unfold ld_fast. change (read_tag 0 ?e) with (addr_read e).
  set (e := tlb_table s idx (tlb_index ptr)).
  assert (Hit : forall f, tlb_hit ptr (addr_read e) = true -> exists r s', ldm (S f) n 0 ptr idx s = Some (r, s') /\
    coherent s' /\ same_tables (mem s) (mem s') /\ load_result n ptr r s').
  { intros f Hh. destruct (ld_hit f n ptr idx s Hc Hu Hn Hh) as (-> & v & E & Hv). by exists (inr v), s. }
  destruct (fast_hit n ptr (addr_read e)) eqn:Ef; cbn [negb].
  - destruct (fast_hit_page n ptr _ Hsz Hu (coherent_tag_ok s idx _ Hc) Ef) as (H0 & Eb & _).
    assert (Hh : tlb_hit ptr (addr_read e) = true).
    { unfold tlb_hit. rewrite tag_base by (apply page_off_bit; [lia|done]). fold e in Eb. by rewrite Eb, page_base_base, Z.eqb_refl. }
    destruct (ld_hit 0 n ptr idx s Hc Hu Hn Hh) as (_ & v & E & Hv). by exists (inr v), s.
  - destruct (tlb_hit ptr (addr_read e)) eqn:Hh; [by apply Hit|]. clear Hit.
    destruct (fill_read ptr idx s Hc Hu) as (r & s1 & E1 & Hc1 & St & Sc & Hr).
    unfold FUEL. remember 7%nat as f. cbn [ld_mmu]. change (read_tag 0 ?e) with (addr_read e). fold e.
    rewrite Hh. unfold mbind, soft_bind, bindM. rewrite E1.
    destruct r as [[vec ec]|[]]; [by exists (inl (vec, ec)), s1|].
    subst f. destruct (ld_hit 6 n ptr idx s1 Hc1 Hu Hn Hr) as (-> & v & E & Hv). by exists (inr v), s1.
Qed.

End Loads.

(** ** MemCheck only looks *)

Section Looks.
Context {D : Type}.
Context (io_mem_read : Z -> Z -> D -> Z -> Z * D).
Context (io_mem_write : Z -> Z -> D -> Z -> Z -> D).
Context (uninit : Z -> list Z) (uninit_current uninit_comm : list Z).

Abbreviation cpu := (CPUX86State * phys (D := D))%type.
Abbreviation QEMU := (MachineQEMU io_mem_read io_mem_write uninit).
Abbreviation Access := (MemoryAccess (Machine0 := QEMU) uninit_current uninit_comm).

Context (c : cpu) (Hflat : flat_map c.2).

Lemma read_looks a buf : (debug_read io_mem_read io_mem_write c a buf).2 = c.
Proof using Hflat.
  unfold debug_read. destruct (cpu_memory_rw_debug _ _ _ _ _ _ _ _) as [[[r b] s']|] eqn:E; [|done].
  assert (Ha : is_u32 (u32 a)) by (apply wrap_range; lia).
  rewrite (debug_read_same _ _ _ _ _ Hflat _ _ _ _ _ Ha E). by destruct c.
Qed.

Lemma word_looks a old : (debug_word io_mem_read io_mem_write c a old).2 = c.
Proof using Hflat.
  unfold debug_word. pose proof (read_looks a old) as H.
  by destruct (debug_read _ _ c a old) as [buf c'].
Qed.

Lemma frames_look t fuel : forall fp depth,
  (recurse_frames io_mem_read io_mem_write uninit fuel c t fp depth).2 = c.
Proof using Hflat.
  induction fuel as [|fuel IH]; intros fp depth; cbn [recurse_frames]; [done|].
  destruct (fp =? 0); [done|]. pose proof (word_looks (u32 (fp + 4)) (uninit depth)) as H1.
  destruct (debug_word _ _ c _ (uninit depth)) as [ra c1]. cbn [snd] in H1. subst c1.
  destruct (ra =? 0); [done|]. pose proof (word_looks fp (le_bytes 4 fp)) as H2.
  destruct (debug_word _ _ c fp _) as [fp' c2]. cbn [snd] in H2. subst c2.
  specialize (IH fp' (depth + 1)). by destruct (recurse_frames _ _ _ fuel c t fp' _).
Qed.

(** The accesses the lines of a log complain about. *)
Definition bounds (ls : list out_line) : list (Z * Z) :=
  omap (fun l => match l with OutOfBound address length => Some (address, length) | _ => None end) ls.

Lemma bounds_app l1 l2 : bounds (l1 ++ l2) = bounds l1 ++ bounds l2.
Proof using. apply omap_app. Qed.

Lemma bounds_trace ts : bounds (OutTrace <$> ts) = [].
Proof using. induction ts; [done|]. exact IHts. Qed.

Lemma comm_looks mc : exists ls, PrintKernelComm (Machine0 := QEMU) uninit_current uninit_comm c mc = (say ls mc, c) /\ bounds ls = [].
Proof using Hflat.
  unfold PrintKernelComm. destruct (SymbolTable.Lookup_name _ _) as [p|].
  - cbn [ReadMemory MachineQEMU]. unfold i386_ReadMemory.
    pose proof (read_looks p uninit_current) as H1. destruct (debug_read _ _ c p _) as [cur c1].
    cbn [snd] in H1. subst c1. pose proof (read_looks (u32 (le_value cur + COMM_OFFSET)) uninit_comm) as H2.
    destruct (debug_read _ _ c _ uninit_comm) as [cm c2]. cbn [snd] in H2. subst c2. by eexists.
  - exists []. by rewrite say_nil.
Qed.

Lemma trace_looks mc : exists ls, DumpTrace (Machine0 := QEMU) uninit_current uninit_comm c mc = (say ls mc, c) /\ bounds ls = [].
Proof using Hflat.
  unfold DumpTrace. destruct (comm_looks mc) as (l1 & -> & B1).
  cbn [StackTrace MachineQEMU]. unfold i386_StackTrace, RecurseStackTrace.
  pose proof (frames_look (m_SymbolTable (say l1 mc)) (Z.to_nat (20 - 1)) (reg c R_EBP) 1) as H.
  destruct (recurse_frames _ _ _ _ c _ _ _) as [lines c2]. cbn [snd] in H. subst c2.
  rewrite say_app. eexists. split; [reflexivity|]. by rewrite bounds_app, B1, bounds_trace.
Qed.

Lemma access_looks address length mc : exists ls, Access c address length mc = (say ls mc, c) /\
  (wf (m_ShadowMemory mc) -> is_u32 address -> 0 < length -> address + length < 2 ^ 32 ->
   (unallocated mc address length -> bounds ls = [(address, length)]) /\
   (~ unallocated mc address length -> ls = [])).
Proof using Hflat.
  pose proof (fun Hw Ha Hl He => access_exact (Machine0 := QEMU) uninit_current uninit_comm c mc address length Hw Ha Hl He) as Hx.
  unfold MemoryAccess in *.
  assert (Quiet : exists ls, (mc, c) = (say ls mc, c) /\ ls = []) by (exists []; by rewrite say_nil).
  assert (Nq : forall l, mc = say (OutOfBound address length :: l) mc -> False).
  { intros l H. apply (f_equal (fun m => List.length (log m))) in H. cbn in H. rewrite length_app in H. simpl in H. lia. }
  destruct (m_MemoryAccessDisable mc); [|destruct (_ || _); [|destruct (ShadowMemory.rec_hit _ _ _)]];
    try (destruct Quiet as (ls & E & ->); exists []; split; [exact E|]; intros Hw Ha Hl He;
         destruct (Hx Hw Ha Hl He) as [H1 _]; split; [|done];
         intros Hu; destruct (H1 Hu) as [l H]; by apply Nq in H).
  destruct (trace_looks (say [OutOfBound address length] mc)) as (ls & E & B). rewrite E in *. rewrite say_app in *.
  eexists. split; [reflexivity|]. intros Hw Ha Hl He. destruct (Hx Hw Ha Hl He) as [_ H2].
  split; [intros _; rewrite bounds_app, B; done|]. intros Hn. specialize (H2 Hn). injection H2 as H2.
  symmetry in H2. by apply Nq in H2.
Qed.
End Looks.

(** ** The accesses of translated code *)

Section Checked.
Context {D K : Type} `{!CodeCache K D}.
Context (io_mem_read : Z -> Z -> D -> Z -> Z * D).
Context (io_mem_write : Z -> Z -> D -> Z -> Z -> D).
Context (phys_ram_base io_mem_watch : Z).
Context (uninit : Z -> list Z) (uninit_current uninit_comm : list Z).

Abbreviation soft := (soft (D := D) (K := K)).
Abbreviation cpu := (CPUX86State * phys (D := D))%type.
Abbreviation QEMU := (MachineQEMU io_mem_read io_mem_write uninit).

(** [MemCheckLinuxKernelQEMU_MemoryAccess_b], [_w], [_l] or [_q], by the size. *)
Definition check (n : nat) (ptr : Z) (mc : MemCheckState) (s : soft) : MemCheckState * soft :=
  let '(mc, c) :=
    match n with
    | 1%nat => MemoryAccess_b (Machine0 := QEMU) uninit_current uninit_comm (env s, mem s) ptr mc
    | 2%nat => MemoryAccess_w (Machine0 := QEMU) uninit_current uninit_comm (env s, mem s) ptr mc
    | 4%nat => MemoryAccess_l (Machine0 := QEMU) uninit_current uninit_comm (env s, mem s) ptr mc
    | _ => MemoryAccess_q (Machine0 := QEMU) uninit_current uninit_comm (env s, mem s) ptr mc
    end in
  let s := s <| env := c.1 |> in
  (mc, s <| mem := c.2 |>).

(** [ldub], [lduw], [ldl], [ldq], of data or code: the check, then the access. *)
Definition ldu (n : nat) (acc ptr mmu_idx : Z) (mc : MemCheckState) (s : soft)
  : option (((Z * Z) + Z) * MemCheckState * soft) :=
  let '(mc, s) := check n ptr mc s in
  '(r, s) ← ld_fast io_mem_read io_mem_write phys_ram_base io_mem_watch n acc ptr mmu_idx s;
  Some (r, mc, s).

(** [ldsb], [ldsw]: the value is sign extended to an [int]. *)
Definition lds (n : nat) (acc ptr mmu_idx : Z) (mc : MemCheckState) (s : soft)
  : option (((Z * Z) + Z) * MemCheckState * soft) :=
  '(r, mc, s) ← ldu n acc ptr mmu_idx mc s;
  Some (match r with inr v => inr (sext (8 * Z.of_nat n) v) | inl e => inl e end, mc, s).

Definition st (n : nat) (ptr v mmu_idx : Z) (mc : MemCheckState) (s : soft)
  : option (((Z * Z) + unit) * MemCheckState * soft) :=
  let '(mc, s) := check n ptr mc s in
  '(r, s) ← st_fast io_mem_read io_mem_write phys_ram_base io_mem_watch n ptr v mmu_idx s;
  Some (r, mc, s).

Definition checked_exec (op : soft_op) (mc : MemCheckState) (s : soft) : option (MemCheckState * soft) :=
  match op with
  | Load n addr mmu_idx => '(_, mc, s) ← ldu n 0 addr mmu_idx mc s; Some (mc, s)
  | Store n addr v mmu_idx => '(_, mc, s) ← st n addr v mmu_idx mc s; Some (mc, s)
  | _ => s ← exec io_mem_read io_mem_write phys_ram_base io_mem_watch op s; Some (mc, s)
  end.

Fixpoint checked_run (ops : list soft_op) (mc : MemCheckState) (s : soft) : option (MemCheckState * soft) :=
  match ops with
  | [] => Some (mc, s)
  | op :: ops => '(mc, s) ← checked_exec op mc s; checked_run ops mc s
  end.

(** The accesses of a run, and those it must complain about. *)
Definition accesses (ops : list soft_op) : list (Z * Z) :=
  omap (fun op => match op with
                  | Load n addr _ | Store n addr _ _ => Some (addr, Z.of_nat n)
                  | _ => None
                  end) ops.

#[global] Instance covers_dec (m : list ShadowMemory.entry) a : Decision (covers m a).
Proof using.
  refine (cast_if (decide (Exists (fun e => span_addr e <= a < extent e) m))); unfold covers; by rewrite <- Exists_exists.
Defined.

#[global] Instance unallocated_dec mc a l : Decision (unallocated mc a l).
Proof using.
  refine (cast_if (decide (m_MemoryAccessDisable mc = false /\
    m_MemoryAccessStart mc <= a < m_MemoryAccessStop mc /\
    Forall (fun x => ~ covers (m_ShadowMemory mc) x) (seqZ a l))));
    rewrite Forall_forall in *; unfold unallocated; setoid_rewrite <- elem_of_seqZ; done.
Defined.

Definition reported (mc : MemCheckState) (ops : list soft_op) : list (Z * Z) :=
  filter (fun p => unallocated mc p.1 p.2) (accesses ops).

Context (Hwatch : watch_ok io_mem_watch) (Hbase : base_ok phys_ram_base).
Context (board : Z -> option (list Z)).

Lemma check_looks n ptr mc s : size_ok n -> flat_map (mem s) ->
  exists ls, check n ptr mc s = (say ls mc, s) /\
  (wf (m_ShadowMemory mc) -> is_u32 ptr -> ptr + Z.of_nat n < 2 ^ 32 ->
   bounds ls = if decide (unallocated mc ptr (Z.of_nat n)) then [(ptr, Z.of_nat n)] else []).
Proof using.
  intros Hn Hf. assert (He : check n ptr mc s =
    (let '(mc, c) := MemoryAccess (Machine0 := QEMU) uninit_current uninit_comm (env s, mem s) ptr (Z.of_nat n) mc in
     let s := s <| env := c.1 |> in (mc, s <| mem := c.2 |>)))
    by (destruct Hn as [-> | [-> | [-> | ->]]]; done).
  destruct (access_looks io_mem_read io_mem_write uninit uninit_current uninit_comm (env s, mem s) Hf
    ptr (Z.of_nat n) mc) as (ls & E & Hx).
  exists ls. rewrite He, E. split; [by destruct s|]. intros Hw Ha Hl.
  destruct (size_divides n Hn) as [_ Hr]. destruct (Hx Hw Ha ltac:(lia) Hl) as [H1 H2].
  destruct (decide _) as [Hu|Hu]; [by apply H1|by rewrite H2].
Qed.

Abbreviation exec_op := (exec io_mem_read io_mem_write phys_ram_base io_mem_watch).
Abbreviation run_ops := (run io_mem_read io_mem_write phys_ram_base io_mem_watch).

(** One operation: MemCheck only adds lines to its log. *)
Lemma checked_exec_says op mc s : op_ok op -> flat_map (mem s) ->
  exists ls, checked_exec op mc s = (fun s' => (say ls mc, s')) <$> exec_op op s /\
  (wf (m_ShadowMemory mc) -> Forall (fun p => p.1 + p.2 < 2 ^ 32) (accesses [op]) ->
   bounds ls = reported mc [op]).
Proof using.
  intros Hop Hf.
  assert (Quiet : forall m : option soft, exists ls, (s ← m; Some (mc, s)) = (fun s' => (say ls mc, s')) <$> m /\
    (wf (m_ShadowMemory mc) -> bounds ls = [])) by (intros [m|]; exists []; rewrite ?say_nil; done).
  destruct op as [n addr idx|n addr v idx|o|a|st0 sp fl|a|a|a|a|a|a b w]; try (
    match goal with |- context [checked_exec ?op _ _] => destruct (Quiet (exec_op op s)) as (ls & E & B) end;
    exists ls; split; [exact E|]; intros Hw _; exact (B Hw)).
  - destruct Hop as [Hn Ha]. destruct (check_looks n addr mc s Hn Hf) as (ls & E & B).
    exists ls. unfold checked_exec, ldu. rewrite E. split; [cbn [exec]; by destruct (ld_fast _ _ _ _ _ _ _ _ s) as [[r s']|]|].
    intros Hw Hl. apply Forall_cons in Hl as [Hl _]. rewrite B by done. unfold reported. cbn [accesses omap list_omap].
    rewrite filter_cons, filter_nil. cbn [fst snd]. by destruct (decide (unallocated mc addr (Z.of_nat n))).
  - destruct Hop as [Hn Ha]. destruct (check_looks n addr mc s Hn Hf) as (ls & E & B).
    exists ls. unfold checked_exec, st. rewrite E. split; [cbn [exec]; by destruct (st_fast _ _ _ _ _ _ _ _ s) as [[r s']|]|].
    intros Hw Hl. apply Forall_cons in Hl as [Hl _]. rewrite B by done. unfold reported. cbn [accesses omap list_omap].
    rewrite filter_cons, filter_nil. cbn [fst snd]. by destruct (decide (unallocated mc addr (Z.of_nat n))).
Qed.

Lemma reported_cons mc op ops : reported mc (op :: ops) = reported mc [op] ++ reported mc ops.
Proof using.
  unfold reported. rewrite <- filter_app. f_equal. unfold accesses.
  change (op :: ops) with ([op] ++ ops). apply omap_app.
Qed.

Lemma reported_say ls mc ops : reported (say ls mc) ops = reported mc ops.
Proof using. unfold reported. apply list_filter_iff. intros p. done. Qed.

Lemma flat_board (s s' : soft) : soft_ok phys_ram_base board s -> soft_ok phys_ram_base board s' ->
  flat_map (mem s) -> flat_map (mem s').
Proof using.
  intros ((E & _) & _) ((E' & _) & _) Hf a Ha. rewrite <- (Hf a Ha). apply page_desc_map. congruence.
Qed.

Lemma checked_run_says ops : forall mc s, soft_ok phys_ram_base board s -> flat_map (mem s) -> Forall op_ok ops ->
  exists ls s', checked_run ops mc s = Some (say ls mc, s') /\ run_ops ops s = Some s' /\
  (wf (m_ShadowMemory mc) -> Forall (fun p => p.1 + p.2 < 2 ^ 32) (accesses ops) ->
   bounds ls = reported mc ops).
Proof using Hwatch Hbase.
  induction ops as [|op ops IH]; intros mc s Hok Hf Hops; cbn [checked_run run].
  - exists [], s. by rewrite say_nil.
  - apply Forall_cons in Hops as [Hop Hops].
    destruct (exec_ok io_mem_read io_mem_write phys_ram_base io_mem_watch Hwatch Hbase board op s Hop Hok)
      as (s1 & E1 & Hok1).
    destruct (checked_exec_says op mc s Hop Hf) as (l1 & -> & B1). rewrite E1. cbn [fmap option_fmap option_map mbind option_bind].
    destruct (IH (say l1 mc) s1 Hok1 (flat_board s s1 Hok Hok1 Hf) Hops) as (l2 & s2 & E2 & R2 & B2).
    exists (l1 ++ l2), s2. rewrite E2, say_app. split; [done|]. split; [done|]. intros Hw Hl.
    change (op :: ops) with ([op] ++ ops) in Hl. unfold accesses in Hl. rewrite omap_app in Hl.
    apply Forall_app in Hl as [Hl1 Hl2].
    by rewrite bounds_app, reported_cons, B1, B2, reported_say.
Qed.

(** C9. MemCheck is transparent: on flat memory, a guest whose every access is checked runs
    exactly like the guest without the checks.  Whatever it does with its page tables,
    watchpoints, devices and dirty flags, the run with MemCheck ends, in the same
    registers, memory, devices and TLB, and MemCheck has only added to its log. *)
Theorem memcheck_transparent ops mc s : soft_ok phys_ram_base board s -> flat_map (mem s) -> Forall op_ok ops ->
  exists ls s', run_ops ops s = Some s' /\ checked_run ops mc s = Some (say ls mc, s').
Proof using Hwatch Hbase.
  intros Hok Hf Hops. destruct (checked_run_says ops mc s Hok Hf Hops) as (ls & s' & E & R & _). eauto.
Qed.

End Checked.
(** ** A concrete run

    The sample machine of [Softmmu], watched from [0x1000] to [0x3000] with one
    allocation of 16 bytes at [0x1ff0]. *)

Definition guest_mc : MemCheckState :=
  mkMemCheck 0x1000 0x3000
    [ShadowMemory.mkEntry (ShadowMemory.mkAlloc 0x1ff0 16) (ShadowMemory.mkContents 0)]
    SymbolTable.empty_table 0 false true [].

Lemma guest_wf : wf (m_ShadowMemory guest_mc).
Proof. apply wfb_wf. by vm_compute. Qed.

Lemma sample_coherent : coherent no_read sample_base sample_soft.
Proof. split; [exact flat_phys_flat|]. split; [done|]. intros idx i. by left. Qed.

Definition sample_guest : list soft_op :=
  [Load 4 0x1ff0 1; Store 4 0x1800 7 1; Load 2 0x2000 1].

Lemma sample_guest_ok : Forall op_ok sample_guest.
Proof. repeat (apply Forall_cons; split; [split; [unfold size_ok; auto|unfold in_width; lia]|]). constructor. Qed.

Example sample_reported : reported guest_mc sample_guest = [(0x1800, 4); (0x2000, 2)].
Proof. by vm_compute. Qed.

Abbreviation sample_checked := (checked_run no_read no_write sample_base sample_watch (fun _ => [0; 0; 0; 0])
  [0; 0; 0; 0] (replicate 16 0)).


Lemma memcheck_transparent_witness : exists ls s', sample_run sample_guest sample_soft = Some s' /\
  sample_checked sample_guest guest_mc sample_soft = Some (say ls guest_mc, s').
Proof.
  apply (memcheck_transparent no_read no_write sample_base sample_watch (fun _ => [0; 0; 0; 0])
    [0; 0; 0; 0] (replicate 16 0) sample_watch_ok sample_base_ok (l1_phys_map flat_phys) sample_guest guest_mc
    sample_soft sample_soft_ok (proj1 flat_phys_flat) sample_guest_ok).
Defined.


End Guest.
