(* ===== verification/Board.v ===== *)
(** * The board: regions of physical memory and I/O zones

    How the machine is put together (src/MemCheck-qemu/exec.c): [cpu_register_io_memory]
    hands out the I/O zones with the callbacks of a device, [cpu_register_physical_memory]
    maps RAM, ROM and zones into the table of physical pages, and a zone that covers part
    of a page goes through a table of subpages.  A callback that a device registers is a
    number; what the devices do with it is a parameter. *)

From S2P Require Import Prelude Bytes PhysMem Mmu Tlb.
Import PhysMem Tlb.

Module Board.

Definition IO_MEM_SUBPAGE : Z := 2.
Definition IO_MEM_SUBWIDTH : Z := 4.

(** The functions that the tables of callbacks point to: those of exec.c, and those of
    the devices. *)
Inductive callback : Type :=
| Unassigned
| NotDirty (sz : Z)
| Watch (sz : Z)
| Subpage (len : Z)
| Device (f : Z).

(** [subpage_t]: for each byte of the page and each size the slot of the tables of zones
    whose function is called, and its opaque argument. *)
Record subpage := mkSubpage {
  base : Z;
  mem_read : Z -> Z -> option (Z * Z);
  mem_write : Z -> Z -> option (Z * Z);
  opaque_read : Z -> Z -> Z;
  opaque_write : Z -> Z -> Z;
}.
#[global] Instance eta_subpage : Eta subpage := fun p =>
  mkSubpage (base p) (mem_read p) (mem_write p) (opaque_read p) (opaque_write p).

(** The tables [io_mem_read], [io_mem_write] and [io_mem_opaque], and the subpages
    allocated so far: the opaque argument of a subpage's zone is its number. *)
Record board := mkBoard {
  io_mem_read : Z -> Z -> option callback;
  io_mem_write : Z -> Z -> option callback;
  io_mem_opaque : Z -> Z;
  io_mem_nb : Z;
  subpages : list subpage;
}.
#[global] Instance eta_board : Eta board := fun b =>
  mkBoard (io_mem_read b) (io_mem_write b) (io_mem_opaque b) (io_mem_nb b) (subpages b).

Definition new_board : board := mkBoard (fun _ _ => None) (fun _ _ => None) (fun _ => 0) 0 [].

(** [t[i][j] = v] *)
Definition upd2 {A} (t : Z -> Z -> A) (i j : Z) (v : A) : Z -> Z -> A :=
  fun i' j' => if (i' =? i) && (j' =? j) then v else t i' j'.

Definition upd1 {A} (t : Z -> A) (i : Z) (v : A) : Z -> A := fun i' => if i' =? i then v else t i'.

(** ** Zones *)

(** The loop over the three sizes. *)
Fixpoint set_callbacks (n : nat) (i index : Z) (rd wr : Z -> option callback) (subwidth : Z) (b : board)
  : Z * board :=
  match n with
  | O => (subwidth, b)
  | S n' =>
    let subwidth := match rd i, wr i with Some _, Some _ => subwidth | _, _ => IO_MEM_SUBWIDTH end in
    let b := b <| io_mem_read := upd2 (io_mem_read b) index i (rd i) |> in
    let b := b <| io_mem_write := upd2 (io_mem_write b) index i (wr i) |> in
    set_callbacks n' (i + 1) index rd wr subwidth b
  end.

(** [cpu_register_io_memory(io_index, mem_read, mem_write, opaque)] *)
Definition cpu_register_io_memory (io_index : Z) (rd wr : Z -> option callback) (opaque : Z) (b : board)
  : Z * board :=
  let slot :=
    if io_index <=? 0 then
      if IO_MEM_NB_ENTRIES <=? io_mem_nb b then None
      else Some (io_mem_nb b, b <| io_mem_nb := io_mem_nb b + 1 |>)
    else if IO_MEM_NB_ENTRIES <=? io_index then None else Some (io_index, b) in
  match slot with
  | None => (-1, b)
  | Some (index, b) =>
    let '(subwidth, b) := set_callbacks 3 0 index rd wr 0 b in
    let b := b <| io_mem_opaque := upd1 (io_mem_opaque b) index opaque |> in
    (Z.lor (Z.shiftl index IO_MEM_SHIFT) subwidth, b)
  end.

Definition error_mem_read (_ : Z) : option callback := None.
Definition unassigned_mem (_ : Z) : option callback := Some Unassigned.

(** [io_mem_init]: the value of [io_mem_watch], and the board. *)
Definition io_mem_init (b : board) : Z * board :=
  let '(_, b) := cpu_register_io_memory (Z.shiftr IO_MEM_ROM IO_MEM_SHIFT) error_mem_read unassigned_mem 0 b in
  let '(_, b) := cpu_register_io_memory (Z.shiftr IO_MEM_UNASSIGNED IO_MEM_SHIFT) unassigned_mem unassigned_mem 0 b in
  let '(_, b) := cpu_register_io_memory (Z.shiftr IO_MEM_NOTDIRTY IO_MEM_SHIFT) error_mem_read
                   (fun sz => Some (NotDirty sz)) 0 b in
  let b := b <| io_mem_nb := 5 |> in
  cpu_register_io_memory (-1) (fun sz => Some (Watch sz)) (fun sz => Some (Watch sz)) 0 b.

(** ** Subpages *)

(** The four sizes of one byte of the page, [i] to 3. *)
Fixpoint register_byte (n : nat) (i memory idx : Z) (b : board) (p : subpage) : subpage :=
  match n with
  | O => p
  | S n' =>
    let p := match io_mem_read b memory i with
             | Some _ =>
               let p := p <| mem_read := upd2 (mem_read p) idx i (Some (memory, i)) |> in
               p <| opaque_read := upd2 (opaque_read p) idx i (io_mem_opaque b memory) |>
             | None => p
             end in
    let p := match io_mem_write b memory i with
             | Some _ =>
               let p := p <| mem_write := upd2 (mem_write p) idx i (Some (memory, i)) |> in
               p <| opaque_write := upd2 (opaque_write p) idx i (io_mem_opaque b memory) |>
             | None => p
             end in
    register_byte n' (i + 1) memory idx b p
  end.

Fixpoint register_bytes (n : nat) (idx memory : Z) (b : board) (p : subpage) : subpage :=
  match n with
  | O => p
  | S n' => register_bytes n' (idx + 1) memory b (register_byte 4 0 memory idx b p)
  end.

(** [subpage_register(mmio, start, end, memory)], on the subpage's table.  The zone is the
    low bits of [memory]; the code indexes its tables with all of [memory >> IO_MEM_SHIFT],
    which is a zone when [memory] has no page address. *)
Definition subpage_register (p : subpage) (start stop memory : Z) (b : board) : subpage :=
  if (TARGET_PAGE_SIZE <=? start) || (TARGET_PAGE_SIZE <=? stop) then p
  else
    let idx := page_off start in
    let eidx := page_off stop in
    let memory := Z.shiftr memory IO_MEM_SHIFT in
    register_bytes (Z.to_nat (eidx - idx + 1)) idx memory b p.

Definition subpage_callbacks (sz : Z) : option callback := Some (Subpage sz).

(** [subpage_init(base, phys, orig_memory)]: the number of the subpage, and what it leaves
    in [*phys]. *)
Definition subpage_init (base orig_memory : Z) (b : board) : nat * Z * board :=
  let id := length (subpages b) in
  let '(subpage_memory, b) := cpu_register_io_memory 0 subpage_callbacks subpage_callbacks (Z.of_nat id) b in
  let p := mkSubpage base (fun _ _ => None) (fun _ _ => None) (fun _ _ => 0) (fun _ _ => 0) in
  let p := subpage_register p 0 (TARGET_PAGE_SIZE - 1) orig_memory b in
  (id, u32 (Z.lor subpage_memory IO_MEM_SUBPAGE), b <| subpages := subpages b ++ [p] |>).

(** [subpage_register] on subpage number [id]. *)
Definition register_in (id : nat) (start stop memory : Z) (b : board) : board :=
  match subpages b !! id with
  | Some p => b <| subpages := <[id := subpage_register p start stop memory b]> (subpages b) |>
  | None => b
  end.

(** ** Regions *)

(** The macro [CHECK_SUBPAGE]: the bytes of the page at [addr] that the region holds, and
    whether they are not the whole page. *)
Definition CHECK_SUBPAGE (addr start_addr orig_size : Z) : Z * Z * bool :=
  let '(start_addr2, need_subpage) :=
    if start_addr <? addr then (0, false)
    else (page_off start_addr, 0 <? page_off start_addr) in
  if TARGET_PAGE_SIZE <=? u32 (start_addr + orig_size - addr) then
    (start_addr2, TARGET_PAGE_SIZE - 1, need_subpage)
  else
    let end_addr2 := page_off (u32 (start_addr + orig_size - 1)) in
    (start_addr2, end_addr2, need_subpage || (end_addr2 <? TARGET_PAGE_SIZE - 1)).

(** [(phys_offset & ~TARGET_PAGE_MASK) <= IO_MEM_ROM || (phys_offset & IO_MEM_ROMD)] *)
Definition is_memory (phys_offset : Z) : bool :=
  (page_off phys_offset <=? IO_MEM_ROM) || truth (Z.land phys_offset IO_MEM_ROMD).

Section Regions.
Context {D : Type}.
Abbreviation phys := (phys (D := D)).

(** [p->phys_offset = v] for the page at [addr]. *)
Definition set_page_desc (addr v : Z) (s : phys) : phys :=
  let index := Z.shiftr addr TARGET_PAGE_BITS in
  let i1 := Z.land (Z.shiftr index L2_BITS) (L1_SIZE - 1) in
  let i2 := Z.to_nat (Z.land index (L2_SIZE - 1)) in
  match l1_phys_map s i1 with
  | Some pd => s <| l1_phys_map := fun i => if i =? i1 then Some (<[i2 := v]> pd) else l1_phys_map s i |>
  | None => s
  end.

(** One page of the loop of [cpu_register_physical_memory]. *)
Definition register_page (addr start_addr orig_size phys_offset : Z) (b : board) (s : phys)
  : Z * board * phys :=
  let next := if is_memory phys_offset then u32 (phys_offset + TARGET_PAGE_SIZE) else phys_offset in
  let '(start_addr2, end_addr2, need_subpage) := CHECK_SUBPAGE addr start_addr orig_size in
  let need_subpage := need_subpage || truth (Z.land phys_offset IO_MEM_SUBWIDTH) in
  match phys_page_find (Z.shiftr addr TARGET_PAGE_BITS) s with
  | Some orig_memory =>
    if negb (orig_memory =? IO_MEM_UNASSIGNED) then
      if need_subpage then
        if negb (truth (Z.land orig_memory IO_MEM_SUBPAGE)) then
          let '(id, pd, b) := subpage_init (Z.land addr TARGET_PAGE_MASK) orig_memory b in
          let s := set_page_desc addr pd s in
          (phys_offset, register_in id start_addr2 end_addr2 phys_offset b, s)
        else
          let id := Z.to_nat (io_mem_opaque b (Z.shiftr (page_off orig_memory) IO_MEM_SHIFT)) in
          (phys_offset, register_in id start_addr2 end_addr2 phys_offset b, s)
      else (next, b, set_page_desc addr phys_offset s)
    else if is_memory phys_offset then (next, b, set_page_desc addr phys_offset s)
    else if need_subpage then
      let '(id, pd, b) := subpage_init (Z.land addr TARGET_PAGE_MASK) IO_MEM_UNASSIGNED b in
      (phys_offset, register_in id start_addr2 end_addr2 phys_offset b, set_page_desc addr pd s)
    else (phys_offset, b, set_page_desc addr phys_offset s)
  | None =>
    let s := (phys_page_find_alloc (Z.shiftr addr TARGET_PAGE_BITS) true s).1 in
    if is_memory phys_offset then (next, b, set_page_desc addr phys_offset s)
    else if need_subpage then
      let '(id, pd, b) := subpage_init (Z.land addr TARGET_PAGE_MASK) IO_MEM_UNASSIGNED b in
      (phys_offset, register_in id start_addr2 end_addr2 phys_offset b, set_page_desc addr pd s)
    else (phys_offset, b, set_page_desc addr phys_offset s)
  end.

Fixpoint register_pages (n : nat) (addr start_addr orig_size phys_offset : Z) (b : board) (s : phys)
  : board * phys :=
  match n with
  | O => (b, s)
  | S n' =>
    let '(phys_offset, b, s) := register_page addr start_addr orig_size phys_offset b s in
    register_pages n' (u32 (addr + TARGET_PAGE_SIZE)) start_addr orig_size phys_offset b s
  end.

(** [cpu_register_physical_memory(start_addr, size, phys_offset)]; the number of pages is
    that of the loop, which ends when [addr] is [start_addr + size] modulo 2^32. *)
Definition cpu_register_physical_memory (start_addr size phys_offset : Z) (b : board) (t : tlb) (s : phys)
  : board * tlb * phys :=
  let orig_size := size in
  let size := Z.land (u32 (size + TARGET_PAGE_SIZE - 1)) TARGET_PAGE_MASK in
  let '(b, s) := register_pages (Z.to_nat (Z.shiftr size TARGET_PAGE_BITS)) start_addr start_addr orig_size
                   phys_offset b s in
  (b, tlb_flush 1 t, s).

Definition cpu_get_physical_page_desc (addr : Z) (s : phys) : Z :=
  match phys_page_find (Z.shiftr addr TARGET_PAGE_BITS) s with
  | None => IO_MEM_UNASSIGNED
  | Some pd => pd
  end.

(** [qemu_ram_alloc]: [None] is the exit of the program. *)
Definition qemu_ram_alloc (phys_ram_size size phys_ram_alloc_offset : Z) : option (Z * Z) :=
  if phys_ram_size <=? u32 (phys_ram_alloc_offset + size) then None
  else Some (phys_ram_alloc_offset, TARGET_PAGE_ALIGN (u32 (phys_ram_alloc_offset + size))).

(** ** Calls through the tables *)

(** What the devices do: the function, its opaque argument, and the address. *)
Context (dev_read : Z -> Z -> Z -> D -> Z * D).
Context (dev_write : Z -> Z -> Z -> Z -> D -> D).

(** A call of a function of the tables; the fuel pays for a zone inside a subpage.
    [None]: a NULL function, or a function of the softmmu, which is not called from here. *)
Fixpoint call_read (fuel : nat) (b : board) (f : callback) (opaque addr : Z) (d : D) : option (Z * D) :=
  match fuel with
  | O => None
  | S fuel' =>
    match f with
    | Unassigned => Some (0, d)
    | Device f => Some (dev_read f opaque addr d)
    | Subpage len =>
      p ← subpages b !! Z.to_nat opaque;
      let idx := page_off (u32 (addr - base p)) in
      '(memory, i) ← mem_read p idx len;
      g ← io_mem_read b memory i;
      call_read fuel' b g (opaque_read p idx len) addr d
    | NotDirty _ | Watch _ => None
    end
  end.

Fixpoint call_write (fuel : nat) (b : board) (f : callback) (opaque addr v : Z) (d : D) : option D :=
  match fuel with
  | O => None
  | S fuel' =>
    match f with
    | Unassigned => Some d
    | Device f => Some (dev_write f opaque addr v d)
    | Subpage len =>
      p ← subpages b !! Z.to_nat opaque;
      let idx := page_off (u32 (addr - base p)) in
      '(memory, i) ← mem_write p idx len;
      g ← io_mem_write b memory i;
      call_write fuel' b g (opaque_write p idx len) addr v d
    | NotDirty _ | Watch _ => None
    end
  end.

Definition NEST : nat := 2.

(** [io_mem_read[index][sz](io_mem_opaque[index], addr)] *)
Definition zone_read (b : board) (index sz addr : Z) (d : D) : option (Z * D) :=
  f ← io_mem_read b index sz; call_read NEST b f (io_mem_opaque b index) addr d.

Definition zone_write (b : board) (index sz addr v : Z) (d : D) : option D :=
  f ← io_mem_write b index sz; call_write NEST b f (io_mem_opaque b index) addr v d.
End Regions.
(** ** The table of physical pages *)

(** The table of an updated memory. *)
Ltac table :=
  repeat match goal with
  | |- context [l1_phys_map (?s <| l1_phys_map := ?f |>)] =>
    change (l1_phys_map (s <| l1_phys_map := f |>)) with f; cbv beta
  end.

Section Map.
Context {D : Type}.
Abbreviation phys := (phys (D := D)).

(** The second level tables have their size. *)
Definition map_wf (s : phys) : Prop := forall i pd, l1_phys_map s i = Some pd -> length pd = Z.to_nat L2_SIZE.

Lemma mask_bound x n : 0 <= n -> 0 <= Z.land x (2 ^ n - 1) < 2 ^ n.
Proof using.
  intros Hn. replace (2 ^ n - 1) with (Z.ones n) by (rewrite Z.ones_equiv; lia).
  rewrite Z.land_ones by lia. apply Z.mod_pos_bound. lia.
Qed.

Lemma find_alloc_desc index (s : phys) a :
  page_desc a (phys_page_find_alloc index true s).1 = page_desc a s.
Proof using.
  unfold page_desc, phys_page_find, phys_page_find_alloc. set (q := Z.shiftr a TARGET_PAGE_BITS).
  set (i1 := Z.land (Z.shiftr index L2_BITS) (L1_SIZE - 1)).
  destruct (l1_phys_map s i1) as [pd|] eqn:E; [done|]. cbn [fst].
  set (r := replicate _ _). assert (Hr : forall j, (j < Z.to_nat L2_SIZE)%nat -> r !! j = Some IO_MEM_UNASSIGNED)
    by (intros; by apply lookup_replicate_2). clearbody r. table.
  set (j1 := Z.land (Z.shiftr q L2_BITS) (L1_SIZE - 1)). destruct (Z.eqb_spec j1 i1) as [->|]; [|by destruct (l1_phys_map s j1)].
  rewrite E. cbn [snd]. pose proof (mask_bound q 10 ltac:(lia)) as Hb.
  change (2 ^ 10 - 1) with (L2_SIZE - 1) in Hb. change (2 ^ 10) with 1024 in Hb.
  rewrite Hr; [done|]. apply Z2Nat.inj_lt; unfold L2_SIZE in *; lia.
Qed.

Lemma find_alloc_wf index (s : phys) : map_wf s -> map_wf (phys_page_find_alloc index true s).1 /\
  exists pd, l1_phys_map (phys_page_find_alloc index true s).1
               (Z.land (Z.shiftr index L2_BITS) (L1_SIZE - 1)) = Some pd.
Proof using.
  intros Hw. unfold phys_page_find_alloc. destruct (l1_phys_map s _) as [pd|] eqn:E; [cbn [fst]; eauto|].
  set (r := replicate _ _). assert (Hr : length r = Z.to_nat L2_SIZE) by apply length_replicate. clearbody r.
  cbn [fst]. split; [|table; rewrite Z.eqb_refl; eauto].
  intros i pd. table. destruct (_ =? _); [by intros [= <-]|apply Hw].
Qed.

(** Addresses of the same page. *)
Definition same_index (a b : Z) : Prop :=
  Z.land (Z.shiftr a TARGET_PAGE_BITS) 0xfffff = Z.land (Z.shiftr b TARGET_PAGE_BITS) 0xfffff.

Lemma index_split q : Z.land q 0xfffff = Z.land (Z.shiftr q 10) 0x3ff * 1024 + Z.land q 0x3ff.
Proof using.
  change 0xfffff with (Z.ones 20). change 0x3ff with (Z.ones 10). rewrite !Z.land_ones, Z.shiftr_div_pow2 by lia.
  change (2 ^ 20) with (2 ^ 10 * 2 ^ 10). rewrite Z.rem_mul_r by lia. change (2 ^ 10) with 1024. lia.
Qed.

Lemma same_index_iff a b : let i x := Z.shiftr x TARGET_PAGE_BITS in
  same_index a b <-> Z.land (Z.shiftr (i a) L2_BITS) (L1_SIZE - 1) = Z.land (Z.shiftr (i b) L2_BITS) (L1_SIZE - 1)
    /\ Z.land (i a) (L2_SIZE - 1) = Z.land (i b) (L2_SIZE - 1).
Proof using.
  unfold same_index. cbv zeta. rewrite !index_split. change (L1_SIZE - 1) with 0x3ff. change (L2_SIZE - 1) with 0x3ff.
  unfold L2_BITS. set (qa := Z.shiftr a _). set (qb := Z.shiftr b _).
  pose proof (mask_bound qa 10 ltac:(lia)). pose proof (mask_bound qb 10 ltac:(lia)).
  change (2 ^ 10 - 1) with 0x3ff in *. change (2 ^ 10) with 1024 in *. lia.
Qed.

Lemma set_desc_spec addr v (s : phys) a : map_wf s ->
  (exists pd, l1_phys_map s (Z.land (Z.shiftr (Z.shiftr addr TARGET_PAGE_BITS) L2_BITS) (L1_SIZE - 1)) = Some pd) ->
  map_wf (set_page_desc addr v s) /\
  (same_index a addr -> page_desc a (set_page_desc addr v s) = v) /\
  (~ same_index a addr -> page_desc a (set_page_desc addr v s) = page_desc a s).
Proof using.
  intros Hw [pd E]. unfold set_page_desc. rewrite E. split; [|rewrite same_index_iff; split].
  - intros i pd'. table. destruct (_ =? _); [intros [= <-]; rewrite length_insert; by eapply Hw|apply Hw].
  - intros [H1 H2]. unfold page_desc, phys_page_find, phys_page_find_alloc. table. rewrite H1, Z.eqb_refl, H2. cbn [snd].
    rewrite list_lookup_insert_eq; [done|]. rewrite (Hw _ _ E).
    pose proof (mask_bound (Z.shiftr addr TARGET_PAGE_BITS) 10 ltac:(lia)) as Hb.
    change (2 ^ 10 - 1) with (L2_SIZE - 1) in Hb. change (2 ^ 10) with L2_SIZE in Hb.
    apply Z2Nat.inj_lt; lia.
  - intros Hn. unfold page_desc, phys_page_find, phys_page_find_alloc. table.
    destruct (Z.eqb_spec (Z.land (Z.shiftr (Z.shiftr a TARGET_PAGE_BITS) L2_BITS) (L1_SIZE - 1))
      (Z.land (Z.shiftr (Z.shiftr addr TARGET_PAGE_BITS) L2_BITS) (L1_SIZE - 1))) as [H1|H1];
      [|by destruct (l1_phys_map s (Z.land (Z.shiftr (Z.shiftr a TARGET_PAGE_BITS) L2_BITS) (L1_SIZE - 1)))].
    rewrite H1, E. cbn [snd]. rewrite list_lookup_insert_ne; [done|]. intros H2. apply Hn. split; [done|].
    pose proof (mask_bound (Z.shiftr addr TARGET_PAGE_BITS) 10 ltac:(lia)).
    pose proof (mask_bound (Z.shiftr a TARGET_PAGE_BITS) 10 ltac:(lia)).
    change (2 ^ 10 - 1) with (L2_SIZE - 1) in *. lia.
Qed.

Lemma find_table index (s : phys) v : phys_page_find index s = Some v ->
  exists pd, l1_phys_map s (Z.land (Z.shiftr index L2_BITS) (L1_SIZE - 1)) = Some pd.
Proof using. unfold phys_page_find, phys_page_find_alloc. destruct (l1_phys_map s _); [eauto|done]. Qed.
Lemma same_index_div a b : is_u32 a -> is_u32 b -> same_index a b <-> a / 4096 = b / 4096.
Proof using.
  intros Ha Hb. unfold same_index, TARGET_PAGE_BITS, in_width in *. change 0xfffff with (Z.ones 20).
  rewrite !Z.land_ones, !Z.shiftr_div_pow2 by lia. change (2 ^ 12) with 4096. change (2 ^ 20) with 1048576.
  rewrite !Z.mod_small; [done|..]; (split; [apply Z.div_pos; lia|apply Z.div_lt_upper_bound; lia]).
Qed.

Lemma off_add_page x : page_off (u32 (x + 4096)) = page_off x.
Proof using.
  rewrite !page_off_mod, u32_page. replace (x + 4096) with (x + 1 * 4096) by lia. apply Z_mod_plus_full.
Qed.

Lemma low_bit_off x m : Z.land 0xfff m = m -> Z.land x m = Z.land (page_off x) m.
Proof using. intros H. unfold page_off. by rewrite <- Z.land_assoc, H. Qed.

Lemma is_memory_next x : is_memory (u32 (x + 4096)) = is_memory x.
Proof using.
  unfold is_memory. rewrite off_add_page. do 2 f_equal.
  rewrite (low_bit_off (u32 _)), (low_bit_off x), off_add_page; done.
Qed.

(** A region of whole pages. *)
Definition whole (start size phys_offset : Z) : Prop :=
  is_u32 start /\ page_off start = 0 /\ 0 <= size /\ size mod 4096 = 0 /\ start + size <= 2 ^ 32 /\ size < 2 ^ 32 /\
  truth (Z.land phys_offset IO_MEM_SUBWIDTH) = false.

Lemma check_whole addr start size po : whole start size po -> start <= addr -> addr + 4096 <= start + size ->
  exists s2 e2, CHECK_SUBPAGE addr start size = (s2, e2, false).
Proof using.
  intros (Hu & Ho & H0 & Hm & Hs & Hs2 & _) Ha He. unfold CHECK_SUBPAGE, in_width in *. rewrite Ho.
  assert (E : u32 (start + size - addr) = start + size - addr) by (apply wrap_small; unfold in_width; lia).
  rewrite E, (proj2 (Z.leb_le _ _)) by (unfold TARGET_PAGE_SIZE; lia).
  destruct (start <? addr); eauto.
Qed.

Definition next_offset (phys_offset : Z) : Z :=
  if is_memory phys_offset then u32 (phys_offset + TARGET_PAGE_SIZE) else phys_offset.

Lemma page_whole addr start size po b (s : phys) : whole start size po -> start <= addr -> addr + 4096 <= start + size ->
  truth (Z.land po IO_MEM_SUBWIDTH) = false -> map_wf s ->
  exists s', register_page addr start size po b s = (next_offset po, b, s') /\ map_wf s' /\
    (forall a, same_index a addr -> page_desc a s' = po) /\
    (forall a, ~ same_index a addr -> page_desc a s' = page_desc a s).
Proof using.
  intros Hwh Ha He Hsub Hw. unfold register_page. fold (next_offset po).
  destruct (check_whole addr start size po Hwh Ha He) as (s2 & e2 & ->). rewrite Hsub. cbn [orb].
  assert (Hset : forall s0 : phys, map_wf s0 -> (forall a, page_desc a s0 = page_desc a s) ->
    (exists pd, l1_phys_map s0 (Z.land (Z.shiftr (Z.shiftr addr TARGET_PAGE_BITS) L2_BITS) (L1_SIZE - 1)) = Some pd) ->
    map_wf (set_page_desc addr po s0) /\ (forall a, same_index a addr -> page_desc a (set_page_desc addr po s0) = po) /\
    (forall a, ~ same_index a addr -> page_desc a (set_page_desc addr po s0) = page_desc a s)).
  { intros s0 Hw0 Hs0 Ht. split; [by apply (set_desc_spec addr po s0 addr)|].
    split; intros a Hsame; destruct (set_desc_spec addr po s0 a Hw0 Ht) as (_ & H1 & H2); [by apply H1|].
    rewrite H2 by done. apply Hs0. }
  destruct (phys_page_find (Z.shiftr addr TARGET_PAGE_BITS) s) as [o|] eqn:Ef.
  - destruct (negb (o =? IO_MEM_UNASSIGNED)); [|unfold next_offset; destruct (is_memory po)];
      (eexists; split; [reflexivity|]; apply Hset; [done|done|by eapply find_table]).
  - destruct (find_alloc_wf (Z.shiftr addr TARGET_PAGE_BITS) s Hw) as [Hw1 Ht].
    unfold next_offset. destruct (is_memory po); (eexists; split; [reflexivity|]; apply Hset; [done| |done]);
      intros a; apply find_alloc_desc.
Qed.

(** The descriptor of the [k]-th page of a region. *)
Definition offset_at (po k : Z) : Z := if is_memory po then u32 (po + 4096 * k) else po.

Lemma offset_next po k : is_u32 po -> offset_at (next_offset po) k = offset_at po (k + 1).
Proof using.
  intros Hp. unfold offset_at, next_offset. destruct (is_memory po) eqn:E; [|by rewrite E].
  unfold TARGET_PAGE_SIZE. rewrite is_memory_next, E. unfold u32, wrap. rewrite Zplus_mod_idemp_l. f_equal. lia.
Qed.
Lemma next_u32 po : is_u32 po -> is_u32 (next_offset po).
Proof using. intros H. unfold next_offset. destruct (is_memory po); [apply wrap_range; lia|done]. Qed.

Lemma next_subwidth po : truth (Z.land (next_offset po) IO_MEM_SUBWIDTH) = truth (Z.land po IO_MEM_SUBWIDTH).
Proof using.
  unfold next_offset, TARGET_PAGE_SIZE. destruct (is_memory po); [|done].
  by rewrite (low_bit_off (u32 _)), (low_bit_off po), off_add_page.
Qed.

Lemma pages_whole n : forall addr start size po b (s : phys), whole start size po -> is_u32 po ->
  truth (Z.land po IO_MEM_SUBWIDTH) = false -> map_wf s -> page_off addr = 0 -> is_u32 addr ->
  start <= addr -> addr + 4096 * Z.of_nat n <= start + size ->
  exists s', register_pages n addr start size po b s = (b, s') /\ map_wf s' /\
    (forall a, is_u32 a -> addr <= a < addr + 4096 * Z.of_nat n ->
       page_desc a s' = offset_at po ((a - addr) / 4096)) /\
    (forall a, is_u32 a -> ~ (addr <= a < addr + 4096 * Z.of_nat n) -> page_desc a s' = page_desc a s).
Proof using.
  induction n as [|n IH]; intros addr start size po b s Hwh Hp Hsub Hw Ho Hu Ha He; cbn [register_pages].
  - exists s. split; [done|]. split; [done|]. split; [lia|done].
  - destruct (page_whole addr start size po b s Hwh Ha ltac:(lia) Hsub Hw) as (s1 & -> & Hw1 & S1 & S2).
    assert (Hd : addr mod 4096 = 0) by (by rewrite <- page_off_mod).
    assert (Hin : forall a, is_u32 a -> same_index a addr <-> addr <= a < addr + 4096).
    { intros a Hau. rewrite same_index_div by done. pose proof (Z.div_mod addr 4096 ltac:(lia)).
      pose proof (Z.div_mod a 4096 ltac:(lia)). pose proof (Z.mod_pos_bound a 4096 ltac:(lia)). split; nia. }
    unfold TARGET_PAGE_SIZE. destruct n as [|n'].
    { cbn [register_pages]. exists s1. split; [done|]. split; [done|]. split; intros a Hau Hr.
      - rewrite S1 by (apply Hin; [done|lia]). unfold offset_at. rewrite Z.div_small by lia.
        destruct (is_memory po); [|done]. rewrite Z.mul_0_r, Z.add_0_r. symmetry. by apply wrap_small.
      - apply S2. rewrite Hin by done. lia. }
    pose proof Hwh as (W1 & W2 & W3 & W4 & W5 & W6 & W7). unfold in_width in Hu, W1.
    assert (Eu : u32 (addr + 4096) = addr + 4096) by (apply wrap_small; unfold in_width; lia). rewrite Eu.
    assert (Ho' : page_off (addr + 4096) = 0) by (rewrite <- Eu, off_add_page; done).
    destruct (IH (addr + 4096) start size (next_offset po) b s1) as (s2 & -> & Hw2 & T1 & T2);
      [unfold whole, in_width; rewrite next_subwidth; tauto|by apply next_u32|by rewrite next_subwidth|done|done|unfold in_width; lia|lia|lia|].
    exists s2. split; [done|]. split; [done|]. split; intros a Hau Hr.
    + destruct (decide (a < addr + 4096)) as [Hl|Hl].
      * rewrite T2, S1 by (done || lia || (apply Hin; [done|lia])).
        unfold offset_at. rewrite Z.div_small by lia.
        destruct (is_memory po); [|done]. rewrite Z.mul_0_r, Z.add_0_r. symmetry. by apply wrap_small.
      * rewrite T1, offset_next by (done || lia). f_equal.
        replace (a - addr) with (a - (addr + 4096) + 1 * 4096) by lia. by rewrite Z.div_add by lia.
    + rewrite T2 by (done || lia). apply S2. rewrite Hin by done. lia.
Qed.

Lemma size_round size : 0 <= size < 2 ^ 32 -> size mod 4096 = 0 ->
  Z.land (u32 (size + TARGET_PAGE_SIZE - 1)) TARGET_PAGE_MASK = size.
Proof using.
  intros Hs Hm. unfold TARGET_PAGE_SIZE, TARGET_PAGE_MASK. pose proof (Z.div_mod size 4096 ltac:(lia)).
  assert (Hlt : size + 4095 < 2 ^ 32) by lia.
  unfold u32. rewrite wrap_small by (unfold in_width; lia).
  destruct (page_split (size + 4096 - 1) ltac:(unfold in_width; lia)) as (E & Hr & Hb & _). fold (page_base (size + 4096 - 1)).
  pose proof (Z.div_mod (page_base (size + 4096 - 1)) 4096 ltac:(lia)). lia.
Qed.

(** Registering a region of whole pages: afterwards every address of the region has
    the given descriptor, advanced page by page if it is RAM or ROM, every other address
    the one it had; no I/O zone is used up, and the TLB is flushed. *)
Theorem region_exact start size po b t (s : phys) : whole start size po -> is_u32 po -> map_wf s ->
  exists s', cpu_register_physical_memory start size po b t s = (b, tlb_flush 1 t, s') /\ map_wf s' /\
  forall a, is_u32 a -> page_desc a s' =
    if decide (start <= a < start + size)
    then (if is_memory po then u32 (po + (page_base a - start)) else po)
    else page_desc a s.
Proof using.
  intros Hwh Hp Hw. pose proof Hwh as (W1 & W2 & W3 & W4 & W5 & W6 & W7). unfold cpu_register_physical_memory.
  assert (Es : Z.land (u32 (size + TARGET_PAGE_SIZE - 1)) TARGET_PAGE_MASK = size).
  { apply size_round; unfold in_width; lia. }
  rewrite Es. assert (En : 4096 * Z.of_nat (Z.to_nat (Z.shiftr size TARGET_PAGE_BITS)) = size).
  { unfold TARGET_PAGE_BITS. rewrite Z.shiftr_div_pow2 by lia. change (2 ^ 12) with 4096.
    rewrite Z2Nat.id by (apply Z.div_pos; lia). pose proof (Z.div_mod size 4096 ltac:(lia)). lia. }
  destruct (pages_whole (Z.to_nat (Z.shiftr size TARGET_PAGE_BITS)) start start size po b s Hwh Hp W7 Hw W2 W1
    ltac:(lia) ltac:(lia)) as (s' & -> & Hw' & S1 & S2).
  exists s'. split; [done|]. split; [done|]. intros a Hau. rewrite En in *. destruct (decide _) as [Hr|Hr]; [|by apply S2].
  rewrite S1 by done. unfold offset_at. destruct (is_memory po); [|done]. f_equal. f_equal.
  destruct (page_split a Hau) as (Ea & Hoa & Hma & _). rewrite page_off_mod in W2.
  pose proof (Z.div_mod start 4096 ltac:(lia)). pose proof (Z.div_mod (page_base a) 4096 ltac:(lia)).
  assert (Ed : (a - start) / 4096 = page_base a / 4096 - start / 4096).
  { symmetry. apply Z.div_unique with (page_off a); lia. }
  rewrite Ed. lia.
Qed.
End Map.
(** ** Subpages *)

Section Subpages.
Context {D : Type}.
Abbreviation phys := (phys (D := D)).
Context (dev_read : Z -> Z -> Z -> D -> Z * D).
Context (dev_write : Z -> Z -> Z -> Z -> D -> D).

Definition within (lo n j : Z) : bool := (lo <=? j) && (j <? lo + n).

(** What registering a zone for bytes of the page leaves in the subpage. *)
Definition registered (b : board) (memory : Z) (p p' : subpage) (covered : Z -> Z -> bool) : Prop :=
  base p' = base p /\ forall j i,
  (mem_read p' j i = if covered j i then match io_mem_read b memory i with Some _ => Some (memory, i) | None => mem_read p j i end
                     else mem_read p j i) /\
  (mem_write p' j i = if covered j i then match io_mem_write b memory i with Some _ => Some (memory, i) | None => mem_write p j i end
                      else mem_write p j i) /\
  (opaque_read p' j i = if covered j i then match io_mem_read b memory i with Some _ => io_mem_opaque b memory | None => opaque_read p j i end
                        else opaque_read p j i) /\
  (opaque_write p' j i = if covered j i then match io_mem_write b memory i with Some _ => io_mem_opaque b memory | None => opaque_write p j i end
                         else opaque_write p j i).

Lemma registered_more b m p1 p2 p3 c1 c2 c3 : (forall j i, c3 j i = c1 j i || c2 j i) ->
  registered b m p1 p2 c1 -> registered b m p2 p3 c2 -> registered b m p1 p3 c3.
Proof using.
  intros Hc [B1 H1] [B2 H2]. split; [congruence|]. intros j i. rewrite Hc.
  destruct (H1 j i) as (R1 & W1 & P1 & Q1). destruct (H2 j i) as (-> & -> & -> & ->). rewrite R1, W1, P1, Q1.
  destruct (c1 j i), (c2 j i), (io_mem_read b m i), (io_mem_write b m i); done.
Qed.

Lemma registered_ext b m p p' c c' : (forall j i, c j i = c' j i) -> registered b m p p' c -> registered b m p p' c'.
Proof using. intros Hc [B H]. split; [done|]. intros j i. rewrite <- Hc. apply H. Qed.

Lemma byte_registered n : forall i m idx b p,
  registered b m p (register_byte n i m idx b p) (fun j k => (j =? idx) && within i (Z.of_nat n) k).
Proof using.
  induction n as [|n IH]; intros i m idx b p; cbn [register_byte].
  - split; [done|]. intros j k. replace (_ && _) with false; [done|].
    unfold within. symmetry. rewrite andb_false_iff, andb_false_iff, Z.leb_gt, Z.ltb_ge. lia.
  - eapply (registered_more b m p _ _ (fun j k => (j =? idx) && (k =? i))); [|  |apply IH].
    + intros j k. unfold within. destruct (j =? idx); [|done]. cbn [andb].
      destruct (Z.eqb_spec k i), (Z.leb_spec i k), (Z.ltb_spec k (i + Z.of_nat (S n))), (Z.leb_spec (i + 1) k),
        (Z.ltb_spec k (i + 1 + Z.of_nat n)); done || lia.
    + split; [destruct (io_mem_read b m i), (io_mem_write b m i); reflexivity|]. intros j k.
      destruct (io_mem_read b m i) eqn:Er, (io_mem_write b m i) eqn:Ew; cbn; unfold upd2;
        destruct (j =? idx); cbn [andb]; try done; destruct (Z.eqb_spec k i) as [->|]; by rewrite ?Er, ?Ew.
Qed.

Lemma bytes_registered n : forall idx m b p,
  registered b m p (register_bytes n idx m b p) (fun j k => within idx (Z.of_nat n) j && within 0 4 k).
Proof using.
  induction n as [|n IH]; intros idx m b p; cbn [register_bytes].
  - split; [done|]. intros j k. replace (within idx (Z.of_nat 0) j) with false; [done|].
    unfold within. symmetry. rewrite andb_false_iff, Z.leb_gt, Z.ltb_ge. lia.
  - eapply registered_more; [|apply (byte_registered 4)|apply IH]. intros j k.
    cbn beta. change (Z.of_nat 4) with 4. destruct (within 0 4 k); [|by rewrite !andb_false_r]. rewrite !andb_true_r.
    unfold within.
    destruct (Z.eqb_spec j idx), (Z.leb_spec idx j), (Z.ltb_spec j (idx + Z.of_nat (S n))), (Z.leb_spec (idx + 1) j),
      (Z.ltb_spec j (idx + 1 + Z.of_nat n)); done || lia.
Qed.

Lemma subpage_registered p start stop memory b : 0 <= start <= stop -> stop < 4096 ->
  registered b (Z.shiftr memory IO_MEM_SHIFT) p (subpage_register p start stop memory b)
    (fun j k => within start (stop + 1 - start) j && within 0 4 k).
Proof using.
  intros H1 H2. unfold subpage_register, TARGET_PAGE_SIZE.
  rewrite !(proj2 (Z.leb_gt _ _)) by lia. cbn [orb]. rewrite !page_off_mod, !Z.mod_small by lia.
  eapply registered_ext; [|apply bytes_registered]. intros j k. cbn beta. do 2 f_equal. lia.
Qed.

(** A new zone with functions of every size. *)
Lemma new_zone rd wr opq b : 0 <= io_mem_nb b < IO_MEM_NB_ENTRIES ->
  (forall j, 0 <= j < 3 -> is_Some (rd j) /\ is_Some (wr j)) ->
  exists b', cpu_register_io_memory 0 rd wr opq b = (Z.shiftl (io_mem_nb b) IO_MEM_SHIFT, b') /\
  io_mem_nb b' = io_mem_nb b + 1 /\ subpages b' = subpages b /\
  (forall i j, io_mem_read b' i j = if (i =? io_mem_nb b) && within 0 3 j then rd j else io_mem_read b i j) /\
  (forall i j, io_mem_write b' i j = if (i =? io_mem_nb b) && within 0 3 j then wr j else io_mem_write b i j) /\
  (forall i, io_mem_opaque b' i = if i =? io_mem_nb b then opq else io_mem_opaque b i).
Proof using.
  intros Hn Hs. unfold cpu_register_io_memory. change (0 <=? 0) with true. cbv iota.
  rewrite (proj2 (Z.leb_gt IO_MEM_NB_ENTRIES (io_mem_nb b))) by lia. cbn [set_callbacks].
  destruct (Hs 0 ltac:(lia)) as [[r0 E0] [w0 F0]], (Hs 1 ltac:(lia)) as [[r1 E1] [w1 F1]],
    (Hs 2 ltac:(lia)) as [[r2 E2] [w2 F2]].
  change (0 + 1) with 1. change (1 + 1) with 2. rewrite E0, E1, E2, F0, F1, F2. rewrite Z.lor_0_r.
  eexists. split; [reflexivity|]. cbn. unfold upd2, upd1, within. repeat split; try done; intros i j;
    destruct (i =? io_mem_nb b); cbn [andb]; try done;
    destruct (Z.eqb_spec j 2) as [->|]; [by rewrite ?E2, ?F2| |by rewrite ?E2, ?F2|];
    destruct (Z.eqb_spec j 1) as [->|]; [by rewrite ?E1, ?F1| |by rewrite ?E1, ?F1|];
    destruct (Z.eqb_spec j 0) as [->|]; [by rewrite ?E0, ?F0| |by rewrite ?E0, ?F0|];
    destruct (Z.leb_spec 0 j), (Z.ltb_spec j (0 + 3)); done || lia.
Qed.

(** A zone of a device: functions of every size. *)
Definition device_zone (b : board) (index : Z) (f g : Z -> Z) : Prop :=
  forall sz, 0 <= sz < 3 ->
  io_mem_read b index sz = Some (Device (f sz)) /\ io_mem_write b index sz = Some (Device (g sz)).

Definition unassigned_zone (b : board) : Prop :=
  forall sz, 0 <= sz < 3 -> io_mem_read b 2 sz = Some Unassigned /\ io_mem_write b 2 sz = Some Unassigned.

(** A region inside a page, not all of it. *)
Definition partial (start size : Z) : Prop :=
  is_u32 start /\ 0 < size < 4096 /\ page_off start + size <= 4096.

Lemma check_partial start size : partial start size ->
  CHECK_SUBPAGE start start size = (page_off start, page_off start + size - 1, true).
Proof using.
  intros (Hu & Hs & Ho). unfold CHECK_SUBPAGE, TARGET_PAGE_SIZE. rewrite Z.ltb_irrefl.
  replace (start + size - start) with size by lia.
  replace (u32 size) with size by (symmetry; apply wrap_small; unfold in_width; lia).
  rewrite (proj2 (Z.leb_gt 4096 size)) by lia.
  assert (E : page_off (u32 (start + size - 1)) = page_off start + size - 1).
  { rewrite !page_off_mod, u32_page. rewrite page_off_mod in Ho.
    pose proof (Z.div_mod start 4096 ltac:(lia)). pose proof (Z.mod_pos_bound start 4096 ltac:(lia)).
    symmetry. apply Z.mod_unique with (start / 4096); lia. }
  rewrite E. do 2 f_equal. rewrite page_off_mod in *. pose proof (Z.mod_pos_bound start 4096 ltac:(lia)).
  destruct (Z.ltb_spec 0 (start mod 4096)), (Z.ltb_spec (start mod 4096 + size - 1) (4096 - 1)); done || lia.
Qed.

Lemma subpage_offset n : 0 <= n < 256 ->
  u32 (Z.lor (Z.shiftl n IO_MEM_SHIFT) IO_MEM_SUBPAGE) = 16 * n + 2.
Proof using.
  intros Hn. assert (E : Z.lor (Z.shiftl n IO_MEM_SHIFT) IO_MEM_SUBPAGE = Z.shiftl n IO_MEM_SHIFT + IO_MEM_SUBPAGE).
  { symmetry. apply Z.add_nocarry_lor. unfold IO_MEM_SHIFT, IO_MEM_SUBPAGE. change 2 with (Z.land 15 2).
    rewrite Z.land_assoc. change 15 with (Z.ones 4). rewrite Z.land_ones, Z.shiftl_mul_pow2 by lia.
    rewrite Z.mod_mul by lia. done. }
  rewrite E. unfold IO_MEM_SHIFT, IO_MEM_SUBPAGE. rewrite Z.shiftl_mul_pow2 by lia. change (2 ^ 4) with 16.
  unfold u32. rewrite wrap_small by (unfold in_width; lia). lia.
Qed.

Lemma zone_shift n : Z.shiftr (Z.shiftl n IO_MEM_SHIFT) IO_MEM_SHIFT = n.
Proof using. unfold IO_MEM_SHIFT. rewrite Z.shiftr_shiftl_l by lia. apply Z.shiftl_0_r. Qed.

Lemma page_rest a : is_u32 a -> page_off (u32 (a - page_base a)) = page_off a.
Proof using.
  intros Ha. destruct (page_split a Ha) as (E & Hr & _). replace (a - page_base a) with (page_off a) by lia.
  rewrite page_off_mod, u32_page, page_off_mod. apply Z.mod_mod. lia.
Qed.

(** The subpage of a fresh page with a zone registered for part of it. *)
Lemma fresh_subpage addr index lo hi b f g : 0 <= lo <= hi -> hi < 4096 ->
  2 < io_mem_nb b < IO_MEM_NB_ENTRIES -> 2 < index < io_mem_nb b ->
  device_zone b index f g -> unassigned_zone b ->
  exists id b1, subpage_init addr IO_MEM_UNASSIGNED b = (id, 16 * io_mem_nb b + 2, b1) /\
  let b' := register_in id lo hi (Z.shiftl index IO_MEM_SHIFT) b1 in
  io_mem_nb b' = io_mem_nb b + 1 /\
  forall a sz d, is_u32 a -> page_base a = addr -> 0 <= sz < 3 ->
  zone_read dev_read b' (io_mem_nb b) sz a d =
    (if within lo (hi + 1 - lo) (page_off a) then Some (dev_read (f sz) (io_mem_opaque b index) a d) else Some (0, d)) /\
  forall v, zone_write dev_write b' (io_mem_nb b) sz a v d =
    Some (if within lo (hi + 1 - lo) (page_off a) then dev_write (g sz) (io_mem_opaque b index) a v d else d).
Proof using.
  intros Hlo Hhi Hnb Hix Hdev Hun. unfold subpage_init.
  destruct (new_zone subpage_callbacks subpage_callbacks (Z.of_nat (length (subpages b))) b) as
    (b1 & -> & N1 & P1 & R1 & W1 & O1); [lia|intros; split; eauto|].
  rewrite subpage_offset by (unfold IO_MEM_NB_ENTRIES in *; lia). eexists _, _. split; [reflexivity|].
  set (p0 := subpage_register _ 0 _ _ _).
  assert (H0 := subpage_registered (mkSubpage addr (fun _ _ => None) (fun _ _ => None) (fun _ _ => 0) (fun _ _ => 0))
    0 (TARGET_PAGE_SIZE - 1) IO_MEM_UNASSIGNED b1 ltac:(done) ltac:(done)). fold p0 in H0. clearbody p0.
  change (Z.shiftr IO_MEM_UNASSIGNED IO_MEM_SHIFT) with 2 in H0.
  unfold register_in. cbn [subpages]. cbn -[Z.shiftl Z.shiftr subpage_register zone_read zone_write within].
  rewrite P1, lookup_app_r, Nat.sub_diag by lia. cbn [lookup list_lookup].
  set (b2 := b1 <| subpages := _ |>). set (p1 := subpage_register p0 lo hi _ b2).
  assert (H1 := subpage_registered p0 lo hi (Z.shiftl index IO_MEM_SHIFT) b2 Hlo Hhi). fold p1 in H1. clearbody p1.
  rewrite zone_shift in H1. set (l := <[ _ := p1 ]> _).
  assert (Hl : l !! length (subpages b) = Some p1).
  { apply list_lookup_insert_eq. rewrite length_app. cbn. lia. }
  clearbody l. split; [exact N1|]. intros a sz d Ha Hbase Hsz.
  set (b3 := b2 <| subpages := l |>).
  assert (Rz : forall i, io_mem_read b3 i sz = if i =? io_mem_nb b then Some (Subpage sz) else io_mem_read b i sz).
  { intros i. change (io_mem_read b3 i sz) with (io_mem_read b1 i sz). rewrite R1. unfold within.
    rewrite (proj2 (Z.leb_le 0 sz)), (proj2 (Z.ltb_lt sz _)) by lia. by destruct (i =? io_mem_nb b). }
  assert (Wz : forall i, io_mem_write b3 i sz = if i =? io_mem_nb b then Some (Subpage sz) else io_mem_write b i sz).
  { intros i. change (io_mem_write b3 i sz) with (io_mem_write b1 i sz). rewrite W1. unfold within.
    rewrite (proj2 (Z.leb_le 0 sz)), (proj2 (Z.ltb_lt sz _)) by lia. by destruct (i =? io_mem_nb b). }
  assert (Oz : forall i, io_mem_opaque b3 i = io_mem_opaque b1 i) by done.
  assert (Sz : forall i, (i =? io_mem_nb b) = false -> io_mem_read b1 i sz = io_mem_read b i sz /\
    io_mem_write b1 i sz = io_mem_write b i sz) by (intros i Hi; rewrite R1, W1, Hi; done).
  destruct H0 as [B0 H0], H1 as [B1 H1]. destruct (H0 (page_off a) sz) as (R0 & W0 & _), (H1 (page_off a) sz) as (R & W & P & Q).
  destruct (Hdev sz Hsz) as [Dr Dw], (Hun sz Hsz) as [Ur Uw], (Sz index) as [S1 S2], (Sz 2) as [S3 S4];
    [by apply Z.eqb_neq; lia..|].
  change (io_mem_read b2) with (io_mem_read b1) in *. change (io_mem_write b2) with (io_mem_write b1) in *.
  change (io_mem_opaque b2) with (io_mem_opaque b1) in *.
  rewrite S3, Ur in R0. rewrite S4, Uw in W0. rewrite S1, Dr in R, P. rewrite S2, Dw in W, Q.
  rewrite O1, (proj2 (Z.eqb_neq index _)) in P, Q by lia.
  assert (Hin : within 0 (TARGET_PAGE_SIZE - 1 + 1 - 0) (page_off a) && within 0 4 sz = true).
  { destruct (page_split a Ha) as (_ & Hr & _). unfold within, TARGET_PAGE_SIZE.
    rewrite !andb_true_iff, !Z.leb_le, !Z.ltb_lt. lia. }
  rewrite Hin in R0, W0.
  assert (Hs4 : within 0 4 sz = true) by (unfold within; rewrite andb_true_iff, Z.leb_le, Z.ltb_lt; lia).
  rewrite Hs4, andb_true_r in R, W, P, Q.
  assert (Hoff : page_off (u32 (a - base p1)) = page_off a).
  { rewrite B1, B0. cbn [base]. rewrite <- Hbase. by apply page_rest. }
  split; [|intros v].
  - unfold zone_read, NEST. rewrite Rz, Z.eqb_refl. cbn [mbind option_bind call_read].
    rewrite Oz, O1, Z.eqb_refl, Nat2Z.id. change (subpages b3) with l. rewrite Hl. cbn [mbind option_bind].
    rewrite Hoff, R. destruct (within lo _ _); [|rewrite R0]; cbn [mbind option_bind]; rewrite Rz.
    + rewrite (proj2 (Z.eqb_neq index _)), Dr by lia. cbn [mbind option_bind]. by rewrite P.
    + rewrite (proj2 (Z.eqb_neq 2 _)), Ur by lia. done.
  - unfold zone_write, NEST. rewrite Wz, Z.eqb_refl. cbn [mbind option_bind call_write].
    rewrite Oz, O1, Z.eqb_refl, Nat2Z.id. change (subpages b3) with l. rewrite Hl. cbn [mbind option_bind].
    rewrite Hoff, W. destruct (within lo _ _); [|rewrite W0]; cbn [mbind option_bind]; rewrite Wz.
    + rewrite (proj2 (Z.eqb_neq index _)), Dw by lia. cbn [mbind option_bind]. by rewrite Q.
    + rewrite (proj2 (Z.eqb_neq 2 _)), Uw by lia. done.
Qed.

Lemma zone_not_memory index : 2 < index < 256 -> is_memory (Z.shiftl index IO_MEM_SHIFT) = false.
Proof using.
  intros Hi. unfold is_memory, IO_MEM_SHIFT, IO_MEM_ROM, IO_MEM_ROMD. rewrite Z.shiftl_mul_pow2 by lia. change (2 ^ 4) with 16.
  rewrite page_off_mod, Z.mod_small by lia. rewrite (proj2 (Z.leb_gt _ _)) by lia. cbn [orb].
  change 1 with (Z.ones 1). rewrite Z.land_ones by lia. replace (index * 16) with (0 + index * 8 * 2 ^ 1) by lia.
  by rewrite Z_mod_plus_full.
Qed.

Lemma one_page size : 0 < size < 4096 ->
  Z.to_nat (Z.shiftr (Z.land (u32 (size + TARGET_PAGE_SIZE - 1)) TARGET_PAGE_MASK) TARGET_PAGE_BITS) = 1%nat.
Proof using.
  intros Hs. unfold TARGET_PAGE_SIZE, TARGET_PAGE_MASK. unfold u32. rewrite wrap_small by (unfold in_width; lia).
  destruct (page_split (size + 4096 - 1) ltac:(unfold in_width; lia)) as (E & Hr & Hb & _). fold (page_base (size + 4096 - 1)).
  pose proof (Z.div_mod (page_base (size + 4096 - 1)) 4096 ltac:(lia)).
  assert (Ep : page_base (size + 4096 - 1) = 4096) by lia. by rewrite Ep.
Qed.

(** The page at [start] dispatches to the zone [index] for [size] bytes, and is unassigned
    elsewhere; the other pages are those of [s]. *)
Definition dispatches (start size index : Z) (f g : Z -> Z) (opq : Z) (b' : board) (s s' : phys) : Prop :=
  forall a, is_u32 a ->
  if decide (a / 4096 = start / 4096) then
    forall sz d, 0 <= sz < 3 ->
    zone_read dev_read b' (io_index (page_desc a s')) sz a d =
      (if decide (start <= a < start + size) then Some (dev_read (f sz) opq a d) else Some (0, d)) /\
    forall v, zone_write dev_write b' (io_index (page_desc a s')) sz a v d =
      Some (if decide (start <= a < start + size) then dev_write (g sz) opq a v d else d)
  else page_desc a s' = page_desc a s.

Lemma io_index_zone n : 0 <= n < 256 -> io_index (16 * n + 2) = n.
Proof using.
  intros Hn. unfold io_index, IO_MEM_SHIFT, IO_MEM_NB_ENTRIES. change (256 - 1) with (Z.ones 8).
  rewrite Z.land_ones, Z.shiftr_div_pow2 by lia. change (2 ^ 4) with 16. change (2 ^ 8) with 256.
  replace ((16 * n + 2) / 16) with n; [apply Z.mod_small; lia|].
  apply Z.div_unique with 2; lia.
Qed.

Lemma map_subpage start size index f g opq b' n (s s0 : phys) : partial start size -> 0 <= n < 256 -> map_wf s0 ->
  (forall a, page_desc a s0 = page_desc a s) ->
  (exists pd, l1_phys_map s0 (Z.land (Z.shiftr (Z.shiftr start TARGET_PAGE_BITS) L2_BITS) (L1_SIZE - 1)) = Some pd) ->
  (forall a sz d, is_u32 a -> page_base a = page_base start -> 0 <= sz < 3 ->
   zone_read dev_read b' n sz a d =
     (if within (page_off start) size (page_off a) then Some (dev_read (f sz) opq a d) else Some (0, d)) /\
   forall v, zone_write dev_write b' n sz a v d =
     Some (if within (page_off start) size (page_off a) then dev_write (g sz) opq a v d else d)) ->
  map_wf (set_page_desc start (16 * n + 2) s0) /\
  dispatches start size index f g opq b' s (set_page_desc start (16 * n + 2) s0).
Proof using.
  intros (Hu & Hs & Ho) Hn Hw0 Hs0 Ht Hz. split; [by apply (set_desc_spec start _ s0 start)|]. intros a Ha.
  destruct (set_desc_spec start (16 * n + 2) s0 a Hw0 Ht) as (_ & H1 & H2).
  rewrite same_index_div in H1, H2 by done. destruct (decide (a / 4096 = start / 4096)) as [Hd|Hd]; [|rewrite H2 by done; apply Hs0].
  intros sz d Hsz. rewrite H1, io_index_zone by done.
  destruct (page_split a Ha) as (Ea & Hra & _), (page_split start Hu) as (Es & Hr & _).
  assert (Hbase : page_base a = page_base start).
  { rewrite !page_off_mod in *. pose proof (Z.div_mod a 4096 ltac:(lia)). pose proof (Z.div_mod start 4096 ltac:(lia)). lia. }
  destruct (Hz a sz d Ha Hbase Hsz) as [Hzr Hzw].
  assert (Hwi : within (page_off start) size (page_off a) = bool_decide (start <= a < start + size)).
  { apply eq_true_iff_eq. unfold within. rewrite bool_decide_eq_true, andb_true_iff, Z.leb_le, Z.ltb_lt. lia. }
  rewrite Hwi in Hzr, Hzw. split; [|intros v]; rewrite ?Hzr, ?Hzw.
  all: by destruct (decide (start <= a < start + size)), (bool_decide_reflect (start <= a < start + size)).
Qed.

(** Registering the zone of a device for part of a fresh page: the page goes through a
    new zone, which calls the device for the addresses of the region, with its opaque
    argument, and reads 0 and ignores writes elsewhere; no other page changes. *)
Theorem region_subpage start size index f g b t (s : phys) : partial start size -> map_wf s ->
  page_desc start s = IO_MEM_UNASSIGNED ->
  2 < io_mem_nb b < IO_MEM_NB_ENTRIES -> 2 < index < io_mem_nb b ->
  device_zone b index f g -> unassigned_zone b ->
  exists b' s', cpu_register_physical_memory start size (Z.shiftl index IO_MEM_SHIFT) b t s = (b', tlb_flush 1 t, s') /\
  map_wf s' /\ io_mem_nb b' = io_mem_nb b + 1 /\
  dispatches start size index f g (io_mem_opaque b index) b' s s'.
Proof using.
  intros Hp Hw Hfree Hnb Hix Hdev Hun. pose proof Hp as (Hu & Hs & Ho).
  unfold cpu_register_physical_memory. rewrite one_page by done. cbn [register_pages]. unfold register_page.
  rewrite check_partial, zone_not_memory by (done || unfold IO_MEM_NB_ENTRIES in *; lia). cbn [orb].
  destruct (page_split start Hu) as (Es & Hr & _). change (Z.land start TARGET_PAGE_MASK) with (page_base start).
  destruct (fresh_subpage (page_base start) index (page_off start) (page_off start + size - 1) b f g) as
    (id & b1 & -> & N1 & Hz); [lia|lia|done|done|done|done|].
  replace (page_off start + size - 1 + 1 - page_off start) with size in Hz by lia.
  set (b' := register_in id _ _ _ b1) in *. unfold IO_MEM_NB_ENTRIES in Hnb. unfold page_desc in Hfree.
  destruct (phys_page_find (Z.shiftr start TARGET_PAGE_BITS) s) as [o|] eqn:Ef.
  - rewrite Hfree. cbn [negb Z.eqb IO_MEM_UNASSIGNED Pos.eqb]. exists b'. eexists. split; [reflexivity|].
    destruct (map_subpage start size index f g (io_mem_opaque b index) b' (io_mem_nb b) s s) as [M1 M2];
      [done|lia|done|done|by eapply find_table|done|done].
  - destruct (find_alloc_wf (Z.shiftr start TARGET_PAGE_BITS) s Hw) as [Hw1 Ht]. exists b'. eexists. split; [reflexivity|].
    destruct (map_subpage start size index f g (io_mem_opaque b index) b' (io_mem_nb b) s
      (phys_page_find_alloc (Z.shiftr start TARGET_PAGE_BITS) true s).1) as [M1 M2];
      [done|lia|done|intros a; apply find_alloc_desc|done|done|done].
Qed.
End Subpages.

(** ** Zones in use *)

Lemma set_callbacks_nb n : forall i index rd wr sw b, io_mem_nb (set_callbacks n i index rd wr sw b).2 = io_mem_nb b.
Proof using. induction n as [|n IH]; intros; [done|]. cbn [set_callbacks]. by rewrite IH. Qed.

(** A zone that fits is the next one. *)
Lemma register_io_nb rd wr opq b : let '(v, b') := cpu_register_io_memory 0 rd wr opq b in
  io_mem_nb b <= io_mem_nb b' /\ (io_mem_nb b' < IO_MEM_NB_ENTRIES -> io_mem_nb b' = io_mem_nb b + 1).
Proof using.
  unfold cpu_register_io_memory. change (0 <=? 0) with true. cbv iota.
  destruct (Z.leb_spec IO_MEM_NB_ENTRIES (io_mem_nb b)); [lia|].
  set (b1 := b <| io_mem_nb := _ |>).
  pose proof (set_callbacks_nb 3 0 (io_mem_nb b) rd wr 0 b1) as E.
  destruct (set_callbacks _ _ _ _ _ _ b1) as [sw b2]. cbn in *. lia.
Qed.

Lemma subpage_init_nb addr orig b id pd b1 : subpage_init addr orig b = (id, pd, b1) -> 5 <= io_mem_nb b ->
  io_mem_nb b1 < IO_MEM_NB_ENTRIES -> io_mem_nb b1 = io_mem_nb b + 1 /\ pd = 16 * io_mem_nb b + 2.
Proof using.
  unfold subpage_init. intros E H5.
  pose proof (register_io_nb subpage_callbacks subpage_callbacks (Z.of_nat (length (subpages b))) b) as Hnb.
  destruct (decide (io_mem_nb b < IO_MEM_NB_ENTRIES)) as [Hlt|Hge].
  - destruct (new_zone subpage_callbacks subpage_callbacks (Z.of_nat (length (subpages b))) b) as
      (b2 & E2 & N2 & _); [lia|intros; split; eauto|]. rewrite E2 in *. injection E as <- <- <-. cbn. intros.
    rewrite subpage_offset by (unfold IO_MEM_NB_ENTRIES in *; lia). lia.
  - destruct (cpu_register_io_memory 0 _ _ _ b) as [v b2]. injection E as <- <- <-. cbn. lia.
Qed.

Lemma register_in_nb id lo hi m b : io_mem_nb (register_in id lo hi m b) = io_mem_nb b.
Proof using. unfold register_in. by destruct (subpages b !! id). Qed.

Lemma subpage_init_le addr orig b : io_mem_nb b <= io_mem_nb (subpage_init addr orig b).2.
Proof using.
  unfold subpage_init.
  pose proof (register_io_nb subpage_callbacks subpage_callbacks (Z.of_nat (length (subpages b))) b) as Hnb.
  destruct (cpu_register_io_memory 0 _ _ _ b) as [v b2]. cbn. lia.
Qed.

(** The descriptor of a subpage, and that of the next page. *)
Lemma subpage_pd_ok n : 5 <= n < 256 -> pd_ok (16 * n + 2).
Proof.
  intros Hn. assert (Eo : page_off (16 * n + 2) = 16 * n + 2) by (rewrite page_off_mod; apply Z.mod_small; lia).
  split; [unfold in_width; lia|]. split.
  - rewrite Z.testbit_false by lia. change (2 ^ 3) with 8. clear -Hn. Z.to_euclidean_division_equations; lia.
  - rewrite Eo, io_index_zone by lia. unfold IO_MEM_UNASSIGNED. right. right. split; [lia|]. split; [lia|].
    intros _. destruct (page_split (16 * n + 2) ltac:(unfold in_width; lia)) as (E & _). lia.
Qed.

Lemma next_ok po : pd_ok po -> pd_ok (next_offset po).
Proof.
  unfold next_offset. destruct (is_memory po) eqn:Em; [|done]. intros (Hu & H3 & Hk).
  unfold TARGET_PAGE_SIZE. split; [apply wrap_range; lia|]. split.
  - rewrite <- H3. apply Z.b2z_inj. rewrite !Z.testbit_spec' by lia. unfold u32, wrap.
    change (2 ^ 32) with (8 * (2 * 268435456)). change (2 ^ 3) with 8. clear. Z.to_euclidean_division_equations; lia.
  - assert (Ei : io_index (u32 (po + 4096)) = io_index po).
    { unfold io_index, IO_MEM_SHIFT, IO_MEM_NB_ENTRIES. change (256 - 1) with (Z.ones 8).
      rewrite !Z.land_ones, !Z.shiftr_div_pow2 by lia. unfold u32, wrap. clear.
      change (2 ^ 32) with 4294967296. change (2 ^ 4) with 16. change (2 ^ 8) with 256.
      Z.to_euclidean_division_equations; lia. }
    rewrite off_add_page, Ei. destruct Hk as [Hk|[Hk|(H1 & H2 & _)]]; [tauto|tauto|right; right].
    split; [done|]. split; [done|]. intros Hr. exfalso. unfold is_memory in Em.
    rewrite (low_bit_off (u32 _)), off_add_page, <- (low_bit_off po) in Hr by done. rewrite Hr, orb_false_r in Em.
    apply Z.leb_le in Em. unfold IO_MEM_ROM, IO_MEM_UNASSIGNED in *. lia.
Qed.

Section Boards.
Context {D : Type}.
Abbreviation phys := (phys (D := D)).

(** ** What the boards build

    The statements of a board that set up its memory: a zone for a device, a region. *)
Inductive board_op : Type :=
| Zone (rd wr : Z -> option callback) (opaque : Z)
| Region (start size phys_offset : Z).

Definition board_step (op : board_op) (st : board * tlb * phys) : board * tlb * phys :=
  let '(b, t, s) := st in
  match op with
  | Zone rd wr opaque => ((cpu_register_io_memory 0 rd wr opaque b).2, t, s)
  | Region start size po => cpu_register_physical_memory start size po b t s
  end.

Definition op_ok (op : board_op) : Prop :=
  match op with Zone _ _ _ => True | Region _ _ po => pd_ok po end.

Definition tables_ok (b : board) (s : phys) : Prop := map_wf s /\ map_ok s /\ 5 <= io_mem_nb b.

(** One page keeps the tables well formed. *)
Lemma set_tables_ok addr v (s : phys) : map_wf s -> map_ok s -> pd_ok v ->
  (exists pd, l1_phys_map s (Z.land (Z.shiftr (Z.shiftr addr TARGET_PAGE_BITS) L2_BITS) (L1_SIZE - 1)) = Some pd) ->
  map_wf (set_page_desc addr v s) /\ map_ok (set_page_desc addr v s).
Proof using.
  intros Hw Hm Hv Ht. split; [by apply (set_desc_spec addr v s addr)|]. intros a.
  destruct (set_desc_spec addr v s a Hw Ht) as (_ & H1 & H2).
  destruct (decide (Z.land (Z.shiftr a TARGET_PAGE_BITS) 0xfffff = Z.land (Z.shiftr addr TARGET_PAGE_BITS) 0xfffff));
    [by rewrite H1|rewrite H2 by done; apply Hm].
Qed.

Lemma subpage_tables_ok addr orig lo hi po (b : board) (s : phys) : tables_ok b s ->
  (exists pd, l1_phys_map s (Z.land (Z.shiftr (Z.shiftr addr TARGET_PAGE_BITS) L2_BITS) (L1_SIZE - 1)) = Some pd) ->
  let '(id, pd, b1) := subpage_init (Z.land addr TARGET_PAGE_MASK) orig b in
  let b' := register_in id lo hi po b1 in
  io_mem_nb b <= io_mem_nb b' /\ (io_mem_nb b' < IO_MEM_NB_ENTRIES -> tables_ok b' (set_page_desc addr pd s)).
Proof using.
  intros (Hw & Hm & H5) Ht. pose proof (subpage_init_le (Z.land addr TARGET_PAGE_MASK) orig b) as Hle.
  destruct (subpage_init _ orig b) as [[id pd] b1] eqn:E. cbv zeta. unfold tables_ok. rewrite register_in_nb.
  cbn [snd] in Hle. split; [done|]. intros Hlt. destruct (subpage_init_nb _ _ _ _ _ _ E H5 Hlt) as [N1 ->].
  destruct (set_tables_ok addr (16 * io_mem_nb b + 2) s Hw Hm) as [M1 M2];
    [apply subpage_pd_ok; unfold IO_MEM_NB_ENTRIES in Hlt; lia|done|]. split; [done|]. split; [done|lia].
Qed.

Lemma page_tables_ok addr start size po (b : board) (s : phys) : pd_ok po -> tables_ok b s ->
  let '(po', b', s') := register_page addr start size po b s in
  io_mem_nb b <= io_mem_nb b' /\ pd_ok po' /\ (io_mem_nb b' < IO_MEM_NB_ENTRIES -> tables_ok b' s').
Proof using.
  intros Hpo Hok. pose proof Hok as (Hw & Hm & H5). pose proof (next_ok po Hpo) as Hnx.
  unfold register_page. fold (next_offset po). destruct (CHECK_SUBPAGE addr start size) as [[lo hi] need].
  assert (Hplain : forall s0 : phys, map_wf s0 -> map_ok s0 ->
    (exists pd, l1_phys_map s0 (Z.land (Z.shiftr (Z.shiftr addr TARGET_PAGE_BITS) L2_BITS) (L1_SIZE - 1)) = Some pd) ->
    tables_ok b (set_page_desc addr po s0)).
  { intros s0 Hw0 Hm0 Ht. destruct (set_tables_ok addr po s0 Hw0 Hm0 Hpo Ht). done. }
  destruct (phys_page_find (Z.shiftr addr TARGET_PAGE_BITS) s) as [o|] eqn:Ef.
  - assert (Ht := find_table _ _ _ Ef). pose proof (fun orig => subpage_tables_ok addr orig lo hi po b s Hok Ht) as Hsub.
    specialize (Hplain s Hw Hm Ht). pose proof (Hsub o) as Ho. specialize (Hsub IO_MEM_UNASSIGNED).
    destruct (subpage_init _ o b) as [[id pd] b1], (subpage_init _ IO_MEM_UNASSIGNED b) as [[id2 pd2] b2].
    destruct Ho as [Ho1 Ho2], Hsub as [Hs1 Hs2].
    repeat case_match; simplify_eq; (split; [try lia|split; [done|try done]]).
    all: unfold tables_ok; rewrite register_in_nb; try done; lia.
  - destruct (find_alloc_wf (Z.shiftr addr TARGET_PAGE_BITS) s Hw) as [Hw1 Ht].
    set (s1 := (phys_page_find_alloc _ true s).1) in *.
    assert (Hm1 : map_ok s1) by (intros a; unfold s1; rewrite find_alloc_desc; apply Hm).
    assert (Hok1 : tables_ok b s1) by done.
    specialize (Hplain s1 Hw1 Hm1 Ht).
    pose proof (subpage_tables_ok addr IO_MEM_UNASSIGNED lo hi po b s1 Hok1 Ht) as Hsub.
    destruct (subpage_init _ IO_MEM_UNASSIGNED b) as [[id2 pd2] b2]. destruct Hsub as [Hs1 Hs2].
    repeat case_match; simplify_eq; (split; [lia|by split]).
Qed.

(** Zones are never given back. *)
Lemma page_nb addr start size po (b : board) (s : phys) :
  io_mem_nb b <= io_mem_nb (register_page addr start size po b s).1.2.
Proof using.
  unfold register_page. destruct (CHECK_SUBPAGE addr start size) as [[lo hi] need].
  pose proof (fun o => subpage_init_le (Z.land addr TARGET_PAGE_MASK) o b) as Hle.
  destruct (phys_page_find _ s) as [o|]; [pose proof (Hle o) as Ho|];
    [destruct (subpage_init _ o b) as [[id pd] b1]|]; specialize (Hle IO_MEM_UNASSIGNED);
    destruct (subpage_init _ IO_MEM_UNASSIGNED b) as [[id2 pd2] b2];
    repeat case_match; cbn [fst snd] in *; rewrite ?register_in_nb; lia.
Qed.

Lemma pages_nb n : forall addr start size po (b : board) (s : phys),
  io_mem_nb b <= io_mem_nb (register_pages n addr start size po b s).1.
Proof using.
  induction n as [|n IH]; intros; cbn [register_pages]; [cbn; lia|].
  pose proof (page_nb addr start size po b s) as H. destruct (register_page addr start size po b s) as [[po1 b1] s1].
  cbn [fst snd] in H. specialize (IH (u32 (addr + TARGET_PAGE_SIZE)) start size po1 b1 s1). lia.
Qed.

Lemma step_nb op (st : board * tlb * phys) : io_mem_nb st.1.1 <= io_mem_nb (board_step op st).1.1.
Proof using.
  destruct st as [[b t] s], op as [rd wr opq|start size po]; cbn [board_step].
  - pose proof (register_io_nb rd wr opq b) as H. destruct (cpu_register_io_memory 0 rd wr opq b) as [v b']. apply H.
  - unfold cpu_register_physical_memory.
    pose proof (pages_nb (Z.to_nat (Z.shiftr (Z.land (u32 (size + TARGET_PAGE_SIZE - 1)) TARGET_PAGE_MASK) TARGET_PAGE_BITS))
      start start size po b s) as H. by destruct (register_pages _ _ _ _ _ b s).
Qed.

Lemma steps_nb ops : forall st : board * tlb * phys,
  io_mem_nb st.1.1 <= io_mem_nb (foldl (fun st op => board_step op st) st ops).1.1.
Proof using.
  induction ops as [|op ops IH]; intros st; cbn [foldl]; [lia|]. etransitivity; [apply (step_nb op)|apply IH].
Qed.

Lemma pages_tables_ok n : forall addr start size po (b : board) (s : phys), pd_ok po -> tables_ok b s ->
  let '(b', s') := register_pages n addr start size po b s in
  io_mem_nb b' < IO_MEM_NB_ENTRIES -> tables_ok b' s'.
Proof using.
  induction n as [|n IH]; intros addr start size po b s Hpo Hok; cbn [register_pages]; [done|].
  pose proof (page_tables_ok addr start size po b s Hpo Hok) as H.
  destruct (register_page addr start size po b s) as [[po1 b1] s1]. destruct H as (H1 & H2 & H3).
  pose proof (pages_nb n (u32 (addr + TARGET_PAGE_SIZE)) start size po1 b1 s1) as Hle.
  specialize (IH (u32 (addr + TARGET_PAGE_SIZE)) start size po1 b1 s1 H2).
  destruct (register_pages n _ start size po1 b1 s1) as [b2 s2]. cbn [fst] in Hle. intros Hlt.
  apply IH; [apply H3; lia|done].
Qed.

Lemma step_tables_ok op b t (s : phys) : op_ok op -> tables_ok b s ->
  let '(b', _, s') := board_step op (b, t, s) in
  io_mem_nb b' < IO_MEM_NB_ENTRIES -> tables_ok b' s'.
Proof using.
  intros Hop Hok. destruct op as [rd wr opq|start size po]; cbn [board_step].
  - pose proof (register_io_nb rd wr opq b) as H. destruct (cpu_register_io_memory 0 rd wr opq b) as [v b'].
    destruct H as [H1 H2]. cbn [snd]. intros. destruct Hok as (Hw & Hm & H5). split; [done|]. split; [done|lia].
  - unfold cpu_register_physical_memory.
    pose proof (pages_tables_ok (Z.to_nat (Z.shiftr (Z.land (u32 (size + TARGET_PAGE_SIZE - 1)) TARGET_PAGE_MASK) TARGET_PAGE_BITS))
      start start size po b s Hop Hok) as H.
    by destruct (register_pages _ start start size po b s) as [b' s'].
Qed.

Definition board_run (ops : list board_op) (st : board * tlb * phys) : board * tlb * phys :=
  foldl (fun st op => board_step op st) st ops.

End Boards.

(** ** A small board

    Sixteen pages of RAM at 0, and a device whose registers are 64 bytes at 0xfec00000. *)
Definition no_memory : phys (D := unit) := mkPhys (fun _ => None) (fun _ => 0) (fun _ => 0) tt [].
Definition sample_board : board := (io_mem_init new_board).2.
Definition sample_device : Z -> option callback := fun sz => Some (Device sz).
Definition sample_zone : Z * board := cpu_register_io_memory 0 sample_device sample_device 7 sample_board.
Definition sample_ops : list board_op :=
  [Zone sample_device sample_device 7; Region 0 0x10000 IO_MEM_RAM; Region 0xfec00000 64 sample_zone.1].
Definition sample_tlb : tlb := fun _ _ => mkEntry INVALID INVALID INVALID 0.

Lemma no_memory_desc a : page_desc a no_memory = IO_MEM_UNASSIGNED.
Proof. done. Qed.

Lemma no_memory_wf : map_wf no_memory.
Proof. intros i pd. done. Qed.

Lemma unassigned_ok : pd_ok IO_MEM_UNASSIGNED.
Proof. split; [done|]. split; [done|]. right. right. done. Qed.

Lemma region_exact_witness :
  exists s', cpu_register_physical_memory 0 0x10000 IO_MEM_RAM sample_board sample_tlb no_memory
      = (sample_board, tlb_flush 1 sample_tlb, s') /\ page_desc 0x5123 s' = 0x5000 /\ page_desc 0x10000 s' = IO_MEM_UNASSIGNED.
Proof.
  destruct (region_exact 0 0x10000 IO_MEM_RAM sample_board sample_tlb no_memory) as (s' & H1 & _ & H2);
    [done|done|exact no_memory_wf|]. exists s'. split; [exact H1|].
  split; (rewrite H2; [vm_compute; reflexivity|unfold in_width; lia]).
Defined.

Lemma region_subpage_witness (dr : Z -> Z -> Z -> unit -> Z * unit := fun f o a d => (100 * f + o, d))
  (dw : Z -> Z -> Z -> Z -> unit -> unit := fun _ _ _ _ d => d) :
  exists b' s', cpu_register_physical_memory 0xfec00000 64 sample_zone.1 sample_zone.2 sample_tlb no_memory
      = (b', tlb_flush 1 sample_tlb, s') /\
  zone_read dr b' (io_index (page_desc 0xfec00010 s')) 2 0xfec00010 tt = Some (207, tt) /\
  zone_read dr b' (io_index (page_desc 0xfec00040 s')) 2 0xfec00040 tt = Some (0, tt).
Proof.
  destruct (region_subpage dr dw 0xfec00000 64 6 (fun sz => sz) (fun sz => sz) sample_zone.2 sample_tlb no_memory)
    as (b' & s' & H1 & _ & _ & H2); [done|exact no_memory_wf|done|done|done| | |].
  1,2: intros sz Hsz; assert (sz = 0 \/ sz = 1 \/ sz = 2) as [-> | [-> | ->]] by lia; done.
  exists b', s'. split; [exact H1|].
  pose proof (H2 0xfec00010 ltac:(unfold in_width; lia)) as Hin. pose proof (H2 0xfec00040 ltac:(unfold in_width; lia)) as Hout.
  rewrite decide_True in Hin by reflexivity. rewrite decide_True in Hout by reflexivity.
  destruct (Hin 2 tt ltac:(lia)) as [-> _], (Hout 2 tt ltac:(lia)) as [-> _].
  rewrite decide_True, decide_False by lia. split; vm_compute; reflexivity.
Defined.

End Board.
