(* ===== verification/CodeBlocks.v ===== *)
(** * The tables of translated code

    The blocks of host code that QEMU makes from guest code, and the tables that find
    them again (src/MemCheck-qemu/exec.c, exec-all.h): the hash table of physical
    addresses, the list of the blocks of each physical page with its bitmap, and the lists
    of the direct jumps from block to block.  A write to guest memory looks up the blocks
    it overlaps and takes them out of every table.  The lists are linked through the
    blocks, and their pointers carry a tag in the two low bits: a pointer is the number of
    the block in [tbs] and its tag, and [None] for NULL.  Following NULL ends the program:
    the operation is [None].  The hosts are those where a direct jump is an address in
    [tb_next] and not patched code. *)

From S2P Require Import Prelude Bytes PhysMem Mmu Tlb.
Import PhysMem Tlb.

Module CodeBlocks.

Definition CODE_GEN_PHYS_HASH_SIZE : Z := 0x8000.
Definition CODE_GEN_BUFFER_SIZE : Z := 0x1000000.
Definition CODE_GEN_MAX_BLOCKS : Z := 0x20000.
Definition CODE_GEN_ALIGN : Z := 16.
Definition TB_JMP_CACHE_BITS : Z := 12.
Definition TB_JMP_PAGE_BITS : Z := 6.
Definition TB_JMP_PAGE_SIZE : Z := 64.
Definition TB_JMP_ADDR_MASK : Z := TB_JMP_PAGE_SIZE - 1.
Definition TB_JMP_PAGE_MASK : Z := Z.shiftl 1 TB_JMP_CACHE_BITS - TB_JMP_PAGE_SIZE.
Definition SMC_BITMAP_USE_THRESHOLD : Z := 10.
Definition CF_SINGLE_INSN : Z := 8.

(** [(target_ulong) -1]: the block has no second page. *)
Definition NO_PAGE : Z := 0xffffffff.

(** A pointer to a block, and its tag. *)
Abbreviation tagged := (Z * Z)%type.

Record TranslationBlock := mkTB {
  pc : Z;
  cs_base : Z;
  flags : Z;
  size : Z;
  cflags : Z;
  tc_ptr : Z;
  phys_hash_next : option Z;
  page_next : Z -> option tagged;
  page_addr : Z -> Z;
  tb_next_offset : Z -> Z;
  tb_next : Z -> Z;
  jmp_next : Z -> option tagged;
  jmp_first : option tagged;
}.
#[global] Instance eta_tb : Eta TranslationBlock := fun t =>
  mkTB (pc t) (cs_base t) (flags t) (size t) (cflags t) (tc_ptr t) (phys_hash_next t) (page_next t) (page_addr t)
    (tb_next_offset t) (tb_next t) (jmp_next t) (jmp_first t).

(** [PageDesc]; the bitmap is an array of [TARGET_PAGE_SIZE / 8] bytes. *)
Record PageDesc := mkPage {
  first_tb : option tagged;
  code_write_count : Z;
  code_bitmap : option (Z -> Z);
}.
#[global] Instance eta_page : Eta PageDesc := fun p => mkPage (first_tb p) (code_write_count p) (code_bitmap p).

(** The tables, and the fields of the CPU that concern them. *)
Record cache := mkCache {
  tbs : Z -> TranslationBlock;
  nb_tbs : Z;
  tb_phys_hash : Z -> option Z;
  code_gen_ptr : Z;
  l1_map : Z -> option (Z -> PageDesc);
  tb_jmp_cache : Z -> option Z;
  tb_invalidated_flag : Z;
  tb_flush_count : Z;
  tb_phys_invalidate_count : Z;
  mem_write_pc : Z;
  current_tb : option Z;
  interrupt_request : Z;
}.
#[global] Instance eta_cache : Eta cache := fun c =>
  mkCache (tbs c) (nb_tbs c) (tb_phys_hash c) (code_gen_ptr c) (l1_map c) (tb_jmp_cache c) (tb_invalidated_flag c)
    (tb_flush_count c) (tb_phys_invalidate_count c) (mem_write_pc c) (current_tb c) (interrupt_request c).

(** [t[i] = v] for an array, and an assignment to a field of block [t]. *)
Definition put {A} (f : Z -> A) (i : Z) (v : A) : Z -> A := fun j => if j =? i then v else f j.
Definition set_tb (t : Z) (f : TranslationBlock -> TranslationBlock) (c : cache) : cache :=
  c <| tbs := put (tbs c) t (f (tbs c t)) |>.

(** ** Hashes *)

Definition tb_jmp_cache_hash_page (pc : Z) : Z :=
  let tmp := Z.lxor pc (Z.shiftr pc (TARGET_PAGE_BITS - TB_JMP_PAGE_BITS)) in
  Z.land (Z.shiftr tmp TB_JMP_PAGE_BITS) TB_JMP_PAGE_MASK.

Definition tb_jmp_cache_hash_func (pc : Z) : Z :=
  let tmp := Z.lxor pc (Z.shiftr pc (TARGET_PAGE_BITS - TB_JMP_PAGE_BITS)) in
  Z.lor (Z.land (Z.shiftr tmp TB_JMP_PAGE_BITS) TB_JMP_PAGE_MASK) (Z.land tmp TB_JMP_ADDR_MASK).

Definition tb_phys_hash_func (pc : Z) : Z := Z.land pc (CODE_GEN_PHYS_HASH_SIZE - 1).

(** ** Pages *)

Definition page_find (index : Z) (c : cache) : option PageDesc :=
  p ← l1_map c (Z.shiftr index L2_BITS); Some (p (Z.land index (L2_SIZE - 1))).

(** An assignment to a field of the page, which has been found. *)
Definition set_page (index : Z) (f : PageDesc -> PageDesc) (c : cache) : cache :=
  let i1 := Z.shiftr index L2_BITS in
  let i2 := Z.land index (L2_SIZE - 1) in
  match l1_map c i1 with
  | Some p => c <| l1_map := put (l1_map c) i1 (Some (put p i2 (f (p i2)))) |>
  | None => c
  end.

Definition page_find_alloc (index : Z) (c : cache) : cache :=
  let i1 := Z.shiftr index L2_BITS in
  match l1_map c i1 with
  | Some _ => c
  | None => c <| l1_map := put (l1_map c) i1 (Some (fun _ => mkPage None 0 None)) |>
  end.

Definition invalidate_page_bitmap (p : PageDesc) : PageDesc :=
  let p := p <| code_bitmap := None |> in
  p <| code_write_count := 0 |>.

Definition page_flush_tb (c : cache) : cache :=
  let flush (p : Z -> PageDesc) (j : Z) := invalidate_page_bitmap ((p j) <| first_tb := None |>) in
  c <| l1_map := (fun i => flush <$> l1_map c i) |>.

(** ** Taking a block out of the lists

    The loops that walk a list by the address [ptb] of the pointer to the next block.
    [S] are the places a pointer can be in, [place] the one in a block; a walk longer than
    all the pointers of all the blocks, or through NULL, is [None]. *)
Fixpoint find_link {S A} (fuel : nat) (place : A -> S) (deref : S -> option A) (hit : A -> bool) (ptb : S)
  : option S :=
  match fuel with
  | O => None
  | S fuel' =>
    tb1 ← deref ptb;
    if hit tb1 then Some ptb else find_link fuel' place deref hit (place tb1)
  end.

Definition links (c : cache) : nat := Z.to_nat (2 * nb_tbs c + 2).

(** [*ptb] in the list of a hash, in which [None] is the head, and in that of a page. *)
Definition hash_link (h : Z) (c : cache) (ptb : option Z) : option Z :=
  match ptb with None => tb_phys_hash c h | Some t => phys_hash_next (tbs c t) end.

Definition tb_remove (h tb : Z) (c : cache) : option cache :=
  ptb ← find_link (links c) Some (hash_link h c) (Z.eqb tb) None;
  let v := phys_hash_next (tbs c tb) in
  Some match ptb with
       | None => c <| tb_phys_hash := put (tb_phys_hash c) h v |>
       | Some t => set_tb t (fun b => b <| phys_hash_next := v |>) c
       end.

Definition page_link (p : PageDesc) (c : cache) (ptb : option tagged) : option tagged :=
  match ptb with None => first_tb p | Some (t, n) => page_next (tbs c t) n end.

(** [tb_page_remove(&p->first_tb, tb)] for the page [index]; the pointer found may carry
    any tag. *)
Definition tb_page_remove (index : Z) (p : PageDesc) (tb : Z) (c : cache) : option cache :=
  ptb ← find_link (links c) Some (page_link p c) (fun x => x.1 =? tb) None;
  '(_, n1) ← page_link p c ptb;
  let v := page_next (tbs c tb) n1 in
  Some match ptb with
       | None => set_page index (fun p => p <| first_tb := v |>) c
       | Some (t, n) => set_tb t (fun b => b <| page_next := put (page_next b) n v |>) c
       end.

(** [*ptb] in a list of jumps: tag 2 is the field [jmp_first]. *)
Definition jmp_link (c : cache) (x : tagged) : option tagged :=
  if x.2 =? 2 then jmp_first (tbs c x.1) else jmp_next (tbs c x.1) x.2.

Definition set_jmp_link (x : tagged) (v : option tagged) (c : cache) : cache :=
  set_tb x.1 (fun b => if x.2 =? 2 then b <| jmp_first := v |> else b <| jmp_next := put (jmp_next b) x.2 v |>) c.

Definition tb_jmp_remove (tb n : Z) (c : cache) : option cache :=
  match jmp_next (tbs c tb) n with
  | None => Some c
  | Some _ =>
    ptb ← find_link (links c) id (jmp_link c) (fun x => (x.2 =? n) && (x.1 =? tb)) (tb, n);
    let c := set_jmp_link ptb (jmp_next (tbs c tb) n) c in
    Some (set_jmp_link (tb, n) None c)
  end.

(** ** Direct jumps *)

Definition tb_set_jmp_target (tb n addr : Z) (c : cache) : cache :=
  set_tb tb (fun b => b <| tb_next := put (tb_next b) n addr |>) c.

Definition tb_reset_jump (tb n : Z) (c : cache) : cache :=
  tb_set_jmp_target tb n (u32 (tc_ptr (tbs c tb) + tb_next_offset (tbs c tb) n)) c.

Definition tb_add_jump (tb n tb_next : Z) (c : cache) : cache :=
  match jmp_next (tbs c tb) n with
  | Some _ => c
  | None =>
    let c := tb_set_jmp_target tb n (tc_ptr (tbs c tb_next)) c in
    let c := set_jmp_link (tb, n) (jmp_first (tbs c tb_next)) c in
    set_tb tb_next (fun b => b <| jmp_first := Some (tb, n) |>) c
  end.

(** The loop of [tb_phys_invalidate] that suppresses the jumps to the block. *)
Fixpoint suppress_jumps (fuel : nat) (tb1 : option tagged) (c : cache) : option cache :=
  match fuel with
  | O => None
  | S fuel' =>
    '(t1, n1) ← tb1;
    if n1 =? 2 then Some c
    else
      let tb2 := jmp_next (tbs c t1) n1 in
      let c := tb_reset_jump t1 n1 c in
      let c := set_jmp_link (t1, n1) None c in
      suppress_jumps fuel' tb2 c
  end.

(** ** Unchaining for an interrupt

    The head of the list that the jump is in, whose tag is 2. *)
Fixpoint find_head (fuel : nat) (tb1 : option tagged) (c : cache) : option Z :=
  match fuel with
  | O => None
  | S fuel' =>
    '(t1, n1) ← tb1;
    if n1 =? 2 then Some t1 else find_head fuel' (jmp_next (tbs c t1) n1) c
  end.

(** The depth of the recursion is paid by the fuel: every call takes away a jump. *)
Fixpoint tb_reset_jump_recursive (fuel : nat) (tb : Z) (c : cache) : option cache :=
  match fuel with
  | O => None
  | S fuel' =>
    let tb_reset_jump_recursive2 (n : Z) (c : cache) : option cache :=
      match jmp_next (tbs c tb) n with
      | None => Some c
      | Some tb1 =>
        tb_next ← find_head (links c) (Some tb1) c;
        ptb ← find_link (links c) id (jmp_link c) (fun x => (x.2 =? n) && (x.1 =? tb)) (tb_next, 2);
        let c := set_jmp_link ptb (jmp_next (tbs c tb) n) c in
        let c := set_jmp_link (tb, n) None c in
        let c := tb_reset_jump tb n c in
        tb_reset_jump_recursive fuel' tb_next c
      end in
    c ← tb_reset_jump_recursive2 0 c;
    tb_reset_jump_recursive2 1 c
  end.

(** [cpu_interrupt(env, mask)]; the lock is free, as there is one thread. *)
Definition cpu_interrupt (mask : Z) (c : cache) : option cache :=
  let c := c <| interrupt_request := Z.lor (interrupt_request c) mask |> in
  match current_tb c with
  | Some tb => tb_reset_jump_recursive (links c) tb (c <| current_tb := None |>)
  | None => Some c
  end.

(** ** Taking a block out of every table *)

(** The page that holds code for the block: NULL ends the program. *)
Definition leave_page (addr tb : Z) (c : cache) : option cache :=
  let index := Z.shiftr addr TARGET_PAGE_BITS in
  p ← page_find index c;
  c ← tb_page_remove index p tb c;
  Some (set_page index invalidate_page_bitmap c).

Definition tb_phys_invalidate (tb page_address : Z) (c : cache) : option cache :=
  let b := tbs c tb in
  let phys_pc := u32 (page_addr b 0 + page_off (pc b)) in
  let h := tb_phys_hash_func phys_pc in
  c ← tb_remove h tb c;
  c ← (if negb (page_addr b 0 =? page_address) then leave_page (page_addr b 0) tb c else Some c);
  c ← (if negb (page_addr b 1 =? NO_PAGE) && negb (page_addr b 1 =? page_address)
       then leave_page (page_addr b 1) tb c else Some c);
  let c := c <| tb_invalidated_flag := 1 |> in
  let h := tb_jmp_cache_hash_func (pc b) in
  let c := if decide (tb_jmp_cache c h = Some tb) then c <| tb_jmp_cache := put (tb_jmp_cache c) h None |> else c in
  c ← tb_jmp_remove tb 0 c;
  c ← tb_jmp_remove tb 1 c;
  c ← suppress_jumps (links c) (jmp_first (tbs c tb)) c;
  let c := set_tb tb (fun b => b <| jmp_first := Some (tb, 2) |>) c in
  Some (c <| tb_phys_invalidate_count := tb_phys_invalidate_count c + 1 |>).

(** ** The bitmap of a page *)

(** The loop over the whole bytes. *)
Fixpoint set_bytes (fuel : nat) (tab : Z -> Z) (i start end1 : Z) : (Z -> Z) * Z * Z :=
  match fuel with
  | O => (tab, i, start)
  | S fuel' =>
    if start <? end1 then set_bytes fuel' (put tab i 0xff) (i + 1) (start + 8) end1 else (tab, i, start)
  end.

Definition set_bits (tab : Z -> Z) (start len : Z) : Z -> Z :=
  let stop := start + len in
  let i := Z.shiftr start 3 in
  let mask := Z.shiftl 0xff (Z.land start 7) in
  if Z.land start (Z.lnot 7) =? Z.land stop (Z.lnot 7) then
    if start <? stop then
      let mask := Z.land mask (Z.lnot (Z.shiftl 0xff (Z.land stop 7))) in
      put tab i (u8 (Z.lor (tab i) mask))
    else tab
  else
    let tab := put tab i (u8 (Z.lor (tab i) mask)) in
    let start := Z.land (start + 8) (Z.lnot 7) in
    let end1 := Z.land stop (Z.lnot 7) in
    let '(tab, i, start) := set_bytes (Z.to_nat (TARGET_PAGE_SIZE / 8)) tab (i + 1) start end1 in
    if start <? stop then
      let mask := Z.lnot (Z.shiftl 0xff (Z.land stop 7)) in
      put tab i (u8 (Z.lor (tab i) mask))
    else tab.

(** The bytes of the page that the block with tag [n] in its list occupies. *)
Definition page_range (b : TranslationBlock) (n : Z) : Z * Z :=
  if n =? 0 then
    let tb_start := page_off (pc b) in
    let tb_end := tb_start + size b in
    (tb_start, if TARGET_PAGE_SIZE <? tb_end then TARGET_PAGE_SIZE else tb_end)
  else (0, page_off (u32 (pc b + size b))).

Fixpoint bitmap_loop (fuel : nat) (tb : option tagged) (c : cache) (tab : Z -> Z) : option (Z -> Z) :=
  match fuel with
  | O => None
  | S fuel' =>
    match tb with
    | None => Some tab
    | Some (t, n) =>
      let '(tb_start, tb_end) := page_range (tbs c t) n in
      bitmap_loop fuel' (page_next (tbs c t) n) c (set_bits tab tb_start (tb_end - tb_start))
    end
  end.

Definition build_page_bitmap (index : Z) (p : PageDesc) (c : cache) : option cache :=
  tab ← bitmap_loop (links c) (first_tb p) c (fun _ => 0);
  Some (set_page index (fun p => p <| code_bitmap := Some tab |>) c).

(** ** Flushes of the TLB

    The part of [tlb_flush] and [tlb_flush_page] that concerns blocks; the other part is
    [Tlb]. *)

Definition tlb_flush_code (c : cache) : cache :=
  let c := c <| current_tb := None |> in
  c <| tb_jmp_cache := fun _ => None |>.

(** [memset(&env->tb_jmp_cache[i], 0, TB_JMP_PAGE_SIZE * sizeof(tb))] *)
Definition clear_jmp_page (i : Z) (c : cache) : cache :=
  c <| tb_jmp_cache := fun h => if (i <=? h) && (h <? i + TB_JMP_PAGE_SIZE) then None else tb_jmp_cache c h |>.

Definition tlb_flush_page_code (addr : Z) (c : cache) : cache :=
  let c := c <| current_tb := None |> in
  let addr := page_base addr in
  let c := clear_jmp_page (tb_jmp_cache_hash_page (u32 (addr - TARGET_PAGE_SIZE))) c in
  clear_jmp_page (tb_jmp_cache_hash_page addr) c.

Section Blocks.
(** The buffer for generated code, and the room a block may need. *)
Context (code_gen_buffer code_gen_max_block_size : Z).

Definition tb_flush (c : cache) : cache :=
  let c := c <| nb_tbs := 0 |> in
  let c := c <| tb_jmp_cache := fun _ => None |> in
  let c := c <| tb_phys_hash := fun _ => None |> in
  let c := page_flush_tb c in
  let c := c <| code_gen_ptr := code_gen_buffer |> in
  c <| tb_flush_count := tb_flush_count c + 1 |>.

(** ** The block of a host address *)

Fixpoint search (fuel : nat) (m_min m_max addr : Z) (c : cache) : option Z :=
  match fuel with
  | O => None
  | S fuel' =>
    if m_min <=? m_max then
      let m := Z.shiftr (m_min + m_max) 1 in
      let v := tc_ptr (tbs c m) in
      if v =? addr then Some m
      else if addr <? v then search fuel' m_min (m - 1) addr c
      else search fuel' (m + 1) m_max addr c
    else Some m_max
  end.

Definition tb_find_pc (addr : Z) (c : cache) : option Z :=
  if nb_tbs c <=? 0 then None
  else if (addr <? code_gen_buffer) || (code_gen_ptr c <=? addr) then None
  else search (Z.to_nat (nb_tbs c + 1)) 0 (nb_tbs c - 1) addr c.

(** ** Writes to guest memory *)

(** The guest bytes of the block, in the page that its tag [n] stands for. *)
Definition block_range (b : TranslationBlock) (n : Z) : Z * Z :=
  if n =? 0 then
    let tb_start := u32 (page_addr b 0 + page_off (pc b)) in
    (tb_start, u32 (tb_start + size b))
  else
    let tb_start := page_addr b 1 in
    (tb_start, u32 (tb_start + page_off (u32 (pc b + size b)))).

Definition overlaps (start stop : Z) (r : Z * Z) : bool := negb ((r.2 <=? start) || (stop <=? r.1)).

(** The search for the block that is running: whether it is still to be done, and the
    block.  The last part is the block that modifies itself, which the CPU must leave. *)
Definition precise : Type := bool * option Z * option Z.

Definition find_current (tb : Z) (pr : precise) (c : cache) : precise :=
  let '(current_tb_not_found, current, modified) := pr in
  let current :=
    if current_tb_not_found then
      if mem_write_pc c =? 0 then None else tb_find_pc (mem_write_pc c) c
    else current in
  if decide (current = Some tb) then
    if Z.land (cflags (tbs c tb)) CF_SINGLE_INSN =? 0 then (false, current, current) else (false, current, modified)
  else (false, current, modified).

(** [tb_phys_invalidate] around which no block runs. *)
Definition invalidate_block (tb : Z) (c : cache) : option cache :=
  let saved_tb := current_tb c in
  let c := c <| current_tb := None |> in
  c ← tb_phys_invalidate tb NO_PAGE c;
  let c := c <| current_tb := saved_tb |> in
  if negb (interrupt_request c =? 0) && bool_decide (is_Some saved_tb)
  then cpu_interrupt (interrupt_request c) c else Some c.

Fixpoint invalidate_loop (fuel : nat) (tb : option tagged) (start stop : Z) (pr : precise) (c : cache)
  : option (precise * cache) :=
  match fuel with
  | O => None
  | S fuel' =>
    match tb with
    | None => Some (pr, c)
    | Some (t, n) =>
      let tb_next := page_next (tbs c t) n in
      if overlaps start stop (block_range (tbs c t) n) then
        let pr := find_current t pr c in
        c ← invalidate_block t c;
        invalidate_loop fuel' tb_next start stop pr c
      else invalidate_loop fuel' tb_next start stop pr c
    end
  end.

Section Memory.
Context {D : Type}.
Context (phys_ram_base : Z).
Abbreviation phys := (phys (D := D)).

(** [tb_invalidate_phys_page_range(start, end, is_cpu_write_access)].  The result names the
    block that modified itself; the CPU then runs the writing instruction alone in a new
    block and starts again from there, which is left to the caller.  A [cpu_single_env]
    that is NULL is a CPU that runs no block. *)
Definition tb_invalidate_phys_page_range (start stop : Z) (is_cpu_write_access : bool) (c : cache) (s : phys)
  : option (option Z * cache * phys) :=
  let index := Z.shiftr start TARGET_PAGE_BITS in
  match page_find index c with
  | None => Some (None, c, s)
  | Some p =>
    c ← (match code_bitmap p with
         | Some _ => Some c
         | None =>
           let count := u32 (code_write_count p + 1) in
           let c := set_page index (fun p => p <| code_write_count := count |>) c in
           if (SMC_BITMAP_USE_THRESHOLD <=? count) && is_cpu_write_access then build_page_bitmap index p c else Some c
         end);
    '(pr, c) ← invalidate_loop (links c) (first_tb p) start stop (is_cpu_write_access, None, None) c;
    p ← page_find index c;
    Some match first_tb p with
         | Some _ => (pr.2, c, s)
         | None =>
           let c := set_page index invalidate_page_bitmap c in
           (pr.2, c, if is_cpu_write_access then tlb_unprotect_code_phys start s else s)
         end
  end.

Definition tb_invalidate_phys_page_fast (start len : Z) (c : cache) (s : phys) : option (option Z * cache * phys) :=
  match page_find (Z.shiftr start TARGET_PAGE_BITS) c with
  | None => Some (None, c, s)
  | Some p =>
    match code_bitmap p with
    | Some tab =>
      let offset := page_off start in
      let b := Z.shiftr (tab (Z.shiftr offset 3)) (Z.land offset 7) in
      if truth (Z.land b (Z.shiftl 1 len - 1)) then tb_invalidate_phys_page_range start (u32 (start + len)) true c s
      else Some (None, c, s)
    | None => tb_invalidate_phys_page_range start (u32 (start + len)) true c s
    end
  end.

(** ** New blocks *)

Definition tb_alloc_page (tb n page_address : Z) (c : cache) (t : tlb) (s : phys) : cache * tlb * phys :=
  let index := Z.shiftr page_address TARGET_PAGE_BITS in
  let c := set_tb tb (fun b => b <| page_addr := put (page_addr b) n page_address |>) c in
  let c := page_find_alloc index c in
  let last_first_tb := p ← page_find index c; first_tb p in
  let c := set_tb tb (fun b => b <| page_next := put (page_next b) n last_first_tb |>) c in
  let c := set_page index (fun p => invalidate_page_bitmap (p <| first_tb := Some (tb, n) |>)) c in
  match last_first_tb with
  | None => let '(t, s) := tlb_protect_code phys_ram_base page_address t s in (c, t, s)
  | Some _ => (c, t, s)
  end.

(** [None]: NULL, no block is left or no room for code. *)
Definition tb_alloc (pc0 : Z) (c : cache) : option (Z * cache) :=
  if (CODE_GEN_MAX_BLOCKS <=? nb_tbs c) ||
     (CODE_GEN_BUFFER_SIZE - code_gen_max_block_size <=? code_gen_ptr c - code_gen_buffer) then None
  else
    let tb := nb_tbs c in
    let c := c <| nb_tbs := nb_tbs c + 1 |> in
    Some (tb, set_tb tb (fun b => (b <| pc := pc0 |>) <| cflags := 0 |>) c).

Definition tb_link_phys (tb phys_pc phys_page2 : Z) (c : cache) (t : tlb) (s : phys) : cache * tlb * phys :=
  let h := tb_phys_hash_func phys_pc in
  let c := set_tb tb (fun b => b <| phys_hash_next := tb_phys_hash c h |>) c in
  let c := c <| tb_phys_hash := put (tb_phys_hash c) h (Some tb) |> in
  let '(c, t, s) := tb_alloc_page tb 0 (page_base phys_pc) c t s in
  let '(c, t, s) :=
    if negb (phys_page2 =? NO_PAGE) then tb_alloc_page tb 1 phys_page2 c t s
    else (set_tb tb (fun b => b <| page_addr := put (page_addr b) 1 NO_PAGE |>) c, t, s) in
  let c := set_tb tb (fun b => b <| jmp_first := Some (tb, 2) |>) c in
  let c := set_jmp_link (tb, 0) None c in
  let c := set_jmp_link (tb, 1) None c in
  let c := if negb (tb_next_offset (tbs c tb) 0 =? 0xffff) then tb_reset_jump tb 0 c else c in
  let c := if negb (tb_next_offset (tbs c tb) 1 =? 0xffff) then tb_reset_jump tb 1 c else c in
  (c, t, s).

(** What the translator, [cpu_gen_code], makes of a block: the guest bytes it covers, the
    offsets of its jumps, and the bytes of code. *)
Record generated := mkGenerated { g_size : Z; g_offset : Z -> Z; g_code_size : Z }.

(** [tb_gen_code(env, pc, cs_base, flags, cflags)]: a block, for which a flush makes room;
    [phys_pc] and [phys_page2] are the addresses that [get_phys_addr_code] finds for the
    [pc] and for the page after it. *)
Definition tb_gen_code (pc0 cs_base0 flags0 cflags0 phys_pc phys_page2 : Z) (g : generated) (c : cache) (t : tlb) (s : phys)
  : option (Z * cache * tlb * phys) :=
  '(tb, c) ← (match tb_alloc pc0 c with
              | Some r => Some r
              | None => tb_alloc pc0 (tb_flush c)
              end);
  let c := set_tb tb (fun b => b <| tc_ptr := code_gen_ptr c |>) c in
  let c := set_tb tb (fun b => ((b <| cs_base := cs_base0 |>) <| flags := flags0 |>) <| cflags := cflags0 |>) c in
  let c := set_tb tb (fun b => (b <| size := g_size g |>) <| tb_next_offset := g_offset g |>) c in
  let c := c <| code_gen_ptr :=
    Z.land (u32 (code_gen_ptr c + g_code_size g + CODE_GEN_ALIGN - 1)) (Z.lnot (CODE_GEN_ALIGN - 1)) |> in
  let virt_page2 := page_base (u32 (pc0 + g_size g - 1)) in
  let phys_page2 := if negb (page_base pc0 =? virt_page2) then phys_page2 else NO_PAGE in
  let '(c, t, s) := tb_link_phys tb phys_pc phys_page2 c t s in
  Some (tb, c, t, s).

(** ** Finding the block to run *)

(** The loop of [tb_find_slow] over the blocks of a hash. *)
Fixpoint find_block (fuel : nat) (ptb1 : option Z) (pc0 cs_base0 flags0 phys_pc phys_page2 : Z) (c : cache)
  : option (option Z) :=
  match fuel with
  | O => None
  | S fuel' =>
    match hash_link (tb_phys_hash_func phys_pc) c ptb1 with
    | None => Some None
    | Some tb =>
      let b := tbs c tb in
      if (pc b =? pc0) && (page_addr b 0 =? page_base phys_pc) && (cs_base b =? cs_base0) && (flags b =? flags0)
         && ((page_addr b 1 =? NO_PAGE) || (page_addr b 1 =? phys_page2))
      then Some (Some tb)
      else find_block fuel' (Some tb) pc0 cs_base0 flags0 phys_pc phys_page2 c
    end
  end.

Definition tb_find_slow (pc0 cs_base0 flags0 phys_pc phys_page2 : Z) (g : generated) (c : cache) (t : tlb) (s : phys)
  : option (Z * cache * tlb * phys) :=
  let c := c <| tb_invalidated_flag := 0 |> in
  found ← find_block (links c) None pc0 cs_base0 flags0 phys_pc phys_page2 c;
  '(tb, c, t, s) ←
    (match found with
     | Some tb => Some (tb, c, t, s)
     | None =>
       let c := match tb_alloc pc0 c with Some _ => c | None => c <| tb_invalidated_flag := 1 |> end in
       tb_gen_code pc0 cs_base0 flags0 0 phys_pc phys_page2 g c t s
     end);
  Some (tb, c <| tb_jmp_cache := put (tb_jmp_cache c) (tb_jmp_cache_hash_func pc0) (Some tb) |>, t, s).

(** [tb_find_fast()] for the state of the CPU that [pc], [cs_base] and [flags] are taken
    from; also whether the block that ran before may jump here directly. *)
Definition tb_find_fast (pc0 cs_base0 flags0 phys_pc phys_page2 : Z) (g : generated) (c : cache) (t : tlb) (s : phys)
  : option (Z * bool * cache * tlb * phys) :=
  let slow :=
    '(tb, c, t, s) ← tb_find_slow pc0 cs_base0 flags0 phys_pc phys_page2 g c t s;
    Some (tb, tb_invalidated_flag c =? 0, c, t, s) in
  match tb_jmp_cache c (tb_jmp_cache_hash_func pc0) with
  | None => slow
  | Some tb =>
    let b := tbs c tb in
    if negb (pc b =? pc0) || negb (cs_base b =? cs_base0) || negb (flags b =? flags0) then slow
    else Some (tb, true, c, t, s)
  end.

(** A turn of the loop of [cpu_exec], from the block that has returned to the next one:
    [T0] is the block that was left and the jump it was left by, and NULL when the CPU does
    not come straight from a block.  The call of MemCheck between the two, which does not
    concern the tables, is [Interceptor]. *)
Definition cpu_exec_block (T0 : option tagged) (pc0 cs_base0 flags0 phys_pc phys_page2 : Z) (g : generated)
  (c : cache) (t : tlb) (s : phys) : option (Z * cache * tlb * phys) :=
  let c := c <| current_tb := None |> in
  '(tb, kept, c, t, s) ← tb_find_fast pc0 cs_base0 flags0 phys_pc phys_page2 g c t s;
  let T0 := if (kept : bool) then T0 else None in
  let c := match T0 with
           | Some (t0, n) => if page_addr (tbs c tb) 1 =? NO_PAGE then tb_add_jump t0 n tb c else c
           | None => c
           end in
  Some (tb, c <| current_tb := Some tb |>, t, s).
End Memory.
End Blocks.

End CodeBlocks.
