(* ===== verification/CodeTables.v ===== *)
(** * The tables of translated code are consistent

    The invariant of the tables of [CodeBlocks]: every list links exactly the blocks that
    belong to it, every bitmap has the bits of the bytes its blocks are made of, and every
    direct jump goes to a block that is still there.  A write invalidates exactly the
    blocks it overlaps, and new blocks keep the invariant. *)

From S2P Require Import Prelude Bytes PhysMem Mmu Tlb CodeBlocks.
Import PhysMem Tlb CodeBlocks.

Module CodeTables.

(** ** Linked lists

    [seg p stop l]: following the pointers from [p] gives the nodes of [l] and then the
    pointer [stop]. *)
Section Seg.
Context {S A : Type} (place : A -> S).

Fixpoint seg (deref : S -> option A) (p stop : option A) (l : list A) : Prop :=
  match l with
  | [] => p = stop
  | a :: l' => p = Some a /\ seg deref (deref (place a)) stop l'
  end.

Lemma seg_app deref p stop l1 l2 :
  seg deref p stop (l1 ++ l2) <-> exists q, seg deref p q l1 /\ seg deref q stop l2.
Proof using.
  revert p. induction l1 as [|a l1 IH]; intros p; cbn.
  - split; [eauto|]. by intros (q & -> & H).
  - rewrite IH. split; [intros (H & q & H1 & H2); eauto|intros (q & [H1 H2] & H3); eauto].
Qed.

Lemma seg_ext deref deref' p stop l : (forall a, a ∈ l -> deref' (place a) = deref (place a)) ->
  seg deref p stop l -> seg deref' p stop l.
Proof using.
  revert p. induction l as [|a l IH]; intros p He; cbn; [done|]. intros [-> H]. split; [done|].
  rewrite He by left. apply IH; [|done]. intros b Hb. apply He. by right.
Qed.

(** The place of the pointer after the nodes of [l], when the walk starts at [s]. *)
Definition last_place (s : S) (l : list A) : S := from_option place s (last l).

Lemma last_place_cons s a l : last_place s (a :: l) = last_place (place a) l.
Proof using. unfold last_place. rewrite last_cons. by destruct (last l). Qed.

Lemma last_place_in s l : last_place s l = s \/ exists a, a ∈ l /\ last_place s l = place a.
Proof using.
  revert s. induction l as [|a l IH]; intros s; [by left|]. rewrite last_place_cons. right.
  destruct (IH (place a)) as [->|(b & Hb & ->)]; [exists a|exists b]; (split; [set_solver|done]).
Qed.

Lemma seg_end deref s stop l : seg deref (deref s) stop l -> deref (last_place s l) = stop.
Proof using.
  revert s. induction l as [|a l IH]; intros s; cbn [seg]; [done|]. intros [_ H]. rewrite last_place_cons. by apply IH.
Qed.

Lemma find_link_seg deref hit fuel : forall s a l, seg deref (deref s) (Some a) l -> hit a = true ->
  Forall (fun b => hit b = false) l -> (length l < fuel)%nat ->
  find_link fuel place deref hit s = Some (last_place s l).
Proof using.
  induction fuel as [|fuel IH]; intros s a l Hs Ha Hl Hf; [lia|]. destruct l as [|b l]; cbn [seg find_link] in *.
  - rewrite Hs. cbn. by rewrite Ha.
  - destruct Hs as [-> Hs]. inversion_clear Hl as [|? ? Hb Hl']. cbn. rewrite Hb, last_place_cons.
    apply IH with a; [done|done|done|cbn in Hf; lia].
Qed.

(** Writing over the pointer to [a] the one that follows it takes [a] out. *)
Lemma seg_unlink deref deref' a l2 stop : forall l1 s, seg deref (deref s) stop (l1 ++ a :: l2) ->
  (forall q, q ∈ s :: (place <$> l1 ++ l2) -> q <> last_place s l1 -> deref' q = deref q) ->
  deref' (last_place s l1) = deref (place a) -> NoDup (s :: (place <$> l1 ++ l2)) ->
  seg deref' (deref' s) stop (l1 ++ l2).
Proof using.
  induction l1 as [|b l1 IH]; intros s Hs He Hn Hd; cbn [app fmap list_fmap] in *.
  - destruct Hs as [_ Hs]. change (last_place s []) with s in *. rewrite Hn.
    apply seg_ext with deref; [|done]. intros x Hx. apply He; [right; by apply list_elem_of_fmap_2|].
    intros E. apply NoDup_cons_1_1 in Hd. apply Hd. rewrite <- E. by apply list_elem_of_fmap_2.
  - rewrite last_place_cons in *. destruct Hs as [Hb Hs]. cbn [seg]. rewrite NoDup_cons in Hd. destruct Hd as [Hd1 Hd2].
    split.
    + rewrite He; [done|by left|]. intros ->. apply Hd1. destruct (last_place_in (place b) l1) as [->|(x & Hx & ->)];
        [by left|right; apply list_elem_of_fmap_2; set_solver].
    + apply IH; [done| |done|done]. intros q Hq. apply He. by right.
Qed.

(** The list that a pointer leads to is determined by its end, if the end is not in it. *)
Lemma seg_det deref stop l : forall p l', (forall a, stop = Some a -> a ∉ l /\ a ∉ l') ->
  seg deref p stop l -> seg deref p stop l' -> l = l'.
Proof using.
  induction l as [|a l IH]; intros p [|b l'] Hn; cbn; [done| | |].
  - intros -> [He _]. destruct (Hn b He) as [_ H]. set_solver.
  - intros [-> _] He. destruct (Hn a (eq_sym He)) as [H _]. set_solver.
  - intros [-> H1] [[= <-] H2]. f_equal. apply (IH (deref (place a))); [|done|done].
    intros x Hx. destruct (Hn x Hx). set_solver.
Qed.
End Seg.

(** ** What stays the same

    The tables are independent parts of the state; an operation on one leaves the others. *)

Definition same_block (b b' : TranslationBlock) : Prop :=
  pc b' = pc b /\ cs_base b' = cs_base b /\ flags b' = flags b /\ size b' = size b /\ cflags b' = cflags b /\
  tc_ptr b' = tc_ptr b /\ page_addr b' = page_addr b /\ tb_next_offset b' = tb_next_offset b.

(** The pages that are allocated stay so. *)
Definition keeps_pages (c c' : cache) : Prop := forall i, is_Some (page_find i c) -> is_Some (page_find i c').

Definition same_code (c c' : cache) : Prop :=
  nb_tbs c' = nb_tbs c /\ code_gen_ptr c' = code_gen_ptr c /\ keeps_pages c c' /\
  forall t, same_block (tbs c t) (tbs c' t).

Definition same_hash (c c' : cache) : Prop :=
  tb_phys_hash c' = tb_phys_hash c /\ forall t, phys_hash_next (tbs c' t) = phys_hash_next (tbs c t).

Definition same_pages (c c' : cache) : Prop :=
  l1_map c' = l1_map c /\ forall t, page_next (tbs c' t) = page_next (tbs c t).

Definition same_jumps (c c' : cache) : Prop := forall t,
  jmp_next (tbs c' t) = jmp_next (tbs c t) /\ jmp_first (tbs c' t) = jmp_first (tbs c t) /\
  tb_next (tbs c' t) = tb_next (tbs c t).

Definition same_found (c c' : cache) : Prop := tb_jmp_cache c' = tb_jmp_cache c.

#[global] Instance same_block_preorder : PreOrder same_block.
Proof. split; [by repeat split|]. intros b1 b2 b3 H1 H2. unfold same_block in *. intuition congruence. Qed.
#[global] Instance same_code_preorder : PreOrder same_code.
Proof.
  split; [intros c; split; [done|]; split; [done|]; split; [by intros i|by intros t]|]. intros c1 c2 c3 (A1 & A2 & A3 & A4) (B1 & B2 & B3 & B4).
  split; [congruence|]. split; [congruence|]. split; [by intros i Hi; apply B3, A3|].
  intros t. by etransitivity; [apply A4|apply B4].
Qed.
#[global] Instance same_hash_preorder : PreOrder same_hash.
Proof. split; [by split|]. intros c1 c2 c3 [A1 A2] [B1 B2]. split; [congruence|]. intros t. by rewrite B2. Qed.
#[global] Instance same_pages_preorder : PreOrder same_pages.
Proof. split; [by split|]. intros c1 c2 c3 [A1 A2] [B1 B2]. split; [congruence|]. intros t. by rewrite B2. Qed.
#[global] Instance same_jumps_preorder : PreOrder same_jumps.
Proof.
  split; [by repeat split|]. intros c1 c2 c3 A B t. destruct (A t) as (? & ? & ?), (B t) as (? & ? & ?).
  split; [congruence|]. split; congruence.
Qed.
#[global] Instance same_found_preorder : PreOrder same_found.
Proof. split; [done|]. intros c1 c2 c3 H1 H2. unfold same_found in *. congruence. Qed.

(** Assignments to one field of one block leave the rest. *)
Ltac same := repeat split; intros; try (intros ? ?; assumption); try assumption; unfold set_tb, put; cbn;
  try (match goal with |- context [?a =? ?b] => destruct (Z.eqb_spec a b); subst end); try done.

Lemma tbs_set_tb t f c u : tbs (set_tb t f c) u = if u =? t then f (tbs c t) else tbs c u.
Proof. done. Qed.

(** ** Blocks *)

Definition page_ok (a : Z) : Prop := 0 <= a < 2 ^ 32 - 8192 /\ page_off a = 0.

(** What the translator and [tb_link_phys] make of a block.  A block that continues on
    another page does so on another physical page. *)
Definition block_ok (b : TranslationBlock) : Prop :=
  is_u32 (pc b) /\ 1 <= size b <= 4096 /\ page_ok (page_addr b 0) /\
  (if page_off (pc b) + size b <=? 4096 then page_addr b 1 = NO_PAGE
   else page_ok (page_addr b 1) /\ page_addr b 1 <> page_addr b 0).

Lemma block_ok_same b b' : same_block b b' -> block_ok b -> block_ok b'.
Proof. intros (E1 & _ & _ & E2 & _ & _ & E3 & _) H. unfold block_ok in *. by rewrite E1, E2, E3. Qed.

(** The live blocks [L] are allocated. *)
Definition blocks_ok (c : cache) (L : gset Z) : Prop :=
  0 <= nb_tbs c /\ forall t, t ∈ L -> t < nb_tbs c /\ 0 <= t /\ block_ok (tbs c t).

Lemma blocks_ok_same c c' L L' : same_code c c' -> L' ⊆ L -> blocks_ok c L -> blocks_ok c' L'.
Proof.
  intros (E & _ & _ & Hb) Hs [H0 H]. split; [lia|]. intros t Ht. destruct (H t) as (H1 & H2 & H3); [by apply Hs|].
  rewrite E. split; [done|]. split; [done|]. apply (block_ok_same (tbs c t)); [apply Hb|done].
Qed.

(** A list of live blocks with tags is short. *)
Lemma live_length c L (l : list Z) : blocks_ok c L -> NoDup l -> (forall t, t ∈ l -> t ∈ L) ->
  (length l < links c)%nat.
Proof.
  intros [H0 Hb] Hd Hl. assert (Hs : l ⊆+ (Z.of_nat <$> seq 0 (Z.to_nat (nb_tbs c)))).
  { apply NoDup_submseteq; [done|]. intros t Ht. destruct (Hb t (Hl t Ht)) as (Hr & Hr' & _).
    apply list_elem_of_fmap. exists (Z.to_nat t). split; [lia|]. apply elem_of_seq. lia. }
  apply submseteq_length in Hs. rewrite length_fmap, length_seq in Hs. unfold links. lia.
Qed.

Lemma live_length_tagged c L (l : list tagged) : blocks_ok c L -> NoDup l ->
  (forall x, x ∈ l -> x.1 ∈ L /\ (x.2 = 0 \/ x.2 = 1)) -> (S (length l) < links c)%nat.
Proof.
  intros [H0 Hb] Hd Hl.
  set (all := Z.of_nat <$> seq 0 (Z.to_nat (nb_tbs c))).
  assert (Hs : l ⊆+ ((fun t => (t, 0)) <$> all) ++ ((fun t => (t, 1)) <$> all)).
  { apply NoDup_submseteq; [done|]. intros [t n] Ht. destruct (Hl _ Ht) as [Hr Hn]. cbn in *.
    destruct (Hb t Hr) as (Hr' & Hr'' & _).
    assert (Ha : t ∈ all) by (apply list_elem_of_fmap; exists (Z.to_nat t); split; [lia|apply elem_of_seq; lia]).
    apply elem_of_app. destruct Hn as [-> | ->]; [left|right]; apply list_elem_of_fmap; eauto. }
  apply submseteq_length in Hs. rewrite length_app, !length_fmap in Hs. unfold all in Hs.
  rewrite length_fmap, length_seq in Hs. unfold links. lia.
Qed.

(** What an operation on one table leaves alone: everything but the lists of hashes, of
    pages, or of jumps. *)
Definition same_but_hash c c' := same_code c c' /\ same_pages c c' /\ same_jumps c c' /\ same_found c c'.
Definition same_but_pages c c' := same_code c c' /\ same_hash c c' /\ same_jumps c c' /\ same_found c c'.
Definition same_but_jumps c c' := same_code c c' /\ same_hash c c' /\ same_pages c c' /\ same_found c c'.

(** ** The lists of hashes *)

Definition phys_hash (b : TranslationBlock) : Z := tb_phys_hash_func (u32 (page_addr b 0 + page_off (pc b))).

Lemma phys_hash_same b b' : same_block b b' -> phys_hash b' = phys_hash b.
Proof. intros (E1 & _ & _ & _ & _ & _ & E2 & _). unfold phys_hash. by rewrite E1, E2. Qed.

Definition hash_ok (c : cache) (L : gset Z) : Prop := forall h, exists l,
  seg Some (hash_link h c) (tb_phys_hash c h) None l /\ NoDup l /\
  forall t, t ∈ l <-> t ∈ L /\ phys_hash (tbs c t) = h.

Lemma hash_ok_same c c' L : same_code c c' -> same_hash c c' -> hash_ok c L -> hash_ok c' L.
Proof.
  intros (_ & _ & _ & Hb) [E1 E2] H h. destruct (H h) as (l & Hs & Hd & Hm). exists l. rewrite E1. split; [|split; [done|]].
  - apply seg_ext with (hash_link h c); [|done]. intros a _. cbn. apply E2.
  - intros t. by rewrite Hm, (phys_hash_same _ _ (Hb t)).
Qed.

Lemma nodup_places {A} (l : list A) : NoDup l -> NoDup (None :: (Some <$> l)).
Proof.
  intros H. constructor; [|by apply (NoDup_fmap_2 Some)]. intros Hin. apply list_elem_of_fmap in Hin as (x & [=] & _).
Qed.

(** Splitting a list without repetitions around a member. *)
Lemma split_list {A} (l : list A) a : NoDup l -> a ∈ l ->
  exists l1 l2, l = l1 ++ a :: l2 /\ NoDup (l1 ++ l2) /\ forall b, b ∈ l1 ++ l2 <-> b ∈ l /\ b <> a.
Proof.
  intros Hd Ha. apply list_elem_of_split in Ha as (l1 & l2 & ->). exists l1, l2. split; [done|].
  rewrite NoDup_app in Hd |- *. destruct Hd as (H1 & H2 & H3). inversion_clear H3 as [|? ? H4 H5].
  split; [split; [done|]; split; [|done]; intros x Hx Hy; apply (H2 x Hx); set_solver|].
  assert (Hn : a ∉ l1) by (intros Hx; apply (H2 a Hx); left).
  intros b. rewrite !elem_of_app, elem_of_cons. split; [|tauto]. intros Hb. split; [tauto|]. intros ->. tauto.
Qed.

Lemma tb_remove_ok t c L : blocks_ok c L -> hash_ok c L -> t ∈ L ->
  exists c', tb_remove (phys_hash (tbs c t)) t c = Some c' /\ hash_ok c' (L ∖ {[t]}) /\ same_but_hash c c'.
Proof.
  intros Hb H Ht. set (h := phys_hash (tbs c t)). destruct (H h) as (l & Hs & Hd & Hm).
  assert (Hl := live_length c L l Hb Hd (fun u Hu => proj1 (proj1 (Hm u) Hu))).
  destruct (split_list l t Hd) as (l1 & l2 & -> & Hd' & Hin); [by apply Hm|]. unfold tb_remove.
  assert (Hseg := Hs). rewrite seg_app in Hseg. destruct Hseg as (q & Hs1 & Hq). cbn [seg] in Hq. destruct Hq as [-> _].
  erewrite (find_link_seg Some); [|exact Hs1|apply Z.eqb_refl| |rewrite length_app in Hl; lia]; cbn [mbind option_bind].
  2:{ apply Forall_forall. intros u Hu. apply Z.eqb_neq. intros <-. destruct (Hin t) as [Hx _].
      destruct Hx as [_ Hx]; [set_solver|done]. }
  set (v := phys_hash_next (tbs c t)). set (p := last_place Some None l1).
  eexists. split; [reflexivity|]. set (c' := match p with None => _ | Some u => _ end).
  assert (Hsame : same_but_hash c c').
  { unfold c', same_but_hash. destruct p as [u|]; unfold same_code, same_pages, same_jumps, same_found; same. }
  split; [|done]. destruct Hsame as ((_ & _ & _ & Hbk) & _).
  assert (Hlink : forall h' q, hash_link h' c' q = if decide (q = p /\ (q = None -> h' = h)) then v else hash_link h' c q).
  { intros h' q. unfold c'. destruct p as [u|] eqn:Ep, q as [w|]; unfold set_tb, put; cbn.
    - destruct (Z.eqb_spec w u) as [->|]; case_decide; naive_solver.
    - case_decide; naive_solver.
    - case_decide; naive_solver.
    - destruct (Z.eqb_spec h' h) as [->|]; case_decide; naive_solver. }
  intros h'. destruct (decide (h' = h)) as [->|Hn].
  - exists (l1 ++ l2). split; [|split; [done|]].
    + apply (seg_unlink Some (hash_link h c) (hash_link h c') t l2 None l1 None); [done| | |by apply nodup_places].
      * intros q _ Hq. rewrite Hlink. case_decide; [|done]. fold p in Hq. naive_solver.
      * rewrite Hlink. fold p. by rewrite decide_True.
    + intros u. rewrite Hin, Hm, (phys_hash_same _ _ (Hbk u)). set_solver.
  - destruct (H h') as (l' & Hs' & Hd2 & Hm'). exists l'. split; [|split; [done|]].
    + assert (Eh : hash_link h' c' None = hash_link h' c None) by (rewrite Hlink; case_decide; naive_solver).
      change (tb_phys_hash c' h') with (hash_link h' c' None). rewrite Eh.
      apply seg_ext with (hash_link h' c); [|done]. intros u Hu. rewrite Hlink. case_decide as Hc; [|done].
      exfalso. destruct Hc as [Hc _]. destruct (last_place_in Some None l1) as [E|(w & Hw & E)]; fold p in E; [congruence|].
      assert (u = w) as -> by congruence. apply Hm' in Hu as [_ Hu]. destruct (Hin w) as [Hx _].
      destruct Hx as [Hx _]; [set_solver|]. apply Hm in Hx as [_ Hx]. congruence.
    + intros u. rewrite Hm', (phys_hash_same _ _ (Hbk u)). split; [|set_solver]. intros [Hu Hh]. split; [|done].
      apply elem_of_difference. split; [done|]. rewrite elem_of_singleton. intros ->. apply Hn. by rewrite <- Hh.
Qed.

(** ** The lists of pages *)

Definition head (i : Z) (c : cache) : option tagged := p ← page_find i c; first_tb p.

Definition plink (i : Z) (c : cache) (ptb : option tagged) : option tagged :=
  match ptb with None => head i c | Some x => page_next (tbs c x.1) x.2 end.

Definition page_list (c : cache) (i : Z) (l : list tagged) : Prop := seg Some (plink i c) (head i c) None l.

Lemma page_list_det c i l l' : page_list c i l -> page_list c i l' -> l = l'.
Proof. apply seg_det. done. Qed.

Lemma index_inj i j : Z.shiftr i L2_BITS = Z.shiftr j L2_BITS -> Z.land i (L2_SIZE - 1) = Z.land j (L2_SIZE - 1) -> i = j.
Proof.
  unfold L2_BITS, L2_SIZE. change (1024 - 1) with (Z.ones 10). rewrite !Z.land_ones, !Z.shiftr_div_pow2 by lia.
  intros H1 H2. rewrite (Z.div_mod i (2 ^ 10)), (Z.div_mod j (2 ^ 10)) by lia. congruence.
Qed.

Lemma page_find_set j i f c : page_find j (set_page i f c) = if decide (j = i) then f <$> page_find i c else page_find j c.
Proof.
  unfold page_find, set_page. destruct (l1_map c (Z.shiftr i L2_BITS)) as [p|] eqn:E.
  - cbn. unfold put. destruct (Z.eqb_spec (Z.shiftr j L2_BITS) (Z.shiftr i L2_BITS)) as [E1|E1]; cbn.
    + destruct (Z.eqb_spec (Z.land j (L2_SIZE - 1)) (Z.land i (L2_SIZE - 1))) as [E2|E2]; case_decide as Hd; subst; try done.
      * by apply index_inj in E1.
      * rewrite E1, E. done.
    + case_decide as Hd; [congruence|done].
  - case_decide as Hd; [|done]. by subst; rewrite E.
Qed.

Lemma page_find_same c c' i : same_pages c c' -> page_find i c' = page_find i c.
Proof. intros [E _]. unfold page_find. by rewrite E. Qed.

Lemma plink_same c c' i q : same_pages c c' -> plink i c' q = plink i c q.
Proof. intros H. destruct q as [x|]; cbn; [destruct H as [_ E]; by rewrite E|]. unfold head. by rewrite (page_find_same c). Qed.

(** The bits of the bytes of the blocks of the list. *)
Definition bitmap_ok (c : cache) (l : list tagged) (tab : Z -> Z) : Prop := forall k, 0 <= k < TARGET_PAGE_SIZE ->
  Z.testbit (tab (Z.shiftr k 3)) (Z.land k 7) = true <->
  exists x, x ∈ l /\ (page_range (tbs c x.1) x.2).1 <= k < (page_range (tbs c x.1) x.2).2.

Lemma bitmap_ok_same c c' l tab : same_code c c' -> bitmap_ok c l tab -> bitmap_ok c' l tab.
Proof.
  intros (_ & _ & _ & Hb) H k Hk. rewrite (H k Hk).
  assert (E : forall x, page_range (tbs c' x.1) x.2 = page_range (tbs c x.1) x.2).
  { intros x. destruct (Hb x.1) as (E1 & _ & _ & E2 & _). unfold page_range. by rewrite E1, E2. }
  split; intros (x & Hx & Hr); exists x; [by rewrite E|by rewrite <- E].
Qed.

(** The list of page [i] is made of the members of [Mem i], and the bitmap is theirs. *)
Definition pages_in (c : cache) (Mem : Z -> tagged -> Prop) : Prop := forall i, exists l,
  page_list c i l /\ NoDup l /\ (forall x, x ∈ l <-> Mem i x) /\
  forall p tab, page_find i c = Some p -> code_bitmap p = Some tab -> bitmap_ok c l tab.

Lemma pages_in_same c c' Mem Mem' : same_code c c' -> same_pages c c' -> (forall i x, Mem' i x <-> Mem i x) ->
  pages_in c Mem -> pages_in c' Mem'.
Proof.
  intros Hc Hp Hm H i. destruct (H i) as (l & Hs & Hd & Hl & Hb). exists l. split; [|split; [done|split]].
  - unfold page_list. change (head i c') with (plink i c' None). rewrite (plink_same c) by done.
    apply seg_ext with (plink i c); [|done]. intros x _. by apply plink_same.
  - intros x. by rewrite Hl, Hm.
  - intros p tab Hf Ht. rewrite (page_find_same c) in Hf by done. apply (bitmap_ok_same c); [done|]. by eapply Hb.
Qed.

(** The page a block is in, by the tag of its list. *)
Definition on_page (b : TranslationBlock) (n i : Z) : Prop :=
  (n = 0 \/ n = 1) /\ page_addr b n <> NO_PAGE /\ Z.shiftr (page_addr b n) TARGET_PAGE_BITS = i.

Definition member (c : cache) (L : gset Z) (i : Z) (x : tagged) : Prop := x.1 ∈ L /\ on_page (tbs c x.1) x.2 i.

Lemma on_page_same b b' n i : same_block b b' -> on_page b' n i <-> on_page b n i.
Proof. intros (_ & _ & _ & _ & _ & _ & E & _). unfold on_page. by rewrite E. Qed.

Definition pages_ok (c : cache) (L : gset Z) : Prop := pages_in c (member c L).

Lemma pages_ok_same c c' L : same_code c c' -> same_pages c c' -> pages_ok c L -> pages_ok c' L.
Proof.
  intros Hc Hp. apply pages_in_same; [done|done|]. intros i x. unfold member.
  rewrite (on_page_same (tbs c x.1)); [done|apply Hc].
Qed.

Lemma set_page_same i f c : same_but_pages c (set_page i f c).
Proof.
  assert (Hk : keeps_pages c (set_page i f c)).
  { intros j Hj. rewrite page_find_set. case_decide as Hd; [subst j; by apply fmap_is_Some|done]. }
  unfold same_but_pages, same_code. split; [split; [|split; [|split; [exact Hk|]]]|];
    unfold set_page; destruct (l1_map c _); unfold same_hash, same_jumps, same_found; same.
Qed.

Lemma set_next_same u m v c : same_but_pages c (set_tb u (fun b => b <| page_next := put (page_next b) m v |>) c).
Proof. unfold same_but_pages, same_code, same_hash, same_jumps, same_found; same. Qed.

#[global] Instance same_but_pages_trans : Transitive same_but_pages.
Proof.
  intros c1 c2 c3 (A1 & A2 & A3 & A4) (B1 & B2 & B3 & B4).
  split; [by etransitivity|]. split; [by etransitivity|]. split; by etransitivity.
Qed.

Lemma head_set_page j i f c : (forall p, first_tb (f p) = first_tb p) -> head j (set_page i f c) = head j c.
Proof.
  intros Hf. unfold head. rewrite page_find_set. case_decide as Hd; [subst|done].
  destruct (page_find i c) as [p|]; cbn; [by rewrite Hf|done].
Qed.

(** The store of [tb_page_remove]. *)
Definition store_next (i : Z) (ptb v : option tagged) (c : cache) : cache :=
  match ptb with
  | None => set_page i (fun p => p <| first_tb := v |>) c
  | Some (t, n) => set_tb t (fun b => b <| page_next := put (page_next b) n v |>) c
  end.

Lemma store_same i ptb v c : same_but_pages c (store_next i ptb v c).
Proof. destruct ptb as [[t n]|]; [apply set_next_same|apply set_page_same]. Qed.

Lemma plink_store i ptb v c j q : is_Some (page_find i c) ->
  plink j (set_page i invalidate_page_bitmap (store_next i ptb v c)) q
    = if decide (q = ptb /\ (q = None -> j = i)) then v else plink j c q.
Proof.
  intros [p Hp]. assert (Hset : forall c', plink j (set_page i invalidate_page_bitmap c') q = plink j c' q).
  { intros c'. destruct q as [x|]; [|by apply head_set_page]. unfold plink, set_page. by destruct (l1_map c' _). }
  rewrite Hset. destruct ptb as [[t n]|], q as [[u m]|]; cbn [store_next plink fst snd].
  - rewrite tbs_set_tb. destruct (Z.eqb_spec u t) as [->|]; [|case_decide; naive_solver]. cbn. unfold put.
    destruct (Z.eqb_spec m n) as [->|]; case_decide; naive_solver.
  - case_decide; [naive_solver|done].
  - case_decide; [naive_solver|]. unfold set_page. by destruct (l1_map c _).
  - unfold head. rewrite page_find_set. destruct (decide (j = i)) as [->|]; case_decide; try naive_solver.
    by rewrite Hp.
Qed.

Lemma page_find_store i ptb v c j : j <> i ->
  page_find j (set_page i invalidate_page_bitmap (store_next i ptb v c)) = page_find j c.
Proof.
  intros Hj. rewrite page_find_set, decide_False by done. destruct ptb as [[t n]|]; [done|].
  cbn [store_next]. by rewrite page_find_set, decide_False.
Qed.

Lemma filter_keep {A} (P : A -> Prop) `{!forall x, Decision (P x)} (l : list A) : Forall P l -> filter P l = l.
Proof. induction 1 as [|x l Hx _ IH]; [done|]. rewrite filter_cons, decide_True by done. by rewrite IH. Qed.

(** Writing the pointer that the walk of the list of page [i] found. *)
Lemma leave_page_ok addr t n c L (Mem : Z -> tagged -> Prop) (i := Z.shiftr addr TARGET_PAGE_BITS) :
  blocks_ok c L -> pages_in c Mem -> (forall j x, Mem j x -> member c L j x) ->
  Mem i (t, n) -> (forall m, Mem i (t, m) -> m = n) ->
  exists c', leave_page addr t c = Some c' /\ same_but_pages c c' /\
    pages_in c' (fun j x => Mem j x /\ (j = i -> x.1 <> t)) /\
    forall j l, page_list c j l -> page_list c' j (if decide (j = i) then filter (fun x => x.1 <> t) l else l).
Proof.
  intros Hb H Hmem Ht Hu. destruct (H i) as (l & Hs & Hd & Hm & _). unfold page_list in Hs.
  assert (Hl : (S (length l) < links c)%nat).
  { apply (live_length_tagged c L); [done|done|]. intros x Hx. apply Hm, Hmem in Hx. split; [apply Hx|apply Hx]. }
  destruct (split_list l (t, n) Hd) as (l1 & l2 & -> & Hd' & Hin); [by apply Hm|].
  assert (Hseg := Hs). rewrite seg_app in Hseg. destruct Hseg as (q & Hs1 & Hq). cbn [seg] in Hq. destruct Hq as [-> _].
  assert (Hother : forall x, x ∈ l1 ++ l2 -> x.1 <> t).
  { intros [u m] Hx. apply Hin in Hx as [Hx Hne]. apply Hm in Hx. cbn. intros ->. apply Hne. by rewrite (Hu m). }
  destruct (page_find i c) as [p|] eqn:Ep.
  2:{ unfold head in Hs. rewrite Ep in Hs. destruct l1; cbn in Hs; naive_solver. }
  assert (Elink : forall x, page_link p c x = plink i c x).
  { intros [[u m]|]; [done|]. cbn. unfold head. by rewrite Ep. }
  unfold leave_page. fold i. rewrite Ep. cbn [mbind option_bind]. unfold tb_page_remove.
  erewrite (find_link_seg Some _ _ _ None (t, n) l1); [| |cbn; apply Z.eqb_refl| |rewrite length_app in Hl; lia].
  2:{ rewrite Elink. apply seg_ext with (plink i c); [|exact Hs1]. intros x _. apply Elink. }
  2:{ apply Forall_forall. intros x Hx. apply Z.eqb_neq, Hother. set_solver. }
  cbn [mbind option_bind]. set (pl := last_place Some None l1). rewrite Elink.
  assert (Epl : plink i c pl = Some (t, n)) by (by apply seg_end).
  rewrite Epl. cbn [mbind option_bind]. set (v := page_next (tbs c t) n).
  eexists. split; [reflexivity|]. fold (store_next i pl v c). set (c' := set_page i invalidate_page_bitmap _).
  assert (Hsame : same_but_pages c c') by (etransitivity; [apply store_same|apply set_page_same]).
  assert (Hlink : forall j q, plink j c' q = if decide (q = pl /\ (q = None -> j = i)) then v else plink j c q)
    by (intros; by apply plink_store).
  assert (Hi : page_list c' i (l1 ++ l2)).
  { unfold page_list. change (head i c') with (plink i c' None).
    apply (seg_unlink Some (plink i c) (plink i c') (t, n) l2 None l1 None); [done| | |by apply nodup_places].
    - intros q' _ Hq. rewrite Hlink. case_decide; [|done]. fold pl in Hq. naive_solver.
    - rewrite Hlink. fold pl. by rewrite decide_True. }
  assert (Hj : forall j l', j <> i -> page_list c j l' -> page_list c' j l').
  { intros j l' Hji Hl'. unfold page_list. change (head j c') with (plink j c' None). rewrite Hlink.
    rewrite decide_False by naive_solver. apply seg_ext with (plink j c); [|done]. intros x Hx. rewrite Hlink.
    case_decide as Hc; [|done]. exfalso. destruct Hc as [Hc _].
    destruct (last_place_in Some None l1) as [E|(w & Hw & E)]; fold pl in E; [congruence|].
    assert (x = w) as -> by congruence. destruct (H j) as (lj & Hsj & _ & Hmj & _).
    rewrite (page_list_det _ _ _ _ Hl' Hsj) in Hx. apply Hmj, Hmem in Hx. destruct Hx as (_ & _ & _ & Hx).
    assert (Hw' : Mem i w) by (apply Hm; set_solver). apply Hmem in Hw' as (_ & _ & _ & Hw'). congruence. }
  split; [exact Hsame|]. split.
  - intros j. destruct (decide (j = i)) as [->|Hji].
    + exists (l1 ++ l2). split; [done|]. split; [done|]. split.
      * intros x. rewrite Hin, Hm. split; [|intros [Hx Hn]; split; [done|]; intros ->; by apply Hn].
        intros [Hx Hne]. split; [done|]. intros _. apply Hother. apply Hin. split; [by apply Hm|done].
      * intros p' tab Hp' Htab. unfold c' in Hp'. rewrite page_find_set, decide_True in Hp' by done.
        apply fmap_Some in Hp' as (p2 & _ & ->). done.
    + destruct (H j) as (l' & Hs' & Hd2 & Hm' & Hbm). exists l'. split; [by apply Hj|]. split; [done|]. split.
      * intros x. rewrite Hm'. naive_solver.
      * intros p' tab Hp' Htab. unfold c' in Hp'. rewrite page_find_store in Hp' by done.
        apply (bitmap_ok_same c); [apply Hsame|by eapply Hbm].
  - intros j l Hl'. case_decide as Hji; [subst j|by apply Hj].
    rewrite (page_list_det _ _ _ _ Hl' Hs), filter_app, filter_cons, decide_False by (cbn; naive_solver).
    rewrite <- filter_app, filter_keep; [done|]. by apply Forall_forall.
Qed.

(** ** The lists of jumps *)

Lemma jmp_link_set x v c y : jmp_link (set_jmp_link x v c) y = if decide (y = x) then v else jmp_link c y.
Proof.
  destruct x as [t n], y as [u m]. unfold jmp_link, set_jmp_link. cbn [fst snd]. rewrite tbs_set_tb.
  destruct (Z.eqb_spec u t) as [->|].
  2:{ rewrite decide_False by congruence. done. }
  destruct (Z.eqb_spec n 2) as [->|], (Z.eqb_spec m 2) as [->|]; cbn; unfold put.
  - by rewrite decide_True.
  - by rewrite decide_False by congruence.
  - by rewrite decide_False by congruence.
  - destruct (Z.eqb_spec m n) as [->|]; [by rewrite decide_True|by rewrite decide_False by congruence].
Qed.

Lemma set_jmp_link_same x v c : same_but_jumps c (set_jmp_link x v c).
Proof.
  unfold set_jmp_link. destruct (x.2 =? 2); unfold same_but_jumps, same_code, same_hash, same_pages, same_found; same.
Qed.

Lemma set_jmp_target x v c t : tb_next (tbs (set_jmp_link x v c) t) = tb_next (tbs c t).
Proof.
  unfold set_jmp_link. rewrite tbs_set_tb. destruct (Z.eqb_spec t x.1) as [->|]; [|done]. by destruct (x.2 =? 2).
Qed.

#[global] Instance same_but_jumps_preorder : PreOrder same_but_jumps.
Proof.
  split; [intros c; repeat (split; [reflexivity|]); reflexivity|].
  intros c1 c2 c3 (A1 & A2 & A3 & A4) (B1 & B2 & B3 & B4).
  split; [by etransitivity|]. split; [by etransitivity|]. split; by etransitivity.
Qed.

(** The jump [n] of a block. *)
Definition is_jump (x : tagged) : Prop := x.2 = 0 \/ x.2 = 1.

Lemma jmp_link_jump c x : is_jump x -> jmp_link c x = jmp_next (tbs c x.1) x.2.
Proof. intros [H|H]; unfold jmp_link; by rewrite H. Qed.

Lemma jmp_next_link c t n : is_jump (t, n) -> jmp_next (tbs c t) n = jmp_link c (t, n).
Proof. intros H. symmetry. exact (jmp_link_jump c (t, n) H). Qed.

(** The jumps to block [tb] are those of the list [J tb], and a block has no others. *)
Record jumps (c : cache) (L : gset Z) (J : Z -> list tagged) : Prop := {
  jumps_list tb : tb ∈ L -> seg id (jmp_link c) (jmp_link c (tb, 2)) (Some (tb, 2)) (J tb);
  jumps_nodup tb : tb ∈ L -> NoDup (J tb);
  jumps_live tb x : tb ∈ L -> x ∈ J tb -> x.1 ∈ L /\ is_jump x;
  jumps_one tb tb' x : tb ∈ L -> tb' ∈ L -> x ∈ J tb -> x ∈ J tb' -> tb = tb';
  jumps_all x : x.1 ∈ L -> is_jump x -> jmp_link c x <> None -> exists tb, tb ∈ L /\ x ∈ J tb;
}.

(** A direct jump goes to the code of the block in whose list it is; the others lead out
    of the generated code, except those of [E], which are being changed. *)
Definition targets_ok (c : cache) (L : gset Z) (J : Z -> list tagged) (E : tagged -> Prop) : Prop :=
  (forall tb x, tb ∈ L -> x ∈ J tb -> tb_next (tbs c x.1) x.2 = tc_ptr (tbs c tb)) /\
  (forall x, x.1 ∈ L -> is_jump x -> jmp_link c x = None -> ~ E x -> tb_next_offset (tbs c x.1) x.2 <> 0xffff ->
   tb_next (tbs c x.1) x.2 = u32 (tc_ptr (tbs c x.1) + tb_next_offset (tbs c x.1) x.2)).

Lemma seg_next {S A} (place : A -> S) deref p stop l x : seg place deref p (Some stop) l -> x ∈ l -> deref (place x) <> None.
Proof.
  revert p. induction l as [|a l IH]; intros p; cbn; [set_solver|]. intros [_ H] [->|Hx]%elem_of_cons; [|by eapply IH].
  destruct l as [|b l]; cbn in H; [congruence|]. destruct H as [-> _]. done.
Qed.

Lemma seg_last {S A} (place : A -> S) s l1 a l2 : last_place place s (l1 ++ a :: l2) = last_place place (place a) l2.
Proof. revert s. induction l1 as [|b l1 IH]; intros s; cbn [app]; rewrite last_place_cons; [done|apply IH]. Qed.

(** Taking a jump out of its list. *)
Lemma unlink_jump c L J tb x l1 l2 (c' := set_jmp_link x None (set_jmp_link (last_place id (tb, 2) l1) (jmp_link c x) c)) :
  jumps c L J -> tb ∈ L -> J tb = l1 ++ x :: l2 ->
  jumps c' L (put J tb (l1 ++ l2)) /\ jmp_link c' x = None /\
  (forall y, y <> x -> is_jump y -> jmp_link c' y = None <-> jmp_link c y = None).
Proof.
  intros H Htb HJ. destruct H as [H1 H2 H3 H4 H5]. set (pl := last_place id (tb, 2) l1) in *.
  assert (Hd := H2 tb Htb). rewrite HJ in Hd. apply NoDup_app in Hd as Hd'. destruct Hd' as (D1 & D2 & D3).
  inversion_clear D3 as [|? ? D4 D5].
  assert (Hx1 : x ∉ l1) by (intros Hx; apply (D2 x Hx); left).
  assert (Hxj : is_jump x) by (apply (H3 tb); [done|rewrite HJ; set_solver]).
  assert (Hpl : pl = (tb, 2) \/ pl ∈ l1).
  { destruct (last_place_in id (tb, 2) l1) as [E|(a & Ha & E)]; [by left|]. right. unfold pl. by rewrite E. }
  assert (Hplx : pl <> x).
  { destruct Hpl as [->|Hp]; [|congruence]. intros <-. by destruct Hxj. }
  assert (Hlink : forall y, jmp_link c' y = if decide (y = x) then None else if decide (y = pl) then jmp_link c x else jmp_link c y).
  { intros y. unfold c'. by rewrite !jmp_link_set. }
  assert (Hs := H1 tb Htb). rewrite HJ in Hs. assert (Hs' := Hs). rewrite seg_app in Hs'. destruct Hs' as (q & Hs1 & Hq).
  cbn [seg] in Hq. destruct Hq as [-> Hs2]. change (id x) with x in Hs2.
  assert (Hxn : jmp_link c x <> None) by (apply (seg_next id _ _ _ _ x Hs); set_solver).
  assert (Hpn : jmp_link c pl = Some x) by (by apply seg_end).
  assert (Hin : forall y, y ∈ l1 ++ l2 -> y <> x) by (intros y Hy ->; set_solver).
  assert (Hsub : forall y, y ∈ l1 ++ l2 -> y ∈ J tb) by (intros y Hy; rewrite HJ; set_solver).
  split; [|split].
  - split.
    + intros tb' Htb'. unfold put. destruct (Z.eqb_spec tb' tb) as [->|Hne].
      * apply (seg_unlink id (jmp_link c) (jmp_link c') x l2 (Some (tb, 2)) l1 (tb, 2)); [done| | |].
        -- intros y Hy Hyp. rewrite Hlink. fold pl in Hyp. rewrite (decide_False (P := y = pl)) by done.
           apply decide_False. rewrite list_fmap_id in Hy. apply elem_of_cons in Hy as [->|Hy]; [|by apply Hin].
           intros <-. by destruct Hxj.
        -- fold pl. rewrite Hlink, decide_False, decide_True by done. done.
        -- rewrite list_fmap_id. constructor.
           ++ intros Hy. apply Hsub, (H3 tb) in Hy as [_ Hy]; [|done]. by destruct Hy.
           ++ apply NoDup_app. split; [done|]. split; [|done]. intros y Hy1 Hy2. apply (D2 y Hy1). by right.
      * assert (Hno : forall y, y = (tb', 2) \/ y ∈ J tb' -> jmp_link c' y = jmp_link c y).
        { intros y Hy. rewrite Hlink, !decide_False; [done| |].
          - intros ->. destruct Hpl as [->|Hp]; destruct Hy as [Hy|Hy].
            + congruence.
            + apply (H3 tb') in Hy as [_ Hy]; [|done]. by destruct Hy.
            + rewrite Hy in Hp. apply (fun h => proj2 (H3 tb (tb', 2) Htb h)) in Hsub; [by destruct Hsub|set_solver].
            + apply Hne, (H4 tb' tb pl); [done|done|done|apply Hsub; set_solver].
          - intros ->. destruct Hy as [Hy|Hy]; [rewrite Hy in Hxj; by destruct Hxj|].
            apply Hne, (H4 tb' tb x); [done|done|done|rewrite HJ; set_solver]. }
        rewrite Hno by (by left). apply seg_ext with (jmp_link c); [|by apply H1]. intros y Hy. apply Hno. by right.
    + intros tb' Htb'. unfold put. destruct (Z.eqb_spec tb' tb) as [->|Hne]; [|by apply H2].
      apply NoDup_app. split; [done|]. split; [|done]. intros y Hy1 Hy2. apply (D2 y Hy1). by right.
    + intros tb' y Htb' Hy. unfold put in Hy. destruct (Z.eqb_spec tb' tb) as [->|Hne]; [|by apply (H3 tb')].
      apply (H3 tb); [done|by apply Hsub].
    + intros tb1 tb2 y Ht1 Ht2 Hy1 Hy2. unfold put in *.
      apply (H4 tb1 tb2 y); [done|done| |]; destruct (Z.eqb_spec tb1 tb) as [->|]; destruct (Z.eqb_spec tb2 tb) as [->|]; auto.
    + intros y Hy Hyj. rewrite Hlink. case_decide as Hyx; [done|].
      intros Hyn. assert (Hyn' : jmp_link c y <> None) by (case_decide as Hyp; [subst y; by rewrite Hpn|done]).
      destruct (H5 y Hy Hyj Hyn') as (tb' & Htb' & Hin'). exists tb'. split; [done|]. unfold put.
      destruct (Z.eqb_spec tb' tb) as [->|]; [|done]. rewrite HJ in Hin'. set_solver.
  - rewrite Hlink. by rewrite decide_True.
  - intros y Hyx Hyj. rewrite Hlink, decide_False by done. case_decide as Hyp; [|done]. subst y. rewrite Hpn. naive_solver.
Qed.

Lemma jump_length c L J tb : blocks_ok c L -> jumps c L J -> tb ∈ L -> (S (length (J tb)) < links c)%nat.
Proof.
  intros Hb H Ht. apply (live_length_tagged c L); [done|by apply (jumps_nodup c L J)|].
  intros x Hx. by apply (jumps_live c L J H tb).
Qed.

(** What unlinking leaves of the targets: the jump that is taken out is in no list, and
    its target is still to be reset. *)
Lemma unlink_targets c L J tb x l1 l2 E (c' := set_jmp_link x None (set_jmp_link (last_place id (tb, 2) l1) (jmp_link c x) c)) :
  jumps c L J -> tb ∈ L -> J tb = l1 ++ x :: l2 -> targets_ok c L J E ->
  targets_ok c' L (put J tb (l1 ++ l2)) (fun y => E y \/ y = x).
Proof.
  intros H Htb HJ [T1 T2]. destruct (unlink_jump c L J tb x l1 l2 H Htb HJ) as (_ & _ & Hn). fold c' in Hn.
  assert (Hsame : same_but_jumps c c') by (etransitivity; apply set_jmp_link_same).
  destruct Hsame as ((_ & _ & _ & Hb) & _).
  assert (Ht : forall t, tb_next (tbs c' t) = tb_next (tbs c t)) by (intros; unfold c'; by rewrite !set_jmp_target).
  split.
  - intros tb' y Htb' Hy. rewrite Ht. destruct (Hb tb') as (_ & _ & _ & _ & _ & -> & _). apply T1; [done|].
    unfold put in Hy. destruct (Z.eqb_spec tb' tb) as [->|]; [|done]. rewrite HJ. set_solver.
  - intros y Hy Hyj Hyn HE. rewrite Ht. destruct (Hb y.1) as (_ & _ & _ & _ & _ & -> & _ & ->).
    apply T2; [done|done| |naive_solver]. apply Hn; [naive_solver|done|done].
Qed.

(** The walk that [tb_jmp_remove] starts behind the jump itself and that goes around the
    circle, and the one that starts at the head of the list. *)
Lemma find_jump_link c L J tb t n l1 l2 : blocks_ok c L -> jumps c L J -> tb ∈ L -> J tb = l1 ++ (t, n) :: l2 ->
  let hit (x : tagged) := (x.2 =? n) && (x.1 =? t) in
  find_link (links c) id (jmp_link c) hit (t, n) = Some (last_place id (tb, 2) l1) /\
  find_link (links c) id (jmp_link c) hit (tb, 2) = Some (last_place id (tb, 2) l1).
Proof.
  intros Hb H Htb HJ hit. assert (Hl := jump_length c L J tb Hb H Htb). rewrite HJ, length_app in Hl. cbn in Hl.
  destruct H as [H1 H2 H3 _ _]. assert (Hs := H1 tb Htb). rewrite HJ, seg_app in Hs. destruct Hs as (q & Hs1 & Hq).
  cbn [seg] in Hq. destruct Hq as [-> Hs2]. change (id (t, n)) with (t, n) in Hs2.
  assert (Hd := H2 tb Htb). rewrite HJ in Hd. apply NoDup_app in Hd as (D1 & D2 & D3). inversion_clear D3 as [|? ? D4 D5].
  assert (Hhit : hit (t, n) = true) by (unfold hit; cbn; by rewrite !Z.eqb_refl).
  assert (Hno : forall x, x <> (t, n) -> hit x = false).
  { intros [u m] Hx. unfold hit. cbn. destruct (Z.eqb_spec m n), (Z.eqb_spec u t); try done. congruence. }
  assert (Hn : (tb, 2) <> (t, n)).
  { intros [= -> <-]. destruct (H3 t (t, 2) Htb) as [_ Hj]; [rewrite HJ; set_solver|]. by destruct Hj. }
  assert (Hl1 : Forall (fun b => hit b = false) l1) by (apply Forall_forall; intros x Hx; apply Hno; intros ->; apply (D2 _ Hx); left).
  assert (Hl2 : Forall (fun b => hit b = false) l2) by (apply Forall_forall; intros x Hx; apply Hno; by intros ->).
  split.
  - rewrite (find_link_seg id _ hit _ (t, n) (t, n) (l2 ++ (tb, 2) :: l1)); [by rewrite seg_last| |done| |rewrite length_app; cbn; lia].
    + apply seg_app. exists (Some (tb, 2)). split; [done|]. cbn [seg]. done.
    + apply Forall_app. split; [done|]. constructor; [by apply Hno|done].
  - apply (find_link_seg id _ hit _ (tb, 2) (t, n) l1); [done|done|done|lia].
Qed.

Lemma tb_jmp_remove_ok t n c L J E : blocks_ok c L -> jumps c L J -> targets_ok c L J E -> t ∈ L -> is_jump (t, n) ->
  exists c' J', tb_jmp_remove t n c = Some c' /\ jumps c' L J' /\ same_but_jumps c c' /\
    targets_ok c' L J' (fun y => E y \/ y = (t, n)) /\ jmp_link c' (t, n) = None /\
    forall y, y <> (t, n) -> is_jump y -> jmp_link c' y = None <-> jmp_link c y = None.
Proof.
  intros Hb H HT Ht Hj. unfold tb_jmp_remove.
  rewrite (jmp_next_link c t n Hj).
  destruct (jmp_link c (t, n)) as [y|] eqn:E0.
  - destruct (jumps_all c L J H (t, n) Ht Hj) as (tb & Htb & Hin); [congruence|].
    apply list_elem_of_split in Hin as (l1 & l2 & HJ).
    destruct (find_jump_link c L J tb t n l1 l2 Hb H Htb HJ) as [-> _]. cbn [mbind option_bind].
    rewrite <- E0. destruct (unlink_jump c L J tb (t, n) l1 l2 H Htb HJ) as (U1 & U2 & U3).
    eexists _, _. split; [reflexivity|]. split; [exact U1|]. split; [etransitivity; apply set_jmp_link_same|].
    split; [by apply unlink_targets|done].
  - exists c, J. split; [done|]. split; [done|]. split; [reflexivity|]. split; [|done].
    destruct HT as [T1 T2]. split; [done|]. intros x Hx Hxj Hxn HE. apply T2; naive_solver.
Qed.

Lemma jumps_same c c' L J : (forall y, jmp_link c' y = jmp_link c y) -> jumps c L J -> jumps c' L J.
Proof.
  intros He [H1 H2 H3 H4 H5]. split; [|done|done|done|].
  - intros tb Htb. rewrite He. apply seg_ext with (jmp_link c); [intros; apply He|by apply H1].
  - intros x Hx Hj. rewrite He. by apply H5.
Qed.

Lemma not_listed c L J x tb : jumps c L J -> jmp_link c x = None -> tb ∈ L -> x ∉ J tb.
Proof. intros H Hx Htb Hin. by apply (seg_next id _ _ _ _ x (jumps_list c L J H tb Htb)) in Hin. Qed.

Lemma jmp_link_reset t n c y : jmp_link (tb_reset_jump t n c) y = jmp_link c y.
Proof.
  destruct y as [u m]. unfold jmp_link, tb_reset_jump, tb_set_jmp_target. cbn [fst]. rewrite tbs_set_tb.
  by destruct (Z.eqb_spec u t) as [->|].
Qed.

Lemma reset_same t n c : same_but_jumps c (tb_reset_jump t n c).
Proof.
  unfold tb_reset_jump, tb_set_jmp_target, same_but_jumps, same_code, same_hash, same_pages, same_found. same.
Qed.

(** Where the block goes when the jump is not direct. *)
Definition exit_of (c : cache) (x : tagged) : Z := u32 (tc_ptr (tbs c x.1) + tb_next_offset (tbs c x.1) x.2).

Lemma exit_of_same c c' x : same_code c c' -> exit_of c' x = exit_of c x.
Proof.
  intros (_ & _ & _ & Hb). unfold exit_of. by destruct (Hb x.1) as (_ & _ & _ & _ & _ & -> & _ & ->).
Qed.

Lemma tb_next_reset x c y : tb_next (tbs (tb_reset_jump x.1 x.2 c) y.1) y.2 =
  if decide (y = x) then exit_of c x else tb_next (tbs c y.1) y.2.
Proof.
  destruct x as [t n], y as [u m]. unfold tb_reset_jump, tb_set_jmp_target. cbn [fst snd]. rewrite tbs_set_tb.
  destruct (Z.eqb_spec u t) as [->|]; [|by rewrite decide_False by congruence]. cbn. unfold put.
  destruct (Z.eqb_spec m n) as [->|]; [by rewrite decide_True|by rewrite decide_False by congruence].
Qed.

(** Resetting the target of a jump that is in no list. *)
Lemma reset_jump_ok x c L J E : jumps c L J -> targets_ok c L J (fun y => E y \/ y = x) -> jmp_link c x = None ->
  let c' := tb_reset_jump x.1 x.2 c in jumps c' L J /\ targets_ok c' L J E.
Proof.
  intros H [T1 T2] Hx c'. destruct (reset_same x.1 x.2 c) as ((_ & _ & _ & Hb) & _). fold c' in Hb.
  split; [apply (jumps_same c); [intros; apply jmp_link_reset|done]|]. split.
  - intros tb y Htb Hy. unfold c'. rewrite tb_next_reset. fold c'.
    case_decide as Hc; [subst y; by apply (not_listed c L J x tb) in Hy|].
    destruct (Hb tb) as (_ & _ & _ & _ & _ & -> & _). by apply T1.
  - intros y Hy Hj Hn HE Hoff. change (u32 _) with (exit_of c' y). rewrite (exit_of_same c) by apply reset_same.
    destruct (Hb y.1) as (_ & _ & _ & _ & _ & _ & _ & Ho). rewrite Ho in Hoff.
    unfold c'. rewrite tb_next_reset. case_decide as Hc; [by subst|].
    apply T2; [done|done|by rewrite <- (jmp_link_reset x.1 x.2)| |done]. intros [?|?]; auto.
Qed.

(** ** Unchaining for an interrupt *)

Definition all_jumps (L : gset Z) : list tagged := ((fun t => (t, 0)) <$> elements L) ++ ((fun t => (t, 1)) <$> elements L).

Lemma elem_of_all_jumps L x : x ∈ all_jumps L <-> x.1 ∈ L /\ is_jump x.
Proof.
  unfold all_jumps, is_jump. rewrite elem_of_app, !list_elem_of_fmap. destruct x as [t n]. cbn. split.
  - intros [(u & [= -> ->] & Hu)|(u & [= -> ->] & Hu)]; apply elem_of_elements in Hu; auto.
  - intros [Ht [-> | ->]]; [left|right]; exists t; by rewrite elem_of_elements.
Qed.

(** The number of direct jumps. *)
Definition chained (c : cache) (L : gset Z) : nat := length (filter (fun x => is_Some (jmp_link c x)) (all_jumps L)).

Lemma filter_length_le {A} (P Q : A -> Prop) `{!forall x, Decision (P x), !forall x, Decision (Q x)} (l : list A) :
  (forall x, x ∈ l -> Q x -> P x) -> (length (filter Q l) <= length (filter P l))%nat /\
  ((exists x, x ∈ l /\ P x /\ ~ Q x) -> (length (filter Q l) < length (filter P l))%nat).
Proof.
  induction l as [|a l IH]; intros Hqp; [split; [done|set_solver]|].
  destruct IH as [I1 I2]; [intros x Hx; apply Hqp; by right|]. rewrite !filter_cons.
  assert (Ha : Q a -> P a) by (apply Hqp; left). split.
  - do 2 case_decide; cbn; try lia. exfalso. auto.
  - intros (x & Hx & HP & HQ). apply elem_of_cons in Hx as [->|Hx].
    + do 2 case_decide; try done. cbn. lia.
    + assert (Hlt := I2 (ex_intro _ x (conj Hx (conj HP HQ)))). do 2 case_decide; cbn; try lia. exfalso. auto.
Qed.

(** No jump is added. *)
Definition fewer (c c' : cache) : Prop := forall y, is_jump y -> jmp_link c y = None -> jmp_link c' y = None.

#[global] Instance fewer_preorder : PreOrder fewer.
Proof. split; [by intros c y|]. intros c1 c2 c3 H1 H2 y Hy Hn. apply H2, H1; done. Qed.

Lemma chained_fewer c c' L : fewer c c' -> (chained c' L <= chained c L)%nat /\
  forall x, x.1 ∈ L -> is_jump x -> is_Some (jmp_link c x) -> jmp_link c' x = None -> (chained c' L < chained c L)%nat.
Proof.
  intros H. destruct (filter_length_le (fun x => is_Some (jmp_link c x)) (fun x => is_Some (jmp_link c' x)) (all_jumps L))
    as [H1 H2].
  - intros x Hx%elem_of_all_jumps [y Hy]. destruct (jmp_link c x) eqn:E; [done|]. rewrite H in Hy; naive_solver.
  - split; [done|]. intros x Hx Hj Hs Hn. apply H2. exists x. split; [by apply elem_of_all_jumps|]. split; [done|].
    rewrite Hn. by intros [? ?].
Qed.

Lemma chained_links c L : blocks_ok c L -> (chained c L < links c)%nat.
Proof.
  intros Hb. assert (H : (S (length (all_jumps L)) < links c)%nat).
  { apply (live_length_tagged c L); [done| |intros x; apply elem_of_all_jumps]. apply NoDup_app. split; [|split].
    - apply NoDup_fmap_2; [by intros ? ? [= ->]|apply NoDup_elements].
    - intros x (u & -> & _)%list_elem_of_fmap (w & [=] & _)%list_elem_of_fmap.
    - apply NoDup_fmap_2; [by intros ? ? [= ->]|apply NoDup_elements]. }
  unfold chained. pose proof (length_filter (fun x => is_Some (jmp_link c x)) (all_jumps L)). lia.
Qed.

Lemma find_head_ok c tb : forall fuel p l, seg id (jmp_link c) p (Some (tb, 2)) l -> Forall is_jump l -> (length l < fuel)%nat ->
  find_head fuel p c = Some tb.
Proof.
  induction fuel as [|fuel IH]; intros p [|[t n] l] Hs Hj Hf; cbn [seg] in Hs; [cbn in Hf; lia..| |].
  - subst p. done.
  - destruct Hs as [-> Hs]. inversion_clear Hj as [|? ? Hx Hl]. cbn [find_head mbind option_bind].
    assert (En : (n =? 2) = false) by (destruct Hx as [Hx|Hx]; cbn in Hx; by rewrite Hx). rewrite En.
    apply (IH _ l); [|done|cbn in Hf; lia]. by rewrite (jmp_next_link c t n Hx).
Qed.

(** A state of the jumps in which every target is set. *)
Definition jumps_ok (c : cache) (L : gset Z) : Prop := exists J, jumps c L J /\ targets_ok c L J (fun _ => False).

(** ** Where the jumps go *)

Lemma jumps_det c L J J' tb : jumps c L J -> jumps c L J' -> tb ∈ L -> J tb = J' tb.
Proof.
  intros H H' Ht. apply (seg_det id (jmp_link c) (Some (tb, 2)) (J tb) (jmp_link c (tb, 2))).
  - intros a [= <-]. split; intros Hin; [apply (jumps_live c L J H tb) in Hin|apply (jumps_live c L J' H' tb) in Hin];
      try done; destruct Hin as [_ Hj]; by destruct Hj.
  - by apply (jumps_list c L J).
  - by apply (jumps_list c L J').
Qed.

(** Jump [y] goes to block [tb]. *)
Definition target (c : cache) (L : gset Z) (y : tagged) (tb : Z) : Prop := tb ∈ L /\ exists J, jumps c L J /\ y ∈ J tb.

Definition stopped (c : cache) (t : Z) : Prop := jmp_link c (t, 0) = None /\ jmp_link c (t, 1) = None.

(** A jump stays, or is taken away with the jumps of the block it goes to. *)
Definition cuts (c c' : cache) (L : gset Z) : Prop := forall y tb, target c L y tb ->
  target c' L y tb \/ jmp_link c' y = None /\ stopped c' tb.

Lemma fewer_stopped c c' t : fewer c c' -> stopped c t -> stopped c' t.
Proof. intros H [H0 H1]. split; apply H; (done || (by left) || by right). Qed.

Lemma target_jump c L y tb : target c L y tb -> y.1 ∈ L /\ is_jump y.
Proof. intros (Ht & J & H & Hy). by apply (jumps_live c L J H tb). Qed.

Lemma cuts_trans c1 c2 c3 L : cuts c1 c2 L -> cuts c2 c3 L -> fewer c2 c3 -> cuts c1 c3 L.
Proof.
  intros H1 H2 Hf y tb Hy. destruct (H1 y tb Hy) as [Ht|[Hn Hs]]; [by apply H2|]. right.
  split; [apply Hf; [by apply (target_jump c1 L y tb)|done]|by apply (fewer_stopped c2)].
Qed.

(** The result of an operation that only unchains blocks. *)
Definition unchains (c : cache) (L : gset Z) (Q : cache -> Prop) (r : option cache) : Prop :=
  exists c', r = Some c' /\ jumps_ok c' L /\ same_but_jumps c c' /\ fewer c c' /\
    (current_tb c' = None \/ current_tb c' = current_tb c) /\ cuts c c' L /\ Q c'.

Lemma unchains_refl c L (Q : cache -> Prop) : jumps_ok c L -> Q c -> unchains c L Q (Some c).
Proof.
  intros H HQ. exists c. split; [done|]. split; [done|]. split; [reflexivity|]. split; [reflexivity|]. split; [by right|].
  split; [|done]. intros y tb Hy. by left.
Qed.

Lemma unchains_bind c L (Q1 Q2 Q : cache -> Prop) r f : unchains c L Q1 r ->
  (forall c', blocks_ok c L -> blocks_ok c' L -> jumps_ok c' L -> same_but_jumps c c' -> fewer c c' -> unchains c' L Q2 (f c')) ->
  (forall c1 c2, Q1 c1 -> fewer c1 c2 -> Q2 c2 -> Q c2) ->
  blocks_ok c L -> unchains c L Q (r ≫= f).
Proof.
  intros (c1 & -> & H1 & H2 & H3 & H4 & K1 & HQ1) Hf HQ Hb. assert (Hb1 : blocks_ok c1 L).
  { apply (blocks_ok_same c c1 L L); [apply H2|done|done]. }
  destruct (Hf c1) as (c2 & E2 & H5 & H6 & H7 & H8 & K2 & HQ2); [done..|]. exists c2. split; [done|]. split; [done|].
  split; [by etransitivity|]. split; [by etransitivity|]. split; [destruct H8 as [->| ->]; auto|].
  split; [by apply (cuts_trans c c1)|by apply (HQ c1)].
Qed.

(** One level of the recursion: the jump [n] is taken out of its list and reset. *)
Lemma reset_one n fuel t c L (rec : Z -> cache -> option cache) : is_jump (t, n) -> t ∈ L ->
  blocks_ok c L -> jumps_ok c L -> (chained c L < S fuel)%nat ->
  (forall u c', u ∈ L -> blocks_ok c' L -> jumps_ok c' L -> (chained c' L < fuel)%nat ->
    unchains c' L (fun c2 => stopped c2 u) (rec u c')) ->
  unchains c L (fun c' => jmp_link c' (t, n) = None)
    (match jmp_next (tbs c t) n with
     | None => Some c
     | Some tb1 =>
       tb_next ← find_head (links c) (Some tb1) c;
       ptb ← find_link (links c) id (jmp_link c) (fun x => (x.2 =? n) && (x.1 =? t)) (tb_next, 2);
       let c := set_jmp_link ptb (jmp_next (tbs c t) n) c in
       let c := set_jmp_link (t, n) None c in
       let c := tb_reset_jump t n c in
       rec tb_next c
     end).
Proof.
  intros Hj Ht Hb HJ Hm IH. destruct HJ as (J & H & HT).
  rewrite (jmp_next_link c t n Hj).
  destruct (jmp_link c (t, n)) as [tb1|] eqn:E0; [|apply unchains_refl; [by exists J|done]].
  destruct (jumps_all c L J H (t, n) Ht Hj) as (tb & Htb & Hin); [congruence|].
  apply list_elem_of_split in Hin as (l1 & l2 & HJ).
  assert (Hl := jump_length c L J tb Hb H Htb). rewrite HJ, length_app in Hl. cbn in Hl.
  assert (Hs := jumps_list c L J H tb Htb). rewrite HJ, seg_app in Hs. destruct Hs as (q & _ & [_ Hs2]).
  change (id (t, n)) with (t, n) in Hs2. rewrite E0 in Hs2.
  assert (Hj2 : Forall is_jump l2).
  { apply Forall_forall. intros x Hx. apply (jumps_live c L J H tb x Htb). rewrite HJ. set_solver. }
  rewrite (find_head_ok c tb (links c) (Some tb1) l2 Hs2 Hj2) by lia. cbn [mbind option_bind].
  destruct (find_jump_link c L J tb t n l1 l2 Hb H Htb HJ) as [_ ->]. cbn [mbind option_bind]. rewrite <- E0.
  destruct (unlink_jump c L J tb (t, n) l1 l2 H Htb HJ) as (U1 & U2 & U3).
  assert (UT := unlink_targets c L J tb (t, n) l1 l2 (fun _ => False) H Htb HJ HT).
  set (c1 := set_jmp_link (t, n) None _) in *.
  assert (S1 : same_but_jumps c c1) by (etransitivity; apply set_jmp_link_same).
  destruct (reset_jump_ok (t, n) c1 L _ (fun _ => False) U1 UT U2) as (V1 & V2).
  assert (V3 := reset_same t n c1). assert (V4 := jmp_link_reset t n c1).
  cbn [fst snd] in *. set (c2 := tb_reset_jump t n c1) in *.
  assert (S2 : same_but_jumps c c2) by (by etransitivity).
  assert (F2 : fewer c c2).
  { intros y Hy Hn. rewrite V4. destruct (decide (y = (t, n))) as [->|Hyn]; [done|]. by apply U3. }
  destruct (IH tb c2) as (c3 & E3 & W1 & W2 & W3 & W4 & W5 & W6); [done| |by exists (put J tb (l1 ++ l2))| |].
  - apply (blocks_ok_same c c2 L L); [apply S2|done|done].
  - destruct (chained_fewer c c2 L F2) as [_ Hlt]. specialize (Hlt (t, n) Ht Hj).
    rewrite E0, V4 in Hlt. specialize (Hlt ltac:(eauto) U2). lia.
  - exists c3. split; [done|]. split; [done|]. split; [by etransitivity|]. split; [by etransitivity|]. split; [exact W4|].
    assert (Hgone : jmp_link c3 (t, n) = None) by (apply W3; [done|by rewrite V4]). split; [|done].
    intros y v (Hv & J' & H' & Hy). rewrite (jumps_det c L J' J v H' H Hv) in Hy.
    destruct (decide (y = (t, n))) as [->|Hyn].
    + right. split; [done|]. assert (v = tb) as -> by (apply (jumps_one c L J H v tb (t, n)); [done|done|done|rewrite HJ; set_solver]).
      exact W6.
    + apply W5. split; [done|]. exists (put J tb (l1 ++ l2)). split; [exact V1|]. unfold put.
      destruct (Z.eqb_spec v tb) as [->|]; [|done]. rewrite HJ in Hy. set_solver.
Qed.

Lemma reset_recursive_ok fuel : forall t c L, t ∈ L -> blocks_ok c L -> jumps_ok c L -> (chained c L < fuel)%nat ->
  unchains c L (fun c' => stopped c' t) (tb_reset_jump_recursive fuel t c).
Proof.
  induction fuel as [|fuel IH]; intros t c L Ht Hb HJ Hm; [lia|]. cbn [tb_reset_jump_recursive].
  apply (unchains_bind c L (fun c' => jmp_link c' (t, 0) = None) (fun c' => jmp_link c' (t, 1) = None));
    [|intros c' _ Hb' HJ' Hs Hf|intros c1 c2 H0 Hf H1; split; [apply Hf; [by left|done]|done]|done].
  - apply (reset_one 0 fuel); [by left|done|done|done|done|]. intros. by apply IH.
  - apply (reset_one 1 fuel); [by right|done|done|done| |intros; by apply IH].
    destruct (chained_fewer c c' L Hf). lia.
Qed.

Lemma jumps_ok_same c c' L : (forall t, tbs c' t = tbs c t) -> jumps_ok c L -> jumps_ok c' L.
Proof.
  intros He (J & H & T1 & T2). assert (Hl : forall y, jmp_link c' y = jmp_link c y) by (intros; unfold jmp_link; by rewrite He).
  exists J. split; [by apply (jumps_same c)|]. split.
  - intros tb x. rewrite !He. apply T1.
  - intros x. rewrite Hl, !He. apply T2.
Qed.

(** The running block is live, or has no direct jump. *)
Definition current_ok (c : cache) (L : gset Z) : Prop := forall t, current_tb c = Some t ->
  t ∈ L \/ (jmp_link c (t, 0) = None /\ jmp_link c (t, 1) = None).

(** An interrupt finishes, and changes nothing but jumps. *)
Lemma cpu_interrupt_ok mask c L : blocks_ok c L -> jumps_ok c L -> current_ok c L ->
  unchains c L (fun c' => forall t, current_tb c = Some t -> stopped c' t) (cpu_interrupt mask c).
Proof.
  intros Hb HJ Hc. unfold cpu_interrupt. set (c0 := c <| interrupt_request := _ |>).
  change (current_tb c0) with (current_tb c). destruct (current_tb c) as [t|] eqn:E.
  - set (c1 := c0 <| current_tb := None |>). assert (S1 : same_but_jumps c c1).
    { unfold same_but_jumps, same_code, same_hash, same_pages, same_found. same. }
    assert (Hb1 : blocks_ok c1 L) by (apply (blocks_ok_same c c1 L L); [apply S1|done|done]).
    assert (HJ1 : jumps_ok c1 L) by (by apply (jumps_ok_same c)).
    assert (Hr : unchains c1 L (fun c' => stopped c' t) (tb_reset_jump_recursive (links c0) t c1)).
    { destruct (Hc t E) as [Ht|[H0 H1]]; [apply reset_recursive_ok; [done|done|done|exact (chained_links c1 L Hb1)]|].
      assert (Hpos : (0 < links c0)%nat) by (destruct Hb as [Hb _]; unfold links; change (nb_tbs c0) with (nb_tbs c); lia).
      destruct (links c0) as [|n]; [lia|]. cbn [tb_reset_jump_recursive].
      change (tbs c1) with (tbs c). rewrite (jmp_next_link c t 0), H0 by (by left). cbn [mbind option_bind].
      change (tbs c1) with (tbs c). rewrite (jmp_next_link c t 1), H1 by (by right). by apply unchains_refl; [|split]. }
    destruct Hr as (c2 & E2 & H1 & H2 & H3 & H4 & H5 & H6).
    exists c2. split; [exact E2|]. split; [done|]. split; [by etransitivity|]. split; [exact H3|]. split; [left; by destruct H4|].
    split; [|by intros u [= <-]]. intros y tb (Htb & J & Hy & Hin). apply H5. split; [done|]. exists J. split; [|done].
    by apply (jumps_same c).
  - exists c0. split; [done|]. split; [by apply (jumps_ok_same c)|].
    split; [unfold same_but_jumps, same_code, same_hash, same_pages, same_found; same|]. split; [by intros y|].
    split; [by right|]. split; [|done]. intros y tb (Htb & J & Hy & Hin). left. split; [done|]. exists J. split; [|done].
    by apply (jumps_same c).
Qed.

(** ** Taking a block out of every table *)

Lemma suppress_ok tb : forall fuel p l c, seg id (jmp_link c) p (Some (tb, 2)) l -> NoDup l -> Forall is_jump l ->
  (length l < fuel)%nat ->
  exists c', suppress_jumps fuel p c = Some c' /\ same_but_jumps c c' /\ current_tb c' = current_tb c /\
    (forall y, jmp_link c' y = if decide (y ∈ l) then None else jmp_link c y) /\
    forall y, tb_next (tbs c' y.1) y.2 = if decide (y ∈ l) then exit_of c y else tb_next (tbs c y.1) y.2.
Proof.
  induction fuel as [|fuel IH]; intros p [|[t n] l] c Hs Hd Hj Hf; cbn [seg] in Hs; [cbn in Hf; lia..| |].
  - subst p. exists c. split; [done|]. split; [reflexivity|]. split; [done|]. split; intros; by rewrite decide_False by set_solver.
  - destruct Hs as [-> Hs]. inversion_clear Hj as [|? ? Hx Hl]. inversion_clear Hd as [|? ? Hn Hd'].
    cbn [suppress_jumps mbind option_bind].
    assert (En : (n =? 2) = false) by (destruct Hx as [Hx|Hx]; cbn in Hx; by rewrite Hx). rewrite En.
    assert (L1 : forall y, jmp_link (set_jmp_link (t, n) None (tb_reset_jump t n c)) y
      = if decide (y = (t, n)) then None else jmp_link c y) by (intros; by rewrite jmp_link_set, jmp_link_reset).
    assert (T1 : forall y, tb_next (tbs (set_jmp_link (t, n) None (tb_reset_jump t n c)) y.1) y.2
      = if decide (y = (t, n)) then exit_of c y else tb_next (tbs c y.1) y.2).
    { intros y. rewrite set_jmp_target, (tb_next_reset (t, n)). by case_decide as Hy; [subst|]. }
    assert (S1 : same_but_jumps c (set_jmp_link (t, n) None (tb_reset_jump t n c)))
      by (etransitivity; [apply reset_same|apply set_jmp_link_same]).
    change (current_tb c) with (current_tb (set_jmp_link (t, n) None (tb_reset_jump t n c))).
    rewrite (jmp_next_link c t n Hx). set (c1 := set_jmp_link (t, n) None _) in *.
    destruct (IH (jmp_link c (t, n)) l c1) as (c2 & E2 & S2 & C2 & L2 & T2); [|done|done|cbn in Hf; lia|].
    { apply seg_ext with (jmp_link c); [|done]. intros y Hy. change (id y) with y. rewrite L1, decide_False; [done|]. by intros ->. }
    exists c2. split; [done|]. split; [by etransitivity|]. split; [done|]. split.
    + intros y. rewrite L2, L1. repeat case_decide; set_solver.
    + intros y. rewrite T2, T1, (exit_of_same c) by apply S1. repeat case_decide; set_solver.
Qed.

(** The lists of the two pages. *)
Lemma on_page_cases b n i : block_ok b -> on_page b n i ->
  (n = 0 /\ i = Z.shiftr (page_addr b 0) TARGET_PAGE_BITS) \/
  (n = 1 /\ page_addr b 1 <> NO_PAGE /\ i = Z.shiftr (page_addr b 1) TARGET_PAGE_BITS).
Proof. intros _ ([-> | ->] & H1 & H2); [by left|by right]. Qed.

Lemma page_inj a b : page_ok a -> page_ok b -> Z.shiftr a TARGET_PAGE_BITS = Z.shiftr b TARGET_PAGE_BITS -> a = b.
Proof.
  intros [Ha Ho] [Hb Hp]. unfold TARGET_PAGE_BITS. rewrite !Z.shiftr_div_pow2 by lia. change (2 ^ 12) with 4096.
  rewrite page_off_mod in Ho, Hp. intros H. rewrite (Z.div_mod a 4096), (Z.div_mod b 4096) by lia. lia.
Qed.

Lemma page_not_none a : page_ok a -> a <> NO_PAGE.
Proof. intros [H _]. unfold NO_PAGE. lia. Qed.

Lemma block_pages b : block_ok b -> page_addr b 1 <> NO_PAGE ->
  page_ok (page_addr b 0) /\ page_ok (page_addr b 1) /\
  Z.shiftr (page_addr b 1) TARGET_PAGE_BITS <> Z.shiftr (page_addr b 0) TARGET_PAGE_BITS.
Proof.
  intros (_ & _ & H0 & H1) Hn. destruct (_ <=? 4096); [done|]. destruct H1 as [H1 Hd].
  split; [done|]. split; [done|]. intros E. apply Hd. by apply page_inj.
Qed.

(** A block is once in the list of a page. *)
Lemma on_page_tag b n m i : block_ok b -> on_page b n i -> on_page b m i -> m = n.
Proof.
  intros Hb Hn Hm. destruct (on_page_cases b n i Hb Hn) as [[-> E]|(-> & Hp & E)],
    (on_page_cases b m i Hb Hm) as [[-> E']|(-> & Hp' & E')]; try done; exfalso;
    destruct (block_pages b Hb) as (_ & _ & Hd); congruence.
Qed.

Lemma leave_pages_ok t c L (b := tbs c t) : blocks_ok c L -> pages_ok c L -> t ∈ L ->
  exists c', (c ← leave_page (page_addr b 0) t c;
              if negb (page_addr b 1 =? NO_PAGE) then leave_page (page_addr b 1) t c else Some c) = Some c' /\
    same_but_pages c c' /\ pages_ok c' (L ∖ {[t]}) /\
    forall j l, page_list c j l -> page_list c' j (filter (fun x => x.1 <> t) l).
Proof.
  intros Hb H Ht. destruct Hb as [Hnb Hbk]. assert (Hbt : block_ok b) by apply (Hbk t Ht).
  assert (Hb : blocks_ok c L) by done.
  assert (P0 : page_addr b 0 <> NO_PAGE) by (apply page_not_none, Hbt).
  destruct (leave_page_ok (page_addr b 0) t 0 c L (member c L)) as (c1 & -> & S1 & H1 & L1); [done|done|done| | |].
  { split; [done|]. split; [by left|done]. }
  { intros m [_ Hm]. eapply (on_page_tag b); [done| |exact Hm]. split; [by left|done]. }
  cbn [mbind option_bind]. assert (Sb := proj2 (proj2 (proj2 (proj1 S1)))).
  assert (Hb1 : blocks_ok c1 L) by (apply (blocks_ok_same c c1 L L); [apply S1|done|done]).
  assert (Hfil : forall j l, page_list c j l -> ~ (exists n, on_page b n j) -> filter (fun x : tagged => x.1 <> t) l = l).
  { intros j l Hl Hno. apply filter_keep, Forall_forall. intros [u m] Hx. cbn. intros ->. apply Hno. exists m.
    destruct (H j) as (lj & Hs & _ & Hmj & _). rewrite (page_list_det _ _ _ _ Hl Hs) in Hx. by apply Hmj in Hx as [_ Hx]. }
  destruct (Z.eqb_spec (page_addr b 1) NO_PAGE) as [P1|P1]; cbn [negb].
  - exists c1. split; [done|]. split; [done|]. split.
    + intros j. destruct (H1 j) as (l & Hs & Hd & Hm & Hbm). exists l. split; [done|]. split; [done|]. split; [|done].
      intros x. rewrite Hm. unfold member. rewrite (on_page_same (tbs c x.1) (tbs c1 x.1)) by apply Sb.
      rewrite elem_of_difference, elem_of_singleton. split; [|naive_solver].
      intros [[Hx Hp] Hne]. split; [|done]. split; [done|]. intros E. apply Hne; [|done]. rewrite E in Hp.
      destruct (on_page_cases b _ _ Hbt Hp) as [[_ ->]|(_ & Hc & _)]; done.
    + intros j l Hl. specialize (L1 j l Hl). case_decide as Hj; [done|]. rewrite (Hfil j l Hl); [done|].
      intros [n Hp]. destruct (on_page_cases b _ _ Hbt Hp) as [[_ E]|(_ & Hc & _)]; done.
  - destruct (block_pages b Hbt P1) as (Q0 & Q1 & Hne).
    destruct (leave_page_ok (page_addr b 1) t 1 c1 L (fun j x => member c L j x /\
      (j = Z.shiftr (page_addr b 0) TARGET_PAGE_BITS -> x.1 <> t))) as (c2 & -> & S2 & H2 & L2); [done|done| | | |].
    { intros j x [[Hx Hp] _]. split; [done|]. by rewrite (on_page_same (tbs c x.1) (tbs c1 x.1)) by apply Sb. }
    { split; [split; [done|split; [by right|done]]|done]. }
    { intros m [[_ Hm] _]. eapply (on_page_tag b); [done| |exact Hm]. split; [by right|done]. }
    exists c2. assert (S3 : same_but_pages c c2) by (by etransitivity). assert (Sb3 := proj2 (proj2 (proj2 (proj1 S3)))).
    split; [done|]. split; [done|]. split.
    + intros j. destruct (H2 j) as (l & Hs & Hd & Hm & Hbm). exists l. split; [done|]. split; [done|]. split; [|done].
      intros x. rewrite Hm. unfold member. rewrite (on_page_same (tbs c x.1) (tbs c2 x.1)) by apply Sb3.
      rewrite elem_of_difference, elem_of_singleton. split; [|naive_solver].
      intros [[[Hx Hp] Hn0] Hn1]. split; [|done]. split; [done|]. intros E. rewrite E in Hp.
      destruct (on_page_cases b _ _ Hbt Hp) as [[_ ->]|(_ & _ & ->)]; [by apply Hn0|by apply Hn1].
    + intros j l Hl. specialize (L2 j _ (L1 j l Hl)). case_decide as Hj1; case_decide as Hj0; [congruence|done|done|].
      rewrite (Hfil j l Hl); [done|]. intros [n Hp]. destruct (on_page_cases b _ _ Hbt Hp) as [[_ E]|(_ & _ & E)]; done.
Qed.

Lemma set_first_same t v c : same_but_jumps c (set_tb t (fun b => b <| jmp_first := v |>) c).
Proof. unfold same_but_jumps, same_code, same_hash, same_pages, same_found. same. Qed.

(** The jumps out of the block, and those into it. *)
Lemma jmp_remove_target t n c c' u : tb_jmp_remove t n c = Some c' -> tb_next (tbs c' u) = tb_next (tbs c u).
Proof.
  unfold tb_jmp_remove. destruct (jmp_next (tbs c t) n); [|by intros [= <-]].
  intros (ptb & _ & [= <-])%bind_Some. by rewrite !set_jmp_target.
Qed.

Lemma leave_jumps_ok t c L : blocks_ok c L -> jumps_ok c L -> t ∈ L ->
  exists c', (c ← tb_jmp_remove t 0 c; c ← tb_jmp_remove t 1 c;
              c ← suppress_jumps (links c) (jmp_first (tbs c t)) c;
              Some (set_tb t (fun b => b <| jmp_first := Some (t, 2) |>) c)) = Some c' /\
    same_but_jumps c c' /\ jumps_ok c' (L ∖ {[t]}) /\ fewer c c' /\
    jmp_link c' (t, 0) = None /\ jmp_link c' (t, 1) = None /\
    forall n, is_jump (t, n) -> tb_next (tbs c' t) n = tb_next (tbs c t) n.
Proof.
  intros Hb (J & H & HT) Ht.
  destruct (tb_jmp_remove_ok t 0 c L J _ Hb H HT Ht) as (c1 & J1 & X1 & H1 & S1 & T1 & N1 & F1); [by left|]. rewrite X1.
  cbn [mbind option_bind]. assert (Hb1 : blocks_ok c1 L) by (apply (blocks_ok_same c c1 L L); [apply S1|done|done]).
  destruct (tb_jmp_remove_ok t 1 c1 L J1 _ Hb1 H1 T1 Ht) as (c2 & J2 & X2 & H2 & S2 & T2 & N2 & F2); [by right|]. rewrite X2.
  cbn [mbind option_bind]. assert (Hb2 : blocks_ok c2 L) by (apply (blocks_ok_same c1 c2 L L); [apply S2|done|done]).
  assert (Hl := jump_length c2 L J2 t Hb2 H2 Ht).
  destruct (suppress_ok t (links c2) (jmp_link c2 (t, 2)) (J2 t) c2) as (c3 & E3 & S3 & _ & L3 & T3);
    [by apply (jumps_list c2 L J2)|by apply (jumps_nodup c2 L J2)| |lia|].
  { apply Forall_forall. intros x Hx. by apply (jumps_live c2 L J2 H2 t). }
  change (jmp_first (tbs c2 t)) with (jmp_link c2 (t, 2)). rewrite E3. cbn [mbind option_bind].
  set (c4 := set_tb t _ c3). eexists. split; [reflexivity|]. fold c4.
  assert (S4 : same_but_jumps c2 c4) by (etransitivity; [exact S3|apply set_first_same]).
  assert (L4 : forall y, y <> (t, 2) -> jmp_link c4 y = if decide (y ∈ J2 t) then None else jmp_link c2 y).
  { intros [u m] Hy. rewrite <- L3. unfold jmp_link, c4. cbn [fst snd]. rewrite tbs_set_tb.
    destruct (Z.eqb_spec u t) as [->|]; [|done]. destruct (Z.eqb_spec m 2) as [->|]; [done|done]. }
  assert (T4 : forall y, tb_next (tbs c4 y.1) y.2 = if decide (y ∈ J2 t) then exit_of c2 y else tb_next (tbs c2 y.1) y.2).
  { intros y. rewrite <- T3. unfold c4. rewrite tbs_set_tb. by destruct (Z.eqb_spec y.1 t) as [->|]. }
  assert (Hne : forall y, is_jump y -> y <> (t, 2)) by (intros y [Hy|Hy] ->; done).
  assert (Nt : forall y, y.1 = t -> is_jump y -> jmp_link c2 y = None).
  { intros [u m] Hu Hm. cbn in Hu. subst u. destruct Hm as [Hm|Hm]; cbn in Hm; subst m; [|done].
    apply F2; [done|by left|done]. }
  assert (Hout : forall tb x, tb ∈ L -> x ∈ J2 tb -> x.1 <> t).
  { intros tb x Htb Hx E. assert (Hx' := Hx). apply (jumps_live c2 L J2 H2 tb) in Hx' as [_ Hj]; [|done].
    by apply (not_listed c2 L J2 x tb H2 (Nt x E Hj) Htb). }
  split; [by etransitivity; [|etransitivity]|]. split; [|split].
  - exists J2. split; [split|split].
    + intros tb Htb. assert (Htb' : tb ∈ L) by set_solver. rewrite L4, decide_False.
      * apply seg_ext with (jmp_link c2); [|by apply (jumps_list c2 L J2)]. intros y Hy. change (id y) with y.
        assert (Hj := proj2 (jumps_live c2 L J2 H2 tb y Htb' Hy)). rewrite L4 by (by apply Hne).
        apply decide_False. intros Hy'. assert (tb = t) by (by apply (jumps_one c2 L J2 H2 tb t y)). set_solver.
      * intros Hx. apply (jumps_live c2 L J2 H2 t) in Hx as [_ Hx]; [by destruct Hx|done].
      * intros [= ->]. set_solver.
    + intros tb Htb. apply (jumps_nodup c2 L J2 H2). set_solver.
    + intros tb x Htb Hx. assert (Htb' : tb ∈ L) by set_solver. destruct (jumps_live c2 L J2 H2 tb x Htb' Hx) as [Hx1 Hj].
      split; [|done]. apply elem_of_difference. split; [done|]. rewrite elem_of_singleton. by apply (Hout tb).
    + intros tb tb' x Htb Htb'. apply (jumps_one c2 L J2 H2); set_solver.
    + intros x Hx Hj. rewrite L4 by (by apply Hne). case_decide as Hin; [done|]. intros Hn.
      destruct (jumps_all c2 L J2 H2 x) as (tb & Htb & Hxt); [set_solver|done|done|]. exists tb. split; [|done].
      apply elem_of_difference. split; [done|]. rewrite elem_of_singleton. by intros ->.
    + intros tb x Htb Hx. assert (Htb' : tb ∈ L) by set_solver. rewrite T4, decide_False.
      * destruct S4 as ((_ & _ & _ & Hbk) & _). destruct (Hbk tb) as (_ & _ & _ & _ & _ & -> & _).
        by apply (proj1 T2).
      * intros Hx'. assert (tb = t) by (by apply (jumps_one c2 L J2 H2 tb t x)). set_solver.
    + intros x Hx Hj Hn _ Hoff. change (u32 _) with (exit_of c4 x). rewrite (exit_of_same c2), T4 by apply S4.
      case_decide as Hin; [done|]. destruct S4 as ((_ & _ & _ & Hbk) & _).
      destruct (Hbk x.1) as (_ & _ & _ & _ & _ & _ & _ & Ho). rewrite Ho in Hoff.
      apply (proj2 T2); [set_solver|done| | |done].
      * rewrite L4, decide_False in Hn by (done || by apply Hne). done.
      * intros [[[]| ->]| ->]; cbn in Hx; set_solver.
  - intros y Hj Hy. rewrite L4 by (by apply Hne). case_decide as Hin; [done|].
    destruct (decide (y = (t, 1))) as [->|Hy1]; [done|]. apply F2; [done|done|].
    destruct (decide (y = (t, 0))) as [->|Hy0]; [done|]. by apply F1.
  - split; [|split; [|intros n Hn]]; [rewrite L4 by done; case_decide; [done|]; by apply Nt; [|left]..| |].
    + rewrite L4 by done. case_decide; [done|]. by apply Nt; [|right].
    + assert (E := T4 (t, n)). cbn [fst snd] in E. rewrite E, decide_False by (intros Hin; by apply (Hout t (t, n) Ht Hin)).
      by rewrite (jmp_remove_target t 1 c1 c2 t X2), (jmp_remove_target t 0 c c1 t X1).
Qed.

(** ** The invariant *)

(** [L] are the blocks that can be found. *)
Record tables_ok (c : cache) (L : gset Z) : Prop := {
  ok_blocks : blocks_ok c L;
  ok_hash : hash_ok c L;
  ok_pages : pages_ok c L;
  ok_jumps : jumps_ok c L;
  ok_found h t : tb_jmp_cache c h = Some t -> t ∈ L /\ tb_jmp_cache_hash_func (pc (tbs c t)) = h;
  ok_current : current_ok c L;
}.

Lemma pages_ok_other c c' L L' : same_but_hash c c' -> L' = L -> pages_ok c L -> pages_ok c' L'.
Proof. intros (S1 & S2 & _) ->. by apply pages_ok_same. Qed.

Lemma page_list_same c c' i l : same_pages c c' -> page_list c i l -> page_list c' i l.
Proof.
  intros Hp H. unfold page_list. change (head i c') with (plink i c' None). rewrite (plink_same c) by done.
  apply seg_ext with (plink i c); [|done]. intros x _. by apply plink_same.
Qed.

Lemma tb_phys_invalidate_ok t c L : blocks_ok c L -> hash_ok c L -> pages_ok c L -> jumps_ok c L ->
  (forall h u, tb_jmp_cache c h = Some u -> u ∈ L /\ tb_jmp_cache_hash_func (pc (tbs c u)) = h) -> t ∈ L ->
  exists c', tb_phys_invalidate t NO_PAGE c = Some c' /\
    blocks_ok c' (L ∖ {[t]}) /\ hash_ok c' (L ∖ {[t]}) /\ pages_ok c' (L ∖ {[t]}) /\ jumps_ok c' (L ∖ {[t]}) /\
    (forall h u, tb_jmp_cache c' h = Some u -> u ∈ L ∖ {[t]} /\ tb_jmp_cache_hash_func (pc (tbs c' u)) = h) /\
    same_code c c' /\ fewer c c' /\ jmp_link c' (t, 0) = None /\ jmp_link c' (t, 1) = None /\
    (forall i l, page_list c i l -> page_list c' i (filter (fun x => x.1 <> t) l)) /\
    forall n, is_jump (t, n) -> tb_next (tbs c' t) n = tb_next (tbs c t) n.
Proof.
  intros Hb Hh Hp Hj Hf Ht. unfold tb_phys_invalidate. fold (phys_hash (tbs c t)).
  destruct (tb_remove_ok t c L Hb Hh Ht) as (c1 & -> & H1 & S1). cbn [mbind option_bind].
  assert (Hb1 : blocks_ok c1 L) by (apply (blocks_ok_same c c1 L L); [apply S1|done|done]).
  assert (Hbk := proj2 (proj2 (proj2 (proj1 S1)))). destruct (Hbk t) as (_ & _ & _ & _ & _ & _ & Ea & _).
  assert (P0 : page_addr (tbs c t) 0 <> NO_PAGE) by (apply page_not_none, (proj2 Hb t Ht)).
  rewrite (proj2 (Z.eqb_neq _ _) P0). cbn [negb]. rewrite andb_diag.
  destruct (leave_pages_ok t c1 L Hb1 (pages_ok_other c c1 L L S1 eq_refl Hp) Ht) as (c2 & E2 & S2 & H2 & L2).
  rewrite Ea in E2. apply bind_Some in E2 as (c1' & -> & E2). cbn [mbind option_bind]. rewrite E2. cbn [mbind option_bind].
  set (c3 := c2 <| tb_invalidated_flag := 1 |>). remember (tb_jmp_cache_hash_func (pc (tbs c t))) as h eqn:Eh.
  set (c4 := if decide _ then _ else c3).
  assert (S4 : forall u, tbs c4 u = tbs c2 u) by (intros u; unfold c4; by case_decide).
  assert (K4 : same_code c2 c4 /\ same_hash c2 c4 /\ same_pages c2 c4 /\ same_jumps c2 c4).
  { unfold c4, same_code, same_hash, same_pages, same_jumps. case_decide; same. }
  destruct K4 as (K1 & K2 & K3 & K4).
  assert (F4 : forall h' u, tb_jmp_cache c4 h' = Some u -> tb_jmp_cache c h' = Some u /\ u <> t).
  { intros h' u Hu. assert (E : tb_jmp_cache c3 = tb_jmp_cache c) by (change (tb_jmp_cache c3) with (tb_jmp_cache c2);
      etransitivity; [apply S2|apply S1]).
    unfold c4 in Hu. rewrite E in Hu. case_decide as Hd; cbn in Hu; unfold put in Hu.
    - destruct (Z.eqb_spec h' h) as [->|Hne]; [done|]. split; [done|]. intros ->. apply Hf in Hu as [_ Hu]. congruence.
    - change (tb_jmp_cache c2) with (tb_jmp_cache c3) in Hu. rewrite E in Hu. split; [done|]. intros ->. assert (Hu' := Hu). apply Hf in Hu as [_ Hu]. apply Hd. congruence. }
  assert (G2 : same_code c c2) by (etransitivity; [apply S1|apply S2]).
  assert (G4 : same_code c c4) by (by etransitivity).
  assert (Hb4 : blocks_ok c4 L) by (by apply (blocks_ok_same c c4 L L)).
  assert (J4 : forall y, jmp_link c4 y = jmp_link c y).
  { intros y. unfold jmp_link. destruct S1 as (_ & _ & A & _), S2 as (_ & _ & B & _).
    destruct (A y.1) as (A1 & A2 & _), (B y.1) as (B1 & B2 & _), (K4 y.1) as (C1 & C2 & _).
    by rewrite C1, C2, B1, B2, A1, A2. }
  assert (Tn : forall u, tb_next (tbs c4 u) = tb_next (tbs c u)).
  { intros u. destruct S1 as (_ & _ & A & _), S2 as (_ & _ & B & _).
    destruct (A u) as (_ & _ & A3), (B u) as (_ & _ & B3), (K4 u) as (_ & _ & C3). congruence. }
  assert (Hj4 : jumps_ok c4 L).
  { destruct Hj as (J & HJ & T1 & T2). exists J. split; [by apply (jumps_same c)|].
    assert (G := proj2 (proj2 (proj2 G4))). split.
    - intros tb x. rewrite Tn. destruct (G tb) as (_ & _ & _ & _ & _ & -> & _). apply T1.
    - intros x. rewrite Tn, J4. destruct (G x.1) as (_ & _ & _ & _ & _ & -> & _ & ->). apply T2. }
  destruct (leave_jumps_ok t c4 L Hb4 Hj4 Ht) as (c5 & E5 & S5 & H5 & F5 & N0 & N1 & X5).
  apply bind_Some in E5 as (c6 & -> & E5). cbn [mbind option_bind]. apply bind_Some in E5 as (c7 & -> & E5). cbn [mbind option_bind].
  apply bind_Some in E5 as (c8 & -> & E5). cbn [mbind option_bind]. injection E5 as <-.
  set (c9 := set_tb t _ c8) in *. eexists. split; [reflexivity|]. set (c' := c9 <| tb_phys_invalidate_count := _ |>).
  assert (G9 : same_code c c9) by (etransitivity; [exact G4|apply S5]).
  assert (Hs : L ∖ {[t]} ⊆ L) by set_solver.
  assert (P9 : same_pages c2 c9) by (etransitivity; [exact K3|apply S5]).
  split; [by apply (blocks_ok_same c c' L)|].
  split; [|split; [|split; [|split; [|split; [|split; [|split; [|split; [|split]]]]]]]].
  - apply (hash_ok_same c1 c'); [| |done]; [etransitivity; [apply S2|]; etransitivity; [exact K1|apply S5]|].
    etransitivity; [apply S2|]. etransitivity; [exact K2|apply S5].
  - apply (pages_ok_same c2 c'); [etransitivity; [exact K1|apply S5]|exact P9|done].
  - by apply (jumps_ok_same c9).
  - intros h' u Hu. change (tb_jmp_cache c' h') with (tb_jmp_cache c9 h') in Hu.
    destruct S5 as (_ & _ & _ & S5). rewrite S5 in Hu. apply F4 in Hu as [Hu Hne]. apply Hf in Hu as [Hu Hh'].
    split; [set_solver|]. destruct (proj2 (proj2 (proj2 G9)) u) as (E & _). change (tbs c') with (tbs c9). by rewrite E.
  - exact G9.
  - intros y Hy Hn. apply F5; [done|]. by rewrite J4.
  - exact N0.
  - exact N1.
  - intros i l Hl. apply (page_list_same c2 c'); [exact P9|]. apply L2. apply (page_list_same c); [apply S1|done].
  - intros n Hn. change (tbs c' t) with (tbs c9 t). by rewrite X5, Tn.
Qed.

(** ** Bitmaps *)

Definition bit_of (tab : Z -> Z) (k : Z) : bool := Z.testbit (tab (Z.shiftr k 3)) (Z.land k 7).

Lemma byte_split k : Z.shiftr k 3 = k / 8 /\ Z.land k 7 = k mod 8 /\ Z.land k (Z.lnot 7) = 8 * (k / 8).
Proof.
  change 7 with (Z.ones 3). rewrite Z.shiftr_div_pow2, Z.land_ones by lia. change (2 ^ 3) with 8. split; [done|].
  split; [done|]. rewrite <- Z.ldiff_land, Z.ldiff_ones_r, Z.shiftr_div_pow2, Z.shiftl_mul_pow2 by lia.
  change (2 ^ 3) with 8. lia.
Qed.

Lemma ff_above b j : 0 <= b -> 0 <= j < 8 -> Z.testbit (Z.shiftl 0xff b) j = (b <=? j).
Proof.
  intros Hb Hj. rewrite Z.shiftl_spec by lia. destruct (Z.leb_spec b j).
  - change 0xff with (Z.ones 8). apply Z.ones_spec_low. lia.
  - apply Z.testbit_neg_r. lia.
Qed.

Lemma byte_or x m j : 0 <= j < 8 -> Z.testbit (u8 (Z.lor x m)) j = Z.testbit x j || Z.testbit m j.
Proof. intros Hj. unfold u8, wrap. rewrite Z.mod_pow2_bits_low by lia. apply Z.lor_spec. Qed.

Lemma set_bytes_ok : forall fuel tab i m, i <= m -> m - i <= Z.of_nat fuel ->
  exists tab', set_bytes fuel tab i (8 * i) (8 * m) = (tab', m, 8 * m) /\
    forall x, tab' x = if decide (i <= x < m) then 0xff else tab x.
Proof.
  induction fuel as [|fuel IH]; intros tab i m Hi Hf; cbn [set_bytes].
  - assert (i = m) as -> by lia. exists tab. split; [done|]. intros x. by rewrite decide_False by lia.
  - destruct (Z.ltb_spec (8 * i) (8 * m)).
    + replace (8 * i + 8) with (8 * (i + 1)) by lia. destruct (IH (put tab i 0xff) (i + 1) m) as (tab' & -> & H'); [lia..|].
      exists tab'. split; [done|]. intros x. rewrite H'. unfold put. destruct (Z.eqb_spec x i); repeat case_decide; done || lia.
    + assert (i = m) as -> by lia. exists tab. split; [done|]. intros x. by rewrite decide_False by lia.
Qed.

(** [set_bits] sets the bits of the range and no others. *)
Lemma set_bits_spec tab start len k : 0 <= start -> 0 <= len -> start + len <= TARGET_PAGE_SIZE ->
  bit_of (set_bits tab start len) k = bool_decide (start <= k < start + len) || bit_of tab k.
Proof.
  intros H0 Hl H1. unfold bit_of, set_bits, TARGET_PAGE_SIZE in *.
  destruct (byte_split start) as (-> & -> & ->), (byte_split (start + len)) as (_ & -> & ->),
    (byte_split k) as (-> & -> & _), (byte_split (start + 8)) as (_ & _ & ->).
  set (stop := start + len) in *. pose proof (Z.div_mod k 8 ltac:(lia)) as Ek. pose proof (Z.mod_pos_bound k 8 ltac:(lia)).
  pose proof (Z.div_mod start 8 ltac:(lia)) as Es. pose proof (Z.mod_pos_bound start 8 ltac:(lia)).
  pose proof (Z.div_mod stop 8 ltac:(lia)) as Ee. pose proof (Z.mod_pos_bound stop 8 ltac:(lia)).
  replace ((start + 8) / 8) with (start / 8 + 1) by (rewrite <- Z.div_add by lia; f_equal; lia).
  set (i := k / 8) in *. set (j := k mod 8) in *. set (a := start / 8) in *. set (b := start mod 8) in *.
  set (m := stop / 8) in *. set (e := stop mod 8) in *. clearbody i j a b m e.
  destruct (Z.eqb_spec (8 * a) (8 * m)) as [Eam|Eam].
  - destruct (Z.ltb_spec start stop) as [Hlt|Hge]; [|by rewrite bool_decide_false by lia].
    unfold put. destruct (Z.eqb_spec i a) as [->|Hia].
    + rewrite byte_or, Z.land_spec, Z.lnot_spec, !ff_above, orb_comm by lia. f_equal.
      apply eq_true_iff_eq. rewrite bool_decide_eq_true, andb_true_iff, negb_true_iff, Z.leb_le, Z.leb_gt. lia.
    + by rewrite bool_decide_false by lia.
  - destruct (set_bytes_ok (Z.to_nat (4096 / 8)) (put tab a (u8 (Z.lor (tab a) (Z.shiftl 255 b)))) (a + 1) m)
      as (tab' & -> & H'); [lia|change (4096 / 8) with 512; lia|].
    assert (Hb : forall x, Z.testbit (tab' x) j =
      bool_decide (8 * x + j < 8 * m /\ start <= 8 * x + j) || Z.testbit (tab x) j).
    { intros x. rewrite H'. unfold put. case_decide as Hx.
      - rewrite bool_decide_true by lia. change 0xff with (Z.ones 8). by rewrite Z.ones_spec_low by lia.
      - destruct (Z.eqb_spec x a) as [->|]; [|by rewrite bool_decide_false by lia].
        rewrite byte_or, ff_above, orb_comm by lia. f_equal. apply eq_true_iff_eq. rewrite bool_decide_eq_true, Z.leb_le. lia. }
    destruct (Z.ltb_spec (8 * m) stop) as [Hlt|Hge].
    + unfold put. destruct (Z.eqb_spec i m) as [->|Him].
      * rewrite byte_or, Z.lnot_spec, ff_above, Hb, bool_decide_false, orb_comm by lia. cbn [orb]. f_equal.
        apply eq_true_iff_eq. rewrite bool_decide_eq_true, negb_true_iff, Z.leb_gt. lia.
      * rewrite Hb. f_equal. apply bool_decide_ext. lia.
    + rewrite Hb. f_equal. apply bool_decide_ext. lia.
Qed.

(** The bytes of a block in each of its pages. *)
Lemma page_range_ok b n i : block_ok b -> on_page b n i ->
  page_range b n = (if n =? 0 then (page_off (pc b), Z.min TARGET_PAGE_SIZE (page_off (pc b) + size b))
                    else (0, page_off (pc b) + size b - 4096)) /\
  0 <= page_off (pc b) < 4096 /\ (n <> 0 -> 4096 < page_off (pc b) + size b < 8192).
Proof.
  intros (Hpc & Hs & _ & Hp) (Hn & Hne & _). unfold page_range, TARGET_PAGE_SIZE.
  rewrite !page_off_mod, u32_page. pose proof (Z.mod_pos_bound (pc b) 4096 ltac:(lia)) as Hm. rewrite page_off_mod in Hp.
  destruct Hn as [-> | ->]; cbn [Z.eqb Pos.eqb].
  - split; [|split; [lia|done]]. f_equal. destruct (Z.ltb_spec 4096 (pc b mod 4096 + size b)); lia.
  - destruct (Z.leb_spec (pc b mod 4096 + size b) 4096); [done|]. split; [|lia]. f_equal.
    pose proof (Z.div_mod (pc b) 4096 ltac:(lia)). symmetry. apply Z.mod_unique with (pc b / 4096 + 1); lia.
Qed.

Definition in_block (c : cache) (k : Z) (x : tagged) : Prop :=
  (page_range (tbs c x.1) x.2).1 <= k < (page_range (tbs c x.1) x.2).2.

Lemma bitmap_loop_ok c L i : blocks_ok c L -> forall fuel l p tab, seg Some (plink i c) p None l ->
  Forall (member c L i) l -> (length l < fuel)%nat ->
  exists tab', bitmap_loop fuel p c tab = Some tab' /\ forall k, 0 <= k < TARGET_PAGE_SIZE ->
    bit_of tab' k = true <-> bit_of tab k = true \/ exists x, x ∈ l /\ in_block c k x.
Proof.
  intros Hb. induction fuel as [|fuel IH]; intros [|[t n] l] p tab Hs Hl Hf; cbn [seg] in Hs; [cbn in Hf; lia..| |].
  - subst p. exists tab. split; [done|]. intros k _. set_solver.
  - destruct Hs as [-> Hs]. inversion_clear Hl as [|? ? [Ht Hp] Hl']. cbn [fst snd] in Ht, Hp. cbn [bitmap_loop].
    destruct (proj2 Hb t Ht) as (_ & _ & Hbk). destruct (page_range_ok _ _ _ Hbk Hp) as (Er & Ho & H1).
    destruct (page_range (tbs c t) n) as [lo hi] eqn:E.
    assert (Hr : 0 <= lo <= hi /\ hi <= TARGET_PAGE_SIZE).
    { unfold TARGET_PAGE_SIZE in *. destruct Hbk as (_ & Hsz & _). destruct Hp as [[-> | ->] _]; cbn in Er; injection Er as -> ->; lia. }
    destruct (IH l (page_next (tbs c t) n) (set_bits tab lo (hi - lo))) as (tab' & -> & H'); [done|done|cbn in Hf; lia|].
    exists tab'. split; [done|]. intros k Hk. rewrite H' by done. rewrite set_bits_spec, orb_true_iff, bool_decide_eq_true by lia.
    setoid_rewrite elem_of_cons. replace (lo + (hi - lo)) with hi by lia.
    assert (Hin : in_block c k (t, n) <-> lo <= k < hi) by (unfold in_block; cbn [fst snd]; by rewrite E).
    rewrite <- Hin. naive_solver.
Qed.

Lemma build_page_bitmap_ok c L i p : blocks_ok c L -> pages_ok c L -> page_find i c = Some p ->
  exists c', build_page_bitmap i p c = Some c' /\ same_but_pages c c' /\ pages_ok c' L /\
    (forall j l, page_list c j l -> page_list c' j l) /\ current_tb c' = current_tb c.
Proof.
  intros Hb H Hp. destruct (H i) as (l & Hs & Hd & Hm & _). unfold build_page_bitmap.
  assert (Hl : (S (length l) < links c)%nat).
  { apply (live_length_tagged c L); [done|done|]. intros x Hx. apply Hm in Hx as [Hx Hpg]. split; [done|apply Hpg]. }
  assert (Eh : first_tb p = head i c) by (unfold head; by rewrite Hp).
  destruct (bitmap_loop_ok c L i Hb (links c) l (first_tb p) (fun _ => 0)) as (tab & -> & Ht);
    [by rewrite Eh|apply Forall_forall; intros x; apply Hm|lia|]. cbn [mbind option_bind].
  eexists. split; [reflexivity|]. set (c' := set_page i _ c). assert (Hsame := set_page_same i _ c : same_but_pages c c').
  assert (Hlist : forall j l', page_list c j l' -> page_list c' j l').
  { intros j l' Hl'. unfold page_list. unfold c'. rewrite head_set_page by done.
    apply seg_ext with (plink j c); [|done]. intros x _. cbn. destruct Hsame as (_ & _ & _ & _).
    unfold set_page. by destruct (l1_map c _). }
  split; [done|]. split; [|split; [done|unfold c', set_page; by destruct (l1_map c _)]].
  assert (Sb := proj2 (proj2 (proj2 (proj1 Hsame)))).
  intros j. destruct (H j) as (lj & Hsj & Hdj & Hmj & Hbj). exists lj. split; [by apply Hlist|]. split; [done|]. split.
  - intros x. rewrite Hmj. unfold member. by rewrite (on_page_same (tbs c x.1) (tbs c' x.1)) by apply Sb.
  - intros q tab' Hq Htab. apply (bitmap_ok_same c); [apply Hsame|]. unfold c' in Hq. rewrite page_find_set in Hq.
    case_decide as Hji; [subst j|by eapply Hbj]. rewrite Hp in Hq. cbn in Hq. injection Hq as <-. cbn in Htab.
    injection Htab as <-. rewrite (page_list_det _ _ _ _ Hsj Hs). intros k Hk. fold (bit_of tab k). rewrite Ht by done.
    unfold bit_of. rewrite Z.bits_0. unfold in_block. naive_solver.
Qed.

(** ** Invalidating a range *)

Lemma current_ok_set c c' L t : current_ok c L -> fewer c c' -> jmp_link c' (t, 0) = None -> jmp_link c' (t, 1) = None ->
  current_ok (c' <| current_tb := current_tb c |>) (L ∖ {[t]}).
Proof.
  intros H Hf H0 H1 u Hu. cbn in Hu. change (jmp_link (c' <| current_tb := _ |>)) with (jmp_link c').
  destruct (decide (u = t)) as [->|Hne]; [by right|].
  destruct (H u Hu) as [Hin|[N0 N1]]; [left; set_solver|right].
  split; (apply Hf; [first [by left|by right]|done]).
Qed.

Lemma invalidate_block_ok t c L : tables_ok c L -> t ∈ L ->
  exists c', invalidate_block t c = Some c' /\ tables_ok c' (L ∖ {[t]}) /\ same_code c c' /\
    forall i l, page_list c i l -> page_list c' i (filter (fun x => x.1 <> t) l).
Proof.
  intros [Hb Hh Hp Hj Hf Hc] Ht. unfold invalidate_block. set (c0 := c <| current_tb := None |>).
  assert (S0 : same_code c c0) by (unfold same_code; same).
  destruct (tb_phys_invalidate_ok t c0 L) as (c1 & -> & B1 & H1 & P1 & J1 & F1 & S1 & W1 & N0 & N1 & L1 & _);
    [by apply (blocks_ok_same c c0 L L)|by apply (hash_ok_same c c0)|by apply (pages_ok_same c c0)|
     by apply (jumps_ok_same c)|done|done|]. cbn [mbind option_bind].
  set (c2 := c1 <| current_tb := current_tb c |>).
  assert (Hc2 : current_ok c2 (L ∖ {[t]})) by (by apply current_ok_set).
  assert (Hok : tables_ok c2 (L ∖ {[t]})).
  { split; [done|done|done|by apply (jumps_ok_same c1)|done|done]. }
  assert (S2 : same_code c c2) by (etransitivity; [exact S0|exact S1]).
  destruct (_ && _); [|by exists c2].
  destruct (cpu_interrupt_ok (interrupt_request c2) c2 (L ∖ {[t]})) as (c3 & -> & J3 & S3 & W3 & Hcur & _);
    [apply Hok|apply Hok|done|]. exists c3. split; [done|]. destruct S3 as (S3a & S3b & S3c & S3d).
  split; [|split; [by etransitivity|]].
  - destruct Hok as [A1 A2 A3 A4 A5 A6]. split.
    + by apply (blocks_ok_same c2 c3 (L ∖ {[t]})).
    + by apply (hash_ok_same c2 c3).
    + by apply (pages_ok_same c2 c3).
    + done.
    + intros h u. rewrite S3d. intros Hu. destruct (A5 h u Hu) as [? E]. split; [done|].
      destruct (proj2 (proj2 (proj2 S3a)) u) as (-> & _). done.
    + intros u Hu. destruct Hcur as [E|E]; [congruence|]. rewrite E in Hu.
      destruct (A6 u Hu) as [?|[M0 M1]]; [by left|right]. split; (apply W3; [first [by left|by right]|done]).
  - intros i l Hl. apply (page_list_same c2 c3); [done|]. by apply L1.
Qed.

Lemma seg_hd {S A} (place : A -> S) deref p l : seg place deref p None l -> p = hd_error l.
Proof. destruct l as [|a l]; cbn; [done|]. by intros [-> _]. Qed.

Lemma block_range_same b b' n : same_block b b' -> block_range b' n = block_range b n.
Proof. intros (E1 & _ & _ & E2 & _ & _ & E3 & _). unfold block_range. by rewrite E1, E2, E3. Qed.

(** The block with this tag overlaps the range. *)
Definition hit (c : cache) (start stop : Z) (x : tagged) : Prop :=
  overlaps start stop (block_range (tbs c x.1) x.2) = true.
#[global] Instance hit_dec c start stop x : Decision (hit c start stop x).
Proof. unfold hit. apply _. Defined.

Lemma hit_same c c' start stop x : same_code c c' -> hit c' start stop x <-> hit c start stop x.
Proof. intros (_ & _ & _ & Hb). unfold hit. by rewrite (block_range_same (tbs c x.1)). Qed.

Definition dead (c : cache) (start stop : Z) (l : list tagged) : gset Z := list_to_set (filter (hit c start stop) l).*1.

(** The bytes of guest memory that a block was made from. *)
Definition block_bytes (b : TranslationBlock) (a : Z) : Prop :=
  (page_base a = page_addr b 0 /\ page_off (pc b) <= page_off a < page_off (pc b) + size b) \/
  (page_addr b 1 <> NO_PAGE /\ page_base a = page_addr b 1 /\ page_off a + 4096 < page_off (pc b) + size b).

Definition touches (c : cache) (start stop t : Z) : Prop :=
  exists a, start <= a < stop /\ block_bytes (tbs c t) a.

(** The bytes from [start] to [stop] are in one page. *)
Definition one_page (start stop : Z) : Prop := is_u32 start /\ start < stop /\ page_off start + (stop - start) <= 4096.

Lemma page_of start stop a : one_page start stop -> start <= a < stop ->
  is_u32 a /\ page_base a = page_base start /\ page_off a = page_off start + (a - start) /\
  Z.shiftr start TARGET_PAGE_BITS = page_base start / 4096.
Proof.
  intros (Hu & _ & Ho) Ha. destruct (page_split start Hu) as (Es & Hr & Hm & Hb).
  pose proof (Z.div_mod (page_base start) 4096 ltac:(lia)) as Hd. unfold in_width in *.
  assert (Hmax : page_base start <= 2 ^ 32 - 4096) by lia.
  destruct (page_split a ltac:(unfold in_width; lia)) as (Ea & Hra & Hma & Hba).
  pose proof (Z.div_mod (page_base a) 4096 ltac:(lia)).
  split; [lia|]. split; [lia|]. split; [lia|]. unfold TARGET_PAGE_BITS. rewrite Z.shiftr_div_pow2 by lia.
  change (2 ^ 12) with 4096. symmetry. apply Z.div_unique with (page_off start); lia.
Qed.

Lemma page_ok_div a : page_ok a -> a = 4096 * (a / 4096) /\ Z.shiftr a TARGET_PAGE_BITS = a / 4096.
Proof.
  intros [Ha Ho]. rewrite page_off_mod in Ho. unfold TARGET_PAGE_BITS. rewrite Z.shiftr_div_pow2 by lia.
  pose proof (Z.div_mod a 4096 ltac:(lia)). split; [lia|done].
Qed.

(** The test of the code is the overlap of the bytes. *)
Lemma hit_touches c start stop t n : one_page start stop -> block_ok (tbs c t) ->
  on_page (tbs c t) n (Z.shiftr start TARGET_PAGE_BITS) ->
  (hit c start stop (t, n) <-> exists a, start <= a < stop /\ page_base a = page_addr (tbs c t) n /\
     page_off (pc (tbs c t)) <= page_off a + 4096 * n < page_off (pc (tbs c t)) + size (tbs c t)).
Proof.
  intros H1 Hb Hp. set (b := tbs c t) in *. assert (Hst := H1). destruct Hst as (Hu & Hlt & Ho).
  destruct (page_range_ok b n _ Hb Hp) as (_ & Hoff & Hn). destruct (page_split start Hu) as (Es & Hr & Hm & _).
  destruct (page_of start stop start H1 ltac:(lia)) as (_ & _ & _ & Esh). rewrite Esh in Hp.
  unfold hit, overlaps. cbn [fst snd]. fold b. rewrite negb_true_iff, orb_false_iff, !Z.leb_gt. unfold block_range.
  pose proof (Z.div_mod (page_base start) 4096 ltac:(lia)) as Hd.
  destruct Hp as ([-> | ->] & Hne & Hp); cbn [Z.eqb Pos.eqb].
  - destruct Hb as (_ & Hs & P0 & _). destruct (page_ok_div _ P0) as [E0 E0']. rewrite E0' in Hp. destruct P0 as [P0 _].
    unfold u32. rewrite (wrap_small 32 (page_addr b 0 + page_off (pc b))) by (unfold in_width; lia).
    rewrite wrap_small by (unfold in_width; lia). cbn [fst snd]. assert (Eb : page_base start = page_addr b 0) by lia. split.
    + intros [A1 A2]. exists (Z.max start (page_addr b 0 + page_off (pc b))).
      destruct (page_of start stop (Z.max start (page_addr b 0 + page_off (pc b))) H1) as (_ & -> & -> & _); lia.
    + intros (a & Ha & Eab & Hab). destruct (page_of start stop a H1 Ha) as (_ & _ & Eo & _). lia.
  - destruct (block_pages b Hb Hne) as (_ & P1 & _). destruct (page_ok_div _ P1) as [E1 E1']. rewrite E1' in Hp.
    specialize (Hn ltac:(done)). destruct P1 as [P1 _].
    assert (Eoff : page_off (u32 (pc b + size b)) = page_off (pc b) + size b - 4096).
    { rewrite !page_off_mod, u32_page in *. pose proof (Z.div_mod (pc b) 4096 ltac:(lia)).
      symmetry. apply Z.mod_unique with (pc b / 4096 + 1); lia. }
    rewrite Eoff. unfold u32. rewrite wrap_small by (unfold in_width; lia). cbn [fst snd].
    assert (Eb : page_base start = page_addr b 1) by lia. split.
    + intros [A1 A2]. exists start. destruct (page_of start stop start H1) as (_ & _ & _ & _); [lia|]. lia.
    + intros (a & Ha & Eab & Hab). destruct (page_of start stop a H1 Ha) as (_ & _ & Eo & _). lia.
Qed.

Section Range.
Context (code_gen_buffer : Z).

Lemma invalidate_loop_ok i start stop : forall fuel l2 l1 pr c L, tables_ok c L -> page_list c i (l1 ++ l2) ->
  (length l2 < fuel)%nat ->
  exists pr' c', invalidate_loop code_gen_buffer fuel (hd_error l2) start stop pr c = Some (pr', c') /\
    tables_ok c' (L ∖ dead c start stop l2) /\ same_code c c' /\
    page_list c' i (l1 ++ filter (fun x => ~ hit c start stop x) l2).
Proof using.
  induction fuel as [|fuel IH]; intros [|[t n] l2] l1 pr c L H Hl Hf; cbn [length] in Hf; [lia..| |].
  - exists pr, c. split; [done|]. unfold dead. cbn. split; [by rewrite difference_empty_L|]. split; [reflexivity|done].
  - cbn [hd_error invalidate_loop].
    assert (En : page_next (tbs c t) n = hd_error l2).
    { unfold page_list in Hl. rewrite seg_app in Hl. destruct Hl as (q & _ & [_ Hl]). by apply seg_hd in Hl. }
    rewrite En. destruct (ok_pages c L H i) as (l & Hs & Hd & Hm & _). rewrite (page_list_det _ _ _ _ Hs Hl) in Hd, Hm.
    assert (Hx : member c L i (t, n)) by (apply Hm; set_solver).
    destruct (overlaps start stop (block_range (tbs c t) n)) eqn:Eo.
    + destruct (invalidate_block_ok t c L H (proj1 Hx)) as (c1 & -> & H1 & S1 & L1). cbn [mbind option_bind].
      specialize (L1 i _ Hl). rewrite filter_app, filter_cons, decide_False in L1 by (cbn; naive_solver).
      rewrite <- filter_app, filter_keep in L1.
      2:{ apply Forall_forall. intros [u m] Hy. cbn. intros ->. assert (Hy' : member c L i (t, m)) by (apply Hm; set_solver).
          assert (m = n) as -> by (eapply on_page_tag; [apply (ok_blocks c L H), Hx|apply Hx|apply Hy']).
          apply NoDup_app in Hd as (_ & D2 & D3). inversion_clear D3. apply elem_of_app in Hy as [Hy|Hy]; [|done].
          apply (D2 _ Hy). left. }
      destruct (IH l2 l1 (find_current code_gen_buffer t pr c) c1 (L ∖ {[t]}) H1 L1) as (pr' & c2 & E2 & H2 & S2 & L2); [lia|].
      exists pr', c2. split; [exact E2|]. split; [|split; [by etransitivity|]].
      * assert (Ed : L ∖ dead c start stop ((t, n) :: l2) = (L ∖ {[t]}) ∖ dead c1 start stop l2).
        { unfold dead. rewrite filter_cons, decide_True by done. cbn.
          rewrite (list_filter_iff (hit c1 start stop) (hit c start stop)); [set_solver|]. intros x. by apply hit_same. }
        by rewrite Ed.
      * rewrite filter_cons, decide_False by (intros Hn; by apply Hn).
        rewrite (list_filter_iff _ (fun x => ~ hit c1 start stop x)); [done|]. intros x. by rewrite (hit_same c c1).
    + destruct (IH l2 (l1 ++ [(t, n)]) pr c L H) as (pr' & c2 & E2 & H2 & S2 & L2); [by rewrite <- app_assoc|lia|].
      exists pr', c2. split; [exact E2|]. split; [|split; [done|]].
      * unfold dead in *. rewrite filter_cons, decide_False; [done|]. unfold hit. cbn. by rewrite Eo.
      * rewrite filter_cons, decide_True by (unfold hit; cbn; by rewrite Eo). by rewrite <- app_assoc in L2.
Qed.

(** An assignment to a page that keeps its list, and keeps or drops its bitmap. *)
Lemma page_update_ok i f c L : (forall p, first_tb (f p) = first_tb p) ->
  (forall p, code_bitmap (f p) = code_bitmap p \/ code_bitmap (f p) = None) -> tables_ok c L ->
  tables_ok (set_page i f c) L /\ same_but_pages c (set_page i f c) /\
  (forall j l, page_list c j l -> page_list (set_page i f c) j l).
Proof using.
  intros Hf Hbm H. assert (Hs := set_page_same i f c). set (c' := set_page i f c) in *.
  assert (Hlist : forall j l, page_list c j l -> page_list c' j l).
  { intros j l Hl. unfold page_list, c'. rewrite head_set_page by done.
    apply seg_ext with (plink j c); [|done]. intros x _. cbn. unfold set_page. by destruct (l1_map c _). }
  split; [|done]. destruct H as [A1 A2 A3 A4 A5 A6]. destruct Hs as (S1 & S2 & S3 & S4). assert (Sb := proj2 (proj2 (proj2 S1))).
  assert (Ht : forall t, tbs c' t = tbs c t) by (intros; unfold c', set_page; by destruct (l1_map c _)).
  split.
  - by apply (blocks_ok_same c c' L).
  - by apply (hash_ok_same c c').
  - intros j. destruct (A3 j) as (l & Hl & Hd & Hm & Hb). exists l. split; [by apply Hlist|]. split; [done|]. split.
    + intros x. rewrite Hm. unfold member. by rewrite (on_page_same (tbs c x.1) (tbs c' x.1)) by apply Sb.
    + intros q tab Hq Htab. apply (bitmap_ok_same c); [done|]. unfold c' in Hq. rewrite page_find_set in Hq.
      case_decide as Hj; [subst j|by eapply Hb]. apply fmap_Some in Hq as (p & Hp & ->).
      destruct (Hbm p) as [E|E]; rewrite E in Htab; [by eapply Hb|done].
  - by apply (jumps_ok_same c c').
  - intros h u. rewrite S4. intros Hu. rewrite Ht. by apply A5.
  - intros u Hu. assert (E : current_tb c' = current_tb c) by (unfold c', set_page; by destruct (l1_map c _)).
    rewrite E in Hu. unfold jmp_link. rewrite !Ht. by apply (A6 u).
Qed.

Lemma dead_touches c L start stop l : one_page start stop -> tables_ok c L ->
  (forall x, x ∈ l <-> member c L (Z.shiftr start TARGET_PAGE_BITS) x) ->
  forall t, t ∈ L ∖ dead c start stop l <-> t ∈ L /\ ~ touches c start stop t.
Proof using.
  intros H1 H Hm t. rewrite elem_of_difference.
  assert (Hiff : t ∈ L -> (t ∈ dead c start stop l <-> touches c start stop t)).
  2:{ split; intros [Ht Hn]; (split; [done|]); intros Hx; by apply Hn, (Hiff Ht). }
  intros Ht. destruct (proj2 (ok_blocks c L H) t Ht) as (_ & _ & Hb). unfold dead.
  rewrite elem_of_list_to_set, list_elem_of_fmap. split.
  - intros ([u n] & E & Hx). cbn in E. subst u. apply list_elem_of_filter in Hx as [Hh Hx]. apply Hm in Hx as [_ Hp].
    cbn [fst snd] in Hp. apply (hit_touches c start stop t n H1 Hb Hp) in Hh as (a & Ha & Eb & Ho). exists a. split; [done|].
    destruct Hp as ([-> | ->] & Hne & _); [left|right]; (split; [done|]); [lia|split; [done|lia]].
  - intros (a & Ha & Hbytes). destruct (page_of start stop a H1 Ha) as (Hau & Eb & _ & Es).
    assert (Hx : exists n, on_page (tbs c t) n (Z.shiftr start TARGET_PAGE_BITS) /\ page_base a = page_addr (tbs c t) n /\
      page_off (pc (tbs c t)) <= page_off a + 4096 * n < page_off (pc (tbs c t)) + size (tbs c t)).
    { destruct (page_split a Hau) as (_ & Hra & _). destruct Hbytes as [[E Ho]|(Hne & E & Ho)]; [exists 0|exists 1].
      - assert (P0 : page_ok (page_addr (tbs c t) 0)) by apply Hb. split; [|split; [done|lia]].
        split; [by left|]. split; [by apply page_not_none|]. rewrite Es, <- Eb, E. apply page_ok_div, P0.
      - destruct (block_pages _ Hb Hne) as (_ & P1 & _). split; [|split; [done|]].
        + split; [by right|]. split; [done|]. rewrite Es, <- Eb, E. apply page_ok_div, P1.
        + destruct Hb as (_ & Hsz & _ & Hp). destruct (page_range_ok (tbs c t) 1 (page_addr (tbs c t) 1 / 4096)) as (_ & Hoff & _).
          * by apply (ok_blocks c L H).
          * split; [by right|]. split; [done|]. apply page_ok_div, P1.
          * lia. }
    destruct Hx as (n & Hp & E & Ho). exists (t, n). split; [done|]. apply list_elem_of_filter.
    split; [|by apply Hm]. apply (hit_touches c start stop t n H1 Hb Hp). by exists a.
Qed.

Lemma touches_same c c' start stop t : same_code c c' -> touches c' start stop t <-> touches c start stop t.
Proof using.
  intros (_ & _ & _ & Hb). unfold touches, block_bytes. by destruct (Hb t) as (-> & _ & _ & -> & _ & _ & -> & _).
Qed.

(** The first part of the function counts the write and may build the bitmap. *)
Lemma count_write_ok i w p c L : tables_ok c L -> page_find i c = Some p ->
  exists c', (match code_bitmap p with
              | Some _ => Some c
              | None =>
                let count := u32 (code_write_count p + 1) in
                let c := set_page i (fun p => p <| code_write_count := count |>) c in
                if (SMC_BITMAP_USE_THRESHOLD <=? count) && w then build_page_bitmap i p c else Some c
              end) = Some c' /\
  tables_ok c' L /\ same_code c c' /\ forall j l, page_list c j l -> page_list c' j l.
Proof using.
  intros H Hp. destruct (code_bitmap p) as [tab|] eqn:Eb; [exists c; done|]. cbv zeta.
  set (f := fun p : PageDesc => p <| code_write_count := _ |>).
  destruct (page_update_ok i f c L) as (H1 & S1 & L1); [done|by left|done|]. set (c1 := set_page i f c) in *.
  destruct (_ && w); [|exists c1; split; [done|]; split; [done|]; split; [apply S1|done]].
  assert (Hp1 : page_find i c1 = Some (f p)) by (unfold c1; by rewrite page_find_set, decide_True, Hp).
  destruct (build_page_bitmap_ok c1 L i (f p)) as (c2 & E2 & S2 & P2 & L2 & C2); [apply H1|apply H1|done|].
  exists c2. split; [exact E2|]. split; [|split; [etransitivity; [apply S1|apply S2]|auto]].
  destruct H1 as [A1 A2 A3 A4 A5 A6], S2 as (S2a & S2b & S2c & S2d). split.
  - by apply (blocks_ok_same c1 c2 L).
  - by apply (hash_ok_same c1 c2).
  - done.
  - destruct A4 as (J & HJ & T1 & T2). assert (Hl : forall y, jmp_link c2 y = jmp_link c1 y).
    { intros y. unfold jmp_link. destruct (S2c y.1) as (-> & -> & _). done. }
    exists J. split; [by apply (jumps_same c1)|]. assert (G := proj2 (proj2 (proj2 S2a))). split.
    + intros tb x. destruct (S2c x.1) as (_ & _ & ->), (G tb) as (_ & _ & _ & _ & _ & -> & _). apply T1.
    + intros x. rewrite Hl. destruct (S2c x.1) as (_ & _ & ->), (G x.1) as (_ & _ & _ & _ & _ & -> & _ & ->). apply T2.
  - intros h u. rewrite S2d. intros Hu. destruct (proj2 (proj2 (proj2 S2a)) u) as (-> & _). by apply A5.
  - intros u. rewrite C2. intros Hu. unfold jmp_link. cbn [fst snd]. destruct (S2c u) as (-> & -> & _). by apply (A6 u).
Qed.

Section Memory.
Context {D : Type}.
Abbreviation phys := (phys (D := D)).

(** What [tb_invalidate_phys_page_range] leaves: the blocks the range does not touch, and
    the memory, in which the page becomes dirty for code when no block is left in it. *)
Definition invalidated (start stop : Z) (w : bool) (c : cache) (L : gset Z) (s : phys) (c' : cache) (s' : phys) : Prop :=
  exists L', tables_ok c' L' /\ same_code c c' /\ (forall t, t ∈ L' <-> t ∈ L /\ ~ touches c start stop t) /\
  (s' = s \/ w = true /\ s' = tlb_unprotect_code_phys start s /\
     forall t a, t ∈ L' -> block_bytes (tbs c t) a -> page_base a <> page_base start).

Lemma empty_page c L i : tables_ok c L -> page_list c i [] ->
  forall t a, t ∈ L -> block_bytes (tbs c t) a -> page_base a / 4096 <> i.
Proof using.
  intros H Hl t a Ht Hbytes Ei. destruct (ok_pages c L H i) as (l & Hs & _ & Hm & _).
  rewrite (page_list_det _ _ _ _ Hs Hl) in Hm. destruct (proj2 (ok_blocks c L H) t Ht) as (_ & _ & Hb).
  destruct Hbytes as [[E _]|(Hne & E & _)].
  - assert (P0 : page_ok (page_addr (tbs c t) 0)) by apply Hb.
    assert (Hx : (t, 0) ∈ @nil tagged); [|set_solver]. apply Hm. split; [done|]. split; [by left|].
    split; [by apply page_not_none|]. cbn [fst snd]. rewrite <- Ei, E. apply page_ok_div, P0.
  - destruct (block_pages _ Hb Hne) as (_ & P1 & _).
    assert (Hx : (t, 1) ∈ @nil tagged); [|set_solver]. apply Hm. split; [done|]. split; [by right|].
    split; [done|]. cbn [fst snd]. rewrite <- Ei, E. apply page_ok_div, P1.
Qed.

Lemma block_bytes_same b b' a : same_block b b' -> block_bytes b' a <-> block_bytes b a.
Proof using. intros (E1 & _ & _ & E2 & _ & _ & E3 & _). unfold block_bytes. by rewrite E1, E2, E3. Qed.

Lemma range_ok start stop w c (s : phys) L : one_page start stop -> tables_ok c L ->
  exists m c' s', tb_invalidate_phys_page_range code_gen_buffer start stop w c s = Some (m, c', s') /\
    invalidated start stop w c L s c' s'.
Proof using.
  intros H1 H. unfold tb_invalidate_phys_page_range, invalidated. cbv zeta. set (i := Z.shiftr start TARGET_PAGE_BITS).
  destruct (page_of start stop start H1 ltac:(destruct H1; lia)) as (_ & _ & _ & Es). fold i in Es.
  destruct (page_find i c) as [p|] eqn:Ep.
  2:{ exists None, c, s. split; [done|]. exists L. split; [done|]. split; [reflexivity|]. split; [|by left]. intros t.
      split; [|tauto]. intros Ht. split; [done|]. intros (a & Ha & Hbytes). destruct (page_of start stop a H1 Ha) as (_ & Eb & _).
      apply (empty_page c L i H) in Hbytes; [congruence| |done]. unfold page_list, head. by rewrite Ep. }
  destruct (count_write_ok i w p c L H Ep) as (c1 & Ec & T1 & S1 & L1). cbv zeta in Ec. rewrite Ec. cbn [mbind option_bind].
  destruct (ok_pages c L H i) as (l & Hs & Hd & Hm & _).
  assert (Hl : (S (length l) < links c)%nat).
  { apply (live_length_tagged c L); [apply H|done|]. intros x Hx. apply Hm in Hx as [Hx Hpg]. split; [done|apply Hpg]. }
  assert (Ehd : first_tb p = hd_error l) by (apply seg_hd in Hs; rewrite <- Hs; unfold head; by rewrite Ep).
  rewrite Ehd. assert (El : links c1 = links c) by (unfold links; by rewrite (proj1 S1)).
  destruct (invalidate_loop_ok i start stop (links c1) l [] (w, None, None) c1 L T1 (L1 i l Hs)) as (pr & c2 & -> & T2 & S2 & L2);
    [lia|]. cbn [mbind option_bind].
  assert (S12 : same_code c c2) by (by etransitivity).
  assert (Hm1 : forall x, x ∈ l <-> member c1 L i x).
  { intros x. rewrite Hm. unfold member. by rewrite (on_page_same (tbs c x.1) (tbs c1 x.1)) by apply S1. }
  assert (Hlive : forall t, t ∈ L ∖ dead c1 start stop l <-> t ∈ L /\ ~ touches c start stop t).
  { intros t. rewrite (dead_touches c1 L start stop l H1 T1 Hm1). by rewrite (touches_same c c1). }
  destruct (proj1 (proj2 (proj2 S12)) i) as [p2 Ep2]; [by rewrite Ep|]. rewrite Ep2. cbn [mbind option_bind].
  destruct (first_tb p2) as [x|] eqn:Ef.
  - eexists _, _, _. split; [reflexivity|]. exists (L ∖ dead c1 start stop l). split; [done|]. split; [done|]. split; [done|by left].
  - destruct (page_update_ok i invalidate_page_bitmap c2 (L ∖ dead c1 start stop l)) as (T3 & S3 & L3); [done|by right|done|].
    eexists _, _, _. split; [reflexivity|]. exists (L ∖ dead c1 start stop l). split; [done|].
    split; [etransitivity; [exact S12|apply S3]|]. split; [done|]. destruct w; [|by left]. right. split; [done|]. split; [done|].
    intros t a Ht Hbytes Eb. rewrite <- (block_bytes_same (tbs c t) (tbs c2 t)) in Hbytes by apply S12.
    apply (empty_page c2 _ i T2) in Hbytes; [congruence| |done]. destruct (ok_pages c2 _ T2 i) as (l2 & Hs2 & _).
    assert (E2 := Hs2). apply seg_hd in E2. unfold head in E2. rewrite Ep2 in E2. cbn in E2. rewrite Ef in E2.
    by destruct l2.
Qed.

(** The bits the fast path looks at are those of the bytes written. *)
Lemma fast_bits tab off len : 0 <= off -> len = 1 \/ len = 2 \/ len = 4 \/ len = 8 -> off mod len = 0 ->
  truth (Z.land (Z.shiftr (tab (Z.shiftr off 3)) (Z.land off 7)) (Z.shiftl 1 len - 1)) = false ->
  forall k, off <= k < off + len -> bit_of tab k = false.
Proof using.
  intros Ho Hlen Hmod Hz k Hk. unfold truth in Hz. apply negb_false_iff, Z.eqb_eq in Hz.
  unfold bit_of. destruct (byte_split off) as (E1 & E2 & _), (byte_split k) as (-> & -> & _). rewrite E1, E2 in Hz.
  assert (Hb : k / 8 = off / 8 /\ k mod 8 = off mod 8 + (k - off)).
  { pose proof (Z.div_mod off 8 ltac:(lia)). pose proof (Z.mod_pos_bound off 8 ltac:(lia)).
    assert (Hfit : off mod 8 + len <= 8).
    { destruct Hlen as [-> | [-> | [-> | ->]]]; clear -Hmod; Z.to_euclidean_division_equations; lia. }
    split; symmetry; [apply Z.div_unique with (off mod 8 + (k - off))|apply Z.mod_unique with (off / 8)]; lia. }
  destruct Hb as [-> ->]. assert (Ht : Z.testbit (Z.land (Z.shiftr (tab (off / 8)) (off mod 8)) (Z.shiftl 1 len - 1)) (k - off) = false)
    by (rewrite Hz; apply Z.bits_0).
  rewrite Z.land_spec, Z.shiftr_spec in Ht by lia. rewrite Z.shiftl_1_l, <- Z.sub_1_r in Ht || rewrite Z.shiftl_1_l in Ht.
  replace (2 ^ len - 1) with (Z.ones len) in Ht by (rewrite Z.ones_equiv; lia).
  rewrite Z.ones_spec_low, andb_true_r in Ht by lia. by rewrite Z.add_comm.
Qed.

Lemma fast_ok start len c (s : phys) L : len = 1 \/ len = 2 \/ len = 4 \/ len = 8 -> start mod len = 0 ->
  0 <= start < 2 ^ 32 - 4096 -> tables_ok c L ->
  exists m c' s', tb_invalidate_phys_page_fast code_gen_buffer start len c s = Some (m, c', s') /\
    invalidated start (start + len) true c L s c' s'.
Proof using.
  intros Hlen Hmod Hst H. assert (Hu : is_u32 start) by (unfold in_width; lia).
  destruct (page_split start Hu) as (Es0 & Hr & Hm0 & Hb0).
  assert (Hoff : page_off start mod len = 0).
  { rewrite page_off_mod in *. destruct Hlen as [-> | [-> | [-> | ->]]]; clear -Hmod; Z.to_euclidean_division_equations; lia. }
  assert (H1 : one_page start (start + len)).
  { split; [done|]. split; [lia|]. rewrite page_off_mod in *.
    destruct Hlen as [-> | [-> | [-> | ->]]]; clear -Hoff Hr; Z.to_euclidean_division_equations; lia. }
  assert (Esum : u32 (start + len) = start + len) by (apply wrap_small; unfold in_width; lia).
  assert (Hslow := range_ok start (start + len) true c s L H1 H). unfold tb_invalidate_phys_page_fast. rewrite Esum.
  destruct (page_of start (start + len) start H1 ltac:(lia)) as (_ & _ & _ & Es).
  destruct (page_find (Z.shiftr start TARGET_PAGE_BITS) c) as [p|] eqn:Ep.
  2:{ unfold tb_invalidate_phys_page_range in Hslow. cbv zeta in Hslow. by rewrite Ep in Hslow. }
  destruct (code_bitmap p) as [tab|] eqn:Eb; [|done]. cbv zeta.
  destruct (truth _) eqn:Et; [done|]. exists None, c, s. split; [done|]. exists L. split; [done|]. split; [reflexivity|].
  split; [|by left]. intros t. split; [|tauto]. intros Ht. split; [done|]. intros (a & Ha & Hbytes).
  destruct (page_of start (start + len) a H1 Ha) as (Hau & Eab & Eo & _).
  assert (Hbit := fast_bits tab (page_off start) len (proj1 Hr) Hlen Hoff Et (page_off a) ltac:(lia)).
  destruct (ok_pages c L H (Z.shiftr start TARGET_PAGE_BITS)) as (l & Hs & _ & Hm & Hbm). specialize (Hbm p tab Ep Eb).
  destruct (page_split a Hau) as (_ & Hra & _).
  assert (Hex : bit_of tab (page_off a) = true); [|congruence]. apply Hbm; [done|].
  destruct (proj2 (ok_blocks c L H) t Ht) as (_ & _ & Hb). destruct Hbytes as [[E Ho]|(Hne & E & Ho)].
  - assert (P0 : page_ok (page_addr (tbs c t) 0)) by apply Hb.
    assert (Hp : on_page (tbs c t) 0 (Z.shiftr start TARGET_PAGE_BITS)).
    { split; [by left|]. split; [by apply page_not_none|]. rewrite Es, <- Eab, E. apply page_ok_div, P0. }
    exists (t, 0). split; [by apply Hm|]. cbn [fst snd]. destruct (page_range_ok _ _ _ Hb Hp) as (-> & _ & _). cbn. unfold TARGET_PAGE_SIZE. lia.
  - destruct (block_pages _ Hb Hne) as (_ & P1 & _).
    assert (Hp : on_page (tbs c t) 1 (Z.shiftr start TARGET_PAGE_BITS)).
    { split; [by right|]. split; [done|]. rewrite Es, <- Eab, E. apply page_ok_div, P1. }
    exists (t, 1). split; [by apply Hm|]. cbn [fst snd]. destruct (page_range_ok _ _ _ Hb Hp) as (-> & _ & _). cbn. lia.
Qed.
End Memory.
End Range.
End CodeTables.
