(* ===== verification/CodeRun.v ===== *)
(** * The life of translated code

    New blocks and direct jumps keep the tables of [CodeTables] consistent, and pages with
    code stay clean for the code flag, so that a write to them is noticed.  Over any
    sequence of translations, jumps, writes, interrupts and flushes, a block that can be
    found was made from bytes that have not been written since, and a direct jump goes to
    a block that can be found. *)

From S2P Require Import Prelude Bytes PhysMem Mmu Tlb CodeBlocks CodeTables.
Import PhysMem Tlb CodeBlocks CodeTables.

Module CodeRun.

(** ** A page gets a block *)

Lemma page_find_alloc_find j i c : page_find j (page_find_alloc i c) =
  match page_find j c with
  | Some p => Some p
  | None => if decide (Z.shiftr j L2_BITS = Z.shiftr i L2_BITS) then Some (mkPage None 0 None) else None
  end.
Proof.
  unfold page_find, page_find_alloc. destruct (l1_map c (Z.shiftr i L2_BITS)) as [q|] eqn:E; cbn.
  - destruct (l1_map c (Z.shiftr j L2_BITS)) as [r|] eqn:E'; cbn; [done|]. case_decide as Hd; [congruence|done].
  - unfold put. destruct (Z.eqb_spec (Z.shiftr j L2_BITS) (Z.shiftr i L2_BITS)) as [Hd|Hd].
    + rewrite Hd, E. cbn. by rewrite decide_True.
    + destruct (l1_map c (Z.shiftr j L2_BITS)); cbn; [done|]. by rewrite decide_False.
Qed.

Lemma head_alloc j i c : head j (page_find_alloc i c) = head j c.
Proof. unfold head. rewrite page_find_alloc_find. destruct (page_find j c); [done|]. by case_decide. Qed.

(** Fields the new block does not concern. *)
Definition same_rest (c c' : cache) : Prop :=
  nb_tbs c' = nb_tbs c /\ tb_phys_hash c' = tb_phys_hash c /\ tb_jmp_cache c' = tb_jmp_cache c /\
  current_tb c' = current_tb c /\ code_gen_ptr c' = code_gen_ptr c.

Section Alloc.
Context {D : Type}.
Context (phys_ram_base : Z).
Abbreviation phys := (phys (D := D)).

Lemma alloc_page_facts t n a c tl (s : phys) (i := Z.shiftr a TARGET_PAGE_BITS) :
  let '(c', tl', s') := tb_alloc_page phys_ram_base t n a c tl s in
  (forall u, u <> t -> tbs c' u = tbs c u) /\
  tbs c' t = (tbs c t) <| page_addr := put (page_addr (tbs c t)) n a |> <| page_next := put (page_next (tbs c t)) n (head i c) |> /\
  (forall j, head j c' = if decide (j = i) then Some (t, n) else head j c) /\
  (forall j p tab, page_find j c' = Some p -> code_bitmap p = Some tab -> j <> i /\ page_find j c = Some p) /\
  same_rest c c' /\
  (tl', s') = (match head i c with None => tlb_protect_code phys_ram_base a tl s | Some _ => (tl, s) end).
Proof using.
  unfold tb_alloc_page. cbv zeta. fold i.
  set (c1 := set_tb t _ c). set (c2 := page_find_alloc i c1). set (last := mbind _ _).
  assert (E2 : forall j, page_find j c1 = page_find j c) by done.
  assert (Hlast : last = head i c).
  { change last with (head i c2). unfold c2. by rewrite head_alloc. }
  assert (T2 : tbs c2 = tbs c1) by (unfold c2, page_find_alloc; by destruct (l1_map c1 _)).
  set (c3 := set_tb t _ c2). set (f := fun p => invalidate_page_bitmap _). set (c4 := set_page i f c3).
  assert (T4 : tbs c4 = tbs c3) by (unfold c4, set_page; by destruct (l1_map c3 _)).
  assert (F3 : forall j, page_find j c3 = page_find j c2) by done.
  assert (Hi : is_Some (page_find i c2)).
  { unfold c2. rewrite page_find_alloc_find. destruct (page_find i c1); [eauto|]. rewrite decide_True by done. eauto. }
  assert (H : (forall u, u <> t -> tbs c4 u = tbs c u) /\
    tbs c4 t = (tbs c t) <| page_addr := put (page_addr (tbs c t)) n a |> <| page_next := put (page_next (tbs c t)) n (head i c) |> /\
    (forall j, head j c4 = if decide (j = i) then Some (t, n) else head j c) /\
    (forall j p tab, page_find j c4 = Some p -> code_bitmap p = Some tab -> j <> i /\ page_find j c = Some p) /\
    same_rest c c4).
  { split; [|split; [|split; [|split]]].
    - intros u Hu. rewrite T4. unfold c3. rewrite tbs_set_tb, (proj2 (Z.eqb_neq u t)), T2 by done.
      unfold c1. by rewrite tbs_set_tb, (proj2 (Z.eqb_neq u t)).
    - rewrite T4. unfold c3. rewrite tbs_set_tb, Z.eqb_refl, T2. unfold c1. rewrite tbs_set_tb, Z.eqb_refl, Hlast. done.
    - intros j. unfold head, c4. rewrite page_find_set, F3. case_decide as Hj.
      + destruct Hi as [p ->]. done.
      + rewrite F3. change (head j c2 = head j c). unfold c2. by rewrite head_alloc.
    - intros j p tab Hp Htab. unfold c4 in Hp. rewrite page_find_set, F3 in Hp. case_decide as Hj.
      + destruct Hi as [q Hq]. rewrite Hq in Hp. injection Hp as <-. done.
      + split; [done|]. rewrite F3 in Hp. unfold c2 in Hp. rewrite page_find_alloc_find, E2 in Hp.
        destruct (page_find j c); [done|]. case_decide; [|done]. by injection Hp as <-.
    - assert (R2 : same_rest c c2) by (unfold c2, page_find_alloc; by destruct (l1_map c1 _)).
      assert (R4 : same_rest c2 c4) by (unfold c4, set_page; by destruct (l1_map c3 _)).
      unfold same_rest in *. destruct R2 as (? & ? & ? & ? & ?), R4 as (? & ? & ? & ? & ?). repeat split; congruence. }
  destruct H as (H1 & H2 & H3 & H4 & H5). rewrite Hlast. destruct (head i c) as [x|] eqn:Eh.
  - do 5 (split; [done|]). done.
  - destruct (tlb_protect_code phys_ram_base a tl s). do 5 (split; [done|]). done.
Qed.

(** What [tb_link_phys] leaves: block [t] is the first of its lists, and jumps nowhere. *)
Record linked (c c' : cache) (t h page2 : Z) : Prop := {
  l_other u : u <> t -> tbs c' u = tbs c u;
  l_hash : tb_phys_hash c' = put (tb_phys_hash c) h (Some t);
  l_hash_next : phys_hash_next (tbs c' t) = tb_phys_hash c h;
  l_page2 : page_addr (tbs c' t) 1 = page2;
  l_next0 : page_next (tbs c' t) 0 = head (Z.shiftr (page_addr (tbs c' t) 0) TARGET_PAGE_BITS) c;
  l_next1 : page2 <> NO_PAGE -> page_next (tbs c' t) 1 = head (Z.shiftr page2 TARGET_PAGE_BITS) c;
  l_head j : head j c' =
    if decide (j = Z.shiftr (page_addr (tbs c' t) 0) TARGET_PAGE_BITS) then Some (t, 0)
    else if decide (page2 <> NO_PAGE /\ j = Z.shiftr page2 TARGET_PAGE_BITS) then Some (t, 1) else head j c;
  l_bitmap j p tab : page_find j c' = Some p -> code_bitmap p = Some tab -> page_find j c = Some p /\
    j <> Z.shiftr (page_addr (tbs c' t) 0) TARGET_PAGE_BITS /\ (page2 <> NO_PAGE -> j <> Z.shiftr page2 TARGET_PAGE_BITS);
  l_first : jmp_link c' (t, 2) = Some (t, 2);
  l_jumps x : x.1 = t -> is_jump x -> jmp_link c' x = None;
  l_exit x : x.1 = t -> is_jump x -> tb_next_offset (tbs c' t) x.2 <> 0xffff -> tb_next (tbs c' t) x.2 = exit_of c' x;
  l_rest : nb_tbs c' = nb_tbs c /\ tb_jmp_cache c' = tb_jmp_cache c /\ current_tb c' = current_tb c;
}.

(** The last part of [tb_link_phys]. *)
Definition init_jumps (t : Z) (c : cache) : cache :=
  let c := set_tb t (fun b => b <| jmp_first := Some (t, 2) |>) c in
  let c := set_jmp_link (t, 0) None c in
  let c := set_jmp_link (t, 1) None c in
  let c := if negb (tb_next_offset (tbs c t) 0 =? 0xffff) then tb_reset_jump t 0 c else c in
  if negb (tb_next_offset (tbs c t) 1 =? 0xffff) then tb_reset_jump t 1 c else c.

Lemma reset_if_facts t n c : let c' := if negb (tb_next_offset (tbs c t) n =? 0xffff) then tb_reset_jump t n c else c in
  (forall u, u <> t -> tbs c' u = tbs c u) /\ same_but_jumps c c' /\ (forall y, jmp_link c' y = jmp_link c y) /\
  current_tb c' = current_tb c /\ (tb_next_offset (tbs c t) n <> 0xffff -> tb_next (tbs c' t) n = exit_of c (t, n)) /\
  forall m, m <> n -> tb_next (tbs c' t) m = tb_next (tbs c t) m.
Proof using.
  destruct (Z.eqb_spec (tb_next_offset (tbs c t) n) 0xffff) as [E|E]; cbn [negb].
  - split; [done|]. split; [reflexivity|]. split; [done|]. split; [done|]. split; [congruence|done].
  - split; [intros u Hu; unfold tb_reset_jump, tb_set_jmp_target; by rewrite tbs_set_tb, (proj2 (Z.eqb_neq u t))|].
    split; [apply reset_same|]. split; [intros; apply jmp_link_reset|]. split; [done|]. split.
    + intros _. pose proof (tb_next_reset (t, n) c (t, n)) as H. cbn [fst snd] in H. by rewrite H, decide_True.
    + intros m Hm. pose proof (tb_next_reset (t, n) c (t, m)) as H. cbn [fst snd] in H. rewrite H, decide_False; congruence.
Qed.

Lemma init_jumps_facts t c : let c' := init_jumps t c in
  (forall u, u <> t -> tbs c' u = tbs c u) /\ same_but_jumps c c' /\ jmp_link c' (t, 2) = Some (t, 2) /\
  (forall x, x.1 = t -> is_jump x -> jmp_link c' x = None) /\ current_tb c' = current_tb c /\
  forall x, x.1 = t -> is_jump x -> tb_next_offset (tbs c' t) x.2 <> 0xffff -> tb_next (tbs c' t) x.2 = exit_of c' x.
Proof using.
  unfold init_jumps. cbv zeta. set (c1 := set_tb t _ c). set (c2 := set_jmp_link (t, 0) None c1).
  set (c3 := set_jmp_link (t, 1) None c2).
  assert (O3 : forall u, u <> t -> tbs c3 u = tbs c u).
  { intros u Hu. unfold c3, c2, set_jmp_link, c1. cbn [fst snd]. by rewrite !tbs_set_tb, (proj2 (Z.eqb_neq u t)). }
  assert (S3 : same_but_jumps c c3).
  { etransitivity; [apply set_first_same|]. etransitivity; apply set_jmp_link_same. }
  assert (L3 : jmp_link c3 (t, 2) = Some (t, 2) /\ jmp_link c3 (t, 0) = None /\ jmp_link c3 (t, 1) = None).
  { assert (E1 : jmp_link c1 (t, 2) = Some (t, 2)).
    { unfold jmp_link, c1. cbn [fst snd]. rewrite tbs_set_tb, !Z.eqb_refl. done. }
    split; [|split]; unfold c3, c2; rewrite !jmp_link_set; repeat case_decide; congruence. }
  assert (C3 : current_tb c3 = current_tb c) by done. clearbody c3.
  pose proof (reset_if_facts t 0 c3) as H4. cbv zeta in H4. set (c4 := if negb (tb_next_offset (tbs c3 t) 0 =? 0xffff) then tb_reset_jump t 0 c3 else c3) in *. clearbody c4.
  pose proof (reset_if_facts t 1 c4) as H5. cbv zeta in H5. set (c5 := if negb (tb_next_offset (tbs c4 t) 1 =? 0xffff) then tb_reset_jump t 1 c4 else c4) in *. clearbody c5.
  destruct H4 as (O4 & S4 & L4 & C4 & E4 & _), H5 as (O5 & S5 & L5 & C5 & E5 & E5').
  assert (Boff : forall c c', same_but_jumps c c' -> tb_next_offset (tbs c' t) = tb_next_offset (tbs c t)).
  { intros d d' ((_ & _ & _ & Hb) & _). apply Hb. }
  split; [intros u Hu; by rewrite O5, O4, O3|]. split; [etransitivity; [exact S3|]; by etransitivity|].
  split; [rewrite L5, L4; apply L3|]. split; [|split; [congruence|]].
  - intros [u m] Hu [Hm|Hm]; cbn in Hu, Hm; subst; rewrite L5, L4; apply L3.
  - intros [u m] Hu [Hm|Hm]; cbn in Hu, Hm; subst; cbn [snd]; rewrite (Boff c4 c5 S5), ?(Boff c3 c4 S4); intros Ho.
    + rewrite E5', E4 by done. symmetry. rewrite (exit_of_same c4) by apply S5. apply exit_of_same, S4.
    + rewrite E5 by (by rewrite (Boff c3 c4 S4)). symmetry. apply exit_of_same, S5.
Qed.

Lemma link_facts t phys_pc page2 c tl (s : phys) :
  (page2 <> NO_PAGE -> Z.shiftr page2 TARGET_PAGE_BITS <> Z.shiftr (page_base phys_pc) TARGET_PAGE_BITS) ->
  let '(c', tl', s') := tb_link_phys phys_ram_base t phys_pc page2 c tl s in
  linked c c' t (tb_phys_hash_func phys_pc) page2 /\ page_addr (tbs c' t) 0 = page_base phys_pc /\
  pc (tbs c' t) = pc (tbs c t) /\ size (tbs c' t) = size (tbs c t) /\
  (tc_ptr (tbs c' t) = tc_ptr (tbs c t) /\ cs_base (tbs c' t) = cs_base (tbs c t) /\ flags (tbs c' t) = flags (tbs c t)) /\
  code_gen_ptr c' = code_gen_ptr c.
Proof using.
  intros Hne. unfold tb_link_phys. cbv zeta. set (h := tb_phys_hash_func phys_pc).
  set (c1 := set_tb t _ c). set (c2 := c1 <| tb_phys_hash := _ |>).
  pose proof (alloc_page_facts t 0 (page_base phys_pc) c2 tl s) as H3.
  destruct (tb_alloc_page phys_ram_base t 0 (page_base phys_pc) c2 tl s) as [[c3 tl3] s3].
  destruct H3 as (A1 & A2 & A3 & A4 & A5 & _).
  set (second := if negb (page2 =? NO_PAGE) then tb_alloc_page phys_ram_base t 1 page2 c3 tl3 s3
    else (set_tb t (fun b => b <| page_addr := put (page_addr b) 1 NO_PAGE |>) c3, tl3, s3)).
  assert (H5 : let '(c5, _, _) := second in
    (forall u, u <> t -> tbs c5 u = tbs c u) /\ tb_phys_hash c5 = put (tb_phys_hash c) h (Some t) /\
    phys_hash_next (tbs c5 t) = tb_phys_hash c h /\ page_addr (tbs c5 t) 1 = page2 /\
    page_next (tbs c5 t) 0 = head (Z.shiftr (page_base phys_pc) TARGET_PAGE_BITS) c /\
    (page2 <> NO_PAGE -> page_next (tbs c5 t) 1 = head (Z.shiftr page2 TARGET_PAGE_BITS) c) /\
    (forall j, head j c5 = if decide (j = Z.shiftr (page_base phys_pc) TARGET_PAGE_BITS) then Some (t, 0)
       else if decide (page2 <> NO_PAGE /\ j = Z.shiftr page2 TARGET_PAGE_BITS) then Some (t, 1) else head j c) /\
    (forall j p tab, page_find j c5 = Some p -> code_bitmap p = Some tab -> page_find j c = Some p /\
       j <> Z.shiftr (page_base phys_pc) TARGET_PAGE_BITS /\ (page2 <> NO_PAGE -> j <> Z.shiftr page2 TARGET_PAGE_BITS)) /\
    page_addr (tbs c5 t) 0 = page_base phys_pc /\ pc (tbs c5 t) = pc (tbs c t) /\ size (tbs c5 t) = size (tbs c t) /\
    (tc_ptr (tbs c5 t) = tc_ptr (tbs c t) /\ cs_base (tbs c5 t) = cs_base (tbs c t) /\ flags (tbs c5 t) = flags (tbs c t)) /\
    nb_tbs c5 = nb_tbs c /\ tb_jmp_cache c5 = tb_jmp_cache c /\
    current_tb c5 = current_tb c /\ code_gen_ptr c5 = code_gen_ptr c).
  { destruct A5 as (R1 & R2 & R3 & R4 & R5). unfold second.
    assert (O2 : forall u, u <> t -> tbs c2 u = tbs c u).
    { intros u Hu. change (tbs c2 u) with (tbs c1 u). unfold c1. by rewrite tbs_set_tb, (proj2 (Z.eqb_neq u t)). }
    assert (T2 : tbs c2 t = (tbs c t) <| phys_hash_next := tb_phys_hash c h |>).
    { change (tbs c2 t) with (tbs c1 t). unfold c1. by rewrite tbs_set_tb, Z.eqb_refl. }
    rewrite T2 in A2. change (forall j, head j c3 = if decide (j = Z.shiftr (page_base phys_pc) TARGET_PAGE_BITS)
      then Some (t, 0) else head j c) in A3. change (head _ c2) with (head (Z.shiftr (page_base phys_pc) TARGET_PAGE_BITS) c) in A2.
    change (tb_phys_hash c2) with (put (tb_phys_hash c) h (Some t)) in R2. change (nb_tbs c2) with (nb_tbs c) in R1.
    change (tb_jmp_cache c2) with (tb_jmp_cache c) in R3. change (current_tb c2) with (current_tb c) in R4.
    change (code_gen_ptr c2) with (code_gen_ptr c) in R5.
    destruct (Z.eqb_spec page2 NO_PAGE) as [E|E]; cbn [negb].
    - set (c5 := set_tb t _ c3).
      assert (T5 : tbs c5 t = (tbs c3 t) <| page_addr := put (page_addr (tbs c3 t)) 1 NO_PAGE |>)
        by (unfold c5; by rewrite tbs_set_tb, Z.eqb_refl).
      rewrite T5, A2. split; [|do 5 (split; [done|]); split; [|split; [|do 7 (split; [done|]); done]]].
      + intros u Hu. unfold c5. by rewrite tbs_set_tb, (proj2 (Z.eqb_neq u t)), A1, O2.
      + intros j. change (head j c5) with (head j c3). rewrite A3. case_decide; [done|]. by rewrite decide_False by tauto.
      + intros j p tab Hp Htab. change (page_find j c5) with (page_find j c3) in Hp. destruct (A4 j p tab Hp Htab). done.
    - pose proof (alloc_page_facts t 1 page2 c3 tl3 s3) as H5.
      destruct (tb_alloc_page phys_ram_base t 1 page2 c3 tl3 s3) as [[c5 tl5] s5].
      destruct H5 as (B1 & B2 & B3 & B4 & (Q1 & Q2 & Q3 & Q4 & Q5) & _). rewrite B2, A2.
      split; [intros u Hu; by rewrite B1, A1, O2|]. split; [congruence|]. split; [done|]. split; [done|]. split; [done|].
      split; [|split; [|split; [|do 4 (split; [done|])]]].
      + intros _. cbn. rewrite A3, decide_False by (by apply Hne). done.
      + intros j. rewrite B3, A3. specialize (Hne E). repeat case_decide; try done; naive_solver.
      + intros j p tab Hp Htab. destruct (B4 j p tab Hp Htab) as [Hj Hp3]. destruct (A4 j p tab Hp3 Htab) as [Hj' Hp2]. done.
      + repeat split; congruence. }
  destruct second as [[c5 tl5] s5]. fold (init_jumps t c5).
  destruct H5 as (B1 & B2 & B3 & B4 & B5 & B6 & B7 & B8 & B9 & B10 & B11 & (B12 & B12' & B12'') & B13 & B14 & B15 & B16).
  destruct (init_jumps_facts t c5) as (I1 & I2 & I3 & I4 & I5 & I6). set (c6 := init_jumps t c5) in *.
  destruct I2 as (S1 & S2 & S3 & S4). assert (Sb := proj2 (proj2 (proj2 S1)) t).
  destruct Sb as (E1 & E5 & E6 & E2 & _ & E3 & E4 & _). destruct S2 as [S2a S2b], S3 as [S3a S3b].
  assert (Hf : forall j, page_find j c6 = page_find j c5) by (intros; by apply page_find_same).
  assert (Hh : forall j, head j c6 = head j c5) by (intros; unfold head; by rewrite Hf).
  split; [|repeat split; try congruence; by rewrite (proj1 (proj2 S1))]. split; try done.
  - intros u Hu. by rewrite I1, B1.
  - congruence.
  - by rewrite S2b.
  - by rewrite E4.
  - by rewrite E4, B9, S3b.
  - intros Hp. by rewrite S3b, B6.
  - intros j. by rewrite E4, B9, Hh, B7.
  - intros j p tab. rewrite Hf, E4, B9. apply B8.
  - split; [rewrite (proj1 S1); done|]. split; [rewrite S4|]; congruence.
Qed.
End Alloc.

(** ** New blocks keep the tables consistent *)

Lemma linked_hash c c' t h page2 L : linked c c' t h page2 -> hash_ok c L -> t ∉ L -> phys_hash (tbs c' t) = h ->
  hash_ok c' ({[t]} ∪ L).
Proof.
  intros K H Ht Eh h'. destruct (H h') as (l & Hs & Hd & Hm).
  assert (Hl : forall u, u ∈ l -> u <> t) by (intros u Hu ->; by apply Hm in Hu as [Hu _]).
  assert (Hseg : seg Some (hash_link h' c') (tb_phys_hash c h') None l).
  { apply seg_ext with (hash_link h' c); [|done]. intros u Hu. cbn. by rewrite (l_other _ _ _ _ _ K) by (by apply Hl). }
  rewrite (l_hash _ _ _ _ _ K). unfold put. destruct (Z.eqb_spec h' h) as [->|Hne].
  - exists (t :: l). split; [|split].
    + cbn [seg]. split; [done|]. cbn [hash_link]. by rewrite (l_hash_next _ _ _ _ _ K).
    + constructor; [|done]. intros Hin. by apply (Hl t).
    + intros u. rewrite elem_of_cons, Hm, elem_of_union, elem_of_singleton. destruct (decide (u = t)) as [->|Hu]; [naive_solver|].
      rewrite (l_other _ _ _ _ _ K) by done. naive_solver.
  - exists l. split; [done|]. split; [done|]. intros u. rewrite Hm, elem_of_union, elem_of_singleton.
    destruct (decide (u = t)) as [->|Hu]; [naive_solver|]. rewrite (l_other _ _ _ _ _ K) by done. naive_solver.
Qed.

Lemma linked_pages c c' t h page2 L : linked c c' t h page2 -> pages_ok c L -> t ∉ L -> block_ok (tbs c' t) ->
  pages_ok c' ({[t]} ∪ L).
Proof.
  intros K H Ht Hb i. destruct (H i) as (l & Hs & Hd & Hm & Hbm). set (b := tbs c' t) in *.
  assert (Hl : forall x, x ∈ l -> x.1 <> t) by (intros x Hx E; apply Hm in Hx as [Hx _]; congruence).
  assert (Hseg : seg Some (plink i c') (head i c) None l).
  { apply seg_ext with (plink i c); [|done]. intros x Hx. cbn. by rewrite (l_other _ _ _ _ _ K) by (by apply Hl). }
  assert (Hold : forall x, x.1 <> t -> member c' ({[t]} ∪ L) i x <-> member c L i x).
  { intros x Hx. unfold member. rewrite (l_other _ _ _ _ _ K) by done. set_solver. }
  assert (Hnew : forall n, member c' ({[t]} ∪ L) i (t, n) <-> on_page b n i).
  { intros n. unfold member. cbn [fst snd]. fold b. set_solver. }
  assert (Hmem : forall x, x ∈ l <-> member c L i x /\ x.1 <> t) by (intros x; rewrite Hm; split; [|tauto]; intros Hx; split; [done|]; apply Hl; by apply Hm).
  assert (Hcons : forall n, on_page b n i -> head i c' = Some (t, n) -> page_next b n = head i c ->
    exists l', page_list c' i l' /\ NoDup l' /\ (forall x, x ∈ l' <-> member c' ({[t]} ∪ L) i x)).
  { intros n Hp Hh Hn. exists ((t, n) :: l). split; [|split].
    - unfold page_list. rewrite Hh. cbn [seg]. split; [done|]. cbn [plink fst snd]. fold b. by rewrite Hn.
    - constructor; [|done]. intros Hin. by apply (Hl (t, n)).
    - intros [u m]. rewrite elem_of_cons, Hmem. cbn [fst]. destruct (decide (u = t)) as [->|Hu].
      + rewrite Hnew. split; [intros [[= ->]|[_ ?]]; [done|done]|]. intros Hp'. left. f_equal. by apply (on_page_tag b n m i).
      + rewrite Hold by done. split; [intros [[= -> _]|[? _]]; [done|done]|auto]. }
  assert (H0 := l_head _ _ _ _ _ K i). assert (N0 := l_next0 _ _ _ _ _ K). assert (N1 := l_next1 _ _ _ _ _ K).
  assert (Hpg : page_addr b 1 = page2) by apply (l_page2 _ _ _ _ _ K). fold b in H0, N0, N1.
  assert (P0 : page_addr b 0 <> NO_PAGE) by (apply page_not_none, Hb).
  destruct (decide (i = Z.shiftr (page_addr b 0) TARGET_PAGE_BITS)) as [Ei|Ei].
  { destruct (Hcons 0) as (l' & A1 & A2 & A3); [by split; [left|]|done|by rewrite N0, Ei|].
    exists l'. do 3 (split; [done|]). intros p tab Hp Htab. destruct (l_bitmap _ _ _ _ _ K i p tab Hp Htab) as (_ & Hn & _). done. }
  destruct (decide (page2 <> NO_PAGE /\ i = Z.shiftr page2 TARGET_PAGE_BITS)) as [[Hp2 Ei2]|Hno].
  { destruct (Hcons 1) as (l' & A1 & A2 & A3); [split; [by right|by rewrite Hpg]|done|by rewrite N1, Ei2|].
    exists l'. do 3 (split; [done|]). intros p tab Hp Htab. destruct (l_bitmap _ _ _ _ _ K i p tab Hp Htab) as (_ & _ & Hn).
    by apply Hn in Hp2. }
  exists l. split; [unfold page_list; by rewrite H0|]. split; [done|]. split.
  - intros x. destruct (decide (x.1 = t)) as [Hx|Hx]; [|by rewrite Hold, Hm].
    destruct x as [u n]. cbn in Hx. subst u. rewrite Hnew, Hmem. split; [by intros [_ ?]|]. intros Hp. exfalso.
    destruct (on_page_cases b n i Hb Hp) as [[_ E]|(_ & E1 & E)]; [done|]. rewrite Hpg in E1, E. tauto.
  - intros p tab Hp Htab. destruct (l_bitmap _ _ _ _ _ K i p tab Hp Htab) as (Hp' & _).
    intros k Hk. rewrite (Hbm p tab Hp' Htab k Hk). split; intros (x & Hx & Hr); exists x; (split; [done|]).
    + by rewrite (l_other _ _ _ _ _ K) by (by apply Hl).
    + by rewrite (l_other _ _ _ _ _ K) in Hr by (by apply Hl).
Qed.

Lemma linked_jumps c c' t h page2 L : linked c c' t h page2 -> jumps_ok c L -> t ∉ L -> jumps_ok c' ({[t]} ∪ L).
Proof.
  intros K (J & H & T1 & T2) Ht. assert (Ho := l_other _ _ _ _ _ K).
  assert (Hl : forall x, x.1 <> t -> jmp_link c' x = jmp_link c x) by (intros x Hx; unfold jmp_link; by rewrite Ho).
  assert (Hne : forall u, u ∈ L -> u <> t) by (by intros u Hu ->).
  exists (put J t []). assert (HJ : forall tb, tb ∈ L -> put J t [] tb = J tb).
  { intros tb Htb. unfold put. by rewrite (proj2 (Z.eqb_neq tb t)) by (by apply Hne). }
  assert (Jt : put J t [] t = []) by (unfold put; by rewrite Z.eqb_refl).
  split; [split|split].
  - intros tb [->%elem_of_singleton|Htb]%elem_of_union; [rewrite Jt; cbn; apply (l_first _ _ _ _ _ K)|].
    rewrite HJ, Hl by (done || by apply Hne). apply seg_ext with (jmp_link c); [|by apply (jumps_list c L J)].
    intros x Hx. apply Hl, Hne. by apply (jumps_live c L J H tb).
  - intros tb [->%elem_of_singleton|Htb]%elem_of_union; [rewrite Jt; constructor|]. rewrite HJ by done. by apply (jumps_nodup c L J).
  - intros tb x [->%elem_of_singleton|Htb]%elem_of_union; [rewrite Jt; set_solver|]. rewrite HJ by done. intros Hx.
    destruct (jumps_live c L J H tb x Htb Hx). set_solver.
  - intros tb tb' x [->%elem_of_singleton|Htb]%elem_of_union [->%elem_of_singleton|Htb']%elem_of_union; rewrite ?Jt; [set_solver..|].
    rewrite !HJ by done. by apply (jumps_one c L J).
  - intros x Hx Hj Hn. destruct (decide (x.1 = t)) as [E|E]; [by rewrite (l_jumps _ _ _ _ _ K) in Hn|].
    rewrite Hl in Hn by done. destruct (jumps_all c L J H x) as (tb & Htb & Hin); [set_solver|done|done|].
    exists tb. rewrite HJ by done. set_solver.
  - intros tb x [->%elem_of_singleton|Htb]%elem_of_union; [rewrite Jt; set_solver|]. rewrite HJ by done. intros Hx.
    rewrite (Ho x.1), (Ho tb) by (apply Hne; first [done|by apply (jumps_live c L J H tb)]). by apply T1.
  - intros x Hx Hj Hn _ Hoff. change (u32 _) with (exit_of c' x). destruct (decide (x.1 = t)) as [E|E].
    + rewrite E in *. by apply (l_exit _ _ _ _ _ K).
    + unfold exit_of. rewrite Ho in * by done. rewrite Hl in Hn by done. apply T2; [set_solver|done|done|tauto|done].
Qed.

(** A block that was not in the tables is now. *)
Lemma linked_ok c c' t h page2 L : linked c c' t h page2 -> tables_ok c L -> t ∉ L -> 0 <= t < nb_tbs c ->
  block_ok (tbs c' t) -> phys_hash (tbs c' t) = h -> current_tb c = None -> tables_ok c' ({[t]} ∪ L).
Proof.
  intros K [A1 A2 A3 A4 A5 A6] Ht Hr Hb Hh Hc. assert (Ho := l_other _ _ _ _ _ K).
  destruct (l_rest _ _ _ _ _ K) as (R1 & R2 & R3). split.
  - destruct A1 as [B1 B2]. split; [lia|]. intros u Hu. rewrite R1. destruct (decide (u = t)) as [->|Hu']; [split; [lia|split; [lia|done]]|].
    rewrite Ho by done. apply B2. set_solver.
  - by eapply linked_hash.
  - by eapply linked_pages.
  - by eapply linked_jumps.
  - intros j u. rewrite R2. intros Hu. destruct (A5 j u Hu) as [Hu' E]. split; [set_solver|]. rewrite Ho; [done|]. by intros ->.
  - intros u. by rewrite R3, Hc.
Qed.

(** Changes to blocks that are in no table. *)
Lemma tables_other c c' L : tables_ok c L -> (forall u, u ∈ L -> tbs c' u = tbs c u) -> nb_tbs c <= nb_tbs c' ->
  tb_phys_hash c' = tb_phys_hash c -> l1_map c' = l1_map c -> tb_jmp_cache c' = tb_jmp_cache c -> current_tb c' = None ->
  tables_ok c' L.
Proof.
  intros [A1 A2 A3 A4 A5 A6] Ho Hn Eh Ep Ej Ec. assert (Hf : forall i, page_find i c' = page_find i c) by (intros; unfold page_find; by rewrite Ep).
  split.
  - destruct A1 as [B1 B2]. split; [lia|]. intros u Hu. rewrite Ho by done. destruct (B2 u Hu). split; [lia|done].
  - intros h. destruct (A2 h) as (l & Hs & Hd & Hm). exists l. rewrite Eh. split; [|split; [done|]].
    + apply seg_ext with (hash_link h c); [|done]. intros u Hu. cbn. rewrite Ho; [done|]. by apply Hm.
    + intros u. rewrite Hm. split; intros [Hu E]; (split; [done|]); by rewrite Ho in *.
  - intros i. destruct (A3 i) as (l & Hs & Hd & Hm & Hb). exists l. split; [|split; [done|split]].
    + unfold page_list, head. rewrite Hf. apply seg_ext with (plink i c); [|done]. intros x Hx. cbn. rewrite Ho; [done|]. by apply Hm.
    + intros x. rewrite Hm. unfold member. split; intros [Hx E]; (split; [done|]); by rewrite Ho in *.
    + intros p tab. rewrite Hf. intros Hp Htab k Hk. rewrite (Hb p tab Hp Htab k Hk).
      split; intros (x & Hx & Hr); exists x; (split; [done|]); [rewrite Ho; [done|by apply Hm]|].
      rewrite Ho in Hr; [done|]. by apply Hm.
  - destruct A4 as (J & H & T1 & T2). assert (Hl : forall x, x.1 ∈ L -> jmp_link c' x = jmp_link c x) by (intros x Hx; unfold jmp_link; by rewrite Ho).
    exists J. split; [|split].
    + split; [|by apply H..|].
      * intros tb Htb. rewrite Hl by done. apply seg_ext with (jmp_link c); [|by apply (jumps_list c L J)].
        intros x Hx. apply Hl. by apply (jumps_live c L J H tb).
      * intros x Hx Hj. rewrite Hl by done. by apply (jumps_all c L J H).
    + intros tb x Htb Hx. rewrite !Ho by (first [done|by apply (jumps_live c L J H tb)]). by apply T1.
    + intros x Hx. rewrite Hl, Ho by done. by apply T2.
  - intros h u. rewrite Ej. intros Hu. destruct (A5 h u Hu) as [Hu' E]. split; [done|]. by rewrite Ho.
  - intros u. by rewrite Ec.
Qed.

(** A flush leaves no block. *)
Lemma tb_flush_ok code_gen_buffer c L : tables_ok c L -> current_tb c = None -> tables_ok (tb_flush code_gen_buffer c) ∅.
Proof.
  intros H Hc. set (c' := tb_flush code_gen_buffer c). split.
  - split; [done|]. set_solver.
  - intros h. exists []. split; [done|]. split; [constructor|]. set_solver.
  - intros i. exists []. assert (Hf : page_find i c' = (fun p => invalidate_page_bitmap (p <| first_tb := None |>)) <$> page_find i c).
    { unfold page_find, c', tb_flush, page_flush_tb. cbn. by destruct (l1_map c _). }
    split; [unfold page_list, head; rewrite Hf; by destruct (page_find i c)|]. split; [constructor|].
    split; [intros x; unfold member; set_solver|]. intros p tab. rewrite Hf. intros (q & _ & ->)%fmap_Some. done.
  - exists (fun _ => []). split; [split|split]; set_solver.
  - done.
  - intros u. change (current_tb c') with (current_tb c). by rewrite Hc.
Qed.

(** ** Pages with code are clean *)

Section Clean.
Context {D : Type}.
Context (phys_ram_base : Z).
Abbreviation phys := (phys (D := D)).

Definition no_code_flag (s : phys) (p : Z) : Prop := Z.land (phys_ram_dirty s p) CODE_DIRTY_FLAG = 0.

Definition clean (c : cache) (L : gset Z) (s : phys) : Prop := forall t a, t ∈ L -> block_bytes (tbs c t) a ->
  no_code_flag s (page_base a / 4096).

Lemma protect_facts a t (s : phys) : page_ok a ->
  let '(t', s') := tlb_protect_code phys_ram_base a t s in
  phys_ram s' = phys_ram s /\ l1_phys_map s' = l1_phys_map s /\ dev s' = dev s /\ tb_invalidated s' = tb_invalidated s /\
  no_code_flag s' (a / 4096) /\ forall p, no_code_flag s p -> no_code_flag s' p.
Proof using.
  intros [Ha Ho]. unfold tlb_protect_code, cpu_physical_memory_reset_dirty, TARGET_PAGE_SIZE, TARGET_PAGE_ALIGN, TARGET_PAGE_BITS.
  destruct (page_split a ltac:(unfold in_width; lia)) as (E & _ & Hm & _). rewrite Ho, Z.add_0_r in E. rewrite <- E.
  pose proof (Z.div_mod a 4096 ltac:(lia)) as Hd. rewrite <- E in Hm. unfold TARGET_PAGE_SIZE.
  assert (E1 : u32 (a + 4096) = a + 4096) by (apply wrap_small; unfold in_width; lia). rewrite E1.
  assert (E2 : u32 (a + 4096 + 4096 - 1) = a + 8191) by (unfold u32; rewrite wrap_small by (unfold in_width; lia); lia). rewrite E2.
  assert (E3 : page_base (a + 8191) = a + 4096).
  { destruct (page_split (a + 8191) ltac:(unfold in_width; lia)) as (E3 & Hr & Hm3 & _).
    pose proof (Z.div_mod (page_base (a + 8191)) 4096 ltac:(lia)). lia. }
  rewrite E3. replace (a + 4096 - a) with 4096 by lia. change (u32 4096 =? 0) with false. cbv iota.
  change (Z.shiftr (u32 4096) 12) with 1. change (Z.to_nat 1) with 1%nat. cbn [upd_flags].
  split; [done|]. split; [done|]. split; [done|]. split; [done|]. rewrite Z.shiftr_div_pow2 by lia. change (2 ^ 12) with 4096.
  assert (H0 : forall d, Z.land (u8 (Z.land d (Z.lnot CODE_DIRTY_FLAG))) CODE_DIRTY_FLAG = 0).
  { intros d. apply Z.bits_inj'. intros j Hj. rewrite Z.land_spec, Z.bits_0. unfold CODE_DIRTY_FLAG.
    destruct (decide (j = 1)) as [->|Hne].
    - unfold u8, wrap. rewrite Z.mod_pow2_bits_low by lia. rewrite Z.land_spec, Z.lnot_spec by lia. by rewrite !andb_false_r.
    - change 2 with (2 ^ 1). rewrite Z.pow2_bits_false by lia. apply andb_false_r. }
  unfold no_code_flag. cbn. unfold mem_upd. split; [by rewrite Z.eqb_refl|].
  intros p Hp. destruct (p =? a / 4096); done.
Qed.

(** Only dirty flags change, and no page becomes dirty for code. *)
Definition cleaner (s s' : phys) : Prop :=
  phys_ram s' = phys_ram s /\ l1_phys_map s' = l1_phys_map s /\ dev s' = dev s /\ tb_invalidated s' = tb_invalidated s /\
  forall p, no_code_flag s p -> no_code_flag s' p.

#[local] Instance cleaner_preorder : PreOrder cleaner.
Proof using.
  split; [by intros s; repeat split|]. intros s1 s2 s3 (A1 & A2 & A3 & A4 & A5) (B1 & B2 & B3 & B4 & B5).
  unfold cleaner. repeat (split; [congruence|]). auto.
Qed.

Lemma alloc_page_memory t n a c tl (s : phys) : page_ok a ->
  let '(c', tl', s') := tb_alloc_page phys_ram_base t n a c tl s in
  cleaner s s' /\ (head (Z.shiftr a TARGET_PAGE_BITS) c = None -> no_code_flag s' (a / 4096)).
Proof using.
  intros Ha. pose proof (alloc_page_facts phys_ram_base t n a c tl s) as H. pose proof (protect_facts a tl s Ha) as Hp.
  destruct (tb_alloc_page phys_ram_base t n a c tl s) as [[c' tl'] s']. destruct H as (_ & _ & _ & _ & _ & H).
  destruct (head (Z.shiftr a TARGET_PAGE_BITS) c); [injection H as _ ->; by split|].
  destruct (tlb_protect_code phys_ram_base a tl s) as [tl2 s2]. injection H as _ ->.
  destruct Hp as (H1 & H2 & H3 & H4 & H5 & H6). by repeat split.
Qed.

Lemma link_memory t phys_pc page2 c tl (s : phys) : page_ok (page_base phys_pc) ->
  (page2 <> NO_PAGE -> page_ok page2 /\ page2 <> page_base phys_pc) ->
  let '(c', tl', s') := tb_link_phys phys_ram_base t phys_pc page2 c tl s in
  cleaner s s' /\
  (head (Z.shiftr (page_base phys_pc) TARGET_PAGE_BITS) c = None -> no_code_flag s' (page_base phys_pc / 4096)) /\
  (page2 <> NO_PAGE -> head (Z.shiftr page2 TARGET_PAGE_BITS) c = None -> no_code_flag s' (page2 / 4096)).
Proof using.
  intros P0 P1. unfold tb_link_phys. cbv zeta. set (c2 := _ <| tb_phys_hash := _ |>).
  pose proof (alloc_page_facts phys_ram_base t 0 (page_base phys_pc) c2 tl s) as H3.
  pose proof (alloc_page_memory t 0 (page_base phys_pc) c2 tl s P0) as M3.
  destruct (tb_alloc_page phys_ram_base t 0 (page_base phys_pc) c2 tl s) as [[c3 tl3] s3].
  destruct H3 as (_ & _ & A3 & _), M3 as [M3 N3].
  destruct (Z.eqb_spec page2 NO_PAGE) as [E|E]; cbn [negb]; [by repeat (split; [done|])|].
  destruct (P1 E) as [P2 Hne]. pose proof (alloc_page_memory t 1 page2 c3 tl3 s3 P2) as M5.
  destruct (tb_alloc_page phys_ram_base t 1 page2 c3 tl3 s3) as [[c5 tl5] s5]. destruct M5 as [M5 N5].
  split; [by etransitivity|]. split; [intros Hh; apply M5, N3, Hh|]. intros _ Hh. apply N5. rewrite A3, decide_False; [exact Hh|].
  intros Ei. apply Hne. by apply page_inj.
Qed.

Lemma page_base_ok a k : page_ok a -> 0 <= k < 4096 -> page_base (a + k) = a /\ page_off (a + k) = k.
Proof using.
  intros [Ha Ho] Hk. destruct (page_split (a + k) ltac:(unfold in_width; lia)) as (E & Hr & Hm & _).
  rewrite page_off_mod in Ho. pose proof (Z.div_mod a 4096 ltac:(lia)). pose proof (Z.div_mod (page_base (a + k)) 4096 ltac:(lia)). lia.
Qed.

(** A block in the list of a page has a byte there, so the page is clean. *)
Lemma listed_clean c L (s : phys) a x : tables_ok c L -> clean c L s -> page_ok a ->
  head (Z.shiftr a TARGET_PAGE_BITS) c = Some x -> no_code_flag s (a / 4096).
Proof using.
  intros H Hc Ha Hh. destruct (ok_pages c L H (Z.shiftr a TARGET_PAGE_BITS)) as (l & Hs & _ & Hm & _).
  assert (Hx : x ∈ l). { unfold page_list in Hs. rewrite Hh in Hs. destruct l; cbn in Hs; [done|]. destruct Hs as [[= ->] _]. left. }
  apply Hm in Hx as [Hx Hp]. destruct (proj2 (ok_blocks c L H) x.1 Hx) as (_ & _ & Hb).
  destruct (page_range_ok _ _ _ Hb Hp) as (_ & Hoff & _). destruct Hp as ([E|E] & Hne & Hp); rewrite E in Hne, Hp.
  - assert (P0 : page_ok (page_addr (tbs c x.1) 0)) by apply Hb.
    assert (Ea : page_addr (tbs c x.1) 0 = a) by (by apply page_inj).
    destruct (page_base_ok a (page_off (pc (tbs c x.1))) Ha Hoff) as [E1 E2]. rewrite <- E1. apply (Hc x.1); [done|]. left.
    rewrite E1, E2. split; [done|]. destruct Hb as (_ & Hsz & _). lia.
  - destruct (block_pages _ Hb Hne) as (_ & P1 & _). assert (Ea : page_addr (tbs c x.1) 1 = a) by (by apply page_inj).
    destruct (page_base_ok a 0 Ha ltac:(lia)) as [E1 E2]. rewrite <- E1. apply (Hc x.1); [done|]. right.
    rewrite E1, E2. split; [done|]. split; [done|].
    destruct (page_range_ok (tbs c x.1) 1 (Z.shiftr a TARGET_PAGE_BITS) Hb) as (_ & _ & Hbig); [|specialize (Hbig ltac:(done)); lia].
    split; [by right|]. split; [done|]. by rewrite Ea.
Qed.

(** What the translator and the page walk give for a block: the bytes it covers start at
    [pc], and if they go on in the next page, that is another page of RAM. *)
Definition gen_ok (pc0 phys_pc page2 : Z) (g : generated) : Prop :=
  is_u32 pc0 /\ is_u32 phys_pc /\ page_off phys_pc = page_off pc0 /\ page_ok (page_base phys_pc) /\
  1 <= g_size g <= 4096 /\ 0 <= g_code_size g /\
  (4096 < page_off pc0 + g_size g -> page_ok page2 /\ page2 <> page_base phys_pc).

Lemma spans_pages pc0 size : is_u32 pc0 -> 1 <= size <= 4096 ->
  (page_base pc0 =? page_base (u32 (pc0 + size - 1))) = (page_off pc0 + size <=? 4096).
Proof using.
  intros Hu Hs. destruct (page_split pc0 Hu) as (E & Hr & Hm & Hb). unfold in_width in Hu.
  assert (Hv : is_u32 (u32 (pc0 + size - 1))) by (apply wrap_range; lia).
  destruct (page_split _ Hv) as (E' & Hr' & Hm' & Hb'). set (v := u32 (pc0 + size - 1)) in *.
  assert (Hw : v = pc0 + size - 1 \/ v = pc0 + size - 1 - 2 ^ 32).
  { unfold v, u32. destruct (Z.ltb_spec (pc0 + size - 1) (2 ^ 32)); [left; apply wrap_small; unfold in_width; lia|right].
    unfold wrap. rewrite <- (Z_mod_plus_full (pc0 + size - 1) (-1)). apply Z.mod_small. lia. }
  pose proof (Z.div_mod (page_base pc0) 4096 ltac:(lia)). pose proof (Z.div_mod (page_base v) 4096 ltac:(lia)).
  destruct (Z.eqb_spec (page_base pc0) (page_base v)), (Z.leb_spec (page_off pc0 + size) 4096); try done; lia.
Qed.

Context (code_gen_buffer code_gen_max_block_size : Z).

Lemma alloc_ok pc0 c L : 0 <= code_gen_max_block_size < CODE_GEN_BUFFER_SIZE -> tables_ok c L -> current_tb c = None ->
  exists t c1 L0, (match tb_alloc code_gen_buffer code_gen_max_block_size pc0 c with
                   | Some r => Some r
                   | None => tb_alloc code_gen_buffer code_gen_max_block_size pc0 (tb_flush code_gen_buffer c)
                   end) = Some (t, c1) /\
    (tb_alloc code_gen_buffer code_gen_max_block_size pc0 c <> None /\ L0 = L \/ tb_alloc code_gen_buffer code_gen_max_block_size pc0 c = None /\ L0 = ∅) /\ t ∉ L0 /\ tables_ok c1 L0 /\ 0 <= t < nb_tbs c1 /\ pc (tbs c1 t) = pc0 /\
    (forall u, u ∈ L0 -> tbs c1 u = tbs c u) /\ current_tb c1 = None.
Proof using.
  intros Hmax H Hc.
  assert (Hone : forall d L0, tables_ok d L0 -> current_tb d = None ->
    let d1 := set_tb (nb_tbs d) (fun b => (b <| pc := pc0 |>) <| cflags := 0 |>) (d <| nb_tbs := nb_tbs d + 1 |>) in
    nb_tbs d ∉ L0 /\ tables_ok d1 L0 /\ 0 <= nb_tbs d < nb_tbs d1 /\ pc (tbs d1 (nb_tbs d)) = pc0 /\
    (forall u, u ∈ L0 -> tbs d1 u = tbs d u) /\ current_tb d1 = None).
  { intros d L0 Hd Hdc d1. destruct (ok_blocks d L0 Hd) as [Hn Hb].
    assert (Ht : nb_tbs d ∉ L0) by (intros Hin; apply Hb in Hin; lia).
    assert (Ho : forall u, u ∈ L0 -> tbs d1 u = tbs d u).
    { intros u Hu. unfold d1. rewrite tbs_set_tb, (proj2 (Z.eqb_neq u (nb_tbs d))); [done|]. by intros ->. }
    change (nb_tbs d1) with (nb_tbs d + 1). split; [done|]. split; [|split; [lia|split; [|done]]].
    - apply (tables_other d d1); try done. change (nb_tbs d1) with (nb_tbs d + 1). lia.
    - unfold d1. by rewrite tbs_set_tb, Z.eqb_refl. }
  unfold tb_alloc at 1. destruct (_ || _) eqn:Efull.
  - exists 0. assert (Hf := tb_flush_ok code_gen_buffer c L H Hc). destruct (Hone _ ∅ Hf Hc) as (K1 & K2 & K3 & K4 & K5 & K6).
    unfold tb_alloc. change (nb_tbs (tb_flush code_gen_buffer c)) with 0 in *.
    change (code_gen_ptr (tb_flush code_gen_buffer c)) with code_gen_buffer. rewrite Z.sub_diag.
    rewrite (proj2 (Z.leb_gt CODE_GEN_MAX_BLOCKS 0)), (proj2 (Z.leb_gt (CODE_GEN_BUFFER_SIZE - code_gen_max_block_size) 0)) by (done || lia).
    cbn [orb]. eexists _, ∅. split; [reflexivity|]. split; [right; split; [|done]; unfold tb_alloc; by rewrite Efull|]. split; [done|]. split; [exact K2|]. split; [exact K3|].
    split; [exact K4|]. split; [set_solver|exact K6].
  - destruct (Hone c L H Hc) as (K1 & K2 & K3 & K4 & K5 & K6). eexists _, _, L. split; [reflexivity|]. split; [left; split; [unfold tb_alloc; by rewrite Efull|done]|].
    repeat (split; [done|]). done.
Qed.

Lemma gen_code_ok pc0 cs fl cf phys_pc page2 g c tl (s : phys) L : 0 <= code_gen_max_block_size < CODE_GEN_BUFFER_SIZE ->
  tables_ok c L -> clean c L s -> current_tb c = None -> gen_ok pc0 phys_pc page2 g ->
  exists t c' tl' s' L0,
    tb_gen_code code_gen_buffer code_gen_max_block_size phys_ram_base pc0 cs fl cf phys_pc page2 g c tl s = Some (t, c', tl', s') /\
    (tb_alloc code_gen_buffer code_gen_max_block_size pc0 c <> None /\ L0 = L \/ tb_alloc code_gen_buffer code_gen_max_block_size pc0 c = None /\ L0 = ∅) /\ t ∉ L0 /\ tables_ok c' ({[t]} ∪ L0) /\ clean c' ({[t]} ∪ L0) s' /\ cleaner s s' /\
    (forall u, u ∈ L0 -> tbs c' u = tbs c u) /\ pc (tbs c' t) = pc0 /\ cs_base (tbs c' t) = cs /\ flags (tbs c' t) = fl /\
    current_tb c' = None.
Proof using.
  intros Hmax H Hcl Hc (Hu & Hpu & Hoff & P0 & Hsz & _ & H2). unfold tb_gen_code.
  destruct (alloc_ok pc0 c L Hmax H Hc) as (t & c1 & L0 & -> & HL & Ht & T1 & R1 & E1 & O1 & C1). cbn [mbind option_bind].
  set (p2 := if negb _ then page2 else NO_PAGE). set (c2 := _ <| code_gen_ptr := _ |>).
  assert (O2 : forall u, u <> t -> tbs c2 u = tbs c1 u).
  { intros u Hu'. unfold c2. cbn -[Z.land Z.lnot]. unfold put. by rewrite (proj2 (Z.eqb_neq u t)). }
  assert (B2 : pc (tbs c2 t) = pc0 /\ size (tbs c2 t) = g_size g /\ cs_base (tbs c2 t) = cs /\ flags (tbs c2 t) = fl).
  { unfold c2. cbn -[Z.land Z.lnot]. unfold put. rewrite !Z.eqb_refl. by rewrite <- E1. }
  assert (T2 : tables_ok c2 L0).
  { apply (tables_other c1 c2); try done. intros u Hu'. apply O2. by intros ->. }
  assert (Hp2 : p2 = if page_off pc0 + g_size g <=? 4096 then NO_PAGE else page2).
  { unfold p2. rewrite spans_pages by done. by destruct (_ <=? 4096). }
  assert (P2 : p2 <> NO_PAGE -> page_ok p2 /\ p2 <> page_base phys_pc).
  { rewrite Hp2. destruct (Z.leb_spec (page_off pc0 + g_size g) 4096); [done|]. intros _. by apply H2. }
  clearbody p2. assert (Hpages : p2 <> NO_PAGE -> Z.shiftr p2 TARGET_PAGE_BITS <> Z.shiftr (page_base phys_pc) TARGET_PAGE_BITS).
  { intros Hn E. destruct (P2 Hn) as [Q1 Q2]. apply Q2. by apply page_inj. }
  pose proof (link_facts phys_ram_base t phys_pc p2 c2 tl s Hpages) as K. pose proof (link_memory t phys_pc p2 c2 tl s P0 P2) as M.
  assert (N2 : nb_tbs c2 = nb_tbs c1) by done. assert (C2 : current_tb c2 = None) by exact C1. clearbody c2.
  destruct (tb_link_phys phys_ram_base t phys_pc p2 c2 tl s) as [[c' tl'] s'].
  destruct K as (K & Ka & Kpc & Ksz & (_ & Kcs & Kfl) & _), M as (M1 & M2 & M3). destruct B2 as (B2 & B2' & Bcs & Bfl).
  assert (Hblk : block_ok (tbs c' t)).
  { unfold block_ok. rewrite Kpc, Ksz, B2, B2', Ka, (l_page2 _ _ _ _ _ K), Hp2. split; [done|]. split; [done|]. split; [done|].
    rewrite Hp2 in P2. destruct (Z.leb_spec (page_off pc0 + g_size g) 4096); [done|]. by apply H2. }
  assert (Hhash : phys_hash (tbs c' t) = tb_phys_hash_func phys_pc).
  { unfold phys_hash. rewrite Ka, Kpc, B2, <- Hoff. destruct (page_split phys_pc Hpu) as (<- & _). f_equal. by apply wrap_small. }
  assert (T' : tables_ok c' ({[t]} ∪ L0)) by (apply (linked_ok c2 c' t _ p2 L0 K T2 Ht); [lia|done|done|done]).
  assert (O' : forall u, u ∈ L0 -> tbs c' u = tbs c u).
  { intros u Hu'. rewrite (l_other _ _ _ _ _ K), O2, O1; [done|done|by intros ->..]. }
  assert (Hcl2 : clean c2 L0 s).
  { intros u a Hu' Hb. destruct HL as [[_ ->] | [_ ->]]; [|set_solver]. apply (Hcl u); [done|].
    by rewrite O2, O1 in Hb by (first [done|by intros ->]). }
  exists t, c', tl', s', L0. split; [done|]. split; [done|]. split; [done|]. split; [done|].
  split; [|split; [done|split; [done|split; [by rewrite Kpc|split; [by rewrite Kcs|split; [by rewrite Kfl|]]]]]];
    [|rewrite (proj2 (proj2 (l_rest _ _ _ _ _ K))); done].
  intros u a [->%elem_of_singleton|Hu']%elem_of_union Hb.
  - destruct M1 as (_ & _ & _ & _ & Mono). destruct Hb as [[Ea _]|(Hn & Ea & _)]; rewrite Ea.
    + rewrite Ka. destruct (head (Z.shiftr (page_base phys_pc) TARGET_PAGE_BITS) c2) as [x|] eqn:Eh; [|by apply M2].
      apply Mono. by apply (listed_clean c2 L0 s _ x).
    + rewrite (l_page2 _ _ _ _ _ K) in *. destruct (head (Z.shiftr p2 TARGET_PAGE_BITS) c2) as [x|] eqn:Eh; [|by apply M3].
      apply Mono. apply (listed_clean c2 L0 s _ x); [done|done|by apply P2|done].
  - apply M1. apply (Hcl2 u); [done|]. rewrite O2 by (by intros ->). rewrite (O1 u Hu'). by rewrite (O' u Hu') in Hb.
Qed.

(** A new block does not say that blocks have been taken out. *)
Lemma gen_code_flag pc0 cs fl cf phys_pc page2 g c tl (s : phys) t c' tl' s' :
  tb_gen_code code_gen_buffer code_gen_max_block_size phys_ram_base pc0 cs fl cf phys_pc page2 g c tl s = Some (t, c', tl', s') ->
  tb_invalidated_flag c' = tb_invalidated_flag c.
Proof using.
  assert (Hpage : forall t n a c tl (s : phys), let '(c', _, _) := tb_alloc_page phys_ram_base t n a c tl s in
    tb_invalidated_flag c' = tb_invalidated_flag c).
  { clear. intros t n a c tl s. unfold tb_alloc_page. cbv zeta. set (c1 := set_tb t _ c).
    assert (E1 : tb_invalidated_flag (page_find_alloc (Z.shiftr a TARGET_PAGE_BITS) c1) = tb_invalidated_flag c)
      by (unfold page_find_alloc; by destruct (l1_map c1 _)).
    set (c3 := set_tb t _ (page_find_alloc _ c1)). change (tb_invalidated_flag c3 = tb_invalidated_flag c) in E1. clearbody c3.
    set (c4 := set_page _ _ c3). assert (E4 : tb_invalidated_flag c4 = tb_invalidated_flag c)
      by (rewrite <- E1; unfold c4, set_page; by destruct (l1_map c3 _)).
    destruct (mbind _ _); [done|]. by destruct (tlb_protect_code _ _ _ _). }
  assert (Halloc : forall c r, tb_alloc code_gen_buffer code_gen_max_block_size pc0 c = Some r -> tb_invalidated_flag r.2 = tb_invalidated_flag c).
  { clear. intros c r. unfold tb_alloc. destruct (_ || _); [done|]. by intros [= <-]. }
  unfold tb_gen_code, tb_link_phys. set (al := match tb_alloc _ _ pc0 c with Some _ => _ | None => _ end).
  destruct al as [[t0 c1]|] eqn:E; [|done]. cbn [mbind option_bind]. assert (E1 : tb_invalidated_flag c1 = tb_invalidated_flag c).
  { unfold al in E. destruct (tb_alloc _ _ pc0 c) as [r|] eqn:Er.
    - injection E as ->. by apply Halloc in Er.
    - apply Halloc in E. exact E. }
  cbv zeta. set (c2 := _ <| tb_phys_hash := _ |>). change (tb_invalidated_flag c2 = tb_invalidated_flag c) in E1. clearbody c2.
  pose proof (Hpage t0 0 (page_base phys_pc) c2 tl s) as H3. destruct (tb_alloc_page phys_ram_base t0 0 _ c2 tl s) as [[c3 tl3] s3].
  rewrite <- E1, <- H3. clear -Hpage. set (p2 := if negb _ then page2 else NO_PAGE). destruct (negb (p2 =? NO_PAGE)).
  - pose proof (Hpage t0 1 p2 c3 tl3 s3) as H5. destruct (tb_alloc_page phys_ram_base t0 1 p2 c3 tl3 s3) as [[c5 tl5] s5].
    rewrite <- H5. intros [= _ <- _ _]. by repeat case_match.
  - intros [= _ <- _ _]. by repeat case_match.
Qed.

(** ** Finding the block to run *)

Definition matches (b : TranslationBlock) (pc0 cs fl phys_pc page2 : Z) : Prop :=
  pc b = pc0 /\ page_addr b 0 = page_base phys_pc /\ cs_base b = cs /\ flags b = fl /\
  (page_addr b 1 = NO_PAGE \/ page_addr b 1 = page2).

Lemma find_block_ok pc0 cs fl phys_pc page2 c (h := tb_phys_hash_func phys_pc) : forall fuel l ptb,
  seg Some (hash_link h c) (hash_link h c ptb) None l -> (length l < fuel)%nat ->
  exists r, find_block fuel ptb pc0 cs fl phys_pc page2 c = Some r /\
  match r with
  | Some t => t ∈ l /\ matches (tbs c t) pc0 cs fl phys_pc page2
  | None => forall t, t ∈ l -> ~ matches (tbs c t) pc0 cs fl phys_pc page2
  end.
Proof using.
  induction fuel as [|fuel IH]; intros l ptb Hs Hf; [lia|]. cbn [find_block]. fold h.
  destruct l as [|t l]; cbn [seg] in Hs.
  - rewrite Hs. exists None. split; [done|]. set_solver.
  - destruct Hs as [-> Hs]. destruct (_ && _) eqn:E.
    + exists (Some t). split; [done|]. split; [left|].
      rewrite !andb_true_iff, orb_true_iff, !Z.eqb_eq in E. unfold matches. tauto.
    + destruct (IH l (Some t) Hs) as (r & -> & Hr); [cbn in Hf; lia|]. exists r. split; [done|].
      destruct r as [u|]; [destruct Hr; split; [by right|done]|].
      intros u [->|Hu]%elem_of_cons; [|by apply Hr]. intros (M1 & M2 & M3 & M4 & M5).
      apply not_true_iff_false in E. apply E. rewrite !andb_true_iff, orb_true_iff, !Z.eqb_eq. tauto.
Qed.

(** The block [tb_find_fast] gives is in the tables, and is one for this state of the CPU. *)
Definition for_state (c : cache) (t pc0 cs fl : Z) : Prop :=
  pc (tbs c t) = pc0 /\ cs_base (tbs c t) = cs /\ flags (tbs c t) = fl.

Lemma found_ok c L t pc0 : tables_ok c L -> t ∈ L -> pc (tbs c t) = pc0 ->
  tables_ok (c <| tb_jmp_cache := put (tb_jmp_cache c) (tb_jmp_cache_hash_func pc0) (Some t) |>) L.
Proof using.
  intros [A1 A2 A3 A4 A5 A6] Ht Hpc. split; [done|done|done|by apply (jumps_ok_same c)| |done].
  intros h u. cbn. unfold put. destruct (Z.eqb_spec h (tb_jmp_cache_hash_func pc0)) as [->|]; [|apply A5].
  intros [= <-]. by rewrite Hpc.
Qed.

(** The block that is found without translating, if there is one. *)
Definition lookup (pc0 cs fl phys_pc page2 : Z) (c : cache) : option (option Z) :=
  let slow := find_block (links c) None pc0 cs fl phys_pc page2 c in
  match tb_jmp_cache c (tb_jmp_cache_hash_func pc0) with
  | Some tb =>
    if negb (pc (tbs c tb) =? pc0) || negb (cs_base (tbs c tb) =? cs) || negb (flags (tbs c tb) =? fl) then slow
    else Some (Some tb)
  | None => slow
  end.

Lemma slow_ok pc0 cs fl phys_pc page2 g c tl (s : phys) L : 0 <= code_gen_max_block_size < CODE_GEN_BUFFER_SIZE ->
  tables_ok c L -> clean c L s -> current_tb c = None -> gen_ok pc0 phys_pc page2 g ->
  exists r t c' tl' s' L',
    find_block (links c) None pc0 cs fl phys_pc page2 c = Some r /\
    tb_find_slow code_gen_buffer code_gen_max_block_size phys_ram_base pc0 cs fl phys_pc page2 g c tl s = Some (t, c', tl', s') /\
    tables_ok c' L' /\ clean c' L' s' /\ cleaner s s' /\ t ∈ L' /\ for_state c' t pc0 cs fl /\ current_tb c' = None /\
    (r = Some t /\ tb_invalidated_flag c' = 0 /\ L' = L /\ s' = s /\ (forall u, tbs c' u = tbs c u) \/
     r = None /\ (forall u, u ∈ L' -> u <> t -> u ∈ L /\ tbs c' u = tbs c u) /\
     (if tb_invalidated_flag c' =? 0 then t ∉ L /\ L' = {[t]} ∪ L else L' = {[t]})).
Proof using.
  intros Hmax H Hcl Hc Hg. unfold tb_find_slow. set (c0 := c <| tb_invalidated_flag := 0 |>).
  assert (H0 : tables_ok c0 L).
  { destruct H as [A1 A2 A3 A4 A5 A6]. split; [done|done|done|by apply (jumps_ok_same c)|done|done]. }
  destruct (ok_hash c L H (tb_phys_hash_func phys_pc)) as (l & Hs & Hd & Hm).
  assert (Hl := live_length c L l (ok_blocks c L H) Hd (fun u Hu => proj1 (proj1 (Hm u) Hu))).
  destruct (find_block_ok pc0 cs fl phys_pc page2 c (links c) l None Hs Hl) as (r & Er & Hr).
  assert (Er0 : find_block (links c0) None pc0 cs fl phys_pc page2 c0 = Some r).
  { rewrite <- Er. change (links c0) with (links c). generalize (links c). intros n.
    enough (He : forall p, find_block n p pc0 cs fl phys_pc page2 c0 = find_block n p pc0 cs fl phys_pc page2 c) by apply He.
    induction n as [|n IH]; intros p; [done|]. cbn [find_block]. change (hash_link (tb_phys_hash_func phys_pc) c0 p) with (hash_link (tb_phys_hash_func phys_pc) c p).
    destruct (hash_link _ c p) as [t|]; [|done]. change (tbs c0) with (tbs c). by rewrite IH. }
  rewrite Er0. cbn [mbind option_bind]. exists r. destruct r as [t|].
  - destruct Hr as [Ht (M1 & M2 & M3 & M4 & M5)]. apply Hm in Ht as [Ht _]. cbn [mbind option_bind].
    eexists t, _, tl, s, L. split; [done|]. split; [reflexivity|]. split; [by apply found_ok|]. split; [done|].
    split; [reflexivity|]. split; [done|]. split; [done|]. split; [exact Hc|]. left. by repeat split.
  - set (c1 := match tb_alloc _ _ pc0 c0 with Some _ => c0 | None => _ end).
    assert (H1 : tables_ok c1 L /\ clean c1 L s /\ current_tb c1 = None /\ forall u, tbs c1 u = tbs c u).
    { unfold c1. destruct (tb_alloc _ _ pc0 c0); [done|]. split; [|done].
      destruct H as [A1 A2 A3 A4 A5 A6]. split; [done|done|done|by apply (jumps_ok_same c)|done|done]. }
    destruct H1 as (H1 & Hcl1 & Hc1 & E1).
    assert (Hfull : tb_alloc code_gen_buffer code_gen_max_block_size pc0 c1 = None -> tb_invalidated_flag c1 = 1).
    { unfold c1. destruct (tb_alloc _ _ pc0 c0) eqn:Ea; [congruence|done]. }
    assert (Hroom : tb_alloc code_gen_buffer code_gen_max_block_size pc0 c1 <> None -> tb_invalidated_flag c1 = 0).
    { unfold c1. destruct (tb_alloc _ _ pc0 c0) eqn:Ea; [done|]. intros Hroom. destruct Hroom. unfold tb_alloc in Ea |- *. change (nb_tbs (c0 <| tb_invalidated_flag := 1 |>)) with (nb_tbs c0). change (code_gen_ptr (c0 <| tb_invalidated_flag := 1 |>)) with (code_gen_ptr c0). by destruct (_ || _). }
    clearbody c1. destruct (gen_code_ok pc0 cs fl 0 phys_pc page2 g c1 tl s L Hmax H1 Hcl1 Hc1 Hg) as
      (t & c' & tl' & s' & L0 & Eg & HL & Ht & T' & Cl' & M & O' & Q1 & Q2 & Q3 & Q4). rewrite Eg. cbn [mbind option_bind].
    apply gen_code_flag in Eg.
    eexists t, _, tl', s', ({[t]} ∪ L0). split; [done|]. split; [reflexivity|]. split; [apply found_ok; [done|set_solver|done]|].
    split; [exact Cl'|]. split; [done|]. split; [set_solver|]. split; [done|]. split; [exact Q4|]. right. split; [done|]. split; [|].
    2:{ cbn. rewrite Eg. destruct HL as [[Hsome ->] | [Hno ->]]; [by rewrite (Hroom Hsome)|]. rewrite (Hfull Hno). set_solver. }
    intros u Hu Hne. assert (Hu0 : u ∈ L0) by set_solver. split; [destruct HL as [[_ ->] | [_ ->]]; [done|set_solver]|].
    rewrite <- E1. by apply O'.
Qed.

Lemma find_fast_ok pc0 cs fl phys_pc page2 g c tl (s : phys) L : 0 <= code_gen_max_block_size < CODE_GEN_BUFFER_SIZE ->
  tables_ok c L -> clean c L s -> current_tb c = None -> gen_ok pc0 phys_pc page2 g ->
  exists r t d c' tl' s' L',
    lookup pc0 cs fl phys_pc page2 c = Some r /\
    tb_find_fast code_gen_buffer code_gen_max_block_size phys_ram_base pc0 cs fl phys_pc page2 g c tl s = Some (t, d, c', tl', s') /\
    tables_ok c' L' /\ clean c' L' s' /\ cleaner s s' /\ t ∈ L' /\ for_state c' t pc0 cs fl /\ current_tb c' = None /\
    (r = Some t /\ d = true /\ L' = L /\ s' = s /\ (forall u, tbs c' u = tbs c u) \/
     r = None /\ (forall u, u ∈ L' -> u <> t -> u ∈ L /\ tbs c' u = tbs c u) /\
     (if d then t ∉ L /\ L' = {[t]} ∪ L else L' = {[t]})).
Proof using.
  intros Hmax H Hcl Hc Hg. unfold tb_find_fast, lookup.
  destruct (slow_ok pc0 cs fl phys_pc page2 g c tl s L Hmax H Hcl Hc Hg) as (r & t & c' & tl' & s' & L' & E1 & E2 & K).
  rewrite E1, E2. cbn [mbind option_bind].
  destruct (tb_jmp_cache c (tb_jmp_cache_hash_func pc0)) as [u|] eqn:Ej; [|exists r, t, (tb_invalidated_flag c' =? 0), c', tl', s', L'; split; [done|]; split; [reflexivity|]; try rewrite Z.eqb_eq; exact K].
  destruct (_ || _) eqn:Em; [exists r, t, (tb_invalidated_flag c' =? 0), c', tl', s', L'; split; [done|]; split; [reflexivity|]; try rewrite Z.eqb_eq; exact K|].
  destruct (ok_found c L H _ u Ej) as [Hu _].
  rewrite !orb_false_iff, !negb_false_iff, !Z.eqb_eq in Em. destruct Em as [[M1 M2] M3].
  exists (Some u), u, true, c, tl, s, L. do 4 (split; [done|]). split; [reflexivity|]. do 3 (split; [done|]).
  left. by repeat split.
Qed.
End Clean.

(** ** Direct jumps *)

Lemma add_jump_links t n nxt c y : jmp_link c (t, n) = None -> is_jump (t, n) -> jmp_link c (nxt, 2) <> None ->
  jmp_link (tb_add_jump t n nxt c) y =
    if decide (y = (t, n)) then jmp_link c (nxt, 2) else if decide (y = (nxt, 2)) then Some (t, n) else jmp_link c y.
Proof.
  intros Hn Hj _. unfold tb_add_jump. rewrite (jmp_next_link c t n Hj), Hn.
  set (c1 := tb_set_jmp_target t n _ c).
  assert (E1 : forall z, jmp_link c1 z = jmp_link c z).
  { intros [u m]. unfold c1, jmp_link, tb_set_jmp_target. cbn [fst]. rewrite tbs_set_tb. by destruct (Z.eqb_spec u t) as [->|]. }
  change (jmp_first (tbs c1 nxt)) with (jmp_link c1 (nxt, 2)).
  set (c2 := set_jmp_link (t, n) _ c1).
  assert (E3 : jmp_link (set_tb nxt (fun b => b <| jmp_first := Some (t, n) |>) c2) y =
    if decide (y = (nxt, 2)) then Some (t, n) else jmp_link c2 y).
  { destruct y as [u m]. unfold jmp_link. cbn [fst snd]. rewrite tbs_set_tb.
    destruct (Z.eqb_spec u nxt) as [->|Hu]; [|rewrite decide_False; [done|by intros [= Hu1 _]]].
    destruct (Z.eqb_spec m 2) as [->|Hm]; [by rewrite decide_True|rewrite decide_False; [done|by intros [= Hm1]]]. }
  rewrite E3. unfold c2. rewrite jmp_link_set, !E1. destruct (decide (y = (t, n))) as [->|]; [|done].
  rewrite decide_False; [done|]. intros [= -> ->]. by destruct Hj.
Qed.

Lemma add_jump_target t n nxt c x : tb_next (tbs (tb_add_jump t n nxt c) x.1) x.2 =
  if decide (x = (t, n) /\ jmp_next (tbs c t) n = None) then tc_ptr (tbs c nxt) else tb_next (tbs c x.1) x.2.
Proof.
  unfold tb_add_jump. destruct (jmp_next (tbs c t) n) eqn:E; [by rewrite decide_False by naive_solver|].
  set (c1 := tb_set_jmp_target t n _ c). set (c2 := set_jmp_link (t, n) _ c1).
  assert (E3 : tb_next (tbs (set_tb nxt (fun b => b <| jmp_first := Some (t, n) |>) c2) x.1) = tb_next (tbs c2 x.1)).
  { rewrite tbs_set_tb. by destruct (Z.eqb_spec x.1 nxt) as [->|]. }
  rewrite E3. unfold c2. rewrite set_jmp_target. unfold c1, tb_set_jmp_target. rewrite tbs_set_tb.
  destruct x as [u m]. cbn [fst snd]. destruct (Z.eqb_spec u t) as [->|]; [|by rewrite decide_False by naive_solver].
  cbn. unfold put. destruct (Z.eqb_spec m n) as [->|]; [by rewrite decide_True|by rewrite decide_False by naive_solver].
Qed.

Lemma add_jump_same t n nxt c : same_but_jumps c (tb_add_jump t n nxt c) /\ current_tb (tb_add_jump t n nxt c) = current_tb c.
Proof.
  unfold tb_add_jump. destruct (jmp_next (tbs c t) n); [by split|]. split; [|done].
  etransitivity; [|apply set_first_same]. etransitivity; [|apply set_jmp_link_same].
  unfold tb_set_jmp_target, same_but_jumps, same_code, same_hash, same_pages, same_found. same.
Qed.

Lemma add_jump_ok t n nxt c L : tables_ok c L -> t ∈ L -> nxt ∈ L -> is_jump (t, n) -> tables_ok (tb_add_jump t n nxt c) L.
Proof.
  intros [A1 A2 A3 A4 A5 A6] Ht Hnx Hj. destruct (add_jump_same t n nxt c) as ((S1 & S2 & S3 & S4) & Sc).
  set (c' := tb_add_jump t n nxt c) in *. assert (Hne : forall y, is_jump y -> y <> (nxt, 2)) by (intros y [Hy|Hy] ->; done).
  destruct A4 as (J & H & T1 & T2).
  destruct (jmp_link c (t, n)) as [y|] eqn:En.
  { assert (E : c' = c) by (unfold c', tb_add_jump; by rewrite (jmp_next_link c t n Hj), En). rewrite E.
    split; [done|done|done|by exists J|done|done]. }
  assert (Hfirst : jmp_link c (nxt, 2) <> None).
  { assert (Hs := jumps_list c L J H nxt Hnx). destruct (J nxt); cbn [seg] in Hs; [by rewrite Hs|]. destruct Hs as [-> _]. done. }
  assert (Hlink : forall y, jmp_link c' y = _) by (intros y; apply (add_jump_links t n nxt c y En Hj Hfirst)).
  assert (Htgt : forall x, tb_next (tbs c' x.1) x.2 = if decide (x = (t, n)) then tc_ptr (tbs c nxt) else tb_next (tbs c x.1) x.2).
  { intros x. unfold c'. rewrite add_jump_target. rewrite (jmp_next_link c t n Hj), En. repeat case_decide; naive_solver. }
  assert (Hno : forall tb, tb ∈ L -> (t, n) ∉ J tb) by (intros tb Htb; by apply (not_listed c L J)).
  assert (Hold : forall tb x, tb ∈ L -> x ∈ J tb -> jmp_link c' x = jmp_link c x).
  { intros tb x Htb Hx. rewrite Hlink, !decide_False; [done| |].
    - apply Hne. by apply (jumps_live c L J H tb).
    - intros ->. by apply (Hno tb). }
  split.
  - by apply (blocks_ok_same c c' L).
  - by apply (hash_ok_same c c').
  - by apply (pages_ok_same c c').
  - exists (put J nxt ((t, n) :: J nxt)). split; [split|split].
    + intros tb Htb. unfold put. destruct (Z.eqb_spec tb nxt) as [->|Hd].
      * cbn [seg]. rewrite (Hlink (nxt, 2)), decide_False, decide_True by (done || (intros [= -> <-]; by destruct Hj)).
        split; [done|]. change (id (t, n)) with (t, n). rewrite (Hlink (t, n)), decide_True by done.
        apply seg_ext with (jmp_link c); [|by apply (jumps_list c L J)]. intros x Hx. by apply (Hold nxt).
      * rewrite (Hlink (tb, 2)), !decide_False by (congruence || (intros [= -> <-]; by destruct Hj)).
        apply seg_ext with (jmp_link c); [|by apply (jumps_list c L J)]. intros x Hx. by apply (Hold tb).
    + intros tb Htb. unfold put. destruct (Z.eqb_spec tb nxt) as [->|Hd]; [|by apply (jumps_nodup c L J)].
      constructor; [by apply Hno|by apply (jumps_nodup c L J)].
    + intros tb x Htb. unfold put. destruct (Z.eqb_spec tb nxt) as [->|Hd]; [|by apply (jumps_live c L J)].
      intros [->|Hx]%elem_of_cons; [done|]. by apply (jumps_live c L J H nxt).
    + intros tb tb' x Htb Htb'. unfold put.
      destruct (Z.eqb_spec tb nxt) as [->|Hd], (Z.eqb_spec tb' nxt) as [->|Hd']; try done; rewrite ?elem_of_cons; [| |by apply (jumps_one c L J)].
      * intros [->|Hx] Hx'; [by apply Hno in Hx'|]. by apply (jumps_one c L J H nxt tb' x).
      * intros Hx' [->|Hx]; [by apply Hno in Hx'|]. by apply (jumps_one c L J H tb nxt x).
    + intros x Hx Hxj Hn. unfold put. destruct (decide (x = (t, n))) as [->|Hxn].
      * exists nxt. rewrite Z.eqb_refl. split; [done|left].
      * rewrite Hlink, !decide_False in Hn by (done || by apply Hne).
        destruct (jumps_all c L J H x Hx Hxj Hn) as (tb & Htb & Hin). exists tb. split; [done|].
        destruct (Z.eqb_spec tb nxt) as [->|]; [by right|done].
    + intros tb x Htb. assert (Ec : tc_ptr (tbs c' tb) = tc_ptr (tbs c tb)) by apply S1. rewrite Ec, Htgt. unfold put.
      destruct (Z.eqb_spec tb nxt) as [->|Hd].
      * intros [->|Hx]%elem_of_cons; [by rewrite decide_True|].
        rewrite decide_False by (intros ->; by apply (Hno nxt)). by apply T1.
      * intros Hx. rewrite decide_False by (intros ->; by apply (Hno tb)). by apply T1.
    + intros x Hx Hxj Hn _ Hoff. change (u32 _) with (exit_of c' x). rewrite (exit_of_same c) by done. rewrite Htgt.
      destruct (decide (x = (t, n))) as [->|Hxn]; [rewrite Hlink, decide_True in Hn by done; congruence|].
      rewrite Hlink, !decide_False in Hn by (done || by apply Hne). apply T2; [done|done|done|tauto|].
      by destruct (proj2 (proj2 (proj2 S1)) x.1) as (_ & _ & _ & _ & _ & _ & _ & <-).
  - intros h u. rewrite S4. intros Hu. destruct (proj2 (proj2 (proj2 S1)) u) as (-> & _). by apply A5.
  - intros u Hu. rewrite Sc in Hu. destruct (A6 u Hu) as [Hin|[N0 N1]]; [by left|].
    destruct (decide (u = t)) as [->|Hut]; [by left|]. right.
    rewrite !Hlink, !decide_False by congruence. done.
Qed.
End CodeRun.
