(* ===== verification/CodeGuest.v ===== *)
(** * Running translated code

    The tables of [CodeBlocks] at work.  The interface through which the stores of
    [Softmmu] reach them has its instance here.  A run is any sequence of turns of the loop
    of [cpu_exec], stores of the guest, writes of devices, interrupts and flushes; the memory
    each block was made from is kept beside the program's state. *)

From S2P Require Import Prelude Bytes PhysMem Mmu Tlb Softmmu CodeBlocks CodeTables CodeRun.
Import PhysMem Tlb CodeBlocks CodeTables CodeRun.

Module CodeGuest.

(** ** Blocks that can be found *)

(** The blocks in the list of a hash. *)
Inductive listed (c : cache) (h : Z) : Z -> Prop :=
| listed_first t : tb_phys_hash c h = Some t -> listed c h t
| listed_next t u : listed c h t -> phys_hash_next (tbs c t) = Some u -> listed c h u.

Definition known (c : cache) (t : Z) : Prop := exists h, listed c h t.

Lemma seg_closed {A} (deref : option A -> option A) l : forall p, seg Some deref p None l ->
  forall a b, a ∈ l -> deref (Some a) = Some b -> b ∈ l.
Proof.
  induction l as [|x l IH]; intros p Hs a b Ha Hb; [by apply not_elem_of_nil in Ha|]. destruct Hs as [_ Hs].
  apply elem_of_cons in Ha as [->|Ha]; [|right; by apply (IH _ Hs a)].
  rewrite Hb in Hs. destruct l; cbn [seg] in Hs; [done|]. destruct Hs as [[= ->] _]. right. left.
Qed.

Lemma seg_listed c h l : forall p, seg Some (hash_link h c) p None l -> (forall t, p = Some t -> listed c h t) ->
  forall t, t ∈ l -> listed c h t.
Proof.
  induction l as [|x l IH]; intros p Hs Hp t Ht; [by apply not_elem_of_nil in Ht|]. destruct Hs as [-> Hs].
  apply elem_of_cons in Ht as [->|Ht]; [by apply Hp|]. apply (IH _ Hs); [|done]. intros u Hu.
  apply (listed_next c h x); [by apply Hp|done].
Qed.

Lemma known_live c L t : tables_ok c L -> known c t <-> t ∈ L.
Proof.
  intros H. split.
  - intros [h Hl]. destruct (ok_hash c L H h) as (l & Hs & _ & Hm). enough (Hin : t ∈ l) by (by apply Hm).
    induction Hl as [t Ht|t u _ IH Hu]; [|exact (seg_closed _ l _ Hs t u IH Hu)].
    rewrite Ht in Hs. destruct l; cbn [seg] in Hs; [done|]. destruct Hs as [[= ->] _]. left.
  - intros Ht. exists (phys_hash (tbs c t)). destruct (ok_hash c L H (phys_hash (tbs c t))) as (l & Hs & _ & Hm).
    apply (seg_listed c _ l _ Hs); [by apply listed_first|]. by apply Hm.
Qed.

(** ** Chains of direct jumps *)

(** Jump [n] of the block goes to block [u]: the head of the list that the jump is in. *)
Definition jumps_to (c : cache) (t n u : Z) : Prop := find_head (links c) (jmp_next (tbs c t) n) c = Some u.

Inductive chain (c : cache) (t : Z) : Z -> Prop :=
| chain_here : chain c t t
| chain_jump u n v : chain c t u -> is_jump (u, n) -> jumps_to c u n v -> chain c t v.

Lemma jumps_to_target c L u n v : tables_ok c L -> u ∈ L -> is_jump (u, n) -> jumps_to c u n v -> target c L (u, n) v.
Proof.
  intros H Hu Hj Hv. unfold jumps_to in Hv. rewrite (jmp_next_link c u n Hj) in Hv.
  destruct (ok_jumps c L H) as (J & HJ & _). destruct (jmp_link c (u, n)) as [x|] eqn:E.
  2:{ destruct (links c); cbn in Hv; done. }
  destruct (jumps_all c L J HJ (u, n) Hu Hj) as (tb & Htb & Hin); [congruence|].
  assert (tb = v) as <-; [|split; [done|by exists J]].
  apply list_elem_of_split in Hin as (l1 & l2 & El).
  assert (Hl := jump_length c L J tb (ok_blocks c L H) HJ Htb). rewrite El, length_app in Hl. cbn in Hl.
  assert (Hs := jumps_list c L J HJ tb Htb). rewrite El, seg_app in Hs. destruct Hs as (q & _ & [_ Hs2]).
  change (id (u, n)) with (u, n) in Hs2. rewrite E in Hs2.
  assert (Hj2 : Forall is_jump l2).
  { apply Forall_forall. intros y Hy. apply (jumps_live c L J HJ tb y Htb). rewrite El. set_solver. }
  rewrite (find_head_ok c tb (links c) (Some x) l2 Hs2 Hj2) in Hv by lia. congruence.
Qed.

Lemma chain_live c L t u : tables_ok c L -> t ∈ L -> chain c t u -> u ∈ L.
Proof.
  intros H Ht. induction 1 as [|u n v _ IH Hj Hv]; [done|]. by destruct (jumps_to_target c L u n v H IH Hj Hv).
Qed.

(** When every jump that is taken away has its target stopped, all of a chain is. *)
Lemma chain_stopped c c' L t u : tables_ok c L -> t ∈ L -> cuts c c' L -> jumps_ok c' L -> stopped c' t -> chain c t u -> stopped c' u.
Proof.
  intros H Ht Hc HJ Hs Hu. induction Hu as [|u n v Hu IH Hj Hv]; [done|].
  assert (HuL := chain_live c L t u H Ht Hu). assert (Htg := jumps_to_target c L u n v H HuL Hj Hv).
  destruct (Hc _ _ Htg) as [(Hv' & J & HJ' & Hin)|[_ Hst]]; [|done].
  assert (Hsome := seg_next id _ _ _ _ (u, n) (jumps_list c' L J HJ' v Hv') Hin). destruct Hsome.
  change (id (u, n)) with (u, n). destruct Hj as [Hn|Hn]; cbn in Hn; subst n; apply IH.
Qed.

(** Where a jump leads: out of the translated code, or to a block that can be found. *)
Lemma jump_leads c L x : tables_ok c L -> x.1 ∈ L -> is_jump x -> tb_next_offset (tbs c x.1) x.2 <> 0xffff ->
  jmp_link c x = None /\ tb_next (tbs c x.1) x.2 = exit_of c x \/
  exists u, u ∈ L /\ tb_next (tbs c x.1) x.2 = tc_ptr (tbs c u).
Proof.
  intros H Hx Hj Ho. destruct (ok_jumps c L H) as (J & HJ & T1 & T2). destruct (jmp_link c x) as [y|] eqn:E.
  - right. destruct (jumps_all c L J HJ x Hx Hj) as (tb & Htb & Hin); [congruence|]. exists tb. split; [done|]. by apply T1.
  - left. split; [done|]. apply T2; [done|done|done|tauto|done].
Qed.

Section Stores.
Context {D : Type}.
Context (code_gen_buffer : Z).
Abbreviation phys := (phys (D := D)).

(** ** The interface of the stores *)

(** The call that a store makes.  A block that modifies itself is left as it is to be
    finished; [exec] has its restart. *)
Definition invalidate_fast (start len : Z) (c : cache) (s : phys) : cache * phys :=
  match tb_invalidate_phys_page_fast code_gen_buffer start len c s with
  | Some (_, c, s) => (c, s)
  | None => (c, s)
  end.

Lemma range_memory start stop w c (s : phys) m c' s' :
  tb_invalidate_phys_page_range code_gen_buffer start stop w c s = Some (m, c', s') ->
  s' = s \/ s' = tlb_unprotect_code_phys start s.
Proof using.
  unfold tb_invalidate_phys_page_range. destruct (page_find _ c) as [p|]; [|intros [= _ _ <-]; by left].
  set (counted := match code_bitmap p with Some _ => _ | None => _ end). destruct counted as [c1|]; [|done]. cbn [mbind option_bind].
  destruct (invalidate_loop _ _ _ _ _ _ c1) as [[pr c2]|]; [|done]. cbn [mbind option_bind].
  destruct (page_find _ c2) as [p2|]; [|done]. cbn [mbind option_bind].
  destruct (first_tb p2); intros [= _ _ <-]; [by left|]. destruct w; auto.
Qed.

Lemma fast_memory start len c (s : phys) m c' s' :
  tb_invalidate_phys_page_fast code_gen_buffer start len c s = Some (m, c', s') ->
  s' = s \/ s' = tlb_unprotect_code_phys start s.
Proof using.
  unfold tb_invalidate_phys_page_fast. destruct (page_find _ c) as [p|]; [|intros [= _ _ <-]; by left].
  destruct (code_bitmap p) as [tab|]; [|apply range_memory]. destruct (truth _); [apply range_memory|].
  intros [= _ _ <-]. by left.
Qed.

Definition code_cache : Softmmu.CodeCache cache D.
Proof using code_gen_buffer.
  refine {| Softmmu.tb_invalidate_phys_page_fast := invalidate_fast |}.
  intros start len c s. unfold invalidate_fast. destruct (tb_invalidate_phys_page_fast _ _ _ _ _) as [[[m c'] s']|] eqn:E.
  - cbn. apply fast_memory in E as [-> | ->]; cbn; (do 3 (split; [done|])); intros p; [by left|].
    unfold mem_upd. destruct (Z.eqb_spec p (Z.shiftr start TARGET_PAGE_BITS)) as [->|]; [by right|by left].
  - cbn. do 3 (split; [done|]). by left.
Defined.

(** ** What a write needs *)

Lemma tables_current c L x : tables_ok c L -> (forall t, x = Some t -> t ∈ L) -> tables_ok (c <| current_tb := x |>) L.
Proof using.
  intros [A1 A2 A3 A4 A5 A6] Hx. split; [done|done|done|by apply (jumps_ok_same c)|done|]. intros t Ht. left. by apply Hx.
Qed.

Lemma clean_same c c' L (s : phys) : same_code c c' -> clean c L s -> clean c' L s.
Proof using.
  intros (_ & _ & _ & Hb) H t a Ht Hbytes. apply (H t a Ht). apply (block_bytes_same (tbs c t) (tbs c' t)); [apply Hb|done].
Qed.

(** The blocks were made from the bytes that are in memory. *)
Definition made_ok (c : cache) (L : gset Z) (s : phys) (made : Z -> Z -> Z) : Prop :=
  forall t a, t ∈ L -> block_bytes (tbs c t) a -> made t a = phys_ram s a.

Lemma nd_flag x : Z.land (Z.lor x (Z.land 0xff (Z.lnot CODE_DIRTY_FLAG))) CODE_DIRTY_FLAG = Z.land x CODE_DIRTY_FLAG.
Proof using. rewrite Z.land_lor_distr_l. change (Z.land (Z.land _ _) _) with 0. apply Z.lor_0_r. Qed.

(** A page that is dirty for code holds no byte of a block. *)
Lemma code_page_free c L (s : phys) start stop : clean c L s -> one_page start stop ->
  ~ no_code_flag s (Z.shiftr start TARGET_PAGE_BITS) -> forall t, t ∈ L -> ~ touches c start stop t.
Proof using.
  intros Hc H1 Hd t Ht (a & Ha & Hb). apply Hd. destruct (page_of start stop a H1 Ha) as (_ & E & _ & ->).
  rewrite <- E. by apply (Hc t).
Qed.

(** Writing bytes that belong to no block. *)
Lemma made_write c L (s : phys) made a bs : (forall t, t ∈ L -> ~ touches c a (a + Z.of_nat (length bs)) t) ->
  made_ok c L s made -> made_ok c L (ram_store a bs s) made.
Proof using.
  intros Hn H t b Ht Hb. rewrite (H t b Ht Hb). cbn. symmetry. apply mem_write_other.
  destruct (decide (a <= b < a + Z.of_nat (length bs))) as [Hin|]; [|lia]. by destruct (Hn t Ht); exists b.
Qed.

(** New blocks, made from what is in memory. *)
Lemma made_new c c' L L' (s s' : phys) made made' : phys_ram s' = phys_ram s -> made_ok c L s made ->
  (forall u, u ∈ L' -> made' u = phys_ram s \/ u ∈ L /\ made' u = made u /\ same_block (tbs c u) (tbs c' u)) ->
  made_ok c' L' s' made'.
Proof using.
  intros Er Hm Hu t a Ht Hb. rewrite Er. destruct (Hu t Ht) as [->|(HtL & -> & S)]; [done|].
  apply Hm; [done|]. by apply (block_bytes_same (tbs c t) (tbs c' t)).
Qed.

Lemma invalidated_facts start stop w c L (s : phys) c' s' made : one_page start stop -> clean c L s -> made_ok c L s made ->
  invalidated start stop w c L s c' s' ->
  exists L', tables_ok c' L' /\ same_code c c' /\ (forall t, t ∈ L' <-> t ∈ L /\ ~ touches c start stop t) /\
    clean c' L' s' /\ made_ok c' L' s' made /\ l1_phys_map s' = l1_phys_map s.
Proof using.
  intros H1 Hc Hmade (L' & T & S & HL & Hs). exists L'. split; [done|]. split; [done|]. split; [done|].
  assert (Hsub : forall t, t ∈ L' -> t ∈ L) by (intros t Ht; by apply HL).
  assert (Hb : forall t a, block_bytes (tbs c' t) a -> block_bytes (tbs c t) a).
  { intros t a Ha. apply (block_bytes_same (tbs c t) (tbs c' t)); [apply S|done]. }
  assert (Hm' : phys_ram s' = phys_ram s /\ l1_phys_map s' = l1_phys_map s) by (by destruct Hs as [->|(_ & -> & _)]).
  split; [|split; [|apply Hm']].
  - intros t a Ht Ha. apply Hb in Ha. specialize (Hc t a (Hsub t Ht) Ha). destruct Hs as [->|(_ & -> & Hp)]; [done|].
    unfold no_code_flag. cbn. unfold mem_upd. destruct (Z.eqb_spec (page_base a / 4096) (Z.shiftr start TARGET_PAGE_BITS)) as [E|]; [|done].
    destruct (page_of start stop start H1 ltac:(destruct H1; lia)) as (Hu & _ & _ & Es). rewrite Es in E.
    destruct (Hp t a Ht Ha). assert (E1 : page_base a mod 4096 = 0) by apply page_base_mod.
    assert (E2 : page_base start mod 4096 = 0) by apply page_base_mod.
    rewrite (Z.div_mod (page_base a) 4096), (Z.div_mod (page_base start) 4096) by lia. by rewrite E, E1, E2.
  - intros t a Ht Ha. rewrite (proj1 Hm'). apply Hmade; [by apply Hsub|by apply Hb].
Qed.

Lemma small_store n a : (n = 1 \/ n = 2 \/ n = 4)%nat -> a mod Z.of_nat n = 0 -> 0 <= a < 2 ^ 32 - 4096 ->
  one_page a (a + Z.of_nat n).
Proof using.
  intros Hn Hm Ha. assert (Hu : is_u32 a) by (unfold in_width; lia). split; [done|]. split; [lia|].
  rewrite page_off_mod. destruct (page_split a Hu) as (_ & Hr & _). rewrite page_off_mod in Hr.
  assert (Hmod : (a mod 4096) mod Z.of_nat n = 0).
  { destruct Hn as [-> | [-> | ->]]; clear -Hm; Z.to_euclidean_division_equations; lia. }
  destruct Hn as [-> | [-> | ->]]; clear -Hmod Hr; Z.to_euclidean_division_equations; lia.
Qed.

(** Before the bytes are written, no block covers them. *)
Lemma cleared_ok n a c (s : phys) L made : (n = 1 \/ n = 2 \/ n = 4)%nat -> a mod Z.of_nat n = 0 -> 0 <= a < 2 ^ 32 - 4096 ->
  tables_ok c L -> clean c L s -> made_ok c L s made ->
  exists m c' s' L', (if negb (has (phys_ram_dirty s (Z.shiftr a TARGET_PAGE_BITS)) CODE_DIRTY_FLAG)
      then tb_invalidate_phys_page_fast code_gen_buffer a (Z.of_nat n) c s else Some (None, c, s)) = Some (m, c', s') /\
    tables_ok c' L' /\ same_code c c' /\ (forall t, t ∈ L' <-> t ∈ L /\ ~ touches c a (a + Z.of_nat n) t) /\
    clean c' L' s' /\ made_ok c' L' s' made /\ l1_phys_map s' = l1_phys_map s.
Proof using.
  intros Hn Hm Ha H Hc Hmade. assert (H1 := small_store n a Hn Hm Ha). destruct (negb _) eqn:Ef.
  - destruct (fast_ok code_gen_buffer a (Z.of_nat n) c s L) as (m & c' & s' & E & K); [lia|done|lia|done|].
    exists m, c', s'. destruct (invalidated_facts _ _ _ _ _ _ _ _ made H1 Hc Hmade K) as (L' & K'). exists L'. by split.
  - exists None, c, s, L. split; [done|]. split; [done|]. split; [reflexivity|]. split; [|done]. intros t. split; [|tauto].
    intros Ht. split; [done|]. revert t Ht. apply (code_page_free c L s); [done|done|]. intros Hz.
    unfold has, truth in Ef. unfold no_code_flag in Hz. by rewrite Hz in Ef.
Qed.

Lemma mark_dirty_facts a l (s : phys) :
  (exists new, tb_invalidated (mark_dirty a l s) = new ++ tb_invalidated s /\
     (new = [(a, a + l)] \/ new = [] /\ ~ no_code_flag s (Z.shiftr a TARGET_PAGE_BITS))) /\
  forall p, no_code_flag (mark_dirty a l s) p <-> no_code_flag s p.
Proof using.
  unfold mark_dirty, cpu_physical_memory_is_dirty. destruct (Z.eqb_spec (phys_ram_dirty s (Z.shiftr a TARGET_PAGE_BITS)) 0xff) as [E|E]; cbn [negb].
  - split; [|done]. exists []. split; [done|]. right. split; [done|]. unfold no_code_flag. by rewrite E.
  - split; [exists [(a, a + l)]; split; [done|by left]|]. intros p. unfold no_code_flag. cbn. unfold mem_upd.
    destruct (Z.eqb_spec p (Z.shiftr a TARGET_PAGE_BITS)) as [->|]; [|done]. by rewrite nd_flag.
Qed.

(** The ranges that [cpu_physical_memory_rw] hands to the invalidation, in order. *)
Fixpoint invalidate_ranges (ranges : list (Z * Z)) (c : cache) (s : phys) : option (cache * phys) :=
  match ranges with
  | [] => Some (c, s)
  | (start, stop) :: ranges =>
    '(_, c, s) ← tb_invalidate_phys_page_range code_gen_buffer start stop false c s;
    invalidate_ranges ranges c s
  end.

Lemma ranges_ok (s : phys) ranges : forall c L, Forall (fun r => one_page r.1 r.2) ranges -> tables_ok c L ->
  exists c' L', invalidate_ranges ranges c s = Some (c', s) /\ tables_ok c' L' /\ same_code c c' /\
    forall t, t ∈ L' <-> t ∈ L /\ forall r, r ∈ ranges -> ~ touches c r.1 r.2 t.
Proof using.
  induction ranges as [|[start stop] ranges IH]; intros c L Hr H; cbn [invalidate_ranges].
  - exists c, L. split; [done|]. split; [done|]. split; [reflexivity|]. intros t. split; [|tauto]. intros Ht. split; [done|].
    intros r Hin. by apply not_elem_of_nil in Hin.
  - inversion Hr as [|? ? H1 Hr']; subst.
    destruct (range_ok code_gen_buffer start stop false c s L H1 H) as (m & c1 & s1 & -> & L1 & T1 & S1 & HL1 & Hs).
    destruct Hs as [->|[Hw _]]; [|done]. cbn [mbind option_bind].
    destruct (IH c1 L1 Hr' T1) as (c2 & L2 & -> & T2 & S2 & HL2). exists c2, L2. split; [done|]. split; [done|].
    split; [by etransitivity|]. intros t. rewrite HL2, HL1. split.
    + intros [[Ht H0] Hall]. split; [done|]. intros r [->|Hin]%elem_of_cons; [done|]. rewrite <- (touches_same c c1) by done. by apply Hall.
    + intros [Ht Hall]. split; [split; [done|]|].
      * apply (Hall (start, stop)). left.
      * intros r Hin. rewrite (touches_same c c1) by done. apply Hall. by right.
Qed.

Lemma map_same (s s' : phys) : l1_phys_map s' = l1_phys_map s -> map_ok s -> map_ok s'.
Proof using. intros E H a. rewrite (page_desc_map s s' E). apply H. Qed.

End Stores.

(** ** Runs *)

(** Where the CPU is when it looks for a block: the state it looks by, what the page walk
    and the translator give there, and the TLB. *)
Record place := mkPlace {
  at_pc : Z; at_cs : Z; at_flags : Z; at_phys : Z; at_page2 : Z; at_gen : generated; at_tlb : tlb;
}.

(** ** The jump cache

    The entries of a virtual page are together, so that a flush of the page finds them. *)

Lemma jmp_page_bits pc : is_u32 pc -> tb_jmp_cache_hash_page pc = tb_jmp_cache_hash_page (page_base pc).
Proof.
  intros Hu. unfold tb_jmp_cache_hash_page, page_base. change (TARGET_PAGE_BITS - TB_JMP_PAGE_BITS) with 6.
  change TB_JMP_PAGE_BITS with 6. change TB_JMP_PAGE_MASK with 0xfc0. apply Z.bits_inj'. intros i Hi.
  rewrite !Z.land_spec, !Z.shiftr_spec, !Z.lxor_spec, !Z.shiftr_spec by lia.
  destruct (decide (6 <= i < 12)) as [Hr|Hr].
  - rewrite !Z.land_spec. f_equal. f_equal; rewrite <- (andb_true_r (Z.testbit pc _)) at 1; f_equal; symmetry;
      change 0xfffff000 with (Z.shiftl (Z.ones 20) 12); rewrite Z.shiftl_spec, Z.testbit_ones_nonneg by lia; apply Z.ltb_lt; lia.
  - assert (E : Z.testbit 0xfc0 i = false); [|by rewrite E, !andb_false_r].
    change 0xfc0 with (Z.shiftl (Z.ones 6) 6). rewrite Z.shiftl_spec by lia.
    destruct (decide (i < 6)); [apply Z.testbit_neg_r; lia|]. rewrite Z.testbit_ones_nonneg by lia. apply Z.ltb_ge. lia.
Qed.

Lemma jmp_func_page pc : tb_jmp_cache_hash_page pc <= tb_jmp_cache_hash_func pc < tb_jmp_cache_hash_page pc + TB_JMP_PAGE_SIZE.
Proof.
  unfold tb_jmp_cache_hash_page, tb_jmp_cache_hash_func. set (tmp := Z.lxor _ _). set (x := Z.shiftr tmp _).
  change TB_JMP_PAGE_MASK with (Z.shiftl (Z.ones 6) 6). change TB_JMP_ADDR_MASK with (Z.ones 6). change TB_JMP_PAGE_SIZE with 64.
  rewrite <- Z.add_nocarry_lor.
  - rewrite Z.land_ones by lia. pose proof (Z.mod_pos_bound tmp (2 ^ 6) ltac:(lia)). change (2 ^ 6) with 64 in *. lia.
  - apply Z.bits_inj'. intros i Hi. rewrite !Z.land_spec, Z.bits_0, Z.shiftl_spec by lia.
    destruct (decide (i < 6)).
    + rewrite (Z.testbit_neg_r (Z.ones 6)) by lia. by rewrite andb_false_r.
    + rewrite (Z.testbit_ones_nonneg 6 i) by lia. rewrite (proj2 (Z.ltb_ge i 6)) by lia. by rewrite !andb_false_r.
Qed.

Lemma page_flush_facts addr c L : is_u32 addr -> tables_ok c L ->
  let c' := tlb_flush_page_code addr c in
  (forall h t, tb_jmp_cache c' h = Some t ->
     page_base (pc (tbs c t)) <> page_base addr /\ page_base (pc (tbs c t)) <> u32 (page_base addr - 4096)) /\
  forall h t, tb_jmp_cache c h = Some t -> tb_jmp_cache_hash_page (pc (tbs c t)) <> tb_jmp_cache_hash_page (page_base addr) ->
    tb_jmp_cache_hash_page (pc (tbs c t)) <> tb_jmp_cache_hash_page (u32 (page_base addr - 4096)) -> tb_jmp_cache c' h = Some t.
Proof.
  intros Ha H. set (a := page_base addr). set (b := u32 (a - 4096)).
  assert (Hc : forall h, tb_jmp_cache (tlb_flush_page_code addr c) h =
    if (tb_jmp_cache_hash_page a <=? h) && (h <? tb_jmp_cache_hash_page a + 64) then None
    else if (tb_jmp_cache_hash_page b <=? h) && (h <? tb_jmp_cache_hash_page b + 64) then None else tb_jmp_cache c h) by done.
  assert (Hpc : forall h t, tb_jmp_cache c h = Some t -> is_u32 (pc (tbs c t)) /\
    tb_jmp_cache_hash_page (pc (tbs c t)) <= h < tb_jmp_cache_hash_page (pc (tbs c t)) + 64).
  { intros h t Ht. destruct (ok_found c L H h t Ht) as [HL <-]. split; [|apply jmp_func_page].
    by destruct (proj2 (ok_blocks c L H) t HL) as (_ & _ & Hu & _). }
  assert (Hmul : forall p, tb_jmp_cache_hash_page p mod 64 = 0).
  { intros p. unfold tb_jmp_cache_hash_page. change 64 with (2 ^ 6). rewrite <- Z.land_ones by lia.
    rewrite <- Z.land_assoc. change (Z.land TB_JMP_PAGE_MASK (Z.ones 6)) with 0. apply Z.land_0_r. }
  split; intros h t; rewrite Hc.
  - destruct (_ && _) eqn:E1; [done|]. destruct (_ && _) eqn:E2 in |- *; [done|]. intros Ht. destruct (Hpc h t Ht) as [Hu Hr].
    rewrite (jmp_page_bits _ Hu) in Hr. split; intros E; rewrite E in Hr; fold a b in Hr; lia.
  - intros Ht Na Nb. destruct (Hpc h t Ht) as [Hu Hr]. pose proof (Hmul (pc (tbs c t))) as M. pose proof (Hmul a) as Ma.
    pose proof (Hmul b) as Mb. repeat case_match; try done; Z.to_euclidean_division_equations; lia.
Qed.

(** The page walk and the translator give a block that fits. *)
Definition place_ok (p : place) : Prop := gen_ok (at_pc p) (at_phys p) (at_page2 p) (at_gen p).

Section Turn.
Context {D : Type}.
Context (phys_ram_base code_gen_buffer code_gen_max_block_size : Z).
Context (Hmax : 0 <= code_gen_max_block_size < CODE_GEN_BUFFER_SIZE).
Abbreviation phys := (phys (D := D)).

(** A turn of the loop of [cpu_exec]. *)
Lemma turn_ok T0 p c (s : phys) L (c0 := c <| current_tb := None |>) : tables_ok c L -> clean c L s -> place_ok p ->
  (forall x, T0 = Some x -> x.1 ∈ L /\ is_jump x) ->
  exists r t c' tl' s' L', lookup (at_pc p) (at_cs p) (at_flags p) (at_phys p) (at_page2 p) c0 = Some r /\
    cpu_exec_block code_gen_buffer code_gen_max_block_size phys_ram_base T0
      (at_pc p) (at_cs p) (at_flags p) (at_phys p) (at_page2 p) (at_gen p) c (at_tlb p) s = Some (t, c', tl', s') /\
    tables_ok c' L' /\ clean c' L' s' /\ cleaner s s' /\ t ∈ L' /\ for_state c' t (at_pc p) (at_cs p) (at_flags p) /\
    current_tb c' = Some t /\ (r = Some t \/ r = None) /\
    (forall u, u ∈ L' -> r = None /\ u = t \/ u ∈ L /\ (r = None -> u <> t) /\ same_block (tbs c u) (tbs c' u)) /\
    forall x, T0 = Some x -> x.1 ∈ L' -> x.1 <> t -> jmp_link c x = None -> page_addr (tbs c' t) 1 = NO_PAGE ->
      tb_next (tbs c' x.1) x.2 = tc_ptr (tbs c' t).
Proof using Hmax.
  intros H Hcl Hg HT. assert (H0 : tables_ok c0 L) by (by apply tables_current).
  destruct (find_fast_ok phys_ram_base code_gen_buffer code_gen_max_block_size (at_pc p) (at_cs p) (at_flags p) (at_phys p)
    (at_page2 p) (at_gen p) c0 (at_tlb p) s L Hmax H0 Hcl eq_refl Hg)
    as (r & t & d & c1 & tl' & s' & L' & El & Ef & T1 & Cl1 & M & Ht & Hfs & _ & K).
  unfold cpu_exec_block. fold c0. rewrite Ef. cbn [mbind option_bind].
  set (c2 := match (if d then T0 else None) with Some (t0, n) => _ | None => c1 end).
  assert (H2 : tables_ok c2 L' /\ same_code c1 c2).
  { unfold c2. destruct d; [|by split]. destruct T0 as [[t0 n]|]; [|by split]. destruct (page_addr _ 1 =? NO_PAGE); [|by split].
    destruct (HT _ eq_refl) as [Ht0 Hn]. cbn in Ht0. assert (Hin : t0 ∈ L').
    { destruct K as [(_ & _ & -> & _)|(_ & _ & _ & ->)]; [done|]. set_solver. }
    split; [by apply add_jump_ok|]. apply add_jump_same. }
  destruct H2 as [H2 S2].
  assert (P2 : forall x, T0 = Some x -> x.1 ∈ L' -> x.1 <> t -> jmp_link c x = None -> page_addr (tbs c2 t) 1 = NO_PAGE ->
      tb_next (tbs c2 x.1) x.2 = tc_ptr (tbs c2 t)).
  { intros [t0 n] HT0 Hin Hne Hn Hp. destruct (HT _ HT0) as [_ Hj]. cbn [fst snd] in *.
    destruct (proj2 (proj2 (proj2 S2)) t) as (_ & _ & _ & _ & _ & Etc & Epa & _). rewrite Epa in Hp. rewrite Etc.
    assert (Ht0 : d = true /\ tbs c1 t0 = tbs c t0).
    { destruct K as [(_ & Hd & _ & _ & E)|(_ & Hu & Hd)]; [by rewrite E|]. destruct (Hu t0 Hin Hne) as [_ E].
      destruct d; [done|]. set_solver. }
    destruct Ht0 as [-> E]. unfold c2. rewrite HT0, Hp, Z.eqb_refl.
    change t0 with ((t0, n).1) at 2. change n with ((t0, n).2) at 2. rewrite add_jump_target, decide_True; [done|]. split; [done|].
    rewrite E. by rewrite (jmp_next_link c t0 n Hj). }
  clearbody c2. exists r, t. eexists _, tl', s', L'. split; [done|]. split; [reflexivity|].
  split; [apply tables_current; [done|by intros u [= <-]]|]. split; [by apply (clean_same c1)|]. split; [done|]. split; [done|].
  assert (Sb : forall u, same_block (tbs c1 u) (tbs c2 u)) by apply S2.
  split; [unfold for_state in *; cbn; destruct (Sb t) as (-> & -> & -> & _); exact Hfs|]. split; [done|].
  destruct K as [(-> & _ & -> & -> & E)|(-> & Hu & Hd)].
  - split; [by left|]. split; [|exact P2]. intros u Hin. right. split; [done|]. split; [done|]. cbn. change (tbs c u) with (tbs c0 u). rewrite <- (E u). apply Sb.
  - split; [by right|]. split; [|exact P2]. intros u Hin. destruct (decide (u = t)) as [->|Hne]; [by left|]. right.
    destruct (Hu u Hin Hne) as [HuL E]. split; [done|]. split; [done|]. cbn. change (tbs c u) with (tbs c0 u). rewrite <- E. apply Sb.
Qed.

End Turn.

Section Run.
Context {D : Type}.
Context (io_mem_read : Z -> Z -> D -> Z -> Z * D).
Context (io_mem_write : Z -> Z -> D -> Z -> Z -> D).
Context (phys_ram_base code_gen_buffer code_gen_max_block_size : Z).
Abbreviation phys := (phys (D := D)).

Record world := mkWorld {
  w_code : cache;
  w_mem : phys;
  w_made : Z -> Z -> Z;   (** the memory when each block was made *)
}.
#[global] Instance eta_world : Eta world := fun w => mkWorld (w_code w) (w_mem w) (w_made w).

Inductive op :=
| Block (T0 : option tagged) (p : place)         (** a turn of the loop of [cpu_exec] *)
| Store (n : nat) (a v : Z) (p : place)          (** a store of the guest, of [n] bytes; [p] is where it stands *)
| Device (addr : Z) (buf : list Z)               (** a write of a device *)
| Interrupt (mask : Z)
| FlushTlb
| FlushPage (addr : Z)
| Flush.                                         (** between two calls of [cpu_exec] *)

(** The end of [notdirty_mem_writeX]. *)
Definition notdirty_write (n : nat) (a v : Z) (s : phys) : phys :=
  let p := Z.shiftr a TARGET_PAGE_BITS in
  let s := ram_store a (le_bytes n v) s in
  s <| phys_ram_dirty := mem_upd (phys_ram_dirty s) p
         (Z.lor (phys_ram_dirty s p) (Z.land 0xff (Z.lnot CODE_DIRTY_FLAG))) |>.

Definition exec (o : op) (w : world) : option world :=
  let c := w_code w in
  let s := w_mem w in
  match o with
  | Block T0 p =>
    '(t, c', _, s') ← cpu_exec_block code_gen_buffer code_gen_max_block_size phys_ram_base T0
      (at_pc p) (at_cs p) (at_flags p) (at_phys p) (at_page2 p) (at_gen p) c (at_tlb p) s;
    let made :=
      match lookup (at_pc p) (at_cs p) (at_flags p) (at_phys p) (at_page2 p) (c <| current_tb := None |>) with
      | Some None => put (w_made w) t (phys_ram s)
      | _ => w_made w
      end in
    Some (mkWorld c' s' made)
  | Store n a v p =>
    let flags := phys_ram_dirty s (Z.shiftr a TARGET_PAGE_BITS) in
    if flags =? 0xff then Some (w <| w_mem := ram_store a (le_bytes n v) s |>)
    else
      '(m, c, s) ← (if negb (has flags CODE_DIRTY_FLAG) then tb_invalidate_phys_page_fast code_gen_buffer a (Z.of_nat n) c s
                    else Some (None, c, s));
      match m with
      | None => Some (mkWorld c (notdirty_write n a v s) (w_made w))
      | Some _ =>
        '(t, c', _, s') ← tb_gen_code code_gen_buffer code_gen_max_block_size phys_ram_base (at_pc p) (at_cs p) (at_flags p)
          CF_SINGLE_INSN (at_phys p) (at_page2 p) (at_gen p) (c <| current_tb := None |>) (at_tlb p) s;
        Some (mkWorld c' s' (put (w_made w) t (phys_ram s)))
      end
  | Device addr buf =>
    '(_, s') ← cpu_physical_memory_rw io_mem_read io_mem_write (length buf) addr buf true (s <| tb_invalidated := [] |>);
    '(c, s') ← invalidate_ranges code_gen_buffer (rev (tb_invalidated s')) c s';
    Some (mkWorld c s' (w_made w))
  | Interrupt mask => c ← cpu_interrupt mask c; Some (w <| w_code := c |>)
  | FlushTlb => Some (w <| w_code := tlb_flush_code c |>)
  | FlushPage addr => Some (w <| w_code := tlb_flush_page_code addr c |>)
  | Flush => Some (w <| w_code := tb_flush code_gen_buffer c |>)
  end.

(** What the callers see to: the translator gives a block that fits, the jump the CPU comes
    by is one of a block that can still be found, and a store is aligned and in RAM. *)
Definition enabled (o : op) (w : world) : Prop :=
  match o with
  | Block T0 p => place_ok p /\ match T0 with Some x => known (w_code w) x.1 /\ is_jump x | None => True end
  | Store n a v p => (n = 1 \/ n = 2 \/ n = 4)%nat /\ a mod Z.of_nat n = 0 /\ 0 <= a < 2 ^ 32 - 4096 /\ place_ok p
  | Device addr buf => is_u32 addr
  | Interrupt _ | FlushTlb | FlushPage _ => True
  | Flush => current_tb (w_code w) = None
  end.

(** The tables at the start, before anything is translated. *)
Definition no_block : TranslationBlock :=
  mkTB 0 0 0 0 0 0 None (fun _ => None) (fun _ => 0) (fun _ => 0) (fun _ => 0) (fun _ => None) None.
Definition cpu_exec_init : cache :=
  mkCache (fun _ => no_block) 0 (fun _ => None) code_gen_buffer (fun _ => None) (fun _ => None) 0 0 0 0 None 0.

Inductive reachable : world -> Prop :=
| reachable_start s : map_ok s -> reachable (mkWorld cpu_exec_init s (fun _ _ => 0))
| reachable_step o w w' : reachable w -> enabled o w -> exec o w = Some w' -> reachable w'.

(** *** Writes of devices *)

(** A write stays in the ranges it logs and in pages that are dirty for code. *)
Lemma rw_logged fuel : forall addr buf (s : phys), is_u32 addr -> (length buf <= fuel)%nat -> map_ok s ->
  exists b s' new, cpu_physical_memory_rw io_mem_read io_mem_write fuel addr buf true s = Some (b, s') /\
    tb_invalidated s' = new ++ tb_invalidated s /\ l1_phys_map s' = l1_phys_map s /\
    Forall (fun r => one_page r.1 r.2) new /\ (forall p, no_code_flag s' p <-> no_code_flag s p) /\
    forall a, phys_ram s' a = phys_ram s a \/ (exists r, r ∈ new /\ r.1 <= a < r.2) \/
      (is_u32 a /\ ~ no_code_flag s (page_base a / 4096)).
Proof using.
  induction fuel as [|fuel IH]; intros addr buf s Ha Hf Hmap.
  - destruct buf; cbn in Hf; [|lia]. exists [], s, []. by repeat (split; [done|]); auto.
  - destruct buf as [|b0 buf']; [exists [], s, []; by repeat (split; [done|]); auto|]. set (buf := b0 :: buf') in *.
    cbn [cpu_physical_memory_rw]. fold buf. destruct (chunk_bounds addr (length buf) Ha ltac:(cbn; lia)) as (Hl & Ho & _).
    set (l := Z.min _ _) in *. clearbody l.
    assert (Hstep : forall l1 (s1 : phys), 1 <= l1 <= l -> l1_phys_map s1 = l1_phys_map s ->
      exists b s' new, cpu_physical_memory_rw io_mem_read io_mem_write fuel (u32 (addr + l1)) (drop (Z.to_nat l1) buf) true s1 = Some (b, s') /\
        tb_invalidated s' = new ++ tb_invalidated s1 /\ l1_phys_map s' = l1_phys_map s1 /\
        Forall (fun r => one_page r.1 r.2) new /\ (forall p, no_code_flag s' p <-> no_code_flag s1 p) /\
        forall a, phys_ram s' a = phys_ram s1 a \/ (exists r, r ∈ new /\ r.1 <= a < r.2) \/
          (is_u32 a /\ ~ no_code_flag s1 (page_base a / 4096))).
    { intros l1 s1 Hl1 Em. apply IH; [apply wrap_range; lia|rewrite length_drop; cbn in Hf |- *; lia|].
      intros a. rewrite (page_desc_map s s1 Em). apply Hmap. }
    destruct (write_is_io _) eqn:Eio.
    + pose proof (io_chunk_bounds l addr ltac:(lia)) as Hchunk. destruct (io_chunk l addr) as [l1 sz]. cbn [fst] in Hchunk.
      destruct (Hstep l1 (s <| dev := io_mem_write (io_index (page_desc (page_base addr) s)) sz (dev s) addr
        (le_value (take (Z.to_nat l1) buf)) |>)) as (b & s' & new & E & K); [lia|done|]. rewrite E. eexists _, s', new. by split.
    + set (addr1 := ram_addr _ _). set (bs := take _ buf). set (s1 := mark_dirty addr1 l (ram_store addr1 bs s)).
      destruct (mark_dirty_frame addr1 l (ram_store addr1 bs s)) as (Em & Er & _). fold s1 in Em, Er.
      destruct (mark_dirty_facts addr1 l (ram_store addr1 bs s)) as [(new1 & En1 & Hn1) Hd1]. fold s1 in En1, Hd1.
      destruct (Hstep l s1) as (b & s' & new & E & K1 & K2 & K3 & K4 & K5); [lia|done|]. rewrite E.
      assert (H1 : one_page addr1 (addr1 + l)).
      { destruct (Hmap (page_base addr)) as (Hpd & _). unfold addr1, ram_addr. set (pd := page_desc _ s) in *.
        destruct (page_split pd Hpd) as (E1 & R1 & M1 & P1), (page_split addr Ha) as (_ & R2 & _). unfold in_width in Hpd.
        assert (Hlt : page_base pd + 4096 <= 2 ^ 32).
        { pose proof (Z.div_mod (page_base pd) 4096 ltac:(lia)). change (2 ^ 32) with (4096 * 1048576) in *. lia. }
        split; [unfold in_width; lia|]. split; [lia|]. rewrite page_off_mod.
        rewrite Zplus_mod, M1, Z.add_0_l, Zmod_mod, Z.mod_small by lia. lia. }
      eexists _, s', (new ++ new1). split; [reflexivity|]. split; [rewrite K1, En1; by rewrite app_assoc|].
      split; [by rewrite K2|]. split; [|split].
      * apply Forall_app. split; [done|]. destruct Hn1 as [-> | [-> _]]; [|done]. by constructor.
      * intros p. rewrite K4, Hd1. done.
      * intros a. destruct (K5 a) as [Ea | [(r & Hr & Hin) | [Hu Hz]]].
        -- rewrite Ea, Er. cbn. destruct (decide (addr1 <= a < addr1 + Z.of_nat (length bs))) as [Hin|Hout].
           ++ right. assert (Hin' : addr1 <= a < addr1 + l) by (unfold bs in Hin; rewrite length_take in Hin; lia).
              destruct Hn1 as [-> | [-> Hz]].
              ** left. exists (addr1, addr1 + l). split; [set_solver|done].
              ** right. destruct (page_of _ _ a H1 Hin') as (Hu & Eb & _ & Es). split; [done|]. rewrite Eb, <- Es. exact Hz.
           ++ left. by apply mem_write_other.
        -- right. left. exists r. split; [set_solver|done].
        -- right. right. split; [done|]. rewrite Hd1 in Hz. exact Hz.
Qed.

(** *** The invariant of a run *)

Definition inv (w : world) : Prop := exists L, tables_ok (w_code w) L /\ clean (w_code w) L (w_mem w) /\
  made_ok (w_code w) L (w_mem w) (w_made w) /\ map_ok (w_mem w).

Lemma device_ok addr buf w : inv w -> is_u32 addr -> exists w', exec (Device addr buf) w = Some w' /\ inv w'.
Proof using Type*.
  intros (L & T & Hc & Hm & Hmap) Ha. cbn [exec].
  assert (Hmap0 : map_ok ((w_mem w) <| tb_invalidated := [] |>)) by (by apply (map_same (w_mem w))).
  destruct (rw_logged (length buf) addr buf ((w_mem w) <| tb_invalidated := [] |>) Ha ltac:(lia) Hmap0)
    as (b & s' & new & -> & En & Em & Hr & Hd & Hb). cbn [mbind option_bind]. cbn in En. rewrite app_nil_r in En. rewrite En.
  destruct (ranges_ok code_gen_buffer s' (rev new) (w_code w) L) as (c' & L' & -> & T' & S & HL); [by apply Forall_rev|done|]. cbn [mbind option_bind].
  eexists. split; [reflexivity|]. exists L'. cbn. split; [done|].
  assert (Hbytes : forall t a, block_bytes (tbs c' t) a -> block_bytes (tbs (w_code w) t) a).
  { intros t a Hbt. apply (block_bytes_same (tbs (w_code w) t) (tbs c' t)); [apply S|done]. }
  split; [|split; [|by apply (map_same (w_mem w))]].
  - intros t a Ht Hbt. apply Hd. apply (Hc t); [by apply HL|by apply Hbytes].
  - intros t a Ht Hbt. apply Hbytes in Hbt. apply HL in Ht as [Ht Hno]. rewrite (Hm t a Ht Hbt).
    destruct (Hb a) as [E | [(r & Hin & Hra) | [_ Hz]]]; [by rewrite E| |].
    + destruct (Hno r); [by rewrite list_elem_of_In, <- in_rev, <- list_elem_of_In|]. by exists a.
    + by destruct Hz; apply (Hc t).
Qed.

Context (Hmax : 0 <= code_gen_max_block_size < CODE_GEN_BUFFER_SIZE).

Lemma store_ok n a v p w : inv w -> enabled (Store n a v p) w -> exists w', exec (Store n a v p) w = Some w' /\ inv w'.
Proof using Type*.
  intros (L & T & Hc & Hm & Hmap) (Hn & Hmod & Ha & Hp). cbn [exec]. assert (H1 := small_store n a Hn Hmod Ha).
  destruct (Z.eqb_spec (phys_ram_dirty (w_mem w) (Z.shiftr a TARGET_PAGE_BITS)) 0xff) as [Ef|Ef].
  - eexists. split; [reflexivity|]. exists L. cbn. split; [done|]. split; [exact Hc|]. split; [|by apply (map_same (w_mem w))].
    apply made_write; [|done]. rewrite length_le_bytes. apply (code_page_free _ _ (w_mem w)); [done|done|].
    unfold no_code_flag. by rewrite Ef.
  - destruct (cleared_ok code_gen_buffer n a (w_code w) (w_mem w) L (w_made w) Hn Hmod Ha T Hc Hm)
      as (m & c1 & s1 & L1 & -> & T1 & S1 & HL1 & Hc1 & Hm1 & Em1). cbn [mbind option_bind]. destruct m as [cur|].
    + assert (T1' : tables_ok (c1 <| current_tb := None |>) L1) by (by apply tables_current).
      destruct (gen_code_ok phys_ram_base code_gen_buffer code_gen_max_block_size (at_pc p) (at_cs p) (at_flags p) CF_SINGLE_INSN
        (at_phys p) (at_page2 p) (at_gen p) _ (at_tlb p) s1 L1 Hmax T1' Hc1 eq_refl Hp)
        as (t & c2 & tl & s2 & L0 & -> & HL0 & Ht & T2 & Hc2 & (Er & Em & _) & O & _). cbn [mbind option_bind].
      eexists. split; [reflexivity|]. exists ({[t]} ∪ L0). cbn. split; [done|]. split; [done|].
      split; [|apply (map_same (w_mem w)); [congruence|done]].
      apply (made_new c1 c2 L1 ({[t]} ∪ L0) s1 s2 (w_made w)); [done|done|]. intros u [->%elem_of_singleton|Hu]%elem_of_union; unfold put.
      * left. by rewrite Z.eqb_refl.
      * right. split; [destruct HL0 as [[_ ->] | [_ ->]]; [done|set_solver]|].
        rewrite (proj2 (Z.eqb_neq u t)) by (by intros ->). split; [done|]. rewrite (O u Hu). reflexivity.
    + eexists. split; [reflexivity|]. exists L1. cbn. split; [done|]. split; [|split].
      * intros t b Ht Hb. specialize (Hc1 t b Ht Hb). unfold no_code_flag, notdirty_write in *. cbn. unfold mem_upd.
        destruct (Z.eqb_spec (page_base b / 4096) (Z.shiftr a TARGET_PAGE_BITS)) as [<-|]; [|done]. by rewrite nd_flag.
      * apply (made_write c1 L1 s1); [|done]. rewrite length_le_bytes. intros t Ht. rewrite (touches_same (w_code w) c1) by done.
        by apply HL1.
      * by apply (map_same (w_mem w)).
Qed.

Lemma block_step T0 p w : inv w -> enabled (Block T0 p) w ->
  exists t w', exec (Block T0 p) w = Some w' /\ inv w' /\ current_tb (w_code w') = Some t /\ known (w_code w') t /\
    for_state (w_code w') t (at_pc p) (at_cs p) (at_flags p) /\
    forall x, T0 = Some x -> known (w_code w') x.1 -> x.1 <> t -> jmp_link (w_code w) x = None ->
      page_addr (tbs (w_code w') t) 1 = NO_PAGE -> tb_next (tbs (w_code w') x.1) x.2 = tc_ptr (tbs (w_code w') t).
Proof using Type*.
  intros (L & T & Hc & Hm & Hmap) [Hp HT]. cbn [exec].
  destruct (turn_ok phys_ram_base code_gen_buffer code_gen_max_block_size Hmax T0 p (w_code w) (w_mem w) L T Hc Hp)
    as (r & t & c' & tl & s' & L' & -> & -> & T' & Hc' & (Er & Em & _) & Ht & Hf & Hcur & Hr & Hu & Hpatch).
  { intros x ->. destruct HT as [Hk Hj]. split; [by apply (known_live (w_code w))|done]. }
  cbn [mbind option_bind]. eexists t, _. split; [reflexivity|]. cbn. split;
    [|split; [done|split; [by apply (known_live c' L')|split; [done|]]]].
  2:{ intros x Hx Hk. apply Hpatch; [done|]. by apply (known_live c' L'). }
  exists L'. cbn. split; [done|]. split; [done|]. split; [|by apply (map_same (w_mem w))].
  apply (made_new (w_code w) c' L L' (w_mem w) s' (w_made w)); [done|done|]. intros u Huin.
  destruct (Hu u Huin) as [[-> ->]|(HuL & Hne & S)].
  - left. unfold put. by rewrite Z.eqb_refl.
  - right. split; [done|]. split; [|done]. destruct r as [x|]; [done|]. unfold put. by rewrite (proj2 (Z.eqb_neq u t)) by (by apply Hne).
Qed.

Lemma code_only_ok w c' : inv w -> (forall L, tables_ok (w_code w) L -> exists L', tables_ok c' L' /\ L' ⊆ L /\
    forall t, t ∈ L' -> same_block (tbs (w_code w) t) (tbs c' t)) -> inv (w <| w_code := c' |>).
Proof using.
  intros (L & T & Hc & Hm & Hmap) H. destruct (H L T) as (L' & T' & Hs & S). exists L'. cbn. split; [done|].
  assert (Hb : forall t a, t ∈ L' -> block_bytes (tbs c' t) a -> t ∈ L /\ block_bytes (tbs (w_code w) t) a).
  { intros t a Ht Ha. split; [by apply Hs|]. apply (block_bytes_same (tbs (w_code w) t) (tbs c' t)); [by apply S|done]. }
  split; [|split; [|done]]; intros t a Ht Ha; destruct (Hb t a Ht Ha); [by apply (Hc t)|by apply Hm].
Qed.

Lemma reset_recursive_request fuel : forall t c c', tb_reset_jump_recursive fuel t c = Some c' -> interrupt_request c' = interrupt_request c.
Proof using.
  induction fuel as [|fuel IH]; intros t c c'; [done|]. cbn [tb_reset_jump_recursive].
  assert (H2 : forall n c c',
    match jmp_next (tbs c t) n with
    | None => Some c
    | Some tb1 =>
      tb_next ← find_head (links c) (Some tb1) c;
      ptb ← find_link (links c) id (jmp_link c) (fun x => (x.2 =? n) && (x.1 =? t)) (tb_next, 2);
      tb_reset_jump_recursive fuel tb_next
        (tb_reset_jump t n (set_jmp_link (t, n) None (set_jmp_link ptb (jmp_next (tbs c t) n) c)))
    end = Some c' -> interrupt_request c' = interrupt_request c).
  { clear c c'. intros n c c'. destruct (jmp_next _ n); [|by intros [= <-]].
    intros (u & _ & (ptb & _ & E)%bind_Some)%bind_Some. by apply IH in E. }
  intros (c1 & E1 & E2)%bind_Some. by rewrite (H2 1 c1 c' E2), (H2 0 c c1 E1).
Qed.

Lemma interrupt_request_set mask c c' : cpu_interrupt mask c = Some c' -> interrupt_request c' = Z.lor (interrupt_request c) mask.
Proof using.
  unfold cpu_interrupt. cbn. destruct (current_tb c); [|by intros [= <-]]. intros E. by apply reset_recursive_request in E.
Qed.

Lemma interrupt_ok mask c L : tables_ok c L -> exists c', cpu_interrupt mask c = Some c' /\ tables_ok c' L /\ cuts c c' L /\
  (forall t, current_tb c = Some t -> stopped c' t) /\ interrupt_request c' = Z.lor (interrupt_request c) mask /\ same_code c c'.
Proof using.
  intros [A1 A2 A3 A4 A5 A6]. destruct (cpu_interrupt_ok mask c L A1 A4 A6) as (c' & E & HJ & (S1 & S2 & S3 & S4) & HF & Hcur & HC & HQ).
  exists c'. split; [done|]. split; [|split; [done|split; [done|split; [by apply (interrupt_request_set mask c)|done]]]]. split; [by apply (blocks_ok_same c c' L L)|by apply (hash_ok_same c)|by apply (pages_ok_same c)|done| |].
  - intros h t. rewrite S4. intros Ht. destruct (A5 h t Ht) as [Hin <-]. split; [done|]. by destruct (proj2 (proj2 (proj2 S1)) t) as (-> & _).
  - intros t Ht. destruct Hcur as [Hn|Hs]; [congruence|]. rewrite Hs in Ht. destruct (A6 t Ht) as [|[N0 N1]]; [by left|].
    right. split; apply HF; (done || by left) || by right.
Qed.

Lemma found_fewer c L f : tables_ok c L -> (forall h t, f h = Some t -> tb_jmp_cache c h = Some t) ->
  tables_ok (c <| tb_jmp_cache := f |>) L.
Proof using.
  intros [A1 A2 A3 A4 A5 A6] Hf. split; [done|done|done|by apply (jumps_ok_same c)| |done]. intros h t Ht. by apply A5, Hf.
Qed.

Lemma clear_page_ok i c L : tables_ok c L -> tables_ok (clear_jmp_page i c) L.
Proof using. intros H. apply found_fewer; [done|]. intros h t. by destruct (_ && _). Qed.

(** Every operation succeeds, and keeps the invariant. *)
Lemma step_ok o w : inv w -> enabled o w -> exists w', exec o w = Some w' /\ inv w'.
Proof using Type*.
  intros Hi He. destruct o as [T0 p|n a v p|addr buf|mask| |addr|].
  - destruct (block_step T0 p w Hi He) as (t & w' & E & Hi' & _). by exists w'.
  - by apply store_ok.
  - by apply device_ok.
  - cbn [exec]. assert (Hi' := Hi). destruct Hi' as (L & T & _). destruct (interrupt_ok mask (w_code w) L T) as (c' & Ec & _).
    rewrite Ec. eexists. split; [reflexivity|]. apply code_only_ok; [done|]. intros L1 T1.
    destruct (interrupt_ok mask (w_code w) L1 T1) as (c2 & E2 & T2 & _ & _ & _ & S2). rewrite E2 in Ec. injection Ec as ->.
    exists L1. split; [done|]. split; [done|]. intros t _. apply S2.
  - eexists. split; [reflexivity|]. apply code_only_ok; [done|]. intros L1 T1. exists L1. split; [|done].
    apply found_fewer; [by apply tables_current|done].
  - eexists. split; [reflexivity|]. apply code_only_ok; [done|]. intros L1 T1. exists L1. split; [|done].
    apply clear_page_ok, clear_page_ok. by apply tables_current.
  - eexists. split; [reflexivity|]. apply code_only_ok; [done|]. intros L1 T1. exists ∅. split; [by apply (tb_flush_ok _ _ L1)|set_solver].
Qed.

Lemma init_ok : tables_ok cpu_exec_init ∅.
Proof using All.
  split.
  - split; [done|]. set_solver.
  - intros h. exists []. split; [done|]. split; [constructor|]. set_solver.
  - intros i. exists []. split; [done|]. split; [constructor|]. split; [intros x; unfold member; set_solver|done].
  - exists (fun _ => []). split; [split|split]; set_solver.
  - done.
  - done.
Qed.

Lemma reach_inv w : reachable w -> inv w.
Proof using Type*.
  induction 1 as [s Hs|o w w' _ IH He Hx].
  - exists ∅. split; [apply init_ok|]. split; [intros t; set_solver|]. split; [intros t; set_solver|done].
  - destruct (step_ok o w IH He) as (w1 & E & Hi). congruence.
Qed.

(** ** Properties *)




(** C17. A store of the guest into a page with code takes out exactly the blocks that were
    made from one of the bytes it writes; and the bitmap of the page, which saves most
    walks, changes nothing in that: the full walk takes out the same blocks. *)
Theorem store_invalidates_exactly n a w : reachable w -> (n = 1 \/ n = 2 \/ n = 4)%nat -> a mod Z.of_nat n = 0 -> 0 <= a < 2 ^ 32 - 4096 ->
  exists m c' s' m2 c2 s2,
    tb_invalidate_phys_page_fast code_gen_buffer a (Z.of_nat n) (w_code w) (w_mem w) = Some (m, c', s') /\
    tb_invalidate_phys_page_range code_gen_buffer a (a + Z.of_nat n) true (w_code w) (w_mem w) = Some (m2, c2, s2) /\
    (forall t, known c' t <-> known (w_code w) t /\ ~ touches (w_code w) a (a + Z.of_nat n) t) /\
    forall t, known c2 t <-> known c' t.
Proof using Type*.
  intros Hr Hn Hmod Ha. destruct (reach_inv w Hr) as (L & T & _).
  destruct (fast_ok code_gen_buffer a (Z.of_nat n) (w_code w) (w_mem w) L) as (m & c' & s' & E & L1 & T1 & _ & H1 & _); [lia|done|lia|done|].
  destruct (range_ok code_gen_buffer a (a + Z.of_nat n) true (w_code w) (w_mem w) L) as (m2 & c2 & s2 & E2 & L2 & T2 & _ & H2 & _);
    [by apply small_store|done|].
  exists m, c', s', m2, c2, s2. do 2 (split; [done|]). split; intros t.
  - rewrite (known_live c' L1), (known_live _ L) by done. apply H1.
  - rewrite (known_live c2 L2), (known_live c' L1) by done. by rewrite H1, H2.
Qed.


(** A block that is taken out while it runs keeps its direct jumps: no list knows them
    any more, so an interrupt cannot take them away, and the CPU goes on from the block
    into translated code. *)
Theorem dead_block_keeps_jumps w t n u : reachable w -> known (w_code w) t -> n = 0 \/ n = 1 -> jumps_to (w_code w) t n u ->
  exists c', tb_phys_invalidate t NO_PAGE (w_code w) = Some c' /\ ~ known c' t /\ jmp_next (tbs c' t) n = None /\
    tb_next (tbs c' t) n = tc_ptr (tbs (w_code w) u) /\
    forall mask c2, cpu_interrupt mask (c' <| current_tb := Some t |>) = Some c2 -> tb_next (tbs c2 t) n = tc_ptr (tbs (w_code w) u).
Proof using Type*.
  intros Hr Hk Hn Hu. destruct (reach_inv w Hr) as (L & T & _). apply (known_live _ L) in Hk; [|done].
  assert (Htg := jumps_to_target _ L t n u T Hk Hn Hu). destruct Htg as (HuL & J & HJ & Hin).
  destruct (ok_jumps _ L T) as (J' & HJ' & T1 & _). rewrite (jumps_det _ L J J' u HJ HJ' HuL) in Hin.
  assert (Enext := T1 u (t, n) HuL Hin). cbn [fst snd] in Enext.
  destruct T as [A1 A2 A3 A4 A5 A6].
  destruct (tb_phys_invalidate_ok t (w_code w) L A1 A2 A3 A4 A5 Hk) as (c' & E & B1 & H1 & P1 & J1 & F1 & S1 & W1 & N0 & N1 & _ & X).
  exists c'. split; [done|]. split.
  { intros Hk'. assert (T0 : tables_ok (c' <| current_tb := None |>) (L ∖ {[t]})).
    { split; [done|done|done|by apply (jumps_ok_same c')|done|done]. }
    destruct Hk' as [h Hl]. assert (Hk' : known (c' <| current_tb := None |>) t).
    { exists h. clear -Hl. induction Hl as [t Ht|t u Hl IH Hu]; [by apply listed_first|by apply (listed_next _ h t)]. }
    apply (known_live _ (L ∖ {[t]})) in Hk'; [set_solver|done]. }
  assert (Hl : jmp_link c' (t, n) = None) by (by destruct Hn as [-> | ->]).
  split; [by rewrite (jmp_next_link c' t n Hn)|]. split; [by rewrite X, Enext|].
  intros mask c2. unfold cpu_interrupt. cbn [current_tb]. set (c3 := (_ <| current_tb := None |>)). cbn.
  destruct (links _) as [|k]; [done|]. cbn [tb_reset_jump_recursive].
  change (jmp_next (tbs c3 t)) with (jmp_next (tbs c' t)).
  rewrite (jmp_next_link c' t 0), N0 by (by left). cbn [mbind option_bind].
  change (jmp_next (tbs c3 t)) with (jmp_next (tbs c' t)). rewrite (jmp_next_link c' t 1), N1 by (by right).
  intros [= <-]. change (tb_next (tbs c' t) n = tc_ptr (tbs (w_code w) u)). by rewrite X, Enext.
Qed.

(** A flush of a page of the TLB forgets, in the cache that the CPU looks up by virtual
    address, every block that may have a byte in the page: those that start in it and
    those that start in the page before it; the others stay. *)
Theorem page_flush_forgets addr w : is_u32 addr -> reachable w ->
  let c := w_code w in
  let c' := tlb_flush_page_code addr c in
  (forall h t, tb_jmp_cache c' h = Some t ->
     page_base (pc (tbs c t)) <> page_base addr /\ page_base (pc (tbs c t)) <> u32 (page_base addr - 4096)) /\
  forall h t, tb_jmp_cache c h = Some t -> tb_jmp_cache_hash_page (pc (tbs c t)) <> tb_jmp_cache_hash_page (page_base addr) ->
    tb_jmp_cache_hash_page (pc (tbs c t)) <> tb_jmp_cache_hash_page (u32 (page_base addr - 4096)) -> tb_jmp_cache c' h = Some t.
Proof using Type*.
  intros Ha Hr. destruct (reach_inv w Hr) as (L & T & _). exact (page_flush_facts addr (w_code w) L Ha T).
Qed.

(** *** Stores of the guest *)

#[local] Instance tables_cache : Softmmu.CodeCache cache D := code_cache code_gen_buffer.

Lemma aligned_mod n x : (n = 1 \/ n = 2 \/ n = 4)%nat -> Softmmu.unaligned n x = false -> x mod Z.of_nat n = 0.
Proof using.
  unfold Softmmu.unaligned. rewrite negb_false_iff, Z.eqb_eq. intros Hn H.
  destruct Hn as [-> | [-> | ->]]; [apply Z.mod_1_r| |]; revert H.
  - change (Z.of_nat 2 - 1) with (Z.ones 1). by rewrite Z.land_ones by lia.
  - change (Z.of_nat 4 - 1) with (Z.ones 2). by rewrite Z.land_ones by lia.
Qed.

End Run.

(** ** A concrete run

    Two blocks of one page that jump to each other, on the flat memory of [Mmu.flat_phys]. *)

Definition demo_place (pc0 size : Z) : place :=
  mkPlace (0xc0000000 + pc0) 0 0 pc0 NO_PAGE (mkGenerated size (fun n => 8 * n + 8) 32)
    (fun _ _ => mkEntry INVALID INVALID INVALID 0).

Abbreviation demo_exec := (exec no_read no_write Softmmu.sample_base 0x1000 0x400).
Abbreviation demo_reachable := (reachable no_read no_write Softmmu.sample_base 0x1000 0x400).
Definition demo_step (o : op) (w : world (D := unit)) : world (D := unit) := default w (demo_exec o w).

Lemma demo_room : 0 <= 0x400 < CODE_GEN_BUFFER_SIZE.
Proof. done. Qed.

Lemma demo_next o w : demo_reachable w -> enabled o w -> demo_reachable (demo_step o w).
Proof.
  intros Hr He. destruct (step_ok no_read no_write Softmmu.sample_base 0x1000 0x400 demo_room o w) as (w' & E & _); [|done|].
  - by apply (reach_inv no_read no_write Softmmu.sample_base 0x1000 0x400 demo_room).
  - unfold demo_step. rewrite E. by apply (reachable_step _ _ _ _ _ o w).
Qed.

Lemma demo_place_ok pc0 size : 0 <= pc0 < 0x10000 -> page_off pc0 + size <= 4096 -> 1 <= size -> place_ok (demo_place pc0 size).
Proof.
  intros Hp Hs H1. unfold place_ok, gen_ok. cbn [at_pc at_phys at_page2 at_gen demo_place g_size g_code_size].
  assert (Hu : is_u32 pc0) by (unfold in_width; lia). assert (Hu2 : is_u32 (0xc0000000 + pc0)) by (unfold in_width; lia).
  destruct (page_split pc0 Hu) as (E & Hr & _ & Hb). split; [done|]. split; [done|].
  assert (Eo : page_off (0xc0000000 + pc0) = page_off pc0).
  { rewrite !page_off_mod. change 0xc0000000 with (786432 * 4096). by rewrite Z.add_comm, Z_mod_plus_full. }
  split; [by rewrite Eo|]. split.
  - split; [lia|]. rewrite page_off_mod. apply page_base_mod.
  - split; [lia|]. split; [lia|]. rewrite Eo. lia.
Qed.

Definition demo_p1 : place := demo_place 0x2010 4.
Definition demo_p2 : place := demo_place 0x2020 6.

Definition demo_w0 : world := mkWorld (cpu_exec_init 0x1000) Mmu.flat_phys (fun _ _ => 0).
Definition demo_w1 : world := demo_step (Block None demo_p1) demo_w0.
Definition demo_w2 : world := demo_step (Block (Some (0, 0)) demo_p2) demo_w1.
Definition demo_w3 : world := demo_step (Block (Some (1, 0)) demo_p1) demo_w2.

Lemma demo_p_ok : place_ok demo_p1 /\ place_ok demo_p2.
Proof. split; apply demo_place_ok; try lia; by vm_compute. Qed.

Lemma demo_enabled1 : enabled (Block (Some (0, 0)) demo_p2) demo_w1.
Proof. split; [apply demo_p_ok|]. split; [|by left]. exists 0x2010. apply listed_first. by vm_compute. Qed.

Lemma demo_reach1 : demo_reachable demo_w1.
Proof. apply demo_next; [apply reachable_start, Softmmu.flat_map_ok|]. split; [apply demo_p_ok|done]. Qed.

Lemma demo_reach2 : demo_reachable demo_w2.
Proof. apply demo_next; [apply demo_reach1|apply demo_enabled1]. Qed.

Lemma demo_known n w : tb_phys_hash (w_code w) (0x2010 + 16 * n) = Some n -> known (w_code (D := unit) w) n.
Proof. intros H. exists (0x2010 + 16 * n). by apply listed_first. Qed.

Lemma demo_reach3 : demo_reachable demo_w3.
Proof.
  apply demo_next; [apply demo_reach2|]. split; [apply demo_p_ok|]. split; [|by left]. apply demo_known. by vm_compute.
Qed.

(** Code that runs over the end of its page into the next virtual page, where the guest has
    mapped the same page of RAM again. *)
Definition alias_place : place :=
  mkPlace 0xc0002ffc 0 0 0x2ffc 0x2000 (mkGenerated 8 (fun n => 8 * n + 8) 32) (fun _ _ => mkEntry INVALID INVALID INVALID 0).

Definition finishes {A} (r : option A) : bool := match r with Some _ => true | None => false end.





Lemma demo_miss b : page_off (pc b) = 0x10 -> size b = 4 -> page_addr b 1 = NO_PAGE ->
  ~ exists a, 0x2024 <= a < 0x2026 /\ block_bytes b a.
Proof.
  intros Ep Es En (a & Ha & [[_ Hb]|[Hb _]]); [|by rewrite En in Hb].
  assert (Ho : page_off a = a - 0x2000) by (rewrite page_off_mod; Z.to_euclidean_division_equations; lia). lia.
Qed.

Lemma demo_hit : touches (w_code demo_w3) 0x2024 (0x2024 + Z.of_nat 2) 1.
Proof. exists 0x2024. split; [lia|]. left. by vm_compute. Qed.

(** The store goes to the second of the bytes of block 1. *)
Lemma store_invalidates_exactly_witness : exists m c' s',
  tb_invalidate_phys_page_fast 0x1000 0x2024 2 (w_code demo_w3) (w_mem demo_w3) = Some (m, c', s') /\
  known c' 0 /\ ~ known c' 1.
Proof.
  destruct (store_invalidates_exactly no_read no_write Softmmu.sample_base 0x1000 0x400 demo_room 2 0x2024 demo_w3 demo_reach3)
    as (m & c' & s' & _ & _ & _ & E & _ & Hk & _); [by right; left|done|done|].
  exists m, c', s'. split; [exact E|]. split.
  - apply Hk. split; [apply demo_known; by vm_compute|]. apply demo_miss; by vm_compute.
  - intros H1. apply Hk in H1 as [_ H1]. exact (H1 demo_hit).
Defined.

Lemma demo_chain : chain (w_code demo_w3) 0 1.
Proof. apply (chain_jump _ 0 0 0 1); [apply chain_here|by left|]. by vm_compute. Qed.


Lemma dead_block_keeps_jumps_witness : exists c', tb_phys_invalidate 0 NO_PAGE (w_code demo_w3) = Some c' /\
  ~ known c' 0 /\ tb_next (tbs c' 0) 0 = tc_ptr (tbs (w_code demo_w3) 1).
Proof.
  destruct (dead_block_keeps_jumps no_read no_write Softmmu.sample_base 0x1000 0x400 demo_room demo_w3 0 0 1 demo_reach3)
    as (c' & E & Hk & _ & Hn & _); [apply demo_known; by vm_compute|by left|by vm_compute|].
  exists c'. split; [exact E|]. split; [exact Hk|exact Hn].
Defined.

Lemma page_flush_forgets_witness :
  tb_jmp_cache (w_code demo_w3) (tb_jmp_cache_hash_func 0xc0002010) = Some 0 /\
  tb_jmp_cache (tlb_flush_page_code 0xc0002abc (w_code demo_w3)) (tb_jmp_cache_hash_func 0xc0002010) <> Some 0 /\
  tb_jmp_cache (tlb_flush_page_code 0xc0007000 (w_code demo_w3)) (tb_jmp_cache_hash_func 0xc0002010) = Some 0.
Proof.
  assert (Hu1 : is_u32 0xc0002abc) by (unfold in_width; lia). assert (Hu2 : is_u32 0xc0007000) by (unfold in_width; lia).
  assert (Hin : tb_jmp_cache (w_code demo_w3) (tb_jmp_cache_hash_func 0xc0002010) = Some 0) by (by vm_compute).
  assert (Hp : page_base (pc (tbs (w_code demo_w3) 0)) = page_base 0xc0002abc) by (by vm_compute).
  split; [exact Hin|]. split.
  - intros H. destruct (page_flush_forgets no_read no_write Softmmu.sample_base 0x1000 0x400 demo_room 0xc0002abc demo_w3 Hu1 demo_reach3)
      as [H1 _]. destruct (H1 _ _ H) as [H2 _]. exact (H2 Hp).
  - destruct (page_flush_forgets no_read no_write Softmmu.sample_base 0x1000 0x400 demo_room 0xc0007000 demo_w3 Hu2 demo_reach3)
      as [_ H2]. apply H2; [exact Hin|vm_compute; congruence|vm_compute; congruence].
Defined.

(** A CPU that has the page of the two blocks in its TLB, for writing. *)
Definition demo_soft : Softmmu.soft (D := unit) (K := cache) :=
  Softmmu.mkSoft Mmu.flat_cpu (w_mem demo_w3)
    (tlb_set_page_exec Softmmu.sample_base Softmmu.sample_watch 0x1000 0x2000 7 1 [] (fun _ _ => mkEntry INVALID INVALID INVALID 0)
       (w_mem demo_w3)).2 0 [] 0 (w_code demo_w3).

Lemma demo_dirty p : phys_ram_dirty (w_mem demo_w3) p = if p =? 2 then 0 else 0.
Proof. by vm_compute. Qed.

Lemma demo_soft_ok : Softmmu.soft_ok Softmmu.sample_base (l1_phys_map (w_mem demo_w3)) demo_soft.
Proof.
  assert (Hm : map_ok (w_mem demo_w3)).
  { destruct (reach_inv no_read no_write Softmmu.sample_base 0x1000 0x400 demo_room demo_w3 demo_reach3) as (L & _ & _ & _ & H). exact H. }
  split; [split; [reflexivity|exact Hm]|]. split.
  - intros p. change (Softmmu.mem demo_soft) with (w_mem demo_w3). rewrite demo_dirty. unfold in_width. destruct (p =? 2); lia.
  - apply set_page_exec_ok; [exact Hm|exact Softmmu.sample_watch_ok|exact Softmmu.sample_base_ok|reflexivity|unfold in_width; lia|reflexivity|].
    intros m i. split; [reflexivity|]. split; [split; apply invalid_rok|]. split; [apply invalid_ok|]. cbn. discriminate.
Qed.

Lemma demo_same : Softmmu.code demo_soft = w_code demo_w3 /\ Softmmu.mem demo_soft = w_mem demo_w3.
Proof. unfold demo_soft. cbn [Softmmu.code Softmmu.mem]. split; reflexivity. Qed.

Lemma demo_clean_store : Softmmu.clean_store 2 0x1024 1 demo_soft.
Proof. by vm_compute. Qed.

Lemma demo_ram : u32 (u32 (0x1024 + addend (Softmmu.tlb_table demo_soft 1 (tlb_index 0x1024))) - Softmmu.sample_base) = 0x2024.
Proof. by vm_compute. Qed.

Lemma demo_miss0 : ~ touches (w_code demo_w3) 0x2024 (0x2024 + Z.of_nat 2) 0.
Proof. apply demo_miss; by vm_compute. Qed.

Lemma demo_known0 : known (w_code demo_w3) 0.
Proof. apply demo_known. by vm_compute. Qed.

End CodeGuest.
