(* ===== verification/Flags.v ===== *)
(** * Condition codes of translated code

    The i386 micro operations that compute with flags (src/MemCheck-qemu/target-i386/op.c,
    ops_template.h, ops_template_mem.h) and the way the translator puts them together
    (translate.c).  Flags are lazy: an operation keeps its operands in CC_SRC and CC_DST and
    its kind in CC_OP, [cc_table] computes the flags when an instruction reads them, and the
    translator knows CC_OP statically where it can. *)

From S2P Require Import Prelude.

Module Flags.

(** ** Widths and masks *)

(** The [ot] of the translator; [DATA_BITS] and [SHIFT] of the templates. *)
Inductive size := OT_BYTE | OT_WORD | OT_LONG.
#[export] Instance size_eq_dec : EqDecision size.
Proof. solve_decision. Defined.

Definition SHIFT (ot : size) : Z := match ot with OT_BYTE => 0 | OT_WORD => 1 | OT_LONG => 2 end.
Definition DATA_BITS (ot : size) : Z := Z.shiftl 1 (3 + SHIFT ot).
Definition SHIFT_MASK (ot : size) : Z := DATA_BITS ot - 1.
Definition SIGN_MASK (ot : size) : Z := Z.shiftl 1 (DATA_BITS ot - 1).
Definition DATA_MASK (ot : size) : Z := Z.ones (DATA_BITS ot).
Definition SHIFT1_MASK : Z := 0x1f.

(** The casts [(DATA_TYPE)x] and [(DATA_STYPE)x]. *)
Definition DATA_TYPE (ot : size) (x : Z) : Z := wrap (DATA_BITS ot) x.
Definition DATA_STYPE (ot : size) (x : Z) : Z := sext (DATA_BITS ot) x.

Definition CC_C : Z := 0x0001.
Definition CC_P : Z := 0x0004.
Definition CC_A : Z := 0x0010.
Definition CC_Z : Z := 0x0040.
Definition CC_S : Z := 0x0080.
Definition CC_O : Z := 0x0800.
Definition CC_OSZAPC : Z := 0x08d5.    (** all six *)

Definition CC_OP_DYNAMIC : Z := 0.
Definition CC_OP_EFLAGS : Z := 1.
Definition CC_OP_MULB : Z := 2.
Definition CC_OP_ADDB : Z := 6.
Definition CC_OP_ADCB : Z := 10.
Definition CC_OP_SUBB : Z := 14.
Definition CC_OP_SBBB : Z := 18.
Definition CC_OP_LOGICB : Z := 22.
Definition CC_OP_INCB : Z := 26.
Definition CC_OP_DECB : Z := 30.
Definition CC_OP_SHLB : Z := 34.
Definition CC_OP_SARB : Z := 38.
Definition CC_OP_NB : Z := 42.

Definition parity_row0 : list Z := [CC_P; 0; 0; CC_P; 0; CC_P; CC_P; 0].
Definition parity_row1 : list Z := [0; CC_P; CC_P; 0; CC_P; 0; 0; CC_P].
(** The 32 lines of the table in their order; each is one of two. *)
Definition parity_table : list Z :=
  let a := parity_row0 in let b := parity_row1 in
  concat [a; b; b; a; b; a; a; b; b; a; a; b; a; b; b; a; b; a; a; b; a; b; b; a; a; b; b; a; b; a; a; b].

Definition rclw_table : list Z :=
  [0; 1; 2; 3; 4; 5; 6; 7; 8; 9; 10; 11; 12; 13; 14; 15;
   16; 0; 1; 2; 3; 4; 5; 6; 7; 8; 9; 10; 11; 12; 13; 14].
Definition rclb_table : list Z :=
  [0; 1; 2; 3; 4; 5; 6; 7; 8; 0; 1; 2; 3; 4; 5; 6;
   7; 8; 0; 1; 2; 3; 4; 5; 6; 7; 8; 0; 1; 2; 3; 4].

(** ** Lazy flags

    The functions of the flag table read CC_SRC and CC_DST, both [target_ulong]; a
    [target_long] is the signed reading.  The results are C ints that are only masked and
    combined. *)

Definition lshift (x n : Z) : Z :=
  if 0 <=? n then s32 (Z.shiftl x n) else Z.shiftr x (- n).

Definition pf (dst : Z) : Z := nth (Z.to_nat (u8 dst)) parity_table 0.
Definition zf (ot : size) (dst : Z) : Z := Z.shiftl (b2z (DATA_TYPE ot dst =? 0)) 6.
Definition sf (ot : size) (dst : Z) : Z := Z.land (lshift (s32 dst) (8 - DATA_BITS ot)) 0x80.

Definition lor6 (cf pf af zf sf vf : Z) : Z :=
  Z.lor (Z.lor (Z.lor (Z.lor (Z.lor cf pf) af) zf) sf) vf.

Definition compute_c_eflags (src dst : Z) : Z := Z.land src CC_C.
Definition compute_all_eflags (src dst : Z) : Z := src.

Definition compute_c_add (ot : size) (src dst : Z) : Z :=
  b2z (DATA_TYPE ot dst <? DATA_TYPE ot (s32 src)).
Definition compute_all_add (ot : size) (src dst : Z) : Z :=
  let src1 := s32 src in
  let src2 := s32 (dst - src) in
  let cf := b2z (DATA_TYPE ot dst <? DATA_TYPE ot src1) in
  let af := Z.land (Z.lxor (Z.lxor dst src1) src2) 0x10 in
  let vf := Z.land (lshift (s32 (Z.land (Z.lxor (Z.lxor src1 src2) (-1)) (Z.lxor src1 dst))) (12 - DATA_BITS ot)) CC_O in
  lor6 cf (pf dst) af (zf ot dst) (sf ot dst) vf.

Definition compute_c_adc (ot : size) (src dst : Z) : Z :=
  b2z (DATA_TYPE ot dst <=? DATA_TYPE ot (s32 src)).
Definition compute_all_adc (ot : size) (src dst : Z) : Z :=
  let src1 := s32 src in
  let src2 := s32 (dst - src - 1) in
  let cf := b2z (DATA_TYPE ot dst <=? DATA_TYPE ot src1) in
  let af := Z.land (Z.lxor (Z.lxor dst src1) src2) 0x10 in
  let vf := Z.land (lshift (s32 (Z.land (Z.lxor (Z.lxor src1 src2) (-1)) (Z.lxor src1 dst))) (12 - DATA_BITS ot)) CC_O in
  lor6 cf (pf dst) af (zf ot dst) (sf ot dst) vf.

Definition compute_c_sub (ot : size) (src dst : Z) : Z :=
  let src1 := s32 (dst + src) in
  let src2 := s32 src in
  b2z (DATA_TYPE ot src1 <? DATA_TYPE ot src2).
Definition compute_all_sub (ot : size) (src dst : Z) : Z :=
  let src1 := s32 (dst + src) in
  let src2 := s32 src in
  let cf := b2z (DATA_TYPE ot src1 <? DATA_TYPE ot src2) in
  let af := Z.land (Z.lxor (Z.lxor dst src1) src2) 0x10 in
  let vf := Z.land (lshift (s32 (Z.land (Z.lxor src1 src2) (Z.lxor src1 dst))) (12 - DATA_BITS ot)) CC_O in
  lor6 cf (pf dst) af (zf ot dst) (sf ot dst) vf.

Definition compute_c_sbb (ot : size) (src dst : Z) : Z :=
  let src1 := s32 (dst + src + 1) in
  let src2 := s32 src in
  b2z (DATA_TYPE ot src1 <=? DATA_TYPE ot src2).
Definition compute_all_sbb (ot : size) (src dst : Z) : Z :=
  let src1 := s32 (dst + src + 1) in
  let src2 := s32 src in
  let cf := b2z (DATA_TYPE ot src1 <=? DATA_TYPE ot src2) in
  let af := Z.land (Z.lxor (Z.lxor dst src1) src2) 0x10 in
  let vf := Z.land (lshift (s32 (Z.land (Z.lxor src1 src2) (Z.lxor src1 dst))) (12 - DATA_BITS ot)) CC_O in
  lor6 cf (pf dst) af (zf ot dst) (sf ot dst) vf.

Definition compute_c_logic (ot : size) (src dst : Z) : Z := 0.
Definition compute_all_logic (ot : size) (src dst : Z) : Z :=
  lor6 0 (pf dst) 0 (zf ot dst) (sf ot dst) 0.

Definition compute_c_incl (src dst : Z) : Z := src.
Definition compute_all_inc (ot : size) (src dst : Z) : Z :=
  let src1 := s32 (dst - 1) in
  let af := Z.land (Z.lxor (Z.lxor dst src1) 1) 0x10 in
  let vf := Z.shiftl (b2z (Z.land dst (DATA_MASK ot) =? SIGN_MASK ot)) 11 in
  lor6 src (pf dst) af (zf ot dst) (sf ot dst) vf.

Definition compute_all_dec (ot : size) (src dst : Z) : Z :=
  let src1 := s32 (dst + 1) in
  let af := Z.land (Z.lxor (Z.lxor dst src1) 1) 0x10 in
  let vf := Z.shiftl (b2z (Z.land dst (DATA_MASK ot) =? SIGN_MASK ot - 1)) 11 in
  lor6 src (pf dst) af (zf ot dst) (sf ot dst) vf.

Definition compute_c_shl (ot : size) (src dst : Z) : Z := Z.land (Z.shiftr src (DATA_BITS ot - 1)) CC_C.
Definition compute_all_shl (ot : size) (src dst : Z) : Z :=
  let cf := Z.land (Z.shiftr src (DATA_BITS ot - 1)) CC_C in
  let vf := Z.land (lshift (s32 (Z.lxor src dst)) (12 - DATA_BITS ot)) CC_O in
  lor6 cf (pf dst) 0 (zf ot dst) (sf ot dst) vf.

Definition compute_c_sarl (src dst : Z) : Z := Z.land src 1.
Definition compute_all_sar (ot : size) (src dst : Z) : Z :=
  let cf := Z.land src 1 in
  let vf := Z.land (lshift (s32 (Z.lxor src dst)) (12 - DATA_BITS ot)) CC_O in
  lor6 cf (pf dst) 0 (zf ot dst) (sf ot dst) vf.

Definition compute_c_mull (src dst : Z) : Z := b2z (negb (src =? 0)).
Definition compute_all_mul (ot : size) (src dst : Z) : Z :=
  let cf := b2z (negb (src =? 0)) in
  lor6 cf (pf dst) 0 (zf ot dst) (sf ot dst) (Z.shiftl cf 11).

(** The size of a kind is its distance from the first of its group; the fourth, for 64
    bits, has NULL functions in this configuration, and so has [CC_OP_DYNAMIC]. *)
Definition op_size (k : Z) : option size :=
  match k mod 4 with 0 => Some OT_BYTE | 1 => Some OT_WORD | 2 => Some OT_LONG | _ => None end.

(** [cc_table[op]]: [compute_all] and [compute_c]. *)
Definition cc_table (op : Z) : option ((Z -> Z -> Z) * (Z -> Z -> Z)) :=
  if op =? CC_OP_EFLAGS then Some (compute_all_eflags, compute_c_eflags)
  else if (CC_OP_MULB <=? op) && (op <? CC_OP_NB) then
    ot ← op_size (op - CC_OP_MULB);
    match (op - CC_OP_MULB) / 4 with
    | 0 => Some (compute_all_mul ot, compute_c_mull)
    | 1 => Some (compute_all_add ot, compute_c_add ot)
    | 2 => Some (compute_all_adc ot, compute_c_adc ot)
    | 3 => Some (compute_all_sub ot, compute_c_sub ot)
    | 4 => Some (compute_all_sbb ot, compute_c_sbb ot)
    | 5 => Some (compute_all_logic ot, compute_c_logic ot)
    | 6 => Some (compute_all_inc ot, compute_c_incl)
    | 7 => Some (compute_all_dec ot, compute_c_incl)
    | 8 => Some (compute_all_shl ot, compute_c_shl ot)
    | _ => Some (compute_all_sar ot, compute_c_sarl)
    end
  else None.

(** ** The state of a block of translated code

    The registers of the micro operations, the part of the CPU they use, and [s_cc_op], the
    [cc_op] of the translator's [DisasContext]: what it knows of CC_OP, or
    [CC_OP_DYNAMIC]. *)
Record cc := mkCC {
  T0 : Z;
  T1 : Z;
  EAX : Z;
  EDX : Z;
  CC_SRC : Z;
  CC_DST : Z;
  CC_OP : Z;
  DF : Z;
  eflags : Z;
  s_cc_op : Z;
}.
#[export] Instance eta_cc : Eta cc := fun s =>
  mkCC (T0 s) (T1 s) (EAX s) (EDX s) (CC_SRC s) (CC_DST s) (CC_OP s) (DF s) (eflags s) (s_cc_op s).

(** [cc_table[CC_OP].compute_all()]; [None] is the call of a NULL function. *)
Definition compute_all (s : cc) : option Z :=
  f ← cc_table (CC_OP s); Some (f.1 (CC_SRC s) (CC_DST s)).
Definition compute_c (s : cc) : option Z :=
  f ← cc_table (CC_OP s); Some (f.2 (CC_SRC s) (CC_DST s)).

(** ** Arithmetic micro operations (op.c) *)

Definition op_set_cc_op (op : Z) (s : cc) : cc := s <| CC_OP := op |>.
Definition op_addl_T0_T1 (s : cc) : cc := s <| T0 := u32 (T0 s + T1 s) |>.
Definition op_subl_T0_T1 (s : cc) : cc := s <| T0 := u32 (T0 s - T1 s) |>.
Definition op_orl_T0_T1 (s : cc) : cc := s <| T0 := Z.lor (T0 s) (T1 s) |>.
Definition op_andl_T0_T1 (s : cc) : cc := s <| T0 := Z.land (T0 s) (T1 s) |>.
Definition op_xorl_T0_T1 (s : cc) : cc := s <| T0 := Z.lxor (T0 s) (T1 s) |>.
Definition op_negl_T0 (s : cc) : cc := s <| T0 := u32 (- T0 s) |>.
Definition op_incl_T0 (s : cc) : cc := s <| T0 := u32 (T0 s + 1) |>.
Definition op_decl_T0 (s : cc) : cc := s <| T0 := u32 (T0 s - 1) |>.

Definition op_update2_cc (s : cc) : cc :=
  let s := s <| CC_SRC := T1 s |> in s <| CC_DST := T0 s |>.
Definition op_update1_cc (s : cc) : cc := s <| CC_DST := T0 s |>.
Definition op_update_neg_cc (s : cc) : cc :=
  let s := s <| CC_SRC := u32 (- T0 s) |> in s <| CC_DST := T0 s |>.
Definition op_cmpl_T0_T1_cc (s : cc) : cc :=
  let s := s <| CC_SRC := T1 s |> in s <| CC_DST := u32 (T0 s - T1 s) |>.
Definition op_update_inc_cc (s : cc) : option cc :=
  c ← compute_c s;
  let s := s <| CC_SRC := c |> in Some (s <| CC_DST := T0 s |>).
Definition op_testl_T0_T1_cc (s : cc) : cc := s <| CC_DST := Z.land (T0 s) (T1 s) |>.

Definition op_adc_T0_T1_cc (ot : size) (s : cc) : option cc :=
  cf ← compute_c s;
  let s := s <| T0 := u32 (T0 s + T1 s + cf) |> in
  let s := s <| CC_SRC := T1 s |> in
  let s := s <| CC_DST := T0 s |> in
  Some (s <| CC_OP := CC_OP_ADDB + SHIFT ot + cf * 4 |>).
Definition op_sbb_T0_T1_cc (ot : size) (s : cc) : option cc :=
  cf ← compute_c s;
  let s := s <| T0 := u32 (T0 s - T1 s - cf) |> in
  let s := s <| CC_SRC := T1 s |> in
  let s := s <| CC_DST := T0 s |> in
  Some (s <| CC_OP := CC_OP_SUBB + SHIFT ot + cf * 4 |>).

(** ** Shifts and rotations (ops_template_mem.h)

    The forms on registers; those on memory store T0 in between. *)

Definition op_rol_T0_T1_cc (ot : size) (s : cc) : option cc :=
  if has (T1 s) SHIFT1_MASK then
    let count := Z.land (T1 s) (SHIFT_MASK ot) in
    let src := T0 s in
    let t := Z.land (T0 s) (DATA_MASK ot) in
    let s := s <| T0 := Z.lor (u32 (Z.shiftl t count)) (Z.shiftr t (DATA_BITS ot - count)) |> in
    all ← compute_all s;
    let s := s <| CC_SRC := Z.lor (Z.lor (Z.land all (Z.lnot (Z.lor CC_O CC_C)))
      (Z.land (lshift (s32 (Z.lxor src (T0 s))) (11 - (DATA_BITS ot - 1))) CC_O)) (Z.land (T0 s) CC_C) |> in
    Some (s <| CC_OP := CC_OP_EFLAGS |>)
  else Some s.

Definition op_ror_T0_T1_cc (ot : size) (s : cc) : option cc :=
  if has (T1 s) SHIFT1_MASK then
    let count := Z.land (T1 s) (SHIFT_MASK ot) in
    let src := T0 s in
    let t := Z.land (T0 s) (DATA_MASK ot) in
    let s := s <| T0 := Z.lor (Z.shiftr t count) (u32 (Z.shiftl t (DATA_BITS ot - count))) |> in
    all ← compute_all s;
    let s := s <| CC_SRC := Z.lor (Z.lor (Z.land all (Z.lnot (Z.lor CC_O CC_C)))
      (Z.land (lshift (s32 (Z.lxor src (T0 s))) (11 - (DATA_BITS ot - 1))) CC_O))
      (Z.land (Z.shiftr (T0 s) (DATA_BITS ot - 1)) CC_C) |> in
    Some (s <| CC_OP := CC_OP_EFLAGS |>)
  else Some s.

(** The count of a rotation through the carry. *)
Definition rc_count (ot : size) (t1 : Z) : Z :=
  let count := Z.land t1 SHIFT1_MASK in
  match ot with
  | OT_WORD => nth (Z.to_nat count) rclw_table 0
  | OT_BYTE => nth (Z.to_nat count) rclb_table 0
  | OT_LONG => count
  end.

Definition op_rcl_T0_T1_cc (ot : size) (s : cc) : option cc :=
  let count := rc_count ot (T1 s) in
  if negb (count =? 0) then
    eflags ← compute_all s;
    let s := s <| T0 := Z.land (T0 s) (DATA_MASK ot) |> in
    let src := T0 s in
    let res := Z.lor (u32 (Z.shiftl (T0 s) count)) (u32 (Z.shiftl (Z.land eflags CC_C) (count - 1))) in
    let res := if 1 <? count then Z.lor res (Z.shiftr (T0 s) (DATA_BITS ot + 1 - count)) else res in
    let s := s <| T0 := res |> in
    let s := s <| CC_SRC := Z.lor (Z.lor (Z.land eflags (Z.lnot (Z.lor CC_C CC_O)))
      (Z.land (lshift (s32 (Z.lxor src (T0 s))) (11 - (DATA_BITS ot - 1))) CC_O))
      (Z.land (Z.shiftr src (DATA_BITS ot - count)) CC_C) |> in
    Some (s <| CC_OP := CC_OP_EFLAGS |>)
  else Some s.

Definition op_rcr_T0_T1_cc (ot : size) (s : cc) : option cc :=
  let count := rc_count ot (T1 s) in
  if negb (count =? 0) then
    eflags ← compute_all s;
    let s := s <| T0 := Z.land (T0 s) (DATA_MASK ot) |> in
    let src := T0 s in
    let res := Z.lor (Z.shiftr (T0 s) count) (u32 (Z.shiftl (Z.land eflags CC_C) (DATA_BITS ot - count))) in
    let res := if 1 <? count then Z.lor res (u32 (Z.shiftl (T0 s) (DATA_BITS ot + 1 - count))) else res in
    let s := s <| T0 := res |> in
    let s := s <| CC_SRC := Z.lor (Z.lor (Z.land eflags (Z.lnot (Z.lor CC_C CC_O)))
      (Z.land (lshift (s32 (Z.lxor src (T0 s))) (11 - (DATA_BITS ot - 1))) CC_O))
      (Z.land (Z.shiftr src (count - 1)) CC_C) |> in
    Some (s <| CC_OP := CC_OP_EFLAGS |>)
  else Some s.

Definition op_shl_T0_T1_cc (ot : size) (s : cc) : cc :=
  let count := Z.land (T1 s) SHIFT1_MASK in
  if negb (count =? 0) then
    let src := u32 (Z.shiftl (DATA_TYPE ot (T0 s)) (count - 1)) in
    let s := s <| T0 := u32 (Z.shiftl (T0 s) count) |> in
    let s := s <| CC_SRC := src |> in
    let s := s <| CC_DST := T0 s |> in
    s <| CC_OP := CC_OP_SHLB + SHIFT ot |>
  else s.

Definition op_shr_T0_T1_cc (ot : size) (s : cc) : cc :=
  let count := Z.land (T1 s) SHIFT1_MASK in
  if negb (count =? 0) then
    let s := s <| T0 := Z.land (T0 s) (DATA_MASK ot) |> in
    let src := Z.shiftr (T0 s) (count - 1) in
    let s := s <| T0 := Z.shiftr (T0 s) count |> in
    let s := s <| CC_SRC := src |> in
    let s := s <| CC_DST := T0 s |> in
    s <| CC_OP := CC_OP_SARB + SHIFT ot |>
  else s.

Definition op_sar_T0_T1_cc (ot : size) (s : cc) : cc :=
  let count := Z.land (T1 s) SHIFT1_MASK in
  if negb (count =? 0) then
    let src := DATA_STYPE ot (T0 s) in
    let s := s <| T0 := u32 (Z.shiftr src count) |> in
    let s := s <| CC_SRC := u32 (Z.shiftr src (count - 1)) |> in
    let s := s <| CC_DST := T0 s |> in
    s <| CC_OP := CC_OP_SARB + SHIFT ot |>
  else s.

(** ** Bit operations (ops_template.h)

    The loops of [bsf] and [bsr] take a unit of fuel per bit. *)

Inductive bit_op := BT | BTS | BTR | BTC.

Definition op_bt_T0_T1_cc (op : bit_op) (ot : size) (s : cc) : cc :=
  let count := Z.land (T1 s) (SHIFT_MASK ot) in
  match op with
  | BT => s <| CC_SRC := Z.shiftr (T0 s) count |>
  | BTS =>
    let s := s <| T1 := Z.shiftr (T0 s) count |> in
    s <| T0 := Z.lor (T0 s) (Z.shiftl 1 count) |>
  | BTR =>
    let s := s <| T1 := Z.shiftr (T0 s) count |> in
    s <| T0 := Z.land (T0 s) (Z.lnot (Z.shiftl 1 count)) |>
  | BTC =>
    let s := s <| T1 := Z.shiftr (T0 s) count |> in
    s <| T0 := Z.lxor (T0 s) (Z.shiftl 1 count) |>
  end.
Definition op_update_bt_cc (s : cc) : cc := s <| CC_SRC := T1 s |>.

Fixpoint bsf_loop (fuel : nat) (count res : Z) : option Z :=
  match fuel with
  | O => None
  | S fuel' => if Z.land res 1 =? 0 then bsf_loop fuel' (count + 1) (Z.shiftr res 1) else Some count
  end.
Definition op_bsf_T0_cc (ot : size) (s : cc) : option cc :=
  let res := Z.land (T0 s) (DATA_MASK ot) in
  if negb (res =? 0) then
    count ← bsf_loop 32 0 (s32 res);
    let s := s <| T1 := count |> in
    Some (s <| CC_DST := 1 |>)
  else Some (s <| CC_DST := 0 |>).

Fixpoint bsr_loop (fuel : nat) (ot : size) (count res : Z) : option Z :=
  match fuel with
  | O => None
  | S fuel' => if Z.land res (SIGN_MASK ot) =? 0 then bsr_loop fuel' ot (count - 1) (s32 (Z.shiftl res 1)) else Some count
  end.
Definition op_bsr_T0_cc (ot : size) (s : cc) : option cc :=
  let res := Z.land (T0 s) (DATA_MASK ot) in
  if negb (res =? 0) then
    count ← bsr_loop 32 ot (DATA_BITS ot - 1) (s32 res);
    let s := s <| T1 := count |> in
    Some (s <| CC_DST := 1 |>)
  else Some (s <| CC_DST := 0 |>).

(** ** Multiplications and divisions (op.c, helper.c) *)

Definition op_mul (ot : size) (s : cc) : cc :=
  match ot with
  | OT_BYTE =>
    let res := u8 (EAX s) * u8 (T0 s) in
    let s := s <| EAX := Z.lor (Z.land (EAX s) (Z.lnot 0xffff)) res |> in
    let s := s <| CC_DST := res |> in
    s <| CC_SRC := Z.land res 0xff00 |>
  | OT_WORD =>
    let res := u16 (EAX s) * u16 (T0 s) in
    let s := s <| EAX := Z.lor (Z.land (EAX s) (Z.lnot 0xffff)) (Z.land res 0xffff) |> in
    let s := s <| EDX := Z.lor (Z.land (EDX s) (Z.lnot 0xffff)) (Z.land (Z.shiftr res 16) 0xffff) |> in
    let s := s <| CC_DST := res |> in
    s <| CC_SRC := Z.shiftr res 16 |>
  | OT_LONG =>
    let res := u32 (EAX s) * u32 (T0 s) in
    let s := s <| EAX := u32 res |> in
    let s := s <| EDX := u32 (Z.shiftr res 32) |> in
    let s := s <| CC_DST := u32 res |> in
    s <| CC_SRC := u32 (Z.shiftr res 32) |>
  end.

Definition op_imul (ot : size) (s : cc) : cc :=
  match ot with
  | OT_BYTE =>
    let res := s8 (EAX s) * s8 (T0 s) in
    let s := s <| EAX := Z.lor (Z.land (EAX s) (Z.lnot 0xffff)) (Z.land res 0xffff) |> in
    let s := s <| CC_DST := u32 res |> in
    s <| CC_SRC := b2z (negb (res =? s8 res)) |>
  | OT_WORD =>
    let res := s16 (EAX s) * s16 (T0 s) in
    let s := s <| EAX := Z.lor (Z.land (EAX s) (Z.lnot 0xffff)) (Z.land res 0xffff) |> in
    let s := s <| EDX := Z.lor (Z.land (EDX s) (Z.lnot 0xffff)) (Z.land (Z.shiftr res 16) 0xffff) |> in
    let s := s <| CC_DST := u32 res |> in
    s <| CC_SRC := b2z (negb (res =? s16 res)) |>
  | OT_LONG =>
    let res := s32 (EAX s) * s32 (T0 s) in
    let s := s <| EAX := u32 res |> in
    let s := s <| EDX := u32 (Z.shiftr res 32) |> in
    let s := s <| CC_DST := u32 res |> in
    s <| CC_SRC := b2z (negb (res =? s32 res)) |>
  end.

(** [op_imulw_T0_T1] and [op_imull_T0_T1]; there is none for bytes. *)
Definition op_imul_T0_T1 (ot : size) (s : cc) : cc :=
  let res := DATA_STYPE ot (T0 s) * DATA_STYPE ot (T1 s) in
  let s := s <| T0 := u32 res |> in
  let s := s <| CC_DST := u32 res |> in
  s <| CC_SRC := b2z (negb (res =? DATA_STYPE ot res)) |>.

(** A division raises the divide error, or overflows in C: [num / den] with the smallest
    [num] of its type and [den = -1]. *)
Inductive div_result := DivOk (s : cc) | DivError | DivOverflow.

Definition op_divb_AL_T0 (s : cc) : div_result :=
  let num := Z.land (EAX s) 0xffff in
  let den := Z.land (T0 s) 0xff in
  if den =? 0 then DivError else
  let q := num / den in
  if 0xff <? q then DivError else
  let q := Z.land q 0xff in
  let r := Z.land (num mod den) 0xff in
  DivOk (s <| EAX := Z.lor (Z.lor (Z.land (EAX s) (Z.lnot 0xffff)) (Z.shiftl r 8)) q |>).

Definition op_idivb_AL_T0 (s : cc) : div_result :=
  let num := s16 (EAX s) in
  let den := s8 (T0 s) in
  if den =? 0 then DivError else
  let q := Z.quot num den in
  if negb (q =? s8 q) then DivError else
  let q := Z.land q 0xff in
  let r := Z.land (Z.rem num den) 0xff in
  DivOk (s <| EAX := Z.lor (Z.lor (Z.land (EAX s) (Z.lnot 0xffff)) (Z.shiftl r 8)) q |>).

Definition op_divw_AX_T0 (s : cc) : div_result :=
  let num := Z.lor (Z.land (EAX s) 0xffff) (Z.shiftl (Z.land (EDX s) 0xffff) 16) in
  let den := Z.land (T0 s) 0xffff in
  if den =? 0 then DivError else
  let q := num / den in
  if 0xffff <? q then DivError else
  let q := Z.land q 0xffff in
  let r := Z.land (num mod den) 0xffff in
  let s := s <| EAX := Z.lor (Z.land (EAX s) (Z.lnot 0xffff)) q |> in
  DivOk (s <| EDX := Z.lor (Z.land (EDX s) (Z.lnot 0xffff)) r |>).

Definition op_idivw_AX_T0 (s : cc) : div_result :=
  let num := s32 (Z.lor (Z.land (EAX s) 0xffff) (Z.shiftl (Z.land (EDX s) 0xffff) 16)) in
  let den := s16 (T0 s) in
  if den =? 0 then DivError else
  if (num =? - 2 ^ 31) && (den =? -1) then DivOverflow else
  let q := Z.quot num den in
  if negb (q =? s16 q) then DivError else
  let q := Z.land q 0xffff in
  let r := Z.land (Z.rem num den) 0xffff in
  let s := s <| EAX := Z.lor (Z.land (EAX s) (Z.lnot 0xffff)) q |> in
  DivOk (s <| EDX := Z.lor (Z.land (EDX s) (Z.lnot 0xffff)) r |>).

Definition helper_divl_EAX_T0 (s : cc) : div_result :=
  let num := Z.lor (EAX s) (Z.shiftl (EDX s) 32) in
  let den := T0 s in
  if den =? 0 then DivError else
  let q := num / den in
  let r := num mod den in
  if 0xffffffff <? q then DivError else
  let s := s <| EAX := u32 q |> in
  DivOk (s <| EDX := u32 r |>).

Definition helper_idivl_EAX_T0 (s : cc) : div_result :=
  let num := s64 (Z.lor (EAX s) (Z.shiftl (EDX s) 32)) in
  let den := s32 (T0 s) in
  if den =? 0 then DivError else
  if (num =? - 2 ^ 63) && (den =? -1) then DivOverflow else
  let q := Z.quot num den in
  let r := Z.rem num den in
  if negb (q =? s32 q) then DivError else
  let s := s <| EAX := u32 q |> in
  DivOk (s <| EDX := u32 r |>).

Definition op_div (ot : size) : cc -> div_result :=
  match ot with OT_BYTE => op_divb_AL_T0 | OT_WORD => op_divw_AX_T0 | OT_LONG => helper_divl_EAX_T0 end.
Definition op_idiv (ot : size) : cc -> div_result :=
  match ot with OT_BYTE => op_idivb_AL_T0 | OT_WORD => op_idivw_AX_T0 | OT_LONG => helper_idivl_EAX_T0 end.

(** ** Flags as a word *)

Definition TF_MASK : Z := 0x100.
Definition IF_MASK : Z := 0x200.
Definition DF_MASK : Z := 0x400.
Definition IOPL_MASK : Z := 0x3000.
Definition NT_MASK : Z := 0x4000.
Definition RF_MASK : Z := 0x10000.
Definition VM_MASK : Z := 0x20000.
Definition AC_MASK : Z := 0x40000.
Definition ID_MASK : Z := 0x200000.

(** [compute_eflags] and [load_eflags] (exec.h). *)
Definition compute_eflags (s : cc) : option Z :=
  all ← compute_all s; Some (Z.lor (Z.lor (eflags s) all) (Z.land (DF s) DF_MASK)).
Definition load_eflags (e update_mask : Z) (s : cc) : cc :=
  let s := s <| CC_SRC := Z.land e CC_OSZAPC |> in
  let s := s <| DF := 1 - 2 * Z.land (Z.shiftr e 10) 1 |> in
  s <| eflags := Z.lor (Z.land (eflags s) (Z.lnot update_mask)) (Z.land e update_mask) |>.

Definition op_movl_T0_eflags (s : cc) : option cc :=
  all ← compute_all s;
  let e := Z.lor all (Z.land (DF s) DF_MASK) in
  Some (s <| T0 := Z.lor e (Z.land (eflags s) (Z.lnot (Z.lor VM_MASK RF_MASK))) |>).
Definition op_movb_eflags_T0 (s : cc) : option cc :=
  all ← compute_all s;
  let vf := Z.land all CC_O in
  Some (s <| CC_SRC := Z.lor (Z.land (T0 s) 0xd5) vf |>).
Definition op_clc (s : cc) : option cc :=
  e ← compute_all s; Some (s <| CC_SRC := Z.land e (Z.lnot CC_C) |>).
Definition op_stc (s : cc) : option cc :=
  e ← compute_all s; Some (s <| CC_SRC := Z.lor e CC_C |>).
Definition op_cmc (s : cc) : option cc :=
  e ← compute_all s; Some (s <| CC_SRC := Z.lxor e CC_C |>).
Definition op_cld (s : cc) : cc := s <| DF := 1 |>.
Definition op_std (s : cc) : cc := s <| DF := -1 |>.

(** What [cpu_exec] does with the flags of the processor when it starts to run code. *)
Definition enter (s : cc) : cc :=
  let s := s <| CC_SRC := Z.land (eflags s) CC_OSZAPC |> in
  let s := s <| DF := 1 - 2 * Z.land (Z.shiftr (eflags s) 10) 1 |> in
  let s := s <| CC_OP := CC_OP_EFLAGS |> in
  let s := s <| eflags := Z.land (eflags s) (Z.lnot (Z.lor DF_MASK CC_OSZAPC)) |> in
  s <| s_cc_op := CC_OP_DYNAMIC |>.
(** And when it stops. *)
Definition leave (s : cc) : option cc := e ← compute_eflags s; Some (s <| eflags := e |>).

(** ** Conditions

    The tests after a subtraction read the operands back (ops_template.h); the others
    compute the flags (op.c).  A jump of the template is modelled by whether it is taken. *)

Definition JCC_O : Z := 0.
Definition JCC_B : Z := 1.
Definition JCC_Z : Z := 2.
Definition JCC_BE : Z := 3.
Definition JCC_S : Z := 4.
Definition JCC_P : Z := 5.
Definition JCC_L : Z := 6.
Definition JCC_LE : Z := 7.

Section Sub.
Context (ot : size) (s : cc).
Definition src1 : Z := s32 (CC_DST s + CC_SRC s).
Definition src2 : Z := s32 (CC_SRC s).

Definition op_jb_sub : bool := DATA_TYPE ot src1 <? DATA_TYPE ot src2.
Definition op_jz_sub : bool := DATA_TYPE ot (CC_DST s) =? 0.
Definition op_jbe_sub : bool := DATA_TYPE ot src1 <=? DATA_TYPE ot src2.
Definition op_js_sub : bool := has (CC_DST s) (SIGN_MASK ot).
Definition op_jl_sub : bool := DATA_STYPE ot src1 <? DATA_STYPE ot src2.
Definition op_jle_sub : bool := DATA_STYPE ot src1 <=? DATA_STYPE ot src2.

Definition op_setb_T0_sub : cc := s <| T0 := b2z (DATA_TYPE ot src1 <? DATA_TYPE ot src2) |>.
Definition op_setz_T0_sub : cc := s <| T0 := b2z (DATA_TYPE ot (CC_DST s) =? 0) |>.
Definition op_setbe_T0_sub : cc := s <| T0 := b2z (DATA_TYPE ot src1 <=? DATA_TYPE ot src2) |>.
Definition op_sets_T0_sub : cc := s <| T0 := Z.land (lshift (s32 (CC_DST s)) (- (DATA_BITS ot - 1))) 1 |>.
Definition op_setl_T0_sub : cc := s <| T0 := b2z (DATA_STYPE ot src1 <? DATA_STYPE ot src2) |>.
Definition op_setle_T0_sub : cc := s <| T0 := b2z (DATA_STYPE ot src1 <=? DATA_STYPE ot src2) |>.
End Sub.

Definition gen_jcc_sub (ot : size) (jcc_op : Z) : option (cc -> bool) :=
  match jcc_op with
  | 1 => Some (op_jb_sub ot) | 2 => Some (op_jz_sub ot) | 3 => Some (op_jbe_sub ot)
  | 4 => Some (op_js_sub ot) | 6 => Some (op_jl_sub ot) | 7 => Some (op_jle_sub ot)
  | _ => None
  end.
Definition gen_setcc_sub (ot : size) (jcc_op : Z) : option (cc -> cc) :=
  match jcc_op with
  | 1 => Some (op_setb_T0_sub ot) | 2 => Some (op_setz_T0_sub ot) | 3 => Some (op_setbe_T0_sub ot)
  | 4 => Some (op_sets_T0_sub ot) | 6 => Some (op_setl_T0_sub ot) | 7 => Some (op_setle_T0_sub ot)
  | _ => None
  end.

(** [op_seto_T0_cc] to [op_setle_T0_cc]. *)
Definition gen_setcc_slow (jcc_op : Z) (s : cc) : option cc :=
  if jcc_op =? JCC_B then c ← compute_c s; Some (s <| T0 := c |>)
  else
    e ← compute_all s;
    let t := match jcc_op with
      | 0 => Z.land (Z.shiftr e 11) 1
      | 2 => Z.land (Z.shiftr e 6) 1
      | 3 => b2z (has e (Z.lor CC_Z CC_C))
      | 4 => Z.land (Z.shiftr e 7) 1
      | 5 => Z.land (Z.shiftr e 2) 1
      | 6 => Z.land (Z.shiftr (Z.lxor e (Z.shiftr e 4)) 7) 1
      | _ => b2z (has (Z.lxor e (Z.shiftr e 4)) 0x80 || has e CC_Z)
      end in
    Some (s <| T0 := t |>).

(** ** The translator (translate.c)

    The code it makes for an instruction whose operands have been loaded into T0 and T1,
    without the moves of the result back. *)

Definition sync_cc_op (s : cc) : cc :=
  if negb (s_cc_op s =? CC_OP_DYNAMIC) then op_set_cc_op (s_cc_op s) s else s.

Inductive alu := OP_ADDL | OP_ORL | OP_ADCL | OP_SBBL | OP_ANDL | OP_SUBL | OP_XORL | OP_CMPL.

Definition gen_op (op : alu) (ot : size) (s : cc) : option cc :=
  match op with
  | OP_ADCL =>
    s ← op_adc_T0_T1_cc ot (sync_cc_op s); Some (s <| s_cc_op := CC_OP_DYNAMIC |>)
  | OP_SBBL =>
    s ← op_sbb_T0_T1_cc ot (sync_cc_op s); Some (s <| s_cc_op := CC_OP_DYNAMIC |>)
  | OP_ADDL =>
    let s := op_addl_T0_T1 s in
    let s := s <| s_cc_op := CC_OP_ADDB + SHIFT ot |> in
    Some (op_update2_cc s)
  | OP_SUBL =>
    let s := op_subl_T0_T1 s in
    let s := s <| s_cc_op := CC_OP_SUBB + SHIFT ot |> in
    Some (op_update2_cc s)
  | OP_ANDL =>
    let s := op_andl_T0_T1 s in
    let s := s <| s_cc_op := CC_OP_LOGICB + SHIFT ot |> in
    Some (op_update1_cc s)
  | OP_ORL =>
    let s := op_orl_T0_T1 s in
    let s := s <| s_cc_op := CC_OP_LOGICB + SHIFT ot |> in
    Some (op_update1_cc s)
  | OP_XORL =>
    let s := op_xorl_T0_T1 s in
    let s := s <| s_cc_op := CC_OP_LOGICB + SHIFT ot |> in
    Some (op_update1_cc s)
  | OP_CMPL =>
    let s := op_cmpl_T0_T1_cc s in
    Some (s <| s_cc_op := CC_OP_SUBB + SHIFT ot |>)
  end.

Definition gen_inc (ot : size) (c : Z) (s : cc) : option cc :=
  let s := sync_cc_op s in
  let s := if 0 <? c then (op_incl_T0 s) <| s_cc_op := CC_OP_INCB + SHIFT ot |>
           else (op_decl_T0 s) <| s_cc_op := CC_OP_DECB + SHIFT ot |> in
  op_update_inc_cc s.

Definition gen_neg (ot : size) (s : cc) : cc :=
  (op_update_neg_cc (op_negl_T0 s)) <| s_cc_op := CC_OP_SUBB + SHIFT ot |>.
Definition gen_test (ot : size) (s : cc) : cc :=
  (op_testl_T0_T1_cc s) <| s_cc_op := CC_OP_LOGICB + SHIFT ot |>.

Inductive shift_op := OP_ROL | OP_ROR | OP_RCL | OP_RCR | OP_SHL | OP_SHR | OP_SHL1 | OP_SAR.

Definition gen_op_shift_T0_T1_cc (op : shift_op) (ot : size) (s : cc) : option cc :=
  match op with
  | OP_ROL => op_rol_T0_T1_cc ot s
  | OP_ROR => op_ror_T0_T1_cc ot s
  | OP_RCL => op_rcl_T0_T1_cc ot s
  | OP_RCR => op_rcr_T0_T1_cc ot s
  | OP_SHL | OP_SHL1 => Some (op_shl_T0_T1_cc ot s)
  | OP_SHR => Some (op_shr_T0_T1_cc ot s)
  | OP_SAR => Some (op_sar_T0_T1_cc ot s)
  end.
Definition gen_shift (op : shift_op) (ot : size) (s : cc) : option cc :=
  s ← gen_op_shift_T0_T1_cc op ot (sync_cc_op s); Some (s <| s_cc_op := CC_OP_DYNAMIC |>).

Definition gen_bt (op : bit_op) (ot : size) (s : cc) : cc :=
  let s := (op_bt_T0_T1_cc op ot s) <| s_cc_op := CC_OP_SARB + SHIFT ot |> in
  match op with BT => s | _ => op_update_bt_cc s end.
Definition gen_bsf (ot : size) (s : cc) : option cc :=
  s ← op_bsf_T0_cc ot s; Some (s <| s_cc_op := CC_OP_LOGICB + SHIFT ot |>).
Definition gen_bsr (ot : size) (s : cc) : option cc :=
  s ← op_bsr_T0_cc ot s; Some (s <| s_cc_op := CC_OP_LOGICB + SHIFT ot |>).

Definition gen_mul (ot : size) (s : cc) : cc := (op_mul ot s) <| s_cc_op := CC_OP_MULB + SHIFT ot |>.
Definition gen_imul (ot : size) (s : cc) : cc := (op_imul ot s) <| s_cc_op := CC_OP_MULB + SHIFT ot |>.
Definition gen_imul2 (ot : size) (s : cc) : cc :=
  (op_imul_T0_T1 ot s) <| s_cc_op := CC_OP_MULB + SHIFT ot |>.

Definition gen_carry (op : cc -> option cc) (s : cc) : option cc :=
  s ← op (sync_cc_op s); Some (s <| s_cc_op := CC_OP_EFLAGS |>).
(** The end of a block; the next one starts without knowing CC_OP. *)
Definition gen_eob (s : cc) : cc := (sync_cc_op s) <| s_cc_op := CC_OP_DYNAMIC |>.
(** The choice between [op_movl_eflags_T0] and its variants. *)
Definition popf_mask (cpl iopl : Z) (dflag : bool) : Z :=
  let mask := Z.lor (Z.lor (Z.lor TF_MASK AC_MASK) ID_MASK) NT_MASK in
  let mask := if cpl =? 0 then Z.lor (Z.lor mask IF_MASK) IOPL_MASK
              else if cpl <=? iopl then Z.lor mask IF_MASK else mask in
  if dflag then mask else Z.land mask 0xffff.
Definition gen_popf (cpl iopl : Z) (dflag : bool) (s : cc) : cc :=
  gen_eob ((load_eflags (T0 s) (popf_mask cpl iopl dflag) s) <| s_cc_op := CC_OP_EFLAGS |>).
Definition gen_pushf (s : cc) : option cc := op_movl_T0_eflags (sync_cc_op s).

(** [b] is the low half of the opcode: a condition and, in bit 0, its negation. *)
Definition group (op : Z) : Z := (op - CC_OP_ADDB) / 4.

(** [gen_setcc_sub[(cc_op - CC_OP_ADDB) % 4][jcc_op]] *)
Definition sub_table {A} (t : size -> Z -> option A) (cc_op jcc_op : Z) : option A :=
  ot ← op_size (cc_op - CC_OP_ADDB); t ot jcc_op.

(** The kinds in the second group of cases of [gen_setcc]: additions, logic, increments,
    decrements and left shifts. *)
Definition setcc_easy (op : Z) : bool :=
  (CC_OP_ADDB <=? op) && (op <? CC_OP_SARB) && bool_decide (group op ∈ [0; 4; 5; 6; 7]).
(** Those of [gen_jcc]: all but subtractions from additions on. *)
Definition jcc_easy (op : Z) : bool :=
  (CC_OP_ADDB <=? op) && (op <? CC_OP_NB) && negb (group op =? 2).
Definition is_sub (op : Z) : bool := (CC_OP_SUBB <=? op) && (op <? CC_OP_SBBB).

Definition gen_setcc (b : Z) (s : cc) : option cc :=
  let inv := Z.land b 1 in
  let jcc_op := Z.land (Z.shiftr b 1) 7 in
  let func :=
    if is_sub (s_cc_op s) then sub_table gen_setcc_sub (s_cc_op s) jcc_op
    else if setcc_easy (s_cc_op s) && ((jcc_op =? JCC_Z) || (jcc_op =? JCC_S))
    then sub_table gen_setcc_sub (s_cc_op s) jcc_op
    else None in
  s ← match func with
      | Some f => Some (f s)
      | None => gen_setcc_slow jcc_op (sync_cc_op s)
      end;
  Some (if truth inv then s <| T0 := Z.lxor (T0 s) 1 |> else s).

(** Whether the jump is taken; [jmp_opt] allows direct jumps between blocks. *)
Definition gen_jcc (jmp_opt : bool) (b : Z) (s : cc) : option (bool * cc) :=
  let inv := Z.land b 1 in
  let jcc_op := Z.land (Z.shiftr b 1) 7 in
  let func :=
    if negb jmp_opt then None
    else if is_sub (s_cc_op s) then sub_table gen_jcc_sub (s_cc_op s) jcc_op
    else if jcc_easy (s_cc_op s) && ((jcc_op =? JCC_Z) || (jcc_op =? JCC_S))
    then sub_table gen_jcc_sub (s_cc_op s) jcc_op
    else None in
  let s := sync_cc_op s in
  let s := s <| s_cc_op := CC_OP_DYNAMIC |> in
  '(taken, s) ← match func with
      | Some f => Some (f s, s)
      | None => s ← gen_setcc_slow jcc_op s; Some (truth (T0 s), s)
      end;
  Some (xorb taken (truth inv), s).

End Flags.
