(* ===== verification/FlagsSpec.v ===== *)
(** * Lazy flags against the manual

    A reference machine that computes each flag of each instruction at once, from the
    unbounded results of the operation, with [None] for a flag the manual leaves undefined;
    and the translated code of the same instructions, put together from [Flags]. *)

From S2P Require Import Prelude Flags.
Import Flags.

Module FlagsSpec.

(** ** The manual *)

Record flags := mkFlags {
  CF : option bool;
  PF : option bool;
  AF : option bool;
  ZF : option bool;
  SF : option bool;
  OF : option bool;
}.
#[export] Instance eta_flags : Eta flags := fun f => mkFlags (CF f) (PF f) (AF f) (ZF f) (SF f) (OF f).

(** The number of ones in the low byte is even. *)
Definition even_parity (r : Z) : bool :=
  negb (foldr (fun i p => xorb (Z.testbit r i) p) false (seqZ 0 8)).

Section Width.
Context (ot : size).
Let w : Z := DATA_BITS ot.

Definition low (x : Z) : Z := x mod 2 ^ w.
(** The signed value of the low bits. *)
Definition signed (x : Z) : Z := if 2 ^ (w - 1) <=? low x then low x - 2 ^ w else low x.
Definition fits (z : Z) : bool := (- 2 ^ (w - 1) <=? z) && (z <? 2 ^ (w - 1)).
Definition msb (r : Z) : bool := 2 ^ (w - 1) <=? low r.

(** Parity, zero and sign of a result, with the given carry, adjust and overflow. *)
Definition szp (r : Z) (c a v : option bool) : flags :=
  mkFlags c (Some (even_parity r)) a (Some (low r =? 0)) (Some (msb r)) v.

Definition add_flags (x y c : Z) : flags :=
  szp (x + y + c) (Some (2 ^ w <=? low x + low y + c)) (Some (16 <=? x mod 16 + y mod 16 + c))
    (Some (negb (fits (signed x + signed y + c)))).
Definition sub_flags (x y c : Z) : flags :=
  szp (x - y - c) (Some (low x - low y - c <? 0)) (Some (x mod 16 - y mod 16 - c <? 0))
    (Some (negb (fits (signed x - signed y - c)))).
Definition logic_flags (r : Z) : flags := szp r (Some false) None (Some false).

(** A rotation to the left of the low [k] bits of [x] by [n], [n <= k]. *)
Definition rotate (k x n : Z) : Z :=
  let a := x mod 2 ^ k in (a * 2 ^ n + a / 2 ^ (k - n)) mod 2 ^ k.

(** The overflow flag is defined for shifts and rotations by one. *)
Definition for_one (n : Z) (b : bool) : option bool := if n =? 1 then Some b else None.
(** The carry flag is defined for shifts by at most the width. *)
Definition for_width (n : Z) (b : bool) : option bool := if n <=? w then Some b else None.

Definition shift_spec (op : shift_op) (x y : Z) (f : flags) : option (Z * flags) :=
  let n := y mod 32 in
  if n =? 0 then Some (low x, f) else
  match op with
  | OP_SHL | OP_SHL1 =>
    let r := low x * 2 ^ n in
    let c := Z.odd (r / 2 ^ w) in
    Some (low r, szp r (for_width n c) None (for_one n (xorb (msb r) c)))
  | OP_SHR =>
    let r := low x / 2 ^ n in
    Some (r, szp r (for_width n (Z.odd (low x / 2 ^ (n - 1)))) None (for_one n (msb x)))
  | OP_SAR =>
    let r := signed x / 2 ^ n in
    Some (low r, szp r (for_width n (Z.odd (signed x / 2 ^ (n - 1)))) None (for_one n false))
  | OP_ROL =>
    let r := rotate w x (n mod w) in
    let c := Z.odd r in
    Some (r, f <| CF := Some c |> <| OF := for_one n (xorb (msb r) c) |>)
  | OP_ROR =>
    let r := rotate w x (w - n mod w) in
    Some (r, f <| CF := Some (msb r) |> <| OF := for_one n (xorb (msb r) (msb (2 * r))) |>)
  | OP_RCL =>
    c ← CF f;
    let r := rotate (w + 1) (low x + b2z c * 2 ^ w) (n mod (w + 1)) in
    let c := Z.odd (r / 2 ^ w) in
    Some (low r, f <| CF := Some c |> <| OF := for_one n (xorb (msb r) c) |>)
  | OP_RCR =>
    c ← CF f;
    let r := rotate (w + 1) (low x + b2z c * 2 ^ w) (w + 1 - n mod (w + 1)) in
    Some (low r, f <| CF := Some (Z.odd (r / 2 ^ w)) |> <| OF := for_one n (xorb (msb r) (msb (2 * r))) |>)
  end.

Definition alu_spec (op : alu) (x y : Z) (f : flags) : option (list Z * flags) :=
  match op with
  | OP_ADDL => Some ([low (x + y)], add_flags x y 0)
  | OP_ADCL => c ← CF f; Some ([low (x + y + b2z c)], add_flags x y (b2z c))
  | OP_SUBL => Some ([low (x - y)], sub_flags x y 0)
  | OP_SBBL => c ← CF f; Some ([low (x - y - b2z c)], sub_flags x y (b2z c))
  | OP_CMPL => Some ([], sub_flags x y 0)
  | OP_ANDL => Some ([low (Z.land x y)], logic_flags (Z.land x y))
  | OP_ORL => Some ([low (Z.lor x y)], logic_flags (Z.lor x y))
  | OP_XORL => Some ([low (Z.lxor x y)], logic_flags (Z.lxor x y))
  end.

(** Only the carry is defined. *)
Definition only_carry (c : bool) : flags := mkFlags (Some c) None None None None None.

Definition bt_spec (op : bit_op) (x y : Z) : list Z * flags :=
  let n := y mod w in
  let f := only_carry (Z.testbit x n) in
  match op with
  | BT => ([], f)
  | BTS => ([low (Z.setbit x n)], f)
  | BTR => ([low (Z.clearbit x n)], f)
  | BTC => ([low (Z.lxor x (2 ^ n))], f)
  end.

(** The lowest or the highest bit that is set; [dst] is the old value of the register. *)
Definition scan_spec (up : bool) (x dst : Z) : list Z * flags :=
  let set := filter (fun i => Is_true (Z.testbit x i)) (seqZ 0 w) in
  let r := if up then head set else last set in
  ([low (default dst r)], mkFlags None None None (Some (low x =? 0)) None None).

(** A product: carry and overflow say whether it needs its upper half. *)
Definition wide (b : bool) : flags := mkFlags (Some b) None None None None (Some b).
End Width.

(** The conditions of jcc and setcc, without the negation. *)
Definition cond_spec (jcc_op : Z) (f : flags) : option bool :=
  match jcc_op with
  | 0 => OF f
  | 1 => CF f
  | 2 => ZF f
  | 3 => c ← CF f; z ← ZF f; Some (c || z)
  | 4 => SF f
  | 5 => PF f
  | 6 => s ← SF f; v ← OF f; Some (xorb s v)
  | _ => s ← SF f; v ← OF f; z ← ZF f; Some (xorb s v || z)
  end.

(** The six flags as the processor pushes them. *)
Definition flag (b : bool) (m : Z) : Z := if b then m else 0.
Definition flag_word (c p a z s v : bool) : Z :=
  lor6 (flag c CC_C) (flag p CC_P) (flag a CC_A) (flag z CC_Z) (flag s CC_S) (flag v CC_O).
Definition to_word (f : flags) : option Z :=
  c ← CF f; p ← PF f; a ← AF f; z ← ZF f; s ← SF f; v ← OF f; Some (flag_word c p a z s v).
Definition of_word (e : Z) : flags :=
  mkFlags (Some (Z.testbit e 0)) (Some (Z.testbit e 2)) (Some (Z.testbit e 4)) (Some (Z.testbit e 6))
    (Some (Z.testbit e 7)) (Some (Z.testbit e 11)).

(** ** Instructions

    With their operands, whose upper bits can be anything, as the values the code has in
    its registers; [eax] and [edx] are those of a multiplication. *)
Inductive instr :=
| Alu (op : alu) (ot : size) (x y : Z)
| Test (ot : size) (x y : Z)
| Inc (ot : size) (x : Z)
| Dec (ot : size) (x : Z)
| Neg (ot : size) (x : Z)
| Shift (op : shift_op) (ot : size) (x y : Z)
| Bt (op : bit_op) (ot : size) (x y : Z)
| Bsf (ot : size) (x dst : Z)
| Bsr (ot : size) (x dst : Z)
| Mul (ot : size) (eax edx x : Z)
| Imul (ot : size) (eax edx x : Z)
| Imul2 (ot : size) (x y : Z)
| Setcc (b : Z)
| Jcc (jmp_opt : bool) (b : Z)
| Clc | Stc | Cmc
| Cld | Std
| Sahf (ah : Z)
| Lahf
| Popf (cpl iopl : Z) (dflag : bool) (v : Z)
| Pushf
| EndBlock.

(** The state of the reference machine: the flags, the direction flag, the other bits of
    the register. *)
Record arch := mkArch { fl : flags; df : bool; sys : Z }.
#[export] Instance eta_arch : Eta arch := fun a => mkArch (fl a) (df a) (sys a).

(** [ax] is AX, [AX:DX] or [EAX:EDX] from a product. *)
Definition product (ot : size) (eax edx p : Z) : list Z :=
  match ot with
  | OT_BYTE => [eax / 2 ^ 16 * 2 ^ 16 + p mod 2 ^ 16; edx]
  | OT_WORD => [eax / 2 ^ 16 * 2 ^ 16 + p mod 2 ^ 16; edx / 2 ^ 16 * 2 ^ 16 + p / 2 ^ 16 mod 2 ^ 16]
  | OT_LONG => [p mod 2 ^ 32; p / 2 ^ 32 mod 2 ^ 32]
  end.

Definition pushed (a : arch) : option Z :=
  e ← to_word (fl a); Some (Z.lor (Z.lor e (flag (df a) DF_MASK)) (Z.land (sys a) (Z.lnot (Z.lor VM_MASK RF_MASK)))).

(** The bits of the other flags that [popf] writes: TF and NT, AC and ID from an operand
    of 32 bits, IF with the I/O privilege, IOPL in ring 0. *)
Definition writable (cpl iopl : Z) (dflag : bool) : list Z :=
  [8; 14] ++ (if dflag then [18; 21] else []) ++
  (if (cpl =? 0) || (cpl <=? iopl) then [9] else []) ++ (if cpl =? 0 then [12; 13] else []).
Definition set_of (l : list Z) : Z := foldr (fun i m => Z.setbit m i) 0 l.

Definition with_flags {A} (r : option (A * flags)) (a : arch) : option (A * arch) :=
  '(o, f) ← r; Some (o, a <| fl := f |>).

(** One instruction: what it gives and the next state; [None] reads an undefined flag. *)
Definition astep (i : instr) (a : arch) : option (list Z * arch) :=
  match i with
  | Alu op ot x y => with_flags (alu_spec ot op x y (fl a)) a
  | Test ot x y => with_flags (Some ([], logic_flags ot (Z.land x y))) a
  | Inc ot x => with_flags (Some ([low ot (x + 1)], (add_flags ot x 1 0) <| CF := CF (fl a) |>)) a
  | Dec ot x => with_flags (Some ([low ot (x - 1)], (sub_flags ot x 1 0) <| CF := CF (fl a) |>)) a
  | Neg ot x => with_flags (Some ([low ot (- x)], sub_flags ot 0 x 0)) a
  | Shift op ot x y => '(r, a) ← with_flags (shift_spec ot op x y (fl a)) a; Some ([r], a)
  | Bt op ot x y => with_flags (Some (bt_spec ot op x y)) a
  | Bsf ot x dst => with_flags (Some (scan_spec ot true x dst)) a
  | Bsr ot x dst => with_flags (Some (scan_spec ot false x dst)) a
  | Mul ot eax edx x =>
    let p := low ot eax * low ot x in
    with_flags (Some (product ot eax edx p, wide (negb (p / 2 ^ DATA_BITS ot =? 0)))) a
  | Imul ot eax edx x =>
    let p := signed ot eax * signed ot x in
    with_flags (Some (product ot eax edx p, wide (negb (fits ot p)))) a
  | Imul2 ot x y =>
    let p := signed ot x * signed ot y in
    with_flags (Some ([low ot p], wide (negb (fits ot p)))) a
  | Setcc b => c ← cond_spec (b / 2 mod 8) (fl a); Some ([b2z (xorb c (Z.odd b))], a)
  | Jcc _ b => c ← cond_spec (b / 2 mod 8) (fl a); Some ([b2z (xorb c (Z.odd b))], a)
  | Clc => Some ([], a <| fl := (fl a) <| CF := Some false |> |>)
  | Stc => Some ([], a <| fl := (fl a) <| CF := Some true |> |>)
  | Cmc => c ← CF (fl a); Some ([], a <| fl := (fl a) <| CF := Some (negb c) |> |>)
  | Cld => Some ([], a <| df := false |>)
  | Std => Some ([], a <| df := true |>)
  | Sahf ah => Some ([], a <| fl := (of_word ah) <| OF := OF (fl a) |> |>)
  | Lahf => e ← pushed a; Some ([e mod 2 ^ 8], a)
  | Popf cpl iopl dflag v =>
    let mask := set_of (writable cpl iopl dflag) in
    let a := a <| fl := of_word v |> in
    let a := a <| df := Z.testbit v 10 |> in
    Some ([], a <| sys := Z.lor (Z.land (sys a) (Z.lnot mask)) (Z.land v mask) |>)
  | Pushf => e ← pushed a; Some ([e], a)
  | EndBlock => Some ([], a)
  end.

(** ** The same instructions as translated code *)

(** The moves of the operands into the registers of the micro operations. *)
Definition load (x y : Z) (s : cc) : cc := let s := s <| T0 := x |> in s <| T1 := y |>.
Definition load_ax (eax edx x : Z) (s : cc) : cc :=
  let s := s <| EAX := eax |> in let s := s <| EDX := edx |> in s <| T0 := x |>.
Definition result (ot : size) (s : cc) : list Z * cc := ([DATA_TYPE ot (T0 s)], s).

Definition cstep (i : instr) (s : cc) : option (list Z * cc) :=
  match i with
  | Alu op ot x y =>
    s ← gen_op op ot (load x y s);
    Some (match op with OP_CMPL => ([], s) | _ => result ot s end)
  | Test ot x y => Some ([], gen_test ot (load x y s))
  | Inc ot x => s ← gen_inc ot 1 (load x 0 s); Some (result ot s)
  | Dec ot x => s ← gen_inc ot (-1) (load x 0 s); Some (result ot s)
  | Neg ot x => Some (result ot (gen_neg ot (load x 0 s)))
  | Shift op ot x y => s ← gen_shift op ot (load x y s); Some (result ot s)
  | Bt op ot x y =>
    let s := gen_bt op ot (load x y s) in
    Some (match op with BT => ([], s) | _ => result ot s end)
  | Bsf ot x dst => s ← gen_bsf ot (load x dst s); Some ([DATA_TYPE ot (T1 s)], s)
  | Bsr ot x dst => s ← gen_bsr ot (load x dst s); Some ([DATA_TYPE ot (T1 s)], s)
  | Mul ot eax edx x => let s := gen_mul ot (load_ax eax edx x s) in Some ([EAX s; EDX s], s)
  | Imul ot eax edx x => let s := gen_imul ot (load_ax eax edx x s) in Some ([EAX s; EDX s], s)
  | Imul2 ot x y => Some (result ot (gen_imul2 ot (load x y s)))
  | Setcc b => s ← gen_setcc b s; Some ([T0 s], s)
  | Jcc jmp_opt b => '(taken, s) ← gen_jcc jmp_opt b s; Some ([b2z taken], s)
  | Clc => s ← gen_carry op_clc s; Some ([], s)
  | Stc => s ← gen_carry op_stc s; Some ([], s)
  | Cmc => s ← gen_carry op_cmc s; Some ([], s)
  | Cld => Some ([], op_cld s)
  | Std => Some ([], op_std s)
  | Sahf ah => s ← gen_carry op_movb_eflags_T0 (load ah 0 s); Some ([], s)
  | Lahf => s ← gen_pushf s; Some ([DATA_TYPE OT_BYTE (T0 s)], s)
  | Popf cpl iopl dflag v => Some ([], gen_popf cpl iopl dflag (load v 0 s))
  | Pushf => s ← gen_pushf s; Some ([T0 s], s)
  | EndBlock => Some ([], gen_eob s)
  end.

(** A sequence of instructions, with all they give. *)
Fixpoint run {S} (step : instr -> S -> option (list Z * S)) (l : list instr) (s : S) : option (list Z * S) :=
  match l with
  | [] => Some ([], s)
  | i :: l => '(o, s) ← step i s; '(os, s) ← run step l s; Some (o ++ os, s)
  end.

End FlagsSpec.
