(* ===== verification/FlagsTable.v ===== *)
(** * The flag table against the manual

    The lemmas on bits, on the low bits of a word and on carries and overflows, and with
    them what each entry of the flag table computes and what each rotation leaves. *)

From S2P Require Import Prelude Flags FlagsSpec.
Import Flags FlagsSpec.

Module FlagsTable.

(** ** Bits *)

Lemma testbit_mod n a k : 0 <= k < n -> Z.testbit (a mod 2 ^ n) k = Z.testbit a k.
Proof. intros H. apply Z.mod_pow2_bits_low. lia. Qed.

(** Equal as 32-bit words. *)
Definition eqm (a b : Z) : Prop := a mod 2 ^ 32 = b mod 2 ^ 32.
#[export] Instance eqm_equiv : Equivalence eqm.
Proof. unfold eqm. split; [by intros ?|by intros ??|]. intros a b c. congruence. Qed.
#[export] Instance eqm_add : Proper (eqm ==> eqm ==> eqm) Z.add.
Proof. unfold eqm. intros a a' Ha b b' Hb. by rewrite Z.add_mod, Ha, Hb, <- Z.add_mod by lia. Qed.
#[export] Instance eqm_sub : Proper (eqm ==> eqm ==> eqm) Z.sub.
Proof. unfold eqm. intros a a' Ha b b' Hb. by rewrite Zminus_mod, Ha, Hb, <- Zminus_mod. Qed.

#[export] Instance eqm_opp : Proper (eqm ==> eqm) Z.opp.
Proof. intros a a' Ha. apply (eqm_sub 0 0 (reflexivity 0) a a' Ha). Qed.

Lemma eqm_eq a b : a = b -> eqm a b.
Proof. by intros ->. Qed.

Lemma u32_eqm z : eqm (u32 z) z.
Proof. unfold eqm, u32, wrap. by rewrite Z.mod_mod. Qed.

Lemma s32_eqm z : eqm (s32 z) z.
Proof.
  unfold eqm, s32, sext, wrap. destruct (_ <? _); [by rewrite Z.mod_mod|].
  rewrite <- Zminus_mod_idemp_r, Z.mod_same, Z.sub_0_r by lia. by rewrite Z.mod_mod.
Qed.

Lemma testbit_eqm a b k : 0 <= k < 32 -> eqm a b -> Z.testbit a k = Z.testbit b k.
Proof. intros Hk E. by rewrite <- (testbit_mod 32 a), E, testbit_mod. Qed.

Lemma testbit_u32 z k : 0 <= k < 32 -> Z.testbit (u32 z) k = Z.testbit z k.
Proof. intros H. by apply testbit_eqm, u32_eqm. Qed.

Lemma testbit_s32 z k : 0 <= k < 32 -> Z.testbit (s32 z) k = Z.testbit z k.
Proof. intros H. by apply testbit_eqm, s32_eqm. Qed.

Lemma testbit_lshift x n k : 0 <= k < 32 -> Z.testbit (lshift x n) k = Z.testbit x (k - n).
Proof.
  intros H. unfold lshift. destruct (Z.leb_spec 0 n).
  - by rewrite testbit_s32, Z.shiftl_spec by lia.
  - rewrite Z.shiftr_spec by lia. f_equal; lia.
Qed.

Lemma land_pow2 x k : 0 <= k -> Z.land x (2 ^ k) = flag (Z.testbit x k) (2 ^ k).
Proof.
  intros Hk. apply Z.bits_inj'. intros i Hi. rewrite Z.land_spec.
  destruct (decide (i = k)) as [->|N].
  - rewrite Z.pow2_bits_true by lia. rewrite andb_true_r.
    destruct (Z.testbit x k); cbn; [by rewrite Z.pow2_bits_true|by rewrite Z.bits_0].
  - rewrite Z.pow2_bits_false by lia. rewrite andb_false_r.
    destruct (Z.testbit x k); cbn; [by rewrite Z.pow2_bits_false by lia|by rewrite Z.bits_0].
Qed.

Lemma testbit_odd x k : 0 <= k -> Z.testbit x k = Z.odd (x / 2 ^ k).
Proof. intros Hk. rewrite <- Z.bit0_odd, Z.div_pow2_bits by lia. f_equal. Qed.

(** A sum bit by bit, with the carry from below. *)
Lemma testbit_add x y c k : 0 <= k -> 0 <= c <= 1 ->
  Z.testbit (x + y + c) k =
  xorb (xorb (Z.testbit x k) (Z.testbit y k)) (2 ^ k <=? x mod 2 ^ k + y mod 2 ^ k + c).
Proof.
  intros Hk Hc. rewrite !testbit_odd by done. set (m := 2 ^ k).
  assert (Hm : 0 < m) by (unfold m; lia).
  pose proof (Z.mod_pos_bound x m Hm). pose proof (Z.mod_pos_bound y m Hm).
  pose proof (Z.div_mod x m ltac:(lia)). pose proof (Z.div_mod y m ltac:(lia)).
  replace (x + y + c) with ((x mod m + y mod m + c) + (x / m + y / m) * m) by lia.
  rewrite Z.div_add, !Z.odd_add by lia.
  destruct (Z.leb_spec m (x mod m + y mod m + c)) as [L|L].
  - rewrite <- (Z.div_unique (x mod m + y mod m + c) m 1 (x mod m + y mod m + c - m)) by lia.
    by rewrite xorb_comm.
  - rewrite Z.div_small by lia. by rewrite xorb_comm.
Qed.

Lemma lnot_mod y m : 0 < m -> Z.lnot y mod m = m - 1 - y mod m.
Proof.
  intros Hm. pose proof (Z.mod_pos_bound y m Hm). pose proof (Z.div_mod y m ltac:(lia)).
  symmetry. apply (Z.mod_unique _ _ (- (y / m) - 1)); [lia|]. unfold Z.lnot. lia.
Qed.

(** A difference, with the borrow. *)
Lemma testbit_sub x y c k : 0 <= k -> 0 <= c <= 1 ->
  Z.testbit (x - y - c) k =
  xorb (xorb (Z.testbit x k) (Z.testbit y k)) (x mod 2 ^ k - y mod 2 ^ k - c <? 0).
Proof.
  intros Hk Hc. replace (x - y - c) with (x + Z.lnot y + (1 - c)) by (unfold Z.lnot; lia).
  rewrite testbit_add, Z.lnot_spec, lnot_mod by lia.
  replace (x mod 2 ^ k - y mod 2 ^ k - c <? 0)
    with (negb (2 ^ k <=? x mod 2 ^ k + (2 ^ k - 1 - y mod 2 ^ k) + (1 - c))).
  - destruct (Z.testbit x k), (Z.testbit y k), (_ <=? _); done.
  - destruct (Z.leb_spec (2 ^ k) (x mod 2 ^ k + (2 ^ k - 1 - y mod 2 ^ k) + (1 - c)));
      destruct (Z.ltb_spec (x mod 2 ^ k - y mod 2 ^ k - c) 0); (done || lia).
Qed.

(** ** The low bits *)

Section Width.
Context (ot : size).
Notation w := (DATA_BITS ot).

Lemma bits_range : 8 <= w <= 32.
Proof. by destruct ot. Qed.

Lemma pow_split : 2 ^ w = 2 * 2 ^ (w - 1) /\ 0 < 2 ^ (w - 1).
Proof. destruct ot; split; reflexivity. Qed.

(** The low bits split into the sign and the rest. *)
Lemma low_split x : low ot x = x mod 2 ^ (w - 1) + 2 ^ (w - 1) * b2z (Z.testbit x (w - 1)).
Proof.
  destruct pow_split as [E Hp]. pose proof bits_range. unfold low.
  rewrite testbit_odd by lia. rewrite E, (Z.mul_comm 2), Z.rem_mul_r by lia.
  rewrite Zmod_odd. by destruct (Z.odd _).
Qed.

Lemma msb_testbit r : msb ot r = Z.testbit r (w - 1).
Proof.
  destruct pow_split as [E Hp]. unfold msb. rewrite low_split.
  pose proof (Z.mod_pos_bound r (2 ^ (w - 1)) Hp).
  destruct (Z.testbit r (w - 1)); cbn; [rewrite (proj2 (Z.leb_le _ _))|rewrite (proj2 (Z.leb_gt _ _))]; lia || done.
Qed.

Lemma signed_split x : signed ot x = x mod 2 ^ (w - 1) - 2 ^ (w - 1) * b2z (Z.testbit x (w - 1)).
Proof.
  destruct pow_split as [E Hp]. unfold signed. fold (msb ot x). rewrite msb_testbit, low_split.
  destruct (Z.testbit x (w - 1)); cbn; lia.
Qed.

Lemma low_range x : 0 <= low ot x < 2 ^ w.
Proof. unfold low. pose proof pow_split. apply Z.mod_pos_bound. lia. Qed.

Lemma low_mod32 x : low ot (x mod 2 ^ 32) = low ot x.
Proof. apply Z.mod_mod_divide. by destruct ot; [exists (2 ^ 24)|exists (2 ^ 16)|exists 1]. Qed.

Lemma low_eqm a b : eqm a b -> low ot a = low ot b.
Proof. intros E. by rewrite <- low_mod32, E, low_mod32. Qed.

Lemma low_u32 z : low ot (u32 z) = low ot z.
Proof. apply low_eqm, u32_eqm. Qed.
Lemma low_s32 z : low ot (s32 z) = low ot z.
Proof. apply low_eqm, s32_eqm. Qed.
Lemma low_low z : low ot (low ot z) = low ot z.
Proof. unfold low. pose proof pow_split. apply Z.mod_mod. lia. Qed.

Lemma testbit_low x k : 0 <= k < w -> Z.testbit (low ot x) k = Z.testbit x k.
Proof. apply testbit_mod. Qed.

Lemma data_type x : DATA_TYPE ot x = low ot x.
Proof. done. Qed.

Lemma data_stype x : DATA_STYPE ot x = signed ot x.
Proof.
  unfold DATA_STYPE, sext, signed, low, wrap.
  destruct (Z.ltb_spec (x mod 2 ^ w) (2 ^ (w - 1))), (Z.leb_spec (2 ^ (w - 1)) (x mod 2 ^ w)); (done || lia).
Qed.

Lemma land_data_mask x : Z.land x (DATA_MASK ot) = low ot x.
Proof. unfold DATA_MASK. rewrite Z.land_ones by by destruct ot. done. Qed.

(** ** Carry and overflow of a sum and a difference *)

Lemma low_add x y c : low ot (x + y + c) = low ot (low ot x + low ot y + c).
Proof.
  assert (2 ^ w <> 0) by (pose proof pow_split; lia). unfold low.
  by rewrite <- (Z.add_mod_idemp_l (x + y)), (Z.add_mod x y), Z.add_mod_idemp_l by done.
Qed.

Lemma low_sub x y c : low ot (x - y - c) = low ot (low ot x - low ot y - c).
Proof.
  unfold low. by rewrite <- (Zminus_mod_idemp_l (x - y)), (Zminus_mod x y), Zminus_mod_idemp_l.
Qed.

Lemma carry_lt x y : (low ot (x + y) <? low ot y) = (2 ^ w <=? low ot x + low ot y + 0).
Proof.
  pose proof (low_range x). pose proof (low_range y).
  rewrite <- (Z.add_0_r (x + y)), low_add. unfold low at 1. rewrite !Z.add_0_r.
  destruct (Z.leb_spec (2 ^ w) (low ot x + low ot y)) as [L|L].
  - rewrite <- (Z.mod_unique (low ot x + low ot y) (2 ^ w) 1 (low ot x + low ot y - 2 ^ w)) by lia.
    apply Z.ltb_lt. lia.
  - rewrite Z.mod_small by lia. apply Z.ltb_ge. lia.
Qed.

Lemma carry_le x y : (low ot (x + y + 1) <=? low ot y) = (2 ^ w <=? low ot x + low ot y + 1).
Proof.
  pose proof (low_range x). pose proof (low_range y). rewrite low_add. unfold low at 1.
  destruct (Z.leb_spec (2 ^ w) (low ot x + low ot y + 1)) as [L|L].
  - rewrite <- (Z.mod_unique (low ot x + low ot y + 1) (2 ^ w) 1 (low ot x + low ot y + 1 - 2 ^ w)) by lia.
    apply Z.leb_le. lia.
  - rewrite Z.mod_small by lia. apply Z.leb_gt. lia.
Qed.

Lemma overflow_add x y c : 0 <= c <= 1 ->
  negb (fits ot (signed ot x + signed ot y + c)) =
  negb (xorb (Z.testbit x (w - 1)) (Z.testbit y (w - 1))) && xorb (Z.testbit y (w - 1)) (Z.testbit (x + y + c) (w - 1)).
Proof.
  intros Hc. pose proof bits_range. destruct pow_split as [_ Hp].
  rewrite testbit_add by lia. unfold fits. rewrite !signed_split.
  pose proof (Z.mod_pos_bound x (2 ^ (w - 1)) Hp). pose proof (Z.mod_pos_bound y (2 ^ (w - 1)) Hp).
  destruct (Z.testbit x (w - 1)), (Z.testbit y (w - 1)); cbn -[Z.pow Z.mul];
    destruct (Z.leb_spec (2 ^ (w - 1)) (x mod 2 ^ (w - 1) + y mod 2 ^ (w - 1) + c)); cbn -[Z.pow Z.mul];
    repeat match goal with |- context [?a <=? ?b] => destruct (Z.leb_spec a b) | |- context [?a <? ?b] => destruct (Z.ltb_spec a b) end;
    (done || lia).
Qed.

Lemma overflow_sub x y c : 0 <= c <= 1 ->
  negb (fits ot (signed ot x - signed ot y - c)) =
  xorb (Z.testbit x (w - 1)) (Z.testbit y (w - 1)) && xorb (Z.testbit x (w - 1)) (Z.testbit (x - y - c) (w - 1)).
Proof.
  intros Hc. pose proof bits_range. destruct pow_split as [_ Hp].
  rewrite testbit_sub by lia. unfold fits. rewrite !signed_split.
  pose proof (Z.mod_pos_bound x (2 ^ (w - 1)) Hp). pose proof (Z.mod_pos_bound y (2 ^ (w - 1)) Hp).
  destruct (Z.testbit x (w - 1)), (Z.testbit y (w - 1)); cbn -[Z.pow Z.mul];
    destruct (Z.ltb_spec (x mod 2 ^ (w - 1) - y mod 2 ^ (w - 1) - c) 0); cbn -[Z.pow Z.mul];
    repeat match goal with |- context [?a <=? ?b] => destruct (Z.leb_spec a b) | |- context [?a <? ?b] => destruct (Z.ltb_spec a b) end;
    (done || lia).
Qed.
End Width.

(** ** The six flags of the table *)

Record status := mkStatus { sC : bool; sP : bool; sA : bool; sZ : bool; sS : bool; sV : bool }.
Definition word (t : status) : Z := flag_word (sC t) (sP t) (sA t) (sZ t) (sS t) (sV t).

(** The table entry [op] computes [t] from its operands, and the carry alone. *)
Definition encodes (op src dst : Z) (t : status) : Prop :=
  exists F, cc_table op = Some F /\ F.1 src dst = word t /\ F.2 src dst = b2z (sC t).

Lemma parity_low x y : x mod 2 ^ 8 = y mod 2 ^ 8 -> even_parity x = even_parity y.
Proof.
  intros E. unfold even_parity. f_equal. change (seqZ 0 8) with [0; 1; 2; 3; 4; 5; 6; 7]. cbn -[Z.testbit].
  by rewrite <- !(testbit_mod 8 x), E, !testbit_mod by lia.
Qed.

Lemma parity_table_spec x : 0 <= x < 256 -> nth (Z.to_nat x) parity_table 0 = flag (even_parity x) CC_P.
Proof.
  intros Hx. apply Z.eqb_eq.
  by apply (all_below_spec 256 (fun x => nth (Z.to_nat x) parity_table 0 =? flag (even_parity x) CC_P)).
Qed.

Section Table.
Context (ot : size).
Notation w := (DATA_BITS ot).

Lemma pf_flag d r : low ot d = low ot r -> pf d = flag (even_parity r) CC_P.
Proof.
  intros E. unfold pf. rewrite parity_table_spec by apply (wrap_range 8 ltac:(lia)). f_equal.
  apply parity_low. unfold u8, wrap. rewrite Z.mod_mod by lia.
  assert (D : forall z, low ot z mod 2 ^ 8 = z mod 2 ^ 8).
  { intros z. apply Z.mod_mod_divide. by destruct ot; [exists 1|exists (2 ^ 8)|exists (2 ^ 24)]. }
  by rewrite <- (D d), E, D.
Qed.

Lemma zf_flag d r : low ot d = low ot r -> zf ot d = flag (low ot r =? 0) CC_Z.
Proof. intros E. unfold zf. rewrite data_type, E. by destruct (_ =? 0). Qed.

Lemma sf_flag d r : low ot d = low ot r -> sf ot d = flag (msb ot r) CC_S.
Proof.
  intros E. pose proof (bits_range ot). unfold sf.
  transitivity (flag (Z.testbit (lshift (s32 d) (8 - w)) 7) CC_S); [by apply (land_pow2 _ 7)|]. f_equal.
  rewrite testbit_lshift, testbit_s32 by lia.
  rewrite msb_testbit, <- (testbit_low ot r), <- E, testbit_low by lia. f_equal. lia.
Qed.

Lemma af_flag z : Z.land z 0x10 = flag (Z.testbit z 4) CC_A.
Proof. by apply (land_pow2 z 4). Qed.

Lemma vf_flag z : Z.land (lshift (s32 z) (12 - w)) CC_O = flag (Z.testbit z (w - 1)) CC_O.
Proof.
  pose proof (bits_range ot).
  transitivity (flag (Z.testbit (lshift (s32 z) (12 - w)) 11) CC_O); [by apply (land_pow2 _ 11)|]. f_equal.
  rewrite testbit_lshift, testbit_s32 by lia. f_equal. lia.
Qed.

Lemma lor6_word r d c c' a a' v v' : low ot d = low ot r -> c = c' -> a = a' -> v = v' ->
  lor6 (b2z c) (pf d) (flag a CC_A) (zf ot d) (sf ot d) (flag v CC_O) =
  word (mkStatus c' (even_parity r) a' (low ot r =? 0) (msb ot r) v').
Proof. intros E -> -> ->. by rewrite (pf_flag d r), (zf_flag d r), (sf_flag d r). Qed.

(** An entry whose functions are known. *)
Lemma encodes_at op src dst F t : cc_table op = Some F -> F.1 src dst = word t -> F.2 src dst = b2z (sC t) ->
  encodes op src dst t.
Proof. intros. by exists F. Qed.

Definition add_status (x y c : Z) : status :=
  mkStatus (2 ^ w <=? low ot x + low ot y + c) (even_parity (x + y + c)) (16 <=? x mod 16 + y mod 16 + c)
    (low ot (x + y + c) =? 0) (msb ot (x + y + c)) (negb (fits ot (signed ot x + signed ot y + c))).
Definition sub_status (x y c : Z) : status :=
  mkStatus (low ot x - low ot y - c <? 0) (even_parity (x - y - c)) (x mod 16 - y mod 16 - c <? 0)
    (low ot (x - y - c) =? 0) (msb ot (x - y - c)) (negb (fits ot (signed ot x - signed ot y - c))).

Ltac bits := repeat first
  [ rewrite Z.land_spec | rewrite Z.lxor_spec | rewrite Z.bits_m1 by lia | rewrite testbit_u32 by lia
  | rewrite testbit_s32 by lia ].

(** [s2] and [s1] are the first operand, which the code gets back from the result [d]. *)
Lemma add_all x y c d s2 cf : 0 <= c <= 1 -> eqm d (x + y + c) -> eqm s2 x ->
  cf = (2 ^ w <=? low ot x + low ot y + c) ->
  lor6 (b2z cf) (pf d) (Z.land (Z.lxor (Z.lxor d (s32 y)) s2) 0x10) (zf ot d) (sf ot d)
    (Z.land (lshift (s32 (Z.land (Z.lxor (Z.lxor (s32 y) s2) (-1)) (Z.lxor (s32 y) d))) (12 - w)) CC_O) =
  word (add_status x y c).
Proof.
  intros Hc Hd Hb Ec. pose proof (bits_range ot). rewrite af_flag, vf_flag.
  apply lor6_word; [by apply low_eqm|done| |].
  - bits. rewrite (testbit_eqm _ _ 4 ltac:(lia) Hd), (testbit_eqm _ _ 4 ltac:(lia) Hb), testbit_add by lia.
    change (2 ^ 4) with 16. generalize (16 <=? x mod 16 + y mod 16 + c). intros b.
    destruct (Z.testbit x 4), (Z.testbit y 4), b; done.
  - rewrite overflow_add by done. bits.
    rewrite (testbit_eqm _ _ (w - 1) ltac:(lia) Hd), (testbit_eqm _ _ (w - 1) ltac:(lia) Hb).
    destruct (Z.testbit x (w - 1)), (Z.testbit y (w - 1)); done.
Qed.

Lemma sub_all x y c d s1 cf : 0 <= c <= 1 -> eqm d (x - y - c) -> eqm s1 x ->
  cf = (low ot x - low ot y - c <? 0) ->
  lor6 (b2z cf) (pf d) (Z.land (Z.lxor (Z.lxor d s1) (s32 y)) 0x10) (zf ot d) (sf ot d)
    (Z.land (lshift (s32 (Z.land (Z.lxor s1 (s32 y)) (Z.lxor s1 d))) (12 - w)) CC_O) =
  word (sub_status x y c).
Proof.
  intros Hc Hd Hb Ec. pose proof (bits_range ot). rewrite af_flag, vf_flag.
  apply lor6_word; [by apply low_eqm|done| |].
  - bits. rewrite (testbit_eqm _ _ 4 ltac:(lia) Hd), (testbit_eqm _ _ 4 ltac:(lia) Hb), testbit_sub by lia.
    change (2 ^ 4) with 16. generalize (x mod 16 - y mod 16 - c <? 0). intros b.
    destruct (Z.testbit x 4), (Z.testbit y 4), b; done.
  - rewrite overflow_sub by done. bits.
    rewrite (testbit_eqm _ _ (w - 1) ltac:(lia) Hd), (testbit_eqm _ _ (w - 1) ltac:(lia) Hb).
    destruct (Z.testbit x (w - 1)), (Z.testbit y (w - 1)); done.
Qed.

Lemma ltb_sub a b : (a <? b) = (a - b - 0 <? 0).
Proof. destruct (Z.ltb_spec a b), (Z.ltb_spec (a - b - 0) 0); (done || lia). Qed.
Lemma leb_sub a b : (a <=? b) = (a - b - 1 <? 0).
Proof. destruct (Z.leb_spec a b), (Z.ltb_spec (a - b - 1) 0); (done || lia). Qed.

Lemma data_eqm z x : eqm z x -> DATA_TYPE ot z = low ot x.
Proof. apply low_eqm. Qed.
Lemma data_s32 z : DATA_TYPE ot (s32 z) = low ot z.
Proof. apply low_s32. Qed.

(** An operand found again: [d] is a sum or a difference with it. *)
Ltac back H := rewrite s32_eqm, H; apply eqm_eq; lia.

(** The entries for additions and subtractions: any [d] that is the result as a word. *)
Lemma enc_add x y d : eqm d (x + y) -> encodes (CC_OP_ADDB + SHIFT ot) y d (add_status x y 0).
Proof.
  intros Hd.
  assert (E : DATA_TYPE ot d <? DATA_TYPE ot (s32 y) = (2 ^ w <=? low ot x + low ot y + 0)).
  { by rewrite (data_eqm _ _ Hd), data_s32, carry_lt. }
  eapply encodes_at; [by destruct ot|apply add_all|apply (f_equal b2z), E];
    [lia|by rewrite Z.add_0_r|back Hd|done].
Qed.

Lemma enc_adc x y d : eqm d (x + y + 1) -> encodes (CC_OP_ADDB + SHIFT ot + 1 * 4) y d (add_status x y 1).
Proof.
  intros Hd.
  assert (E : DATA_TYPE ot d <=? DATA_TYPE ot (s32 y) = (2 ^ w <=? low ot x + low ot y + 1)).
  { by rewrite (data_eqm _ _ Hd), data_s32, carry_le. }
  eapply encodes_at; [by destruct ot|apply add_all|apply (f_equal b2z), E]; [lia|done|back Hd|done].
Qed.

Lemma enc_sub x y d : eqm d (x - y) -> encodes (CC_OP_SUBB + SHIFT ot) y d (sub_status x y 0).
Proof.
  intros Hd. assert (Hs : eqm (s32 (d + y)) x) by back Hd.
  assert (E : DATA_TYPE ot (s32 (d + y)) <? DATA_TYPE ot (s32 y) = (low ot x - low ot y - 0 <? 0)).
  { by rewrite (data_eqm _ _ Hs), data_s32, ltb_sub. }
  eapply encodes_at; [by destruct ot|apply sub_all|apply (f_equal b2z), E];
    [lia|by rewrite Z.sub_0_r|done|done].
Qed.

Lemma enc_sbb x y d : eqm d (x - y - 1) -> encodes (CC_OP_SUBB + SHIFT ot + 1 * 4) y d (sub_status x y 1).
Proof.
  intros Hd. assert (Hs : eqm (s32 (d + y + 1)) x) by back Hd.
  assert (E : DATA_TYPE ot (s32 (d + y + 1)) <=? DATA_TYPE ot (s32 y) = (low ot x - low ot y - 1 <? 0)).
  { by rewrite (data_eqm _ _ Hs), data_s32, leb_sub. }
  eapply encodes_at; [by destruct ot|apply sub_all|apply (f_equal b2z), E]; done.
Qed.

Lemma enc_logic src r : encodes (CC_OP_LOGICB + SHIFT ot) src r
  (mkStatus false (even_parity r) false (low ot r =? 0) (msb ot r) false).
Proof. eapply encodes_at; [by destruct ot|by apply (lor6_word r r false _ false _ false)|done]. Qed.

Lemma shl11 b : Z.shiftl (b2z b) 11 = flag b CC_O.
Proof. by destruct b. Qed.

Lemma signed_one : signed ot 1 = 1.
Proof. by destruct ot. Qed.

(** The only overflows of an increment and of a decrement. *)
Lemma overflow_inc x : negb (fits ot (signed ot x + signed ot 1 + 0)) = (low ot (x + 1) =? SIGN_MASK ot).
Proof.
  pose proof (low_range ot x). destruct (pow_split ot) as [E Hp]. rewrite signed_one.
  replace (low ot (x + 1)) with (if low ot x =? 2 ^ w - 1 then 0 else low ot x + 1).
  - unfold fits, signed, SIGN_MASK. rewrite Z.shiftl_1_l.
    destruct (Z.leb_spec (2 ^ (w - 1)) (low ot x)), (Z.eqb_spec (low ot x) (2 ^ w - 1));
      apply eq_true_iff_eq; rewrite negb_true_iff, andb_false_iff, !Z.leb_gt, !Z.ltb_ge, Z.eqb_eq; lia.
  - unfold low at 3. rewrite <- Z.add_mod_idemp_l by lia. fold (low ot x).
    destruct (Z.eqb_spec (low ot x) (2 ^ w - 1)) as [->|].
    + by replace (2 ^ w - 1 + 1) with (2 ^ w) by lia; rewrite Z.mod_same by lia.
    + by rewrite Z.mod_small by lia.
Qed.

Lemma overflow_dec x : negb (fits ot (signed ot x - signed ot 1 - 0)) = (low ot (x - 1) =? SIGN_MASK ot - 1).
Proof.
  pose proof (low_range ot x). destruct (pow_split ot) as [E Hp]. rewrite signed_one.
  replace (low ot (x - 1)) with (if low ot x =? 0 then 2 ^ w - 1 else low ot x - 1).
  - unfold fits, signed, SIGN_MASK. rewrite Z.shiftl_1_l.
    destruct (Z.leb_spec (2 ^ (w - 1)) (low ot x)), (Z.eqb_spec (low ot x) 0);
      apply eq_true_iff_eq; rewrite negb_true_iff, andb_false_iff, !Z.leb_gt, !Z.ltb_ge, Z.eqb_eq; lia.
  - unfold low at 3. rewrite <- Zminus_mod_idemp_l. fold (low ot x).
    destruct (Z.eqb_spec (low ot x) 0) as [->|].
    + by apply (Z.mod_unique _ _ (-1)); lia.
    + by rewrite Z.mod_small by lia.
Qed.

(** The flags of [t] with another carry. *)
Definition with_carry (c : bool) (t : status) : status := mkStatus c (sP t) (sA t) (sZ t) (sS t) (sV t).

Lemma enc_inc x c d : eqm d (x + 1) ->
  encodes (CC_OP_INCB + SHIFT ot) (b2z c) d (with_carry c (add_status x 1 0)).
Proof.
  intros Hd. assert (Hs : eqm (s32 (d - 1)) x) by back Hd. eapply encodes_at; [by destruct ot| |done].
  unfold compute_all_inc. cbn [fst]. rewrite af_flag, shl11, land_data_mask, (low_eqm ot _ _ Hd).
  apply (lor6_word (x + 1 + 0)); [rewrite Z.add_0_r; by apply low_eqm|done| |symmetry; apply overflow_inc].
  rewrite !Z.lxor_spec, (testbit_eqm _ _ 4 ltac:(lia) Hs), (testbit_eqm _ _ 4 ltac:(lia) Hd).
  unfold add_status. cbn [sA]. rewrite <- (Z.add_0_r (x + 1)), testbit_add by lia. change (2 ^ 4) with 16.
  generalize (16 <=? x mod 16 + 1 mod 16 + 0). intros b. destruct (Z.testbit x 4), b; done.
Qed.

Lemma enc_dec x c d : eqm d (x - 1) ->
  encodes (CC_OP_DECB + SHIFT ot) (b2z c) d (with_carry c (sub_status x 1 0)).
Proof.
  intros Hd. assert (Hs : eqm (s32 (d + 1)) x) by back Hd. eapply encodes_at; [by destruct ot| |done].
  unfold compute_all_dec. cbn [fst]. rewrite af_flag, shl11, land_data_mask, (low_eqm ot _ _ Hd).
  apply (lor6_word (x - 1 - 0)); [rewrite Z.sub_0_r; by apply low_eqm|done| |symmetry; apply overflow_dec].
  rewrite !Z.lxor_spec, (testbit_eqm _ _ 4 ltac:(lia) Hs), (testbit_eqm _ _ 4 ltac:(lia) Hd).
  unfold sub_status. cbn [sA]. rewrite <- (Z.sub_0_r (x - 1)), testbit_sub by lia. change (2 ^ 4) with 16.
  generalize (x mod 16 - 1 mod 16 - 0 <? 0). intros b. destruct (Z.testbit x 4), b; done.
Qed.

Lemma land_one x k : 0 <= k -> Z.land (Z.shiftr x k) 1 = b2z (Z.testbit x k).
Proof. intros Hk. change 1 with (2 ^ 0). rewrite land_pow2, Z.shiftr_spec by lia. done. Qed.

(** Shifts: the carry and the overflow are bits of CC_SRC; [d] is the result [r] in its low
    bits. *)
Lemma enc_shl src d r : low ot d = low ot r -> encodes (CC_OP_SHLB + SHIFT ot) src d
  (mkStatus (Z.testbit src (w - 1)) (even_parity r) false (low ot r =? 0) (msb ot r)
    (xorb (Z.testbit src (w - 1)) (msb ot r))).
Proof.
  intros E. pose proof (bits_range ot).
  eapply encodes_at; [by destruct ot| |by apply land_one; lia]. cbn [fst]. unfold compute_all_shl, CC_C.
  rewrite land_one, vf_flag by lia. apply (lor6_word r d _ _ false); [done..|].
  by rewrite Z.lxor_spec, msb_testbit, <- (testbit_low ot r), <- E, testbit_low by lia.
Qed.

Lemma enc_sar src d r : low ot d = low ot r -> encodes (CC_OP_SARB + SHIFT ot) src d
  (mkStatus (Z.testbit src 0) (even_parity r) false (low ot r =? 0) (msb ot r)
    (xorb (Z.testbit src (w - 1)) (msb ot r))).
Proof.
  intros E. pose proof (bits_range ot).
  assert (E1 : Z.land src 1 = b2z (Z.testbit src 0)) by apply (land_one src 0 ltac:(lia)).
  eapply encodes_at; [by destruct ot| |done]. cbn [fst]. unfold compute_all_sar.
  rewrite E1, vf_flag by lia. apply (lor6_word r d _ _ false); [done..|].
  by rewrite Z.lxor_spec, msb_testbit, <- (testbit_low ot r), <- E, testbit_low by lia.
Qed.

Lemma enc_mul src r : let c := negb (src =? 0) in
  encodes (CC_OP_MULB + SHIFT ot) src r (mkStatus c (even_parity r) false (low ot r =? 0) (msb ot r) c).
Proof.
  intros c. eapply encodes_at; [by destruct ot| |done]. cbn [fst]. unfold compute_all_mul.
  rewrite shl11. by apply (lor6_word r r _ _ false).
Qed.
End Table.

(** Explicit flags: any word of the six bits. *)
Definition status_of (e : Z) : status :=
  mkStatus (Z.testbit e 0) (Z.testbit e 2) (Z.testbit e 4) (Z.testbit e 6) (Z.testbit e 7) (Z.testbit e 11).

Lemma land_oszapc e : Z.land e CC_OSZAPC = word (status_of e).
Proof.
  change CC_OSZAPC with (Z.lor (Z.lor (Z.lor (Z.lor (Z.lor (2 ^ 0) (2 ^ 2)) (2 ^ 4)) (2 ^ 6)) (2 ^ 7)) (2 ^ 11)).
  by rewrite !Z.land_lor_distr_r, !land_pow2 by lia.
Qed.

Lemma enc_eflags dst t : encodes CC_OP_EFLAGS (word t) dst t.
Proof. destruct t as [[] [] [] [] [] []]; by eapply encodes_at. Qed.

(** ** The bits of shifts and rotations *)

Section Shifts.
Context (ot : size).
Notation w := (DATA_BITS ot).

Lemma land31 y : Z.land y SHIFT1_MASK = y mod 32.
Proof. by apply (Z.land_ones y 5). Qed.

Lemma land_shift_mask y : Z.land y (SHIFT_MASK ot) = y mod w.
Proof. destruct ot; [by apply (Z.land_ones y 3)|by apply (Z.land_ones y 4)|by apply (Z.land_ones y 5)]. Qed.

(** The tables are remainders, and so is a count that is never 33. *)
Lemma rc_count_spec y : rc_count ot y = y mod 32 mod (w + 1).
Proof.
  unfold rc_count. rewrite land31. pose proof (Z.mod_pos_bound y 32 ltac:(lia)) as Hn.
  assert (H : all_below 32 (fun n => (nth (Z.to_nat n) rclw_table 0 =? n mod 17) &&
    (nth (Z.to_nat n) rclb_table 0 =? n mod 9) && (n mod 33 =? n)) = true) by reflexivity.
  pose proof (all_below_spec 32 _ H (y mod 32) ltac:(lia)) as Hb.
  rewrite !andb_true_iff, !Z.eqb_eq in Hb. by destruct ot; intuition.
Qed.

Lemma low_ext a b : (forall i, 0 <= i < w -> Z.testbit a i = Z.testbit b i) -> low ot a = low ot b.
Proof.
  intros H. pose proof (bits_range ot). apply Z.bits_inj'. intros i Hi. unfold low.
  destruct (decide (i < w)); [by rewrite !testbit_mod, H by lia|by rewrite !Z.mod_pow2_bits_high by lia].
Qed.

Lemma testbit_low_high x k : w <= k -> Z.testbit (low ot x) k = false.
Proof. intros Hk. pose proof (bits_range ot). apply Z.mod_pow2_bits_high. lia. Qed.

Lemma testbit_rotate k x m i : 0 <= m <= k -> 0 <= i < k ->
  Z.testbit (rotate k x m) i = Z.testbit x (if i <? m then i + k - m else i - m).
Proof.
  intros Hm Hi. unfold rotate. set (a := x mod 2 ^ k).
  assert (Ha : 0 <= a < 2 ^ k) by (apply Z.mod_pos_bound; lia).
  assert (Hs : a / 2 ^ (k - m) < 2 ^ m).
  { apply Z.div_lt_upper_bound; [lia|]. rewrite <- Z.pow_add_r by lia. replace (k - m + m) with k by lia. lia. }
  assert (Hd : 0 <= a / 2 ^ (k - m)) by (apply Z.div_pos; lia).
  set (q := a / 2 ^ (k - m)) in *. rewrite (testbit_mod k) by done.
  assert (Hx : forall j, 0 <= j < k -> Z.testbit x j = Z.testbit a j) by (intros j Hj; symmetry; by apply testbit_mod).
  destruct (Z.ltb_spec i m) as [L|L].
  - rewrite <- (testbit_mod m), Z.add_comm, Z.mod_add, testbit_mod by lia.
    unfold q. rewrite Z.div_pow2_bits, Hx by lia. f_equal. lia.
  - rewrite Hx by lia. replace i with ((i - m) + m) at 1 by lia. rewrite <- Z.div_pow2_bits by lia.
    rewrite Z.add_comm, Z.div_add, (Z.div_small q) by lia. done.
Qed.
Lemma low_rotate x m : low ot (rotate w x m) = rotate w x m.
Proof. apply low_low. Qed.

(** T0 after each rotation. *)
Lemma rol_bits x m : 0 <= m < w ->
  low ot (Z.lor (u32 (Z.shiftl (low ot x) m)) (Z.shiftr (low ot x) (w - m))) = rotate w x m.
Proof.
  intros Hm. pose proof (bits_range ot). rewrite <- low_rotate. apply low_ext. intros i Hi.
  rewrite Z.lor_spec, testbit_u32, Z.shiftl_spec, Z.shiftr_spec, testbit_rotate by lia.
  destruct (Z.ltb_spec i m).
  - rewrite Z.testbit_neg_r, testbit_low by lia. cbn. f_equal. lia.
  - by rewrite (testbit_low_high x (i + (w - m))), orb_false_r, testbit_low by lia.
Qed.

Lemma ror_bits x m : 0 <= m < w ->
  low ot (Z.lor (Z.shiftr (low ot x) m) (u32 (Z.shiftl (low ot x) (w - m)))) = rotate w x (w - m).
Proof.
  intros Hm. pose proof (bits_range ot). rewrite <- low_rotate. apply low_ext. intros i Hi.
  rewrite Z.lor_spec, testbit_u32, Z.shiftl_spec, Z.shiftr_spec, testbit_rotate by lia.
  destruct (Z.ltb_spec i (w - m)).
  - rewrite (Z.testbit_neg_r _ (i - (w - m))), orb_false_r, testbit_low by lia. f_equal. lia.
  - by rewrite (testbit_low_high x (i + m)), testbit_low by lia.
Qed.

(** The low bits with the carry above them. *)
Definition with_top (x : Z) (c : bool) : Z := low ot x + b2z c * 2 ^ w.

Lemma testbit_with_top x c i : 0 <= i <= w ->
  Z.testbit (with_top x c) i = if i =? w then c else Z.testbit x i.
Proof.
  intros Hi. pose proof (bits_range ot). pose proof (low_range ot x). unfold with_top.
  destruct (Z.eqb_spec i w) as [->|].
  - rewrite testbit_odd, Z.div_add, (Z.div_small (low ot x)) by lia. by destruct c.
  - by rewrite <- (testbit_mod w), Z.mod_add, testbit_mod, testbit_low by lia.
Qed.

Lemma testbit_shl_b2z c k i : 0 <= k -> 0 <= i -> Z.testbit (Z.shiftl (b2z c) k) i = (c && (i =? k)).
Proof.
  intros Hk Hi. rewrite Z.shiftl_spec by done. destruct c; cbn [b2z andb].
  - change 1 with (2 ^ 0). destruct (Z.eqb_spec i k) as [->|]; [by rewrite Z.sub_diag|].
    by rewrite Z.pow2_bits_false by lia.
  - apply Z.bits_0.
Qed.

Definition rcl_result (x m : Z) (c : bool) : Z :=
  let res := Z.lor (u32 (Z.shiftl (low ot x) m)) (u32 (Z.shiftl (b2z c) (m - 1))) in
  if 1 <? m then Z.lor res (Z.shiftr (low ot x) (w + 1 - m)) else res.
Definition rcr_result (x m : Z) (c : bool) : Z :=
  let res := Z.lor (Z.shiftr (low ot x) m) (u32 (Z.shiftl (b2z c) (w - m))) in
  if 1 <? m then Z.lor res (u32 (Z.shiftl (low ot x) (w + 1 - m))) else res.

Lemma rcl_bits x m c : 1 <= m <= w ->
  low ot (rcl_result x m c) = low ot (rotate (w + 1) (with_top x c) m).
Proof.
  intros Hm. pose proof (bits_range ot). apply low_ext. intros i Hi.
  rewrite testbit_rotate by lia. unfold rcl_result.
  transitivity (Z.testbit (low ot x) (i - m) || (c && (i =? m - 1)) || ((1 <? m) && Z.testbit (low ot x) (i + (w + 1 - m)))).
  { destruct (1 <? m); rewrite !Z.lor_spec, !testbit_u32, testbit_shl_b2z, Z.shiftl_spec, ?Z.shiftr_spec by lia;
      [done|by rewrite orb_false_r]. }
  destruct (Z.ltb_spec i m) as [L|L].
  - rewrite Z.testbit_neg_r, testbit_with_top by lia. destruct (Z.eqb_spec i (m - 1)) as [->|].
    + rewrite (proj2 (Z.eqb_eq _ _)), (testbit_low_high x) by lia. by rewrite andb_false_r, orb_false_r, andb_true_r.
    + rewrite (proj2 (Z.eqb_neq _ _)), (proj2 (Z.ltb_lt 1 m)), andb_false_r, testbit_low by lia. cbn. f_equal. lia.
  - rewrite testbit_with_top, !(proj2 (Z.eqb_neq _ _)), testbit_low, (testbit_low_high x) by lia.
    by rewrite !andb_false_r, !orb_false_r.
Qed.

Lemma rcr_bits x m c : 1 <= m <= w ->
  low ot (rcr_result x m c) = low ot (rotate (w + 1) (with_top x c) (w + 1 - m)).
Proof.
  intros Hm. pose proof (bits_range ot). apply low_ext. intros i Hi.
  rewrite testbit_rotate by lia. unfold rcr_result.
  transitivity (Z.testbit (low ot x) (i + m) || (c && (i =? w - m)) || ((1 <? m) && Z.testbit (low ot x) (i - (w + 1 - m)))).
  { destruct (1 <? m); rewrite !Z.lor_spec, !testbit_u32, testbit_shl_b2z, Z.shiftr_spec, ?Z.shiftl_spec by lia;
      [done|by rewrite orb_false_r]. }
  destruct (Z.ltb_spec i (w + 1 - m)) as [L|L].
  - rewrite (Z.testbit_neg_r _ (i - _)), testbit_with_top, andb_false_r, orb_false_r by lia.
    destruct (Z.eqb_spec i (w - m)) as [->|].
    + rewrite (proj2 (Z.eqb_eq _ _)), (testbit_low_high x) by lia. by rewrite andb_true_r.
    + rewrite (proj2 (Z.eqb_neq _ _)), testbit_low, andb_false_r, orb_false_r by lia. f_equal. lia.
  - rewrite testbit_with_top, !(proj2 (Z.eqb_neq _ _)), (testbit_low_high x (i + m)), testbit_low by lia.
    by rewrite (proj2 (Z.ltb_lt 1 m)), andb_false_r by lia.
Qed.

(** The bit rotated into the carry. *)
Lemma rotate_top V m : 0 <= m <= w + 1 -> Z.odd (rotate (w + 1) V m / 2 ^ w) =
  Z.testbit V (if w <? m then w + (w + 1) - m else w - m).
Proof. intros Hm. pose proof (bits_range ot). by rewrite <- testbit_odd, testbit_rotate by lia. Qed.

Lemma odd_bit0 x : Z.odd x = Z.testbit x 0.
Proof. by rewrite Z.bit0_odd. Qed.

Lemma msb_twice r : msb ot (2 * r) = Z.testbit r (w - 2).
Proof.
  pose proof (bits_range ot). rewrite msb_testbit. replace (2 * r) with (r * 2 ^ 1) by lia.
  rewrite Z.mul_pow2_bits by lia. f_equal. lia.
Qed.
End Shifts.

(** A half of a register replaced. *)
Lemma set_half a b : Z.lor (Z.land a (Z.lnot 0xffff)) (Z.land b 0xffff) = a / 2 ^ 16 * 2 ^ 16 + b mod 2 ^ 16.
Proof.
  change 0xffff with (Z.ones 16). rewrite (Z.land_ones b), <- Z.ldiff_land, Z.ldiff_ones_r by lia.
  rewrite Z.shiftl_mul_pow2, Z.shiftr_div_pow2 by lia.
  assert (E : Z.land (a / 2 ^ 16 * 2 ^ 16) (b mod 2 ^ 16) = 0).
  { apply Z.bits_inj'. intros i Hi. rewrite Z.land_spec, Z.bits_0, Z.mul_pow2_bits by lia.
    destruct (Z.lt_ge_cases i 16); [by rewrite Z.testbit_neg_r by lia|by rewrite Z.mod_pow2_bits_high, andb_false_r by lia]. }
  pose proof (Z.add_lor_land (a / 2 ^ 16 * 2 ^ 16) (b mod 2 ^ 16)). lia.
Qed.

Lemma fits_signed ot z : fits ot z = (z =? signed ot z).
Proof.
  destruct (pow_split ot) as [E Hp]. pose proof (low_range ot z). unfold fits, signed.
  assert (Hq : exists q, z = low ot z + q * 2 ^ DATA_BITS ot).
  { exists (z / 2 ^ DATA_BITS ot). unfold low. pose proof (Z.div_mod z (2 ^ DATA_BITS ot) ltac:(lia)). lia. }
  destruct Hq as [q Hq]. generalize dependent (low ot z). intros l Hl Hq.
  apply eq_true_iff_eq. rewrite andb_true_iff, Z.leb_le, Z.ltb_lt, Z.eqb_eq.
  rewrite E in *. generalize dependent (2 ^ (DATA_BITS ot - 1)). intros h _ Hh Hl ->.
  assert (Hc : q = -1 \/ q = 0 \/ q * (2 * h) <= - (4 * h) \/ 2 * h <= q * (2 * h)).
  { destruct (Z.eq_dec q 0), (Z.eq_dec q (-1)), (Z.lt_ge_cases q 0); auto; right; right; [left|right]; nia. }
  destruct (Z.leb_spec h l), Hc as [-> | [-> | [|]]]; lia.
Qed.

End FlagsTable.
