(* ===== verification/FlagsSim.v ===== *)
(** * The lazy flags are those of the manual

    The simulation between the reference machine of [FlagsSpec] and the translated code of
    [Flags]: the six flags the table computes from CC_SRC, CC_DST and CC_OP are those of
    the last instructions, whether the translator knows CC_OP or not. *)

From S2P Require Import Prelude Flags FlagsSpec FlagsTable.
Import Flags FlagsSpec FlagsTable.

Module FlagsSim.

(** ** The simulation *)

Lemma status_of_word t : status_of (word t) = t.
Proof. by destruct t as [[] [] [] [] [] []]. Qed.

Lemma encodes_det op src dst t t' : encodes op src dst t -> encodes op src dst t' -> t = t'.
Proof.
  intros (F & E & Ew & _) (F' & E' & Ew' & _). rewrite E in E'. injection E' as <-.
  by rewrite <- (status_of_word t), <- Ew, Ew', status_of_word.
Qed.

(** A flag that is defined has its value in the status. *)
Definition ok (o : option bool) (b : bool) : Prop := from_option (fun c => c = b) True o.
Definition agrees (f : flags) (t : status) : Prop :=
  ok (CF f) (sC t) /\ ok (PF f) (sP t) /\ ok (AF f) (sA t) /\ ok (ZF f) (sZ t) /\ ok (SF f) (sS t) /\ ok (OF f) (sV t).

Lemma ok_some o b c : ok o b -> o = Some c -> c = b.
Proof. intros H E. by rewrite E in H. Qed.

(** What CC_OP is, or will be when the translator stores it. *)
Definition cur_op (s : cc) : Z := if s_cc_op s =? CC_OP_DYNAMIC then CC_OP s else s_cc_op s.

Lemma cur_sync s : CC_OP (sync_cc_op s) = cur_op s.
Proof. unfold sync_cc_op, cur_op. by destruct (_ =? _). Qed.
Lemma sync_frame s : T0 (sync_cc_op s) = T0 s /\ T1 (sync_cc_op s) = T1 s /\ CC_SRC (sync_cc_op s) = CC_SRC s /\
  CC_DST (sync_cc_op s) = CC_DST s /\ DF (sync_cc_op s) = DF s /\ eflags (sync_cc_op s) = eflags s.
Proof. unfold sync_cc_op. by destruct (negb _). Qed.

(** The lazy flags of [s] are [t]. *)
Definition lazy (s : cc) (t : status) : Prop := encodes (cur_op s) (CC_SRC s) (CC_DST s) t.

Lemma lazy_all s t : encodes (CC_OP s) (CC_SRC s) (CC_DST s) t ->
  compute_all s = Some (word t) /\ compute_c s = Some (b2z (sC t)).
Proof. intros (F & E & Ew & Ec). unfold compute_all, compute_c. rewrite E. cbn. by rewrite Ew, Ec. Qed.

Lemma lazy_sync s t : lazy s t -> encodes (CC_OP (sync_cc_op s)) (CC_SRC (sync_cc_op s)) (CC_DST (sync_cc_op s)) t.
Proof. unfold lazy. rewrite cur_sync. by destruct (sync_frame s) as (_ & _ & -> & -> & _). Qed.

(** The registers other than the flags. *)
Definition rest_ok (a : arch) (s : cc) : Prop := DF s = (if df a then -1 else 1) /\ eflags s = sys a.
Definition sim (a : arch) (s : cc) : Prop := exists t, lazy s t /\ agrees (fl a) t /\ rest_ok a s.

(** [i] is simulated from every state. *)
Definition simulated (i : instr) : Prop := forall a s o a', sim a s -> astep i a = Some (o, a') ->
  exists s', cstep i s = Some (o, s') /\ sim a' s'.

Lemma rest_sync a s : rest_ok a s -> rest_ok a (sync_cc_op s).
Proof. unfold rest_ok. by destruct (sync_frame s) as (_ & _ & _ & _ & -> & ->). Qed.

(** An instruction that leaves the other registers: its results and its new flags. *)
Lemma simulated_by i (r : arch -> option (list Z * flags)) :
  (forall a, astep i a = with_flags (r a) a) ->
  (forall a s t o f, lazy s t -> agrees (fl a) t -> r a = Some (o, f) ->
    exists s' t', cstep i s = Some (o, s') /\ lazy s' t' /\ agrees f t' /\ DF s' = DF s /\ eflags s' = eflags s) ->
  simulated i.
Proof.
  intros Hi Hr a s o a' (t & Ht & Ha & Hd & He) E. rewrite Hi in E. unfold with_flags in E.
  destruct (r a) as [[o1 f]|] eqn:Er; [|done]. injection E as <- <-.
  destruct (Hr a s t o1 f Ht Ha Er) as (s' & t' & Es & Ht' & Ha' & Hd' & He').
  exists s'. split; [done|]. exists t'. split; [done|]. split; [done|]. split; cbn; congruence.
Qed.

Lemma agrees_add ot x y c : agrees (add_flags ot x y c) (add_status ot x y c).
Proof. by repeat split. Qed.
Lemma agrees_sub ot x y c : agrees (sub_flags ot x y c) (sub_status ot x y c).
Proof. by repeat split. Qed.
Lemma agrees_logic ot r : agrees (logic_flags ot r)
  (mkStatus false (even_parity r) false (low ot r =? 0) (msb ot r) false).
Proof. by repeat split. Qed.

(** CC_OP is one the translator knows, so not [CC_OP_DYNAMIC]. *)
Lemma lazy_static s op t : s_cc_op s = op -> 0 < op -> encodes op (CC_SRC s) (CC_DST s) t -> lazy s t.
Proof.
  intros E Hop H. unfold lazy, cur_op. rewrite E, (proj2 (Z.eqb_neq _ _)); [done|]. unfold CC_OP_DYNAMIC. lia.
Qed.
Lemma lazy_dynamic s t : s_cc_op s = CC_OP_DYNAMIC -> encodes (CC_OP s) (CC_SRC s) (CC_DST s) t -> lazy s t.
Proof. intros E H. unfold lazy, cur_op. by rewrite E. Qed.

Ltac static E := eapply lazy_static; [reflexivity|cbn; lazymatch goal with |- context [SHIFT ?o] => by destruct o end|apply E].

(** The end of a step: what it gives, its flags, and that the rest is left. *)
Lemma finish (s s' : cc) (o o' : list Z) f t' : o' = o -> lazy s' t' -> agrees f t' ->
  DF s' = DF s -> eflags s' = eflags s ->
  exists s1 t1, Some (o', s') = Some (o, s1) /\ lazy s1 t1 /\ agrees f t1 /\ DF s1 = DF s /\ eflags s1 = eflags s.
Proof. intros ->. by exists s', t'. Qed.

(** The state with its operands loaded and CC_OP stored. *)
Lemma loaded x y s t : lazy s t -> exists s1, sync_cc_op (load x y s) = s1 /\
  compute_all s1 = Some (word t) /\ compute_c s1 = Some (b2z (sC t)) /\
  T0 s1 = x /\ T1 s1 = y /\ DF s1 = DF s /\ eflags s1 = eflags s.
Proof.
  intros Ht. assert (H : lazy (load x y s) t) by exact Ht.
  destruct (lazy_all _ _ (lazy_sync _ _ H)) as [Ha Hc], (sync_frame (load x y s)) as (E0 & E1 & _ & _ & Ed & Ee).
  eexists. split; [reflexivity|]. by rewrite E0, E1, Ed, Ee.
Qed.

Lemma eqm_mod n a b : (n | 2 ^ 32) -> eqm a b -> a mod n = b mod n.
Proof. intros H E. by rewrite <- (Z.mod_mod_divide a _ _ H), E, Z.mod_mod_divide. Qed.

Lemma sub_status_eqm ot x y y' c : eqm y y' -> sub_status ot x y c = sub_status ot x y' c.
Proof.
  intros E. assert (E' : eqm (x - y - c) (x - y' - c)) by by rewrite E. unfold sub_status, signed, msb.
  rewrite (low_eqm ot _ _ E), (low_eqm ot _ _ E'), (parity_low _ (x - y' - c)), (eqm_mod 16 y y'); try done.
  - by exists (2 ^ 28).
  - by apply (eqm_mod (2 ^ 8)); [exists (2 ^ 24)|].
Qed.

Section Steps.
Context (ot : size).

Lemma result_eqm z r : eqm z r -> [DATA_TYPE ot z] = [low ot r].
Proof. intros E. by rewrite (data_eqm ot _ _ E). Qed.

Lemma adc_ok x y : simulated (Alu OP_ADCL ot x y).
Proof.
  apply (simulated_by _ (fun a => alu_spec ot OP_ADCL x y (fl a))); [done|].
  intros a s t o f Ht Ha E. cbn [alu_spec] in E.
  destruct (CF (fl a)) as [c|] eqn:Ec; [|done]. injection E as <- <-.
  rewrite (ok_some _ _ _ (proj1 Ha) Ec).
  destruct (loaded x y s t Ht) as (s1 & Es & _ & Hc & E0 & E1 & Ed & Ee).
  cbn [cstep gen_op]. rewrite Es. unfold op_adc_T0_T1_cc. rewrite Hc. cbn [mbind option_bind].
  eapply finish; [apply result_eqm; cbn; rewrite E0, E1; apply u32_eqm| |apply agrees_add|by cbn|by cbn].
  apply lazy_dynamic; [done|]. cbn. rewrite E0, E1. destruct (sC t); cbn [b2z].
  - apply enc_adc, u32_eqm.
  - rewrite !Z.add_0_r. apply enc_add, u32_eqm.
Qed.

Lemma sbb_ok x y : simulated (Alu OP_SBBL ot x y).
Proof.
  apply (simulated_by _ (fun a => alu_spec ot OP_SBBL x y (fl a))); [done|].
  intros a s t o f Ht Ha E. cbn [alu_spec] in E.
  destruct (CF (fl a)) as [c|] eqn:Ec; [|done]. injection E as <- <-.
  rewrite (ok_some _ _ _ (proj1 Ha) Ec).
  destruct (loaded x y s t Ht) as (s1 & Es & _ & Hc & E0 & E1 & Ed & Ee).
  cbn [cstep gen_op]. rewrite Es. unfold op_sbb_T0_T1_cc. rewrite Hc. cbn [mbind option_bind].
  eapply finish; [apply result_eqm; cbn; rewrite E0, E1; apply u32_eqm| |apply agrees_sub|by cbn|by cbn].
  apply lazy_dynamic; [done|]. cbn. rewrite E0, E1. destruct (sC t); cbn [b2z].
  - apply enc_sbb, u32_eqm.
  - rewrite Z.add_0_r, Z.sub_0_r. apply enc_sub, u32_eqm.
Qed.

Lemma alu_ok op x y : simulated (Alu op ot x y).
Proof.
  destruct op; try apply adc_ok; try apply sbb_ok;
    eapply (simulated_by _ (fun a => alu_spec ot _ x y (fl a))); try done;
    intros a s t o f Ht Ha E; injection E as <- <-;
    (eapply finish; [| |first [apply agrees_add|apply agrees_sub|apply agrees_logic]|done|done]).
  - apply result_eqm, u32_eqm.
  - static enc_add. apply u32_eqm.
  - reflexivity.
  - static enc_logic.
  - reflexivity.
  - static enc_logic.
  - apply result_eqm, u32_eqm.
  - static enc_sub. apply u32_eqm.
  - reflexivity.
  - static enc_logic.
  - reflexivity.
  - static enc_sub. apply u32_eqm.
Qed.

Lemma test_ok x y : simulated (Test ot x y).
Proof.
  apply (simulated_by _ (fun a => Some ([], logic_flags ot (Z.land x y)))); [done|].
  intros a s t o f Ht Ha E. injection E as <- <-.
  eapply finish; [reflexivity|static enc_logic|apply agrees_logic|done|done].
Qed.

Lemma neg_ok x : simulated (Neg ot x).
Proof.
  apply (simulated_by _ (fun a => Some ([low ot (- x)], sub_flags ot 0 x 0))); [done|].
  intros a s t o f Ht Ha E. injection E as <- <-.
  eapply finish; [apply result_eqm, u32_eqm| |apply agrees_sub|done|done].
  rewrite <- (sub_status_eqm ot 0 (u32 (- u32 (- x)))).
  - static enc_sub. cbn. rewrite (u32_eqm (- u32 _)), (u32_eqm (- x)). apply eqm_eq. lia.
  - rewrite (u32_eqm (- u32 _)), (u32_eqm (- x)). apply eqm_eq. lia.
Qed.

Lemma agrees_with_carry f g t t' : agrees f t -> agrees g t' -> agrees (g <| CF := CF f |>) (with_carry (sC t) t').
Proof. intros [H _] (_ & H'). by split. Qed.

Lemma inc_ok x : simulated (Inc ot x).
Proof.
  apply (simulated_by _ (fun a => Some ([low ot (x + 1)], (add_flags ot x 1 0) <| CF := CF (fl a) |>))); [done|].
  intros a s t o f Ht Ha E. injection E as <- <-.
  destruct (loaded x 0 s t Ht) as (s1 & Es & _ & Hc & E0 & _ & Ed & Ee).
  cbn [cstep]. unfold gen_inc. rewrite Es. cbn -[compute_c]. unfold op_update_inc_cc.
  replace (compute_c _) with (compute_c s1) by done. rewrite Hc. cbn -[low add_flags].
  eapply finish; [apply result_eqm; cbn; rewrite E0; apply u32_eqm| |apply agrees_with_carry, agrees_add; exact Ha|done|done].
  static enc_inc. cbn. rewrite E0. apply u32_eqm.
Qed.

Lemma dec_ok x : simulated (Dec ot x).
Proof.
  apply (simulated_by _ (fun a => Some ([low ot (x - 1)], (sub_flags ot x 1 0) <| CF := CF (fl a) |>))); [done|].
  intros a s t o f Ht Ha E. injection E as <- <-.
  destruct (loaded x 0 s t Ht) as (s1 & Es & _ & Hc & E0 & _ & Ed & Ee).
  cbn [cstep]. unfold gen_inc. rewrite Es. cbn -[compute_c]. unfold op_update_inc_cc.
  replace (compute_c _) with (compute_c s1) by done. rewrite Hc. cbn -[low sub_flags].
  eapply finish; [apply result_eqm; cbn; rewrite E0; apply u32_eqm| |apply agrees_with_carry, agrees_sub; exact Ha|done|done].
  static enc_dec. cbn. rewrite E0. apply u32_eqm.
Qed.

(** ** Shifts *)

Lemma shl_low x n : 0 <= n -> low ot (u32 (Z.shiftl x n)) = low ot (low ot x * 2 ^ n).
Proof.
  intros Hn. rewrite low_u32, Z.shiftl_mul_pow2 by done. unfold low.
  rewrite Z.mul_mod_idemp_l; [done|]. pose proof (pow_split ot). lia.
Qed.

(** A flag that is defined for some counts only. *)
Lemma ok_one n b c : (n = 1 -> b = c) -> ok (for_one n b) c.
Proof. unfold for_one. destruct (Z.eqb_spec n 1); cbn; auto. Qed.
Lemma ok_width n b c : (n <= DATA_BITS ot -> b = c) -> ok (for_width ot n b) c.
Proof. unfold for_width. destruct (Z.leb_spec n (DATA_BITS ot)); cbn; auto. Qed.

Lemma agrees_szp r c cb v vb : ok c cb -> ok v vb ->
  agrees (szp ot r c None v) (mkStatus cb (even_parity r) false (low ot r =? 0) (msb ot r) vb).
Proof. by repeat split. Qed.

(** A shift by zero leaves everything. *)
Lemma gen_shift_zero op x y s t : y mod 32 = 0 -> lazy s t ->
  exists s', gen_shift op ot (load x y s) = Some s' /\ T0 s' = x /\ lazy s' t /\ DF s' = DF s /\ eflags s' = eflags s.
Proof.
  intros Hy Ht. destruct (loaded x y s t Ht) as (s1 & Es & _ & _ & E0 & E1 & Ed & Ee).
  assert (Hl : lazy (s1 <| s_cc_op := CC_OP_DYNAMIC |>) t).
  { apply lazy_dynamic; [done|]. cbn. rewrite <- Es. by apply (lazy_sync (load x y s)). }
  assert (H : gen_op_shift_T0_T1_cc op ot s1 = Some s1).
  { assert (Hc : rc_count ot (T1 s1) = 0) by by rewrite rc_count_spec, E1, Hy.
    destruct op; cbn; unfold op_rol_T0_T1_cc, op_ror_T0_T1_cc, op_rcl_T0_T1_cc, op_rcr_T0_T1_cc,
      op_shl_T0_T1_cc, op_shr_T0_T1_cc, op_sar_T0_T1_cc, has; rewrite ?Hc, ?land31, ?E1, ?Hy; done. }
  unfold gen_shift. rewrite Es, H. cbn [mbind option_bind]. eexists. by split.
Qed.

(** The other shifts: it is enough to follow the micro operation. *)
Lemma shift_by op x y :
  (forall s1 t f r g, y mod 32 <> 0 -> encodes (CC_OP s1) (CC_SRC s1) (CC_DST s1) t -> T0 s1 = x -> T1 s1 = y -> agrees f t ->
    shift_spec ot op x y f = Some (r, g) ->
    exists s2 t', gen_op_shift_T0_T1_cc op ot s1 = Some s2 /\ low ot (T0 s2) = r /\
      encodes (CC_OP s2) (CC_SRC s2) (CC_DST s2) t' /\ agrees g t' /\ DF s2 = DF s1 /\ eflags s2 = eflags s1) ->
  simulated (Shift op ot x y).
Proof.
  intros H. apply (simulated_by _ (fun a => '(r, f) ← shift_spec ot op x y (fl a); Some ([r], f))).
  { intros a. cbn. unfold with_flags. by destruct (shift_spec ot op x y (fl a)) as [[??]|]. }
  intros a s t o f Ht Ha E. cbn [cstep]. destruct (Z.eqb_spec (y mod 32) 0) as [Hy|Hy].
  - unfold shift_spec in E. rewrite Hy in E. injection E as <- <-.
    destruct (gen_shift_zero op x y s t Hy Ht) as (s' & -> & E0 & Hl & Ed & Ee).
    cbn [mbind option_bind]. eapply finish; [by rewrite E0|exact Hl|done|done|done].
  - destruct (shift_spec ot op x y (fl a)) as [[r g]|] eqn:Er; [|done]. injection E as <- <-.
    destruct (loaded x y s t Ht) as (s1 & Es & _ & _ & E0 & E1 & Ed & Ee).
    assert (Henc : encodes (CC_OP s1) (CC_SRC s1) (CC_DST s1) t) by (rewrite <- Es; by apply (lazy_sync (load x y s))).
    destruct (H s1 t (fl a) r g Hy Henc E0 E1 Ha Er) as (s2 & t' & E2 & Hr & He & Hg & Ed2 & Ee2).
    unfold gen_shift. rewrite Es, E2. cbn [mbind option_bind].
    eapply finish; [unfold result; cbn; by rewrite data_type, Hr|by apply lazy_dynamic|exact Hg|cbn; congruence|cbn; congruence].
Qed.

Lemma shift_count y : y mod 32 <> 0 -> negb (Z.land y SHIFT1_MASK =? 0) = true /\ 1 <= y mod 32 < 32.
Proof.
  intros Hy. rewrite land31. pose proof (Z.mod_pos_bound y 32 ltac:(lia)).
  rewrite (proj2 (Z.eqb_neq _ _)) by done. split; [done|lia].
Qed.

Ltac spec E Hy := unfold shift_spec in E; rewrite (proj2 (Z.eqb_neq _ _) Hy) in E.

Lemma shl_ok op x y : op = OP_SHL \/ op = OP_SHL1 -> simulated (Shift op ot x y).
Proof.
  intros Hop. apply shift_by. intros s1 t f r g Hy _ E0 E1 _ E. destruct (shift_count y Hy) as [Hc Hn].
  assert (Er : low ot (low ot x * 2 ^ (y mod 32)) = r /\ g = szp ot (low ot x * 2 ^ (y mod 32))
    (for_width ot (y mod 32) (Z.odd (low ot x * 2 ^ (y mod 32) / 2 ^ DATA_BITS ot))) None
    (for_one (y mod 32) (xorb (msb ot (low ot x * 2 ^ (y mod 32))) (Z.odd (low ot x * 2 ^ (y mod 32) / 2 ^ DATA_BITS ot))))).
  { spec E Hy. by destruct Hop as [-> | ->]; injection E as <- <-. }
  destruct Er as [<- ->]. clear E. pose proof (bits_range ot).
  assert (Ec : forall z, Z.odd (low ot z * 2 ^ (y mod 32) / 2 ^ DATA_BITS ot) = Z.testbit (low ot z) (DATA_BITS ot - y mod 32)).
  { intros z. by rewrite <- testbit_odd, Z.mul_pow2_bits by lia. }
  assert (Hs : Z.testbit (u32 (Z.shiftl (low ot x) (y mod 32 - 1))) (DATA_BITS ot - 1) =
    Z.testbit (low ot x) (DATA_BITS ot - y mod 32)).
  { rewrite testbit_u32, Z.shiftl_spec by lia. f_equal. lia. }
  exists (op_shl_T0_T1_cc ot s1). eexists. unfold op_shl_T0_T1_cc. rewrite E1, Hc, land31, E0. cbn -[low].
  change (DATA_TYPE ot x) with (low ot x).
  split; [by destruct Hop as [-> | ->]; unfold gen_op_shift_T0_T1_cc, op_shl_T0_T1_cc; rewrite E1, Hc, land31, E0|].
  split; [apply shl_low; lia|]. split; [apply enc_shl, shl_low; lia|].
  split; [apply agrees_szp|done].
  - apply ok_width. intros _. by rewrite Ec, Hs.
  - apply ok_one. intros _. rewrite Ec, Hs. apply xorb_comm.
Qed.

Lemma shr_ok x y : simulated (Shift OP_SHR ot x y).
Proof.
  apply shift_by. intros s1 t f r g Hy _ E0 E1 _ E. destruct (shift_count y Hy) as [Hc Hn].
  spec E Hy. injection E as <- <-. pose proof (bits_range ot). pose proof (low_range ot x).
  eexists _, _. split; [reflexivity|]. unfold op_shr_T0_T1_cc. rewrite E1, Hc, land31, E0. cbn -[low].
  rewrite land_data_mask, Z.shiftr_div_pow2 by lia.
  assert (Hr : 0 <= low ot x / 2 ^ (y mod 32) < 2 ^ (DATA_BITS ot - 1)).
  { split; [apply Z.div_pos; lia|]. apply Z.div_lt_upper_bound; [lia|]. destruct (pow_split ot) as [Ep Hp].
    assert (2 ^ 1 <= 2 ^ (y mod 32)) by (apply Z.pow_le_mono_r; lia). nia. }
  assert (Hm : msb ot (low ot x / 2 ^ (y mod 32)) = false).
  { unfold msb. unfold low at 1. destruct (pow_split ot). rewrite Z.mod_small by lia. apply Z.leb_gt. lia. }
  split; [unfold low at 1; destruct (pow_split ot); rewrite Z.mod_small by lia; done|].
  split; [by apply enc_sar|]. split; [apply agrees_szp|done].
  - apply ok_width. intros _. by rewrite odd_bit0, Z.shiftr_div_pow2 by lia.
  - apply ok_one. intros Hn1. rewrite Hm, Hn1, Z.shiftr_0_r, xorb_false_r, msb_testbit, testbit_low by lia. done.
Qed.

(** Above its width the signed value repeats the sign. *)
Lemma signed_sign x : Z.testbit (signed ot x) (DATA_BITS ot) = Z.testbit (signed ot x) (DATA_BITS ot - 1).
Proof.
  pose proof (bits_range ot). destruct (pow_split ot) as [Ep Hp].
  assert (Hs : - 2 ^ (DATA_BITS ot - 1) <= signed ot x < 2 ^ (DATA_BITS ot - 1)).
  { rewrite signed_split. pose proof (Z.mod_pos_bound x (2 ^ (DATA_BITS ot - 1)) Hp). destruct (Z.testbit x (DATA_BITS ot - 1)); cbn [b2z]; lia. }
  assert (Hh : forall z k, 0 <= z < 2 ^ (DATA_BITS ot - 1) -> DATA_BITS ot - 1 <= k -> Z.testbit z k = false).
  { intros z k Hz Hk. apply (testbit_high (DATA_BITS ot - 1)); [lia|exact Hz|lia]. }
  destruct (Z.lt_ge_cases (signed ot x) 0).
  - rewrite <- (Z.lnot_involutive (signed ot x)). set (z := Z.lnot (signed ot x)).
    assert (Hz : 0 <= z < 2 ^ (DATA_BITS ot - 1)) by (unfold z, Z.lnot; lia).
    by rewrite !Z.lnot_spec, !(Hh z) by lia.
  - by rewrite !Hh by lia.
Qed.

Lemma sar_ok x y : simulated (Shift OP_SAR ot x y).
Proof.
  apply shift_by. intros s1 t f r g Hy _ E0 E1 _ E. destruct (shift_count y Hy) as [Hc Hn].
  spec E Hy. injection E as <- <-. pose proof (bits_range ot).
  eexists _, _. split; [reflexivity|]. unfold op_sar_T0_T1_cc. rewrite E1, Hc, land31, E0, data_stype. cbn -[low].
  rewrite (Z.shiftr_div_pow2 _ (y mod 32)) by lia.
  split; [apply low_u32|]. split; [by apply enc_sar, low_u32|]. split; [apply agrees_szp|done].
  - apply ok_width. intros _. by rewrite odd_bit0, testbit_u32, Z.shiftr_div_pow2 by lia.
  - apply ok_one. intros Hn1. rewrite testbit_u32, Hn1, Z.shiftr_0_r, msb_testbit, Z.div_pow2_bits by lia.
    replace (DATA_BITS ot - 1 + 1) with (DATA_BITS ot) by lia. rewrite signed_sign. by destruct (Z.testbit _ _).
Qed.
(** ** Rotations *)

Definition rotated (c v : bool) (t : status) : status := mkStatus c (sP t) (sA t) (sZ t) (sS t) v.

Lemma rot_word t v c :
  Z.lor (Z.lor (Z.land (word t) (Z.lnot (Z.lor CC_O CC_C))) (flag v CC_O)) (b2z c) = word (rotated c v t).
Proof. by destruct t as [[] [] [] [] [] []], v, c. Qed.

Lemma rot_overflow z : Z.land (lshift (s32 z) (11 - (DATA_BITS ot - 1))) CC_O = flag (Z.testbit z (DATA_BITS ot - 1)) CC_O.
Proof. replace (11 - (DATA_BITS ot - 1)) with (12 - DATA_BITS ot) by lia. apply vf_flag. Qed.

Lemma agrees_rotated f t c c' v v' : agrees f t -> ok c c' -> ok v v' ->
  agrees (f <| CF := c |> <| OF := v |>) (rotated c' v' t).
Proof. intros (_ & HP & HA & HZ & HS & _) Hc Hv. by repeat split. Qed.

(** The end of a rotation of a value to [z], with [r] in its low bits. *)
Lemma rotation (s1 s2 : cc) t f r c v cb vb z : agrees f t -> DF s2 = DF s1 -> eflags s2 = eflags s1 -> CC_OP s2 = CC_OP_EFLAGS -> T0 s2 = z ->
  CC_SRC s2 = word (rotated cb vb t) -> low ot z = r -> ok c cb -> ok v vb ->
  exists s3 t', Some s2 = Some s3 /\ low ot (T0 s3) = r /\ encodes (CC_OP s3) (CC_SRC s3) (CC_DST s3) t' /\
    agrees (f <| CF := c |> <| OF := v |>) t' /\ DF s3 = DF s1 /\ eflags s3 = eflags s1.
Proof.
  intros Hf Ed Ee Eop E0 Es Hr Hc Hv. exists s2, (rotated cb vb t). rewrite E0, Eop, Es.
  split; [done|]. split; [done|]. split; [apply enc_eflags|]. split; [by apply agrees_rotated|done].
Qed.

Lemma low_testbit z r : low ot z = low ot r -> forall i, 0 <= i < DATA_BITS ot -> Z.testbit z i = Z.testbit r i.
Proof. intros E i Hi. by rewrite <- (testbit_low ot z), E, testbit_low. Qed.

Lemma rol_ok x y : simulated (Shift OP_ROL ot x y).
Proof.
  apply shift_by. intros s1 t f r g Hy Henc E0 E1 Hf E. destruct (lazy_all _ _ Henc) as [Hall _]. destruct (shift_count y Hy) as [Hc Hn].
  spec E Hy. injection E as <- <-. pose proof (bits_range ot).
  assert (Hm : 0 <= y mod 32 mod DATA_BITS ot < DATA_BITS ot) by (apply Z.mod_pos_bound; lia).
  set (m := y mod 32 mod DATA_BITS ot) in *.
  assert (Em : Z.land y (SHIFT_MASK ot) = m).
  { rewrite land_shift_mask. unfold m. symmetry. apply Z.mod_mod_divide. by destruct ot; [exists 4|exists 2|exists 1]. }
  cbn [gen_op_shift_T0_T1_cc]. unfold op_rol_T0_T1_cc, has, truth. rewrite E1, Hc, Em, E0, land_data_mask.
  set (z := Z.lor (u32 (Z.shiftl (low ot x) m)) (Z.shiftr (low ot x) (DATA_BITS ot - m))).
  pose proof (rol_bits ot x m Hm) as Hz. fold z in Hz.
  assert (Hb := low_testbit z (rotate (DATA_BITS ot) x m) ltac:(by rewrite low_rotate)). clearbody z.
  replace (compute_all _) with (compute_all s1) by done. rewrite Hall. cbn [mbind option_bind].
  eapply (rotation s1 _ t f _ _ _ (Z.testbit z 0) (xorb (Z.testbit x (DATA_BITS ot - 1)) (Z.testbit z (DATA_BITS ot - 1))) z);
    [done|done|done|done|done| |exact Hz| |].
  - cbn. rewrite rot_overflow, Z.lxor_spec.
    replace (Z.land z CC_C) with (b2z (Z.testbit z 0)) by by rewrite <- (land_one z 0), Z.shiftr_0_r by lia.
    apply rot_word.
  - unfold ok. cbn [from_option]. by rewrite odd_bit0, Hb by lia.
  - apply ok_one. intros Hn1. rewrite msb_testbit, odd_bit0, !Hb, !testbit_rotate by lia.
    unfold m in *. rewrite Hn1 in *. rewrite (Z.mod_small 1) in * by lia.
    rewrite (proj2 (Z.ltb_ge (DATA_BITS ot - 1) 1)), (proj2 (Z.ltb_lt 0 1)) by lia.
    rewrite xorb_comm. do 2 f_equal; lia.
Qed.

Lemma ror_ok x y : simulated (Shift OP_ROR ot x y).
Proof.
  apply shift_by. intros s1 t f r g Hy Henc E0 E1 Hf E. destruct (lazy_all _ _ Henc) as [Hall _]. destruct (shift_count y Hy) as [Hc Hn].
  spec E Hy. injection E as <- <-. pose proof (bits_range ot).
  assert (Hm : 0 <= y mod 32 mod DATA_BITS ot < DATA_BITS ot) by (apply Z.mod_pos_bound; lia).
  set (m := y mod 32 mod DATA_BITS ot) in *.
  assert (Em : Z.land y (SHIFT_MASK ot) = m).
  { rewrite land_shift_mask. unfold m. symmetry. apply Z.mod_mod_divide. by destruct ot; [exists 4|exists 2|exists 1]. }
  cbn [gen_op_shift_T0_T1_cc]. unfold op_ror_T0_T1_cc, has, truth. rewrite E1, Hc, Em, E0, land_data_mask.
  set (z := Z.lor (Z.shiftr (low ot x) m) (u32 (Z.shiftl (low ot x) (DATA_BITS ot - m)))).
  pose proof (ror_bits ot x m Hm) as Hz. fold z in Hz.
  assert (Hb := low_testbit z (rotate (DATA_BITS ot) x (DATA_BITS ot - m)) ltac:(by rewrite low_rotate)). clearbody z.
  replace (compute_all _) with (compute_all s1) by done. rewrite Hall. cbn [mbind option_bind].
  eapply (rotation s1 _ t f _ _ _ (Z.testbit z (DATA_BITS ot - 1)) (xorb (Z.testbit x (DATA_BITS ot - 1)) (Z.testbit z (DATA_BITS ot - 1))) z);
    [done|done|done|done|done| |exact Hz| |].
  - cbn. rewrite rot_overflow, Z.lxor_spec. unfold CC_C at 2. rewrite land_one by lia. apply rot_word.
  - unfold ok. cbn [from_option]. by rewrite msb_testbit, Hb by lia.
  - apply ok_one. intros Hn1. rewrite msb_twice, msb_testbit, !Hb, !testbit_rotate by lia.
    unfold m in *. rewrite Hn1 in *. rewrite (Z.mod_small 1) in * by lia.
    rewrite (proj2 (Z.ltb_ge (DATA_BITS ot - 1) _)), (proj2 (Z.ltb_lt (DATA_BITS ot - 2) _)) by lia.
    rewrite xorb_comm. do 2 f_equal; lia.
Qed.
(** A rotation through the carry whose count is a multiple of the width and one. *)
Lemma rotate_none x c : low ot (rotate (DATA_BITS ot + 1) (with_top ot x c) 0) = low ot x /\
  low ot (rotate (DATA_BITS ot + 1) (with_top ot x c) (DATA_BITS ot + 1)) = low ot x.
Proof.
  pose proof (bits_range ot). split; apply low_ext; intros i Hi.
  - rewrite testbit_rotate, (proj2 (Z.ltb_ge i 0)), Z.sub_0_r, testbit_with_top by lia.
    by rewrite (proj2 (Z.eqb_neq _ _)) by lia.
  - rewrite testbit_rotate, (proj2 (Z.ltb_lt i _)), testbit_with_top by lia.
    rewrite (proj2 (Z.eqb_neq _ _)) by lia. f_equal. lia.
Qed.

Lemma with_top_top x c : Z.testbit (with_top ot x c) (DATA_BITS ot) = c.
Proof. pose proof (bits_range ot). by rewrite testbit_with_top, Z.eqb_refl by lia. Qed.
Lemma with_top_low x c i : 0 <= i < DATA_BITS ot -> Z.testbit (with_top ot x c) i = Z.testbit x i.
Proof. intros Hi. by rewrite testbit_with_top, (proj2 (Z.eqb_neq _ _)) by lia. Qed.

Lemma not_rotated s1 t f x c (Hf : agrees f t) : CF f = Some c -> T0 s1 = x ->
  encodes (CC_OP s1) (CC_SRC s1) (CC_DST s1) t ->
  exists s2 t', Some s1 = Some s2 /\ low ot (T0 s2) = low ot x /\ encodes (CC_OP s2) (CC_SRC s2) (CC_DST s2) t' /\
    agrees (f <| CF := Some c |> <| OF := None |>) t' /\ DF s2 = DF s1 /\ eflags s2 = eflags s1.
Proof.
  intros Ec <- He. exists s1, t. destruct Hf as (H1 & H2). rewrite Ec in H1.
  split; [done|]. split; [done|]. split; [done|]. split; [|done]. by split; [|naive_solver].
Qed.

Lemma land_carry t : Z.land (word t) CC_C = b2z (sC t).
Proof. by destruct t as [[] [] [] [] [] []]. Qed.

Lemma rc_range y : let m := y mod 32 mod (DATA_BITS ot + 1) in 0 <= m <= DATA_BITS ot.
Proof.
  cbn. pose proof (bits_range ot). pose proof (Z.mod_pos_bound (y mod 32) (DATA_BITS ot + 1) ltac:(lia)). lia.
Qed.
Lemma rcl_ok x y : simulated (Shift OP_RCL ot x y).
Proof.
  apply shift_by. intros s1 t f r g Hy Henc E0 E1 Hf E. destruct (lazy_all _ _ Henc) as [Hall _].
  destruct (shift_count y Hy) as [Hc Hn]. spec E Hy. destruct (CF f) as [c|] eqn:Ec; [|done].
  injection E as <- <-. pose proof (bits_range ot). pose proof (rc_range y) as Hm. cbn in Hm.
  assert (Et : c = sC t) by apply (ok_some _ _ _ (proj1 Hf) Ec).
  set (m := y mod 32 mod (DATA_BITS ot + 1)) in *. fold (with_top ot x c).
  cbn [gen_op_shift_T0_T1_cc]. unfold op_rcl_T0_T1_cc. rewrite E1, rc_count_spec. fold m.
  rewrite rotate_top, E0, land_data_mask by lia. destruct (Z.eqb_spec m 0) as [Em|Em].
  - rewrite Em. destruct (rotate_none x c) as [-> _].
    rewrite (proj2 (Z.ltb_ge (DATA_BITS ot) 0)), (Z.sub_0_r (DATA_BITS ot)), with_top_top by lia.
    assert (y mod 32 <> 1). { intros E. unfold m in Em. rewrite E, Z.mod_small in Em by lia. done. }
    unfold for_one. rewrite (proj2 (Z.eqb_neq _ _)) by done. by apply (not_rotated s1 t f x c).
  - rewrite Hall. cbn [negb mbind option_bind]. cbn -[low rotate with_top msb lshift DATA_BITS].
    rewrite land_carry, <- Et. fold (rcl_result ot x m c).
    pose proof (rcl_bits ot x m c ltac:(lia)) as Hz. set (z := rcl_result ot x m c) in *.
    assert (Hb := low_testbit z _ Hz). clearbody z.
    eapply (rotation s1 _ t f _ _ _ (Z.testbit x (DATA_BITS ot - m)) (xorb (Z.testbit x (DATA_BITS ot - 1)) (Z.testbit z (DATA_BITS ot - 1))) z);
      [done|done|done|done|done| |exact Hz| |].
    + cbn. rewrite rot_overflow, Z.lxor_spec, testbit_low by lia. unfold CC_C at 2.
      rewrite land_one, testbit_low by lia. apply rot_word.
    + unfold ok. cbn [from_option]. rewrite (proj2 (Z.ltb_ge (DATA_BITS ot) m)) by lia. apply with_top_low. lia.
    + apply ok_one. intros Hn1. rewrite msb_testbit, Hb by lia.
      assert (m = 1) as -> by (unfold m; rewrite Hn1; apply Z.mod_small; lia).
      rewrite (proj2 (Z.ltb_ge (DATA_BITS ot) 1)), with_top_low by lia. apply xorb_comm.
Qed.

Lemma rcr_ok x y : simulated (Shift OP_RCR ot x y).
Proof.
  apply shift_by. intros s1 t f r g Hy Henc E0 E1 Hf E. destruct (lazy_all _ _ Henc) as [Hall _].
  destruct (shift_count y Hy) as [Hc Hn]. spec E Hy. destruct (CF f) as [c|] eqn:Ec; [|done].
  injection E as <- <-. pose proof (bits_range ot). pose proof (rc_range y) as Hm. cbn in Hm.
  assert (Et : c = sC t) by apply (ok_some _ _ _ (proj1 Hf) Ec).
  set (m := y mod 32 mod (DATA_BITS ot + 1)) in *. fold (with_top ot x c).
  cbn [gen_op_shift_T0_T1_cc]. unfold op_rcr_T0_T1_cc. rewrite E1, rc_count_spec. fold m.
  rewrite rotate_top, E0, land_data_mask by lia. destruct (Z.eqb_spec m 0) as [Em|Em].
  - rewrite Em, (Z.sub_0_r (DATA_BITS ot + 1)). destruct (rotate_none x c) as [_ ->].
    rewrite (proj2 (Z.ltb_lt (DATA_BITS ot) (DATA_BITS ot + 1))), Z.add_simpl_r, with_top_top by lia.
    assert (y mod 32 <> 1). { intros E. unfold m in Em. rewrite E, Z.mod_small in Em by lia. done. }
    unfold for_one. rewrite (proj2 (Z.eqb_neq _ _)) by done. by apply (not_rotated s1 t f x c).
  - rewrite Hall. cbn [negb mbind option_bind]. cbn -[low rotate with_top msb lshift DATA_BITS].
    rewrite land_carry, <- Et. fold (rcr_result ot x m c).
    pose proof (rcr_bits ot x m c ltac:(lia)) as Hz. set (z := rcr_result ot x m c) in *.
    assert (Hb := low_testbit z _ Hz). clearbody z.
    eapply (rotation s1 _ t f _ _ _ (Z.testbit x (m - 1)) (xorb (Z.testbit x (DATA_BITS ot - 1)) (Z.testbit z (DATA_BITS ot - 1))) z);
      [done|done|done|done|done| |exact Hz| |].
    + cbn. rewrite rot_overflow, Z.lxor_spec, testbit_low by lia. unfold CC_C at 2.
      rewrite land_one, testbit_low by lia. apply rot_word.
    + unfold ok. cbn [from_option]. rewrite (proj2 (Z.ltb_ge (DATA_BITS ot) _)) by lia.
      rewrite <- (with_top_low x c) by lia. f_equal. lia.
    + apply ok_one. intros Hn1. rewrite msb_twice, msb_testbit, Hb by lia.
      assert (m = 1) as -> by (unfold m; rewrite Hn1; apply Z.mod_small; lia).
      rewrite (testbit_rotate _ _ _ (DATA_BITS ot - 2)), (proj2 (Z.ltb_lt (DATA_BITS ot - 2) _)), xorb_comm by lia.
      f_equal. rewrite with_top_low by lia. f_equal. lia.
Qed.

Lemma shift_ok op x y : simulated (Shift op ot x y).
Proof.
  destruct op; [apply rol_ok|apply ror_ok|apply rcl_ok|apply rcr_ok|apply shl_ok; auto|apply shr_ok|apply shl_ok; auto|apply sar_ok].
Qed.

(** ** Bit tests and scans *)

Lemma agrees_only_carry c t : c = sC t -> agrees (only_carry c) t.
Proof. by repeat split. Qed.

Lemma bt_ok op x y : simulated (Bt op ot x y).
Proof.
  apply (simulated_by _ (fun a => Some (bt_spec ot op x y))); [done|].
  intros a s t o f Ht Ha E. assert (E' : bt_spec ot op x y = (o, f)) by by injection E.
  pose proof (bits_range ot). pose proof (Z.mod_pos_bound y (DATA_BITS ot) ltac:(lia)).
  assert (Hf : f = only_carry (Z.testbit x (y mod DATA_BITS ot))) by (unfold bt_spec in E'; by destruct op; injection E').
  assert (Hs : CC_SRC (gen_bt op ot (load x y s)) = Z.shiftr x (y mod DATA_BITS ot)).
  { unfold gen_bt, op_bt_T0_T1_cc. rewrite land_shift_mask. by destruct op. }
  assert (Ho : o = match op with BT => [] | _ => [low ot (T0 (gen_bt op ot (load x y s)))] end).
  { clear E Hf. unfold gen_bt, op_bt_T0_T1_cc. rewrite land_shift_mask. unfold bt_spec in E'.
    destruct op; injection E' as <- <-; cbn -[low]; [done|done| |].
    - unfold Z.clearbit. by rewrite Z.ldiff_land.
    - by rewrite Z.shiftl_1_l. }
  cbn [cstep]. set (s' := gen_bt op ot (load x y s)) in *.
  assert (Hl : lazy s' (mkStatus (Z.testbit x (y mod DATA_BITS ot)) (even_parity (CC_DST s')) false (low ot (CC_DST s') =? 0)
    (msb ot (CC_DST s')) (xorb (Z.testbit (CC_SRC s') (DATA_BITS ot - 1)) (msb ot (CC_DST s'))))).
  { apply (lazy_static _ (CC_OP_SARB + SHIFT ot)); [by destruct op|by destruct ot|].
    replace (Z.testbit x _) with (Z.testbit (CC_SRC s') 0) by (rewrite Hs, Z.shiftr_spec by lia; done). by apply enc_sar. }
  destruct op; (eapply finish; [by rewrite Ho|exact Hl|by subst f; apply agrees_only_carry|done|done]).
Qed.

Notation set_bits v l := (filter (fun i => Is_true (Z.testbit v i)) l).

Lemma bsf_loop_spec n v k : 0 <= k ->
  bsf_loop n k (Z.shiftr v k) = head (set_bits v (seqZ k (Z.of_nat n))).
Proof.
  revert k. induction n as [|n IH]; intros k Hk; [done|].
  rewrite seqZ_cons by lia. cbn [bsf_loop]. rewrite land_one, filter_cons by lia.
  destruct (Z.testbit v k) eqn:E; cbn [b2z Z.eqb].
  - by rewrite decide_True by done.
  - rewrite decide_False by tauto. rewrite Z.shiftr_shiftr, IH by lia. by replace (Z.pred (Z.of_nat (S n))) with (Z.of_nat n) by lia.
Qed.

Lemma land_sign_mask res : (Z.land res (SIGN_MASK ot) =? 0) = negb (Z.testbit res (DATA_BITS ot - 1)).
Proof.
  pose proof (bits_range ot). unfold SIGN_MASK. rewrite Z.shiftl_1_l, land_pow2 by lia.
  pose proof (Z.pow_pos_nonneg 2 (DATA_BITS ot - 1)).
  destruct (Z.testbit _ _); [by apply Z.eqb_neq; cbn [flag]; lia|done].
Qed.

(** [res] is the value shifted so that bit [k] is at the top. *)
Lemma bsr_loop_spec n v k res r : k < DATA_BITS ot ->
  (forall i, DATA_BITS ot - 1 - k <= i < DATA_BITS ot -> Z.testbit res i = Z.testbit v (i - (DATA_BITS ot - 1 - k))) ->
  k < Z.of_nat n -> last (set_bits v (seqZ 0 (k + 1))) = Some r -> bsr_loop n ot k res = Some r.
Proof.
  pose proof (bits_range ot). revert k res. induction n as [|n IH]; intros k res Hw Hres Hk Hl.
  - rewrite (seqZ_nil 0) in Hl by lia. done.
  - destruct (decide (k < 0)); [rewrite (seqZ_nil 0) in Hl by lia; done|].
    cbn [bsr_loop]. rewrite land_sign_mask, Hres by lia.
    replace (DATA_BITS ot - 1 - (DATA_BITS ot - 1 - k)) with k by lia.
    rewrite seqZ_app, filter_app in Hl by lia. change (seqZ (0 + k) 1) with [0 + k] in Hl. rewrite Z.add_0_l, filter_cons in Hl.
    destruct (Z.testbit v k) eqn:E; cbn [negb].
    + rewrite decide_True in Hl by done. cbn [filter list_filter] in Hl. by rewrite last_snoc in Hl.
    + rewrite decide_False in Hl by tauto. cbn [filter list_filter] in Hl. rewrite app_nil_r in Hl.
      apply IH; [lia| |lia|by replace (k - 1 + 1) with k by lia].
      intros i Hi. rewrite testbit_s32, Z.shiftl_spec, Hres by lia. f_equal. lia.
Qed.

Lemma set_bits_zero x : low ot x = 0 <-> set_bits x (seqZ 0 (DATA_BITS ot)) = [].
Proof.
  pose proof (bits_range ot). split; intros E.
  - destruct (set_bits x _) as [|i l] eqn:El; [done|]. assert (Hi : i ∈ set_bits x (seqZ 0 (DATA_BITS ot))) by (rewrite El; left).
    apply list_elem_of_filter in Hi as [Hb Hi]. apply elem_of_seqZ in Hi.
    rewrite <- (testbit_low ot x i), E, Z.bits_0 in Hb by lia. done.
  - rewrite (low_ext ot x 0); [by destruct ot|]. intros i Hi. rewrite Z.bits_0.
    destruct (Z.testbit x i) eqn:Eb; [|done]. exfalso.
    apply (filter_nil_not_elem_of _ _ i E); [by rewrite Eb|apply elem_of_seqZ; lia].
Qed.

(** What the loops start from. *)
Lemma testbit_scan x i : 0 <= i < DATA_BITS ot -> Z.testbit (s32 (low ot x)) i = Z.testbit x i.
Proof. intros Hi. pose proof (bits_range ot). by rewrite testbit_s32, testbit_low by lia. Qed.

Lemma set_bits_ext u v (l : list Z) : (forall i, i ∈ l -> Z.testbit u i = Z.testbit v i) -> set_bits u l = set_bits v l.
Proof.
  induction l as [|i l IH]; intros H; [done|]. rewrite !filter_cons, (IH (fun j Hj => H j (list_elem_of_further _ _ _ Hj))).
  pose proof (H i (list_elem_of_here _ _)) as E. destruct (decide (Is_true (Z.testbit u i))) as [d|d]; rewrite E in d.
  - by rewrite decide_True.
  - by rewrite decide_False.
Qed.

Lemma set_bits_scan x : set_bits (s32 (low ot x)) (seqZ 0 (DATA_BITS ot)) = set_bits x (seqZ 0 (DATA_BITS ot)).
Proof. apply set_bits_ext. intros i Hi%elem_of_seqZ. apply testbit_scan. lia. Qed.

(** Both loops end within their fuel, with the first and the last bit. *)
Lemma bsf_first x r : head (set_bits x (seqZ 0 (DATA_BITS ot))) = Some r -> bsf_loop 32 0 (s32 (low ot x)) = Some r.
Proof.
  intros E. pose proof (bits_range ot). rewrite <- (Z.shiftr_0_r (s32 _)), bsf_loop_spec by lia.
  replace (Z.of_nat 32) with (DATA_BITS ot + (32 - DATA_BITS ot)) by lia.
  by rewrite seqZ_app, filter_app, set_bits_scan, head_app, E by lia.
Qed.

Lemma bsr_last x r : last (set_bits x (seqZ 0 (DATA_BITS ot))) = Some r ->
  bsr_loop 32 ot (DATA_BITS ot - 1) (s32 (low ot x)) = Some r.
Proof.
  intros E. pose proof (bits_range ot). apply (bsr_loop_spec 32 (s32 (low ot x))); [lia| |lia|].
  - intros i Hi. f_equal. lia.
  - rewrite Z.sub_add, set_bits_scan. exact E.
Qed.

(** The zero flag after a scan is that of CC_DST, which is 0 or 1. *)
Lemma scan_ok (up : bool) x dst : simulated (if up then Bsf ot x dst else Bsr ot x dst).
Proof.
  apply (simulated_by _ (fun a => Some (scan_spec ot up x dst))); [by destruct up|].
  intros a s t o f Ht Ha E. apply (inj Some) in E. unfold scan_spec in E. injection E as <- <-.
  set (d := if low ot x =? 0 then 0 else 1 : Z).
  set (r := if up then head (set_bits x (seqZ 0 (DATA_BITS ot))) else last (set_bits x (seqZ 0 (DATA_BITS ot)))) in *.
  assert (Hr : low ot x <> 0 -> exists k, r = Some k).
  { intros Hx. rewrite set_bits_zero in Hx. unfold r. destruct up.
    - destruct (set_bits x (seqZ 0 (DATA_BITS ot))); [done|]. by eexists.
    - destruct (last (set_bits x (seqZ 0 (DATA_BITS ot)))) as [k|] eqn:El; [by eexists|]. by apply last_None in El. }
  assert (H0 : low ot x = 0 -> r = None).
  { intros Hx%set_bits_zero. unfold r. rewrite Hx. by destruct up. }
  assert (Hc : (if up then gen_bsf ot (load x dst s) else gen_bsr ot (load x dst s)) =
    Some ((load x (default dst r) s) <| CC_DST := d |> <| s_cc_op := CC_OP_LOGICB + SHIFT ot |>)).
  { unfold gen_bsf, gen_bsr, op_bsf_T0_cc, op_bsr_T0_cc. cbn [T0 load]. unfold d.
    destruct up; cbn -[low bsf_loop bsr_loop DATA_MASK s32 set_bits]; rewrite land_data_mask;
      destruct (Z.eqb_spec (low ot x) 0) as [Hx|Hx]; cbn [negb mbind option_bind].
    - by rewrite (H0 Hx).
    - destruct (Hr Hx) as [k Ek]. rewrite Ek, (bsf_first x k Ek). done.
    - by rewrite (H0 Hx).
    - destruct (Hr Hx) as [k Ek]. rewrite Ek, (bsr_last x k Ek). done. }
  destruct up; cbn [cstep]; rewrite Hc; cbn [mbind option_bind];
    (eapply finish; [reflexivity|static enc_logic| |done|done]);
    (repeat split; cbn -[low]; unfold d; destruct (low ot x =? 0); by destruct ot).
Qed.

(** ** Products *)

Lemma agrees_wide c r : agrees (wide c) (mkStatus c (even_parity r) false (low ot r =? 0) (msb ot r) c).
Proof. by repeat split. Qed.

Lemma land_ff00 p : 0 <= p < 2 ^ 16 -> (Z.land p 0xff00 =? 0) = (p / 2 ^ 8 =? 0).
Proof.
  intros Hp. assert (E : Z.land p 0xff00 = p / 2 ^ 8 * 2 ^ 8).
  { apply Z.bits_inj'. intros i Hi. change 0xff00 with (Z.shiftl (Z.ones 8) 8).
    rewrite Z.land_spec, Z.mul_pow2_bits, Z.shiftl_spec, Z.testbit_ones by lia.
    destruct (Z.leb_spec 0 (i - 8)); cbn [andb].
    - rewrite Z.div_pow2_bits, Z.sub_add by lia. destruct (Z.ltb_spec (i - 8) 8); [by rewrite andb_true_r|].
      by rewrite (testbit_high 16 ltac:(lia) p i Hp) by lia.
    - by rewrite (Z.testbit_neg_r _ (i - 8)), andb_false_r by lia. }
  rewrite E. destruct (Z.eqb_spec (p / 2 ^ 8) 0) as [->|]; [done|]. apply Z.eqb_neq. lia.
Qed.

Lemma low_product x y : 0 <= low ot x * low ot y < 2 ^ (2 * DATA_BITS ot).
Proof.
  pose proof (low_range ot x). pose proof (low_range ot y). pose proof (bits_range ot).
  replace (2 * DATA_BITS ot) with (DATA_BITS ot + DATA_BITS ot) by lia. rewrite Z.pow_add_r by lia. nia.
Qed.

(** The end of a product: CC_SRC says whether it is wide. *)
Lemma product_done (s s' : cc) (o o' : list Z) c : o' = o -> s_cc_op s' = CC_OP_MULB + SHIFT ot -> negb (CC_SRC s' =? 0) = c ->
  DF s' = DF s -> eflags s' = eflags s -> 
  exists s1 t1, Some (o', s') = Some (o, s1) /\ lazy s1 t1 /\ agrees (wide c) t1 /\ DF s1 = DF s /\ eflags s1 = eflags s.
Proof.
  intros Ho E <- Hd He. eapply finish; [exact Ho| |apply agrees_wide|exact Hd|exact He].
  apply (lazy_static _ _ _ E); [by destruct ot|]. apply (enc_mul ot (CC_SRC s') (CC_DST s')).
Qed.

Lemma wide_src b : negb (b2z (negb b) =? 0) = negb b.
Proof. by destruct b. Qed.

Lemma imul2_ok x y : simulated (Imul2 ot x y).
Proof.
  apply (simulated_by _ (fun a => let p := signed ot x * signed ot y in Some ([low ot p], wide (negb (fits ot p))))); [done|].
  intros a s t o f Ht Ha E. apply (inj Some) in E. injection E as <- <-. cbn [cstep].
  apply product_done; cbn -[low signed u32 Z.mul DATA_TYPE DATA_STYPE]; try done.
  - by rewrite data_type, low_u32, !data_stype.
  - by rewrite wide_src, fits_signed, !data_stype.
Qed.
End Steps.

Lemma imul_ok ot eax edx x : simulated (Imul ot eax edx x).
Proof.
  eapply simulated_by; [reflexivity|]. intros a s t o f Ht Ha E. apply (inj Some) in E. injection E as <- <-. cbn [cstep].
  rewrite fits_signed, <- !data_stype.
  apply (product_done ot); [|by destruct ot| |by destruct ot|by destruct ot];
    destruct ot; cbn -[sext Z.mul Z.lor Z.land Z.lnot Z.shiftr Z.div Z.modulo Z.pow u32];
    try apply wide_src; rewrite ?set_half, ?Z.shiftr_div_pow2 by lia; done.
Qed.

Lemma mul_ok ot eax edx x : simulated (Mul ot eax edx x).
Proof.
  eapply simulated_by; [reflexivity|]. intros a s t o f Ht Ha E. apply (inj Some) in E. injection E as <- <-. cbn [cstep].
  pose proof (low_product ot eax x) as Hp.
  assert (Hd : 0 <= low ot eax * low ot x / 2 ^ DATA_BITS ot < 2 ^ DATA_BITS ot).
  { pose proof (bits_range ot). split; [apply Z.div_pos; lia|]. apply Z.div_lt_upper_bound; [lia|].
    rewrite <- Z.pow_add_r by lia. replace (DATA_BITS ot + DATA_BITS ot) with (2 * DATA_BITS ot) by lia. apply Hp. }
  apply (product_done ot); [|by destruct ot| |by destruct ot|by destruct ot]; destruct ot;
    unfold low in *; fold (u8 eax) (u8 x) (u16 eax) (u16 x) (u32 eax) (u32 x) in *;
    cbn -[u8 u16 Z.mul Z.lor Z.land Z.lnot Z.shiftr Z.div Z.modulo Z.pow u32];
    rewrite ?set_half, ?Z.shiftr_div_pow2 by lia; try done.
  - change (eax mod 2 ^ DATA_BITS OT_BYTE * x mod 2 ^ DATA_BITS OT_BYTE) with (u8 eax * u8 x) in *.
    rewrite <- set_half. change 0xffff with (Z.ones 16) at 3. rewrite Z.land_ones, Z.mod_small by (done || lia). done.
  - by rewrite land_ff00.
  - do 2 f_equal. by apply Z.mod_small.
Qed.

(** ** Conditions *)

Definition cond_status (jcc_op : Z) (t : status) : bool :=
  match jcc_op with
  | 0 => sV t
  | 1 => sC t
  | 2 => sZ t
  | 3 => sC t || sZ t
  | 4 => sS t
  | 5 => sP t
  | 6 => xorb (sS t) (sV t)
  | _ => xorb (sS t) (sV t) || sZ t
  end.

Lemma ok_value o b c : o = Some c -> ok o b -> c = b.
Proof. by intros ->. Qed.

Lemma cond_agrees j f t c : agrees f t -> cond_spec j f = Some c -> c = cond_status j t.
Proof.
  intros (HC & HP & _ & HZ & HS & HO). unfold cond_spec, cond_status, ok in *.
  repeat case_match; cbn; intros; repeat (simplify_option_eq; subst); done.
Qed.

Lemma cond_cases (P : Z -> Prop) : P 0 -> P 1 -> P 2 -> P 3 -> P 4 -> P 5 -> P 6 -> P 7 ->
  forall j, 0 <= j < 8 -> P j.
Proof.
  intros. assert (Hj : j = 0 \/ j = 1 \/ j = 2 \/ j = 3 \/ j = 4 \/ j = 5 \/ j = 6 \/ j = 7) by lia.
  by destruct Hj as [-> | [-> | [-> | [-> | [-> | [-> | [-> | ->]]]]]]].
Qed.

(** Computing the flags gives every condition. *)
Lemma slow_cond j s t : 0 <= j < 8 -> encodes (CC_OP s) (CC_SRC s) (CC_DST s) t ->
  gen_setcc_slow j s = Some (s <| T0 := b2z (cond_status j t) |>).
Proof.
  intros Hj He. destruct (lazy_all _ _ He) as [Ha Hc]. unfold gen_setcc_slow. rewrite Ha, Hc. clear Ha Hc He.
  revert j Hj. apply cond_cases; by destruct t as [[] [] [] [] [] []].
Qed.

(** The order of the operands of a subtraction from its flags. *)
Section Order.
Context (ot : size) (x y : Z).
Notation w := (DATA_BITS ot).

Lemma low_sub_zero : (low ot (x - y - 0) =? 0) = (low ot x =? low ot y).
Proof.
  pose proof (low_range ot x). pose proof (low_range ot y). rewrite low_sub. apply eq_true_iff_eq. rewrite !Z.eqb_eq.
  unfold low at 1. split; intros E; [|by rewrite E, !Z.sub_0_r, Z.sub_diag].
  apply Z.mod_divide in E as [q E]; [|lia]. assert (q = 0) by nia. nia.
Qed.

Lemma signed_eq : (signed ot x =? signed ot y) = (low ot x =? low ot y).
Proof.
  pose proof (low_range ot x). pose proof (low_range ot y). pose proof (pow_split ot).
  unfold signed. apply eq_true_iff_eq. rewrite !Z.eqb_eq.
  destruct (Z.leb_spec (2 ^ (w - 1)) (low ot x)), (Z.leb_spec (2 ^ (w - 1)) (low ot y)); lia.
Qed.

Lemma signed_less : xorb (msb ot (x - y - 0)) (negb (fits ot (signed ot x - signed ot y - 0))) = (signed ot x <? signed ot y).
Proof.
  pose proof (bits_range ot). destruct (pow_split ot) as [_ Hp].
  rewrite overflow_sub, msb_testbit, testbit_sub, !signed_split by lia.
  pose proof (Z.mod_pos_bound x (2 ^ (w - 1)) Hp). pose proof (Z.mod_pos_bound y (2 ^ (w - 1)) Hp).
  destruct (Z.testbit x (w - 1)), (Z.testbit y (w - 1)); cbn -[Z.pow Z.mul];
    destruct (Z.ltb_spec (x mod 2 ^ (w - 1) - y mod 2 ^ (w - 1) - 0) 0); cbn -[Z.pow Z.mul];
    symmetry; (apply Z.ltb_lt || apply Z.ltb_ge); lia.
Qed.

Lemma leb_ltb a b : (a <=? b) = (a <? b) || (a =? b).
Proof. destruct (Z.leb_spec a b), (Z.ltb_spec a b), (Z.eqb_spec a b); (done || lia). Qed.
End Order.

Lemma has_sign ot d : has d (SIGN_MASK ot) = msb ot d.
Proof. unfold has, truth. by rewrite land_sign_mask, negb_involutive, msb_testbit. Qed.

(** The tests on the operands of a subtraction. *)
Lemma sub_fast ot j g s t : gen_jcc_sub ot j = Some g ->
  encodes (CC_OP_SUBB + SHIFT ot) (CC_SRC s) (CC_DST s) t -> g s = cond_status j t.
Proof.
  intros Eg He. assert (Hd : eqm (CC_DST s) (CC_DST s + CC_SRC s - CC_SRC s)) by (apply eqm_eq; lia).
  pose proof (encodes_det _ _ _ _ _ He (enc_sub ot _ _ _ Hd)) as ->. clear He.
  assert (Ez : low ot (CC_DST s) = low ot (CC_DST s + CC_SRC s - CC_SRC s - 0)) by (f_equal; lia).
  assert (Eb : op_jb_sub ot s = sC (sub_status ot (CC_DST s + CC_SRC s) (CC_SRC s) 0)).
  { unfold op_jb_sub, src1, src2. by rewrite !data_s32, ltb_sub. }
  assert (El : op_jl_sub ot s = (signed ot (CC_DST s + CC_SRC s) <? signed ot (CC_SRC s))).
  { unfold op_jl_sub, src1, src2. rewrite !data_stype. unfold signed. by rewrite !low_s32. }
  destruct j as [|[[[]|[]|]|[[]|[]|]|]|]; try done; injection Eg as <-; cbn [cond_status sub_status sC sZ sS sV].
  - unfold op_jle_sub, src1, src2. rewrite signed_less, low_sub_zero, !data_stype, leb_ltb. unfold signed at 1 2 3 4.
    rewrite !low_s32. fold (signed ot (CC_DST s + CC_SRC s)) (signed ot (CC_SRC s)). by rewrite signed_eq.
  - unfold op_jbe_sub, src1, src2. by rewrite !data_s32, leb_ltb, low_sub_zero, ltb_sub.
  - by rewrite El, signed_less.
  - unfold op_js_sub. rewrite has_sign. unfold msb. by rewrite Ez.
  - unfold op_jz_sub. by rewrite data_type, Ez.
  - exact Eb.
Qed.

Lemma size_of k ot : op_size k = Some ot -> k mod 4 = SHIFT ot.
Proof.
  unfold op_size. intros E. repeat case_match; try done; by injection E as <-.
Qed.

(** From additions on, zero and sign are those of CC_DST. *)
Lemma zero_sign op ot src dst t : CC_OP_ADDB <= op < CC_OP_NB -> op_size (op - CC_OP_ADDB) = Some ot ->
  encodes op src dst t -> sZ t = (low ot dst =? 0) /\ sS t = msb ot dst.
Proof.
  intros Hop Es He. apply size_of in Es. set (g := group op).
  assert (Eop : op = CC_OP_ADDB + SHIFT ot + 4 * g).
  { unfold g, group. pose proof (Z.div_mod (op - CC_OP_ADDB) 4 ltac:(lia)). lia. }
  assert (Hg : 0 <= g < 9).
  { unfold g, group. unfold CC_OP_ADDB, CC_OP_NB in *. split; [apply Z.div_pos|apply Z.div_lt_upper_bound]; lia. }
  clearbody g. subst op. clear Es Hop.
  assert (Hr : forall k t', k = CC_OP_ADDB + SHIFT ot + 4 * g -> encodes k src dst t' ->
    sZ t' = (low ot dst =? 0) /\ sS t' = msb ot dst -> sZ t = (low ot dst =? 0) /\ sS t = msb ot dst).
  { intros k t' -> He'. by rewrite (encodes_det _ _ _ _ _ He He'). }
  assert (Hb : g = 5 \/ g = 6 -> src = b2z (sC t)).
  { destruct He as (F & E & _ & Ec). intros [-> | ->]; destruct ot; injection E as <-; exact Ec. }
  assert (Hc : g = 0 \/ g = 1 \/ g = 2 \/ g = 3 \/ g = 4 \/ g = 5 \/ g = 6 \/ g = 7 \/ g = 8) by lia. clear Hg.
  destruct Hc as [-> | [-> | [-> | [-> | [-> | [-> | [-> | [-> | ->]]]]]]]].
  - eapply Hr; [|apply (enc_add ot (dst - src) src)|]; [by destruct ot|apply eqm_eq; lia|split; cbn; do 2 f_equal; lia].
  - eapply Hr; [|apply (enc_adc ot (dst - src - 1) src)|]; [by destruct ot|apply eqm_eq; lia|split; cbn; do 2 f_equal; lia].
  - eapply Hr; [|apply (enc_sub ot (dst + src) src)|]; [by destruct ot|apply eqm_eq; lia|split; cbn; do 2 f_equal; lia].
  - eapply Hr; [|apply (enc_sbb ot (dst + src + 1) src)|]; [by destruct ot|apply eqm_eq; lia|split; cbn; do 2 f_equal; lia].
  - eapply Hr; [|apply (enc_logic ot src dst)|]; [by destruct ot|done].
  - eapply Hr; [|rewrite Hb by auto; apply (enc_inc ot (dst - 1))|]; [by destruct ot|apply eqm_eq; lia|split; cbn; do 2 f_equal; lia].
  - eapply Hr; [|rewrite Hb by auto; apply (enc_dec ot (dst + 1))|]; [by destruct ot|apply eqm_eq; lia|split; cbn; do 2 f_equal; lia].
  - eapply Hr; [|by apply (enc_shl ot src dst dst)|]; [by destruct ot|done].
  - eapply Hr; [|by apply (enc_sar ot src dst dst)|]; [by destruct ot|done].
Qed.

(** The tests the translator has tables for give the conditions. *)
Lemma fast_cond s s' t j g : lazy s t ->
  is_sub (s_cc_op s) = true \/ (CC_OP_ADDB <= s_cc_op s < CC_OP_NB /\ (j = JCC_Z \/ j = JCC_S)) ->
  sub_table gen_jcc_sub (s_cc_op s) j = Some g -> CC_SRC s' = CC_SRC s -> CC_DST s' = CC_DST s ->
  g s' = cond_status j t.
Proof.
  intros Hl Hop E Es Ed. unfold sub_table in E. destruct (op_size _) as [ot|] eqn:Eot; [|done]. cbn in E.
  assert (Hr : CC_OP_ADDB <= s_cc_op s < CC_OP_NB).
  { destruct Hop as [Hop|[Hop _]]; [|done]. unfold is_sub in Hop. rewrite andb_true_iff, Z.leb_le, Z.ltb_lt in Hop.
    unfold CC_OP_SUBB, CC_OP_SBBB, CC_OP_ADDB, CC_OP_NB in *. lia. }
  unfold lazy, cur_op in Hl. rewrite (proj2 (Z.eqb_neq _ _)) in Hl by (unfold CC_OP_ADDB, CC_OP_DYNAMIC in *; lia).
  destruct Hop as [Hop|[_ Hj]].
  - apply (sub_fast ot _ _ _ _ E). rewrite Es, Ed. replace (CC_OP_SUBB + SHIFT ot) with (s_cc_op s); [done|].
    unfold is_sub in Hop. rewrite andb_true_iff, Z.leb_le, Z.ltb_lt in Hop. pose proof (size_of _ _ Eot) as Ez.
    unfold CC_OP_SUBB, CC_OP_SBBB, CC_OP_ADDB in *. assert (0 <= SHIFT ot < 4) by by destruct ot.
    pose proof (Z.div_mod (s_cc_op s - 6) 4 ltac:(lia)). lia.
  - destruct (zero_sign _ _ _ _ _ Hr Eot Hl) as [HZ HS]. destruct Hj as [-> | ->]; injection E as <-; cbn [cond_status JCC_Z JCC_S].
    + unfold op_jz_sub. by rewrite Ed, data_type.
    + unfold op_js_sub. by rewrite has_sign, Ed.
Qed.

Lemma setcc_jcc op j f s : sub_table gen_setcc_sub op j = Some f ->
  exists g, sub_table gen_jcc_sub op j = Some g /\ f s = s <| T0 := b2z (g s) |>.
Proof.
  unfold sub_table. destruct (op_size _) as [ot|]; [|done]. cbn. intros E.
  destruct j as [|[[[]|[]|]|[[]|[]|]|]|]; try done; injection E as <-; eexists; (split; [reflexivity|]); try done.
  unfold op_sets_T0_sub, op_js_sub. do 2 f_equal. pose proof (bits_range ot).
  rewrite has_sign, msb_testbit. change 1 with (2 ^ 0) at 2. rewrite land_pow2, testbit_lshift, testbit_s32 by lia.
  rewrite Z.sub_opp_r, Z.add_0_l. by destruct (Z.testbit _ _).
Qed.

Lemma lxor_one c b : (if truth (Z.land b 1) then Z.lxor (b2z c) 1 else b2z c) = b2z (xorb c (Z.odd b)).
Proof.
  assert (E : Z.land b 1 = b2z (Z.odd b)) by by rewrite odd_bit0, <- (land_one b 0), Z.shiftr_0_r by lia.
  rewrite E. by destruct c, (Z.odd b).
Qed.

Lemma jcc_op_spec b : Z.land (Z.shiftr b 1) 7 = b / 2 mod 8 /\ 0 <= b / 2 mod 8 < 8.
Proof.
  split; [|by apply Z.mod_pos_bound]. by rewrite (Z.land_ones _ 3), Z.shiftr_div_pow2 by lia.
Qed.

(** An instruction that only reads the flags. *)
Lemma simulated_read i (r : arch -> option (list Z)) :
  (forall a, astep i a = (o ← r a; Some (o, a))) ->
  (forall a s t o, lazy s t -> agrees (fl a) t -> rest_ok a s -> r a = Some o ->
    exists s', cstep i s = Some (o, s') /\ lazy s' t /\ DF s' = DF s /\ eflags s' = eflags s) ->
  simulated i.
Proof.
  intros Hi Hr a s o a' (t & Ht & Ha & Hrest) E. rewrite Hi in E. destruct (r a) as [o1|] eqn:Er; [|done].
  injection E as <- <-. destruct (Hr a s t o1 Ht Ha Hrest Er) as (s' & Es & Ht' & Ed & Ee).
  exists s'. split; [done|]. exists t. split; [done|]. split; [done|]. destruct Hrest. split; congruence.
Qed.

Lemma lazy_frame s s' t : lazy s t -> cur_op s' = cur_op s -> CC_SRC s' = CC_SRC s -> CC_DST s' = CC_DST s -> lazy s' t.
Proof. unfold lazy. by intros H -> -> ->. Qed.

Lemma lazy_after_sync s t : lazy s t -> lazy (sync_cc_op s) t.
Proof.
  intros H. destruct (sync_frame s) as (_ & _ & Es & Ed & _). apply (lazy_frame s); [done| |done|done].
  unfold cur_op, sync_cc_op. by destruct (s_cc_op s =? CC_OP_DYNAMIC) eqn:E; cbn; rewrite E.
Qed.

Lemma setcc_ok b : simulated (Setcc b).
Proof.
  apply (simulated_read _ (fun a => c ← cond_spec (b / 2 mod 8) (fl a); Some [b2z (xorb c (Z.odd b))])).
  { intros a. cbn. by destruct (cond_spec _ _). }
  intros a s t o Hl Ha _ E. destruct (cond_spec _ _) as [c|] eqn:Ec; [|done]. injection E as <-.
  rewrite (cond_agrees _ _ _ _ Ha Ec). destruct (jcc_op_spec b) as [Ej Hj]. cbn [cstep]. unfold gen_setcc. rewrite Ej.
  clear c Ec Ha. set (j := b / 2 mod 8) in *. set (func := if is_sub _ then _ else _).
  assert (H : exists s', match func with Some f => Some (f s) | None => gen_setcc_slow j (sync_cc_op s) end = Some s' /\
    T0 s' = b2z (cond_status j t) /\ lazy s' t /\ DF s' = DF s /\ eflags s' = eflags s).
  { destruct func as [f|] eqn:Ef.
    - assert (Hf : sub_table gen_setcc_sub (s_cc_op s) j = Some f /\ (is_sub (s_cc_op s) = true \/
        (CC_OP_ADDB <= s_cc_op s < CC_OP_NB /\ (j = JCC_Z \/ j = JCC_S)))).
      { unfold func in Ef. destruct (is_sub _); [by auto|]. destruct (setcc_easy _ && _) eqn:Ee; [|done].
        split; [done|]. right. unfold setcc_easy in Ee. rewrite !andb_true_iff, orb_true_iff, Z.leb_le, Z.ltb_lt, !Z.eqb_eq in Ee.
        unfold CC_OP_NB, CC_OP_SARB in *. intuition lia. }
      destruct Hf as [Hf Hop]. destruct (setcc_jcc _ _ _ s Hf) as (g & Eg & ->).
      eexists. split; [done|]. split; [cbn; f_equal; by apply (fast_cond s s t j g Hl)|]. by split.
    - destruct (sync_frame s) as (_ & _ & _ & _ & Ed & Ee).
      eexists. split; [apply slow_cond; [done|by apply lazy_sync]|]. cbn. split; [done|]. split; [|done].
      by apply lazy_frame with (sync_cc_op s); [apply lazy_after_sync|..]. }
  destruct H as (s' & -> & E0 & Hl' & Ed & Ee). cbn [mbind option_bind].
  rewrite <- (lxor_one (cond_status j t)), <- E0.
  destruct (truth (Z.land b 1)); eexists; (split; [reflexivity|]); by split.
Qed.

Lemma jcc_ok jmp_opt b : simulated (Jcc jmp_opt b).
Proof.
  apply (simulated_read _ (fun a => c ← cond_spec (b / 2 mod 8) (fl a); Some [b2z (xorb c (Z.odd b))])).
  { intros a. cbn. by destruct (cond_spec _ _). }
  intros a s t o Hl Ha _ E. destruct (cond_spec _ _) as [c|] eqn:Ec; [|done]. injection E as <-.
  rewrite (cond_agrees _ _ _ _ Ha Ec). destruct (jcc_op_spec b) as [Ej Hj]. cbn [cstep]. unfold gen_jcc. rewrite Ej.
  clear c Ec Ha. set (j := b / 2 mod 8) in *. set (func := if negb jmp_opt then _ else _).
  set (s1 := (sync_cc_op s) <| s_cc_op := CC_OP_DYNAMIC |>).
  pose proof (lazy_sync s t Hl) as He. destruct (sync_frame s) as (_ & _ & Es & Ed & Edf & Ee).
  assert (H : exists s', match func with Some f => Some (f s1, s1) | None => s ← gen_setcc_slow j s1; Some (truth (T0 s), s) end =
    Some (cond_status j t, s') /\ lazy s' t /\ DF s' = DF s /\ eflags s' = eflags s).
  { destruct func as [f|] eqn:Ef.
    - assert (Hf : sub_table gen_jcc_sub (s_cc_op s) j = Some f /\ (is_sub (s_cc_op s) = true \/
        (CC_OP_ADDB <= s_cc_op s < CC_OP_NB /\ (j = JCC_Z \/ j = JCC_S)))).
      { unfold func in Ef. destruct jmp_opt; [|done]. cbn in Ef. destruct (is_sub _); [by auto|].
        destruct (jcc_easy _ && _) eqn:Ee2; [|done]. split; [done|]. right. unfold jcc_easy in Ee2.
        rewrite !andb_true_iff, orb_true_iff, Z.leb_le, Z.ltb_lt, !Z.eqb_eq in Ee2. intuition. }
      destruct Hf as [Hf Hop]. exists s1. split; [by rewrite (fast_cond s s1 t j f Hl Hop Hf Es Ed)|]. split; [|done].
      by apply lazy_dynamic.
    - assert (He1 : encodes (CC_OP s1) (CC_SRC s1) (CC_DST s1) t) by exact He.
      rewrite (slow_cond j s1 t Hj He1). cbn [mbind option_bind].
      exists (s1 <| T0 := b2z (cond_status j t) |>). split; [by destruct (cond_status j t)|].
      split; [by apply lazy_dynamic|done]. }
  destruct H as (s' & -> & Hl' & Ed' & Ee'). cbn [mbind option_bind]. exists s'. split; [|done].
  assert (E : Z.land b 1 = b2z (Z.odd b)) by by rewrite odd_bit0, <- (land_one b 0), Z.shiftr_0_r by lia.
  rewrite E. by destruct (Z.odd b).
Qed.

(** ** Flags as a word *)

Lemma gen_carry_ok i op (r : arch -> option flags) :
  (forall a, astep i a = (f ← r a; Some ([], a <| fl := f |>))) ->
  (forall s, cstep i s = (s ← gen_carry op s; Some ([], s))) ->
  (forall a s t f, compute_all s = Some (word t) -> agrees (fl a) t -> r a = Some f ->
    exists t', op s = Some (s <| CC_SRC := word t' |>) /\ agrees f t') ->
  simulated i.
Proof.
  intros Hi Hc Hr. apply (simulated_by _ (fun a => f ← r a; Some ([], f))).
  { intros a. rewrite Hi. unfold with_flags. by destruct (r a). }
  intros a s t o f Ht Ha E. destruct (r a) as [f'|] eqn:Er; [|done]. injection E as <- <-.
  destruct (lazy_all _ _ (lazy_sync _ _ Ht)) as [Hall _], (sync_frame s) as (_ & _ & _ & _ & Ed & Ee).
  destruct (Hr a _ t f' Hall Ha Er) as (t' & Eop & Hf). rewrite Hc. unfold gen_carry. rewrite Eop. cbn [mbind option_bind].
  eapply finish; [done| |exact Hf|done|done]. eapply lazy_static; [done|done|apply enc_eflags].
Qed.

Lemma agrees_carry f t c b : agrees f t -> ok c b -> agrees (f <| CF := c |>) (with_carry b t).
Proof. by intros [_ H] Hc. Qed.

Lemma clc_ok : simulated Clc.
Proof.
  apply (gen_carry_ok _ op_clc (fun a => Some ((fl a) <| CF := Some false |>))); [done|done|].
  intros a s t f Hall Ha E. injection E as <-. exists (with_carry false t). unfold op_clc. rewrite Hall. cbn.
  split; [by destruct t as [[] [] [] [] [] []]|by apply agrees_carry].
Qed.
Lemma stc_ok : simulated Stc.
Proof.
  apply (gen_carry_ok _ op_stc (fun a => Some ((fl a) <| CF := Some true |>))); [done|done|].
  intros a s t f Hall Ha E. injection E as <-. exists (with_carry true t). unfold op_stc. rewrite Hall. cbn.
  split; [by destruct t as [[] [] [] [] [] []]|by apply agrees_carry].
Qed.
Lemma cmc_ok : simulated Cmc.
Proof.
  apply (gen_carry_ok _ op_cmc (fun a => c ← CF (fl a); Some ((fl a) <| CF := Some (negb c) |>))); [|done|].
  { intros a. cbn. by destruct (CF _). }
  intros a s t f Hall Ha E. destruct (CF (fl a)) as [c|] eqn:Ec; [|done]. injection E as <-.
  exists (with_carry (negb c) t). rewrite (ok_some _ _ _ (proj1 Ha) Ec). unfold op_cmc. rewrite Hall. cbn.
  split; [by destruct t as [[] [] [] [] [] []]|by apply agrees_carry].
Qed.

Lemma sahf_ok ah : simulated (Sahf ah).
Proof.
  intros a s o a' (t & Ht & Ha & Hr) E. injection E as <- <-. assert (Hl : lazy (load ah 0 s) t) by exact Ht.
  destruct (lazy_all _ _ (lazy_sync _ _ Hl)) as [Hall _], (sync_frame (load ah 0 s)) as (E0 & _ & _ & _ & Ed & Ee).
  cbn [cstep]. unfold gen_carry, op_movb_eflags_T0. rewrite Hall, E0. cbn [mbind option_bind].
  eexists. split; [reflexivity|]. set (t' := mkStatus (Z.testbit ah 0) (Z.testbit ah 2) (Z.testbit ah 4) (Z.testbit ah 6) (Z.testbit ah 7) (sV t)).
  exists t'. split; [|split; [by repeat split; apply Ha|destruct Hr; split; cbn -[sync_cc_op]; [by rewrite Ed|by rewrite Ee]]].
  eapply lazy_static; [done|done|]. cbn.
  replace (Z.lor _ _) with (word t'); [apply enc_eflags|].
  change 0xd5 with (Z.lor (Z.lor (Z.lor (Z.lor (2 ^ 0) (2 ^ 2)) (2 ^ 4)) (2 ^ 6)) (2 ^ 7)).
  rewrite !Z.land_lor_distr_r, !land_pow2 by lia. cbn [load T0]. unfold t', word. cbn [sC sP sA sZ sS sV].
  by destruct t as [[] [] [] [] [] []].
Qed.

Lemma cld_ok : simulated Cld.
Proof. intros a s o a' (t & Ht & Ha & _ & He) E. injection E as <- <-. eexists. split; [reflexivity|]. by exists t. Qed.
Lemma std_ok : simulated Std.
Proof. intros a s o a' (t & Ht & Ha & _ & He) E. injection E as <- <-. eexists. split; [reflexivity|]. by exists t. Qed.
Lemma end_block_ok : simulated EndBlock.
Proof.
  intros a s o a' (t & Ht & Ha & Hr) E. injection E as <- <-. eexists. split; [reflexivity|].
  exists t. split; [apply lazy_dynamic; [done|by apply lazy_sync]|]. split; [done|by apply rest_sync].
Qed.

Lemma to_word_agrees f t e : agrees f t -> to_word f = Some e -> e = word t.
Proof.
  intros (HC & HP & HA & HZ & HS & HO) E. unfold to_word, ok in *. simplify_option_eq. by subst.
Qed.

Lemma df_word a s : rest_ok a s -> Z.land (DF s) DF_MASK = flag (df a) DF_MASK.
Proof. intros [-> _]. by destruct (df a). Qed.

Lemma pushf_ok_at a s t e : lazy s t -> agrees (fl a) t -> rest_ok a s -> pushed a = Some e ->
  exists s', gen_pushf s = Some s' /\ T0 s' = e /\ lazy s' t /\ DF s' = DF s /\ eflags s' = eflags s.
Proof.
  intros Ht Ha Hr E. unfold pushed in E. destruct (to_word (fl a)) as [w|] eqn:Ew; [|done]. injection E as <-.
  rewrite (to_word_agrees _ _ _ Ha Ew). destruct (lazy_all _ _ (lazy_sync _ _ Ht)) as [Hall _].
  destruct (sync_frame s) as (_ & _ & _ & _ & Ed & Ee).
  unfold gen_pushf, op_movl_T0_eflags. rewrite Hall. cbn [mbind option_bind]. eexists. split; [reflexivity|].
  split; [cbn; by rewrite (df_word a) by (by apply rest_sync); rewrite Ee, (proj2 Hr)|].
  split; [|done]. by apply lazy_frame with (sync_cc_op s); [apply lazy_after_sync|..].
Qed.

Lemma pushf_ok : simulated Pushf.
Proof.
  apply (simulated_read _ (fun a => e ← pushed a; Some [e])); [intros a; cbn; by destruct (pushed a)|].
  intros a s t o Ht Ha Hr E. destruct (pushed a) as [e|] eqn:Ep; [|done]. injection E as <-.
  destruct (pushf_ok_at a s t e Ht Ha Hr Ep) as (s' & Es & E0 & H). exists s'. cbn [cstep]. rewrite Es. cbn. by rewrite E0.
Qed.
Lemma lahf_ok : simulated Lahf.
Proof.
  apply (simulated_read _ (fun a => e ← pushed a; Some [e mod 2 ^ 8])); [intros a; cbn; by destruct (pushed a)|].
  intros a s t o Ht Ha Hr E. destruct (pushed a) as [e|] eqn:Ep; [|done]. injection E as <-.
  destruct (pushf_ok_at a s t e Ht Ha Hr Ep) as (s' & Es & E0 & H). exists s'. cbn [cstep]. rewrite Es. cbn. by rewrite E0.
Qed.

Lemma popf_mask_spec cpl iopl dflag : popf_mask cpl iopl dflag = set_of (writable cpl iopl dflag).
Proof. unfold popf_mask, writable. by destruct dflag, (cpl =? 0), (cpl <=? iopl). Qed.

Lemma agrees_of_word e : agrees (of_word e) (status_of e).
Proof. by repeat split. Qed.

Lemma df_spec e : 1 - 2 * Z.land (Z.shiftr e 10) 1 = if Z.testbit e 10 then -1 else 1.
Proof. rewrite land_one by lia. by destruct (Z.testbit e 10). Qed.

Lemma popf_ok cpl iopl dflag v : simulated (Popf cpl iopl dflag v).
Proof.
  intros a s o a' (t & Ht & Ha & Hd & He) E. injection E as <- <-. eexists. split; [reflexivity|].
  exists (status_of v). split; [|split; [apply agrees_of_word|]].
  - apply lazy_dynamic; [done|]. cbn. rewrite land_oszapc. apply enc_eflags.
  - split; cbn -[Z.shiftr]; [apply df_spec|]. by rewrite He, popf_mask_spec.
Qed.

(** ** Sequences of instructions *)

Lemma instr_simulated i : simulated i.
Proof.
  destruct i; [apply alu_ok|apply test_ok|apply inc_ok|apply dec_ok|apply neg_ok|apply shift_ok|apply bt_ok
    |apply (scan_ok ot true)|apply (scan_ok ot false)|apply mul_ok|apply imul_ok|apply imul2_ok|apply setcc_ok|apply jcc_ok
    |apply clc_ok|apply stc_ok|apply cmc_ok|apply cld_ok|apply std_ok|apply sahf_ok|apply lahf_ok|apply popf_ok
    |apply pushf_ok|apply end_block_ok].
Qed.

Lemma run_simulated l : forall a s o a', sim a s -> run astep l a = Some (o, a') ->
  exists s', run cstep l s = Some (o, s') /\ sim a' s'.
Proof.
  induction l as [|i l IH]; intros a s o a' Hs E; cbn in E.
  - injection E as <- <-. by exists s.
  - destruct (astep i a) as [[o1 a1]|] eqn:E1; [|done]. cbn in E.
    destruct (run astep l a1) as [[os a2]|] eqn:E2; [|done]. injection E as <- <-.
    destruct (instr_simulated i a s o1 a1 Hs E1) as (s1 & Es1 & Hs1). destruct (IH a1 s1 os a2 Hs1 E2) as (s2 & Es2 & Hs2).
    exists s2. cbn. rewrite Es1. cbn. by rewrite Es2.
Qed.

(** The bits that are not in [eflags] while translated code runs. *)
Definition LAZY_MASK : Z := Z.lor DF_MASK CC_OSZAPC.
Definition clean (z : Z) : Prop := Z.land z LAZY_MASK = 0.

Lemma with_flags_sys {A} (r : option (A * flags)) a o a' : with_flags r a = Some (o, a') -> sys a' = sys a.
Proof. unfold with_flags. destruct r as [[? f]|]; [|done]. by injection 1 as _ <-. Qed.

Lemma clean_step i a o a' : astep i a = Some (o, a') -> clean (sys a) -> clean (sys a').
Proof.
  unfold clean. intros E H. destruct i; cbn [astep] in E;
    try (by rewrite (with_flags_sys _ _ _ _ E)); try (repeat case_match; simplify_option_eq; by subst).
  { destruct (with_flags _ a) as [[r a1]|] eqn:Ew; [|done]. injection E as _ <-. by rewrite (with_flags_sys _ _ _ _ Ew). }
  remember (set_of (writable cpl iopl dflag)) as m eqn:Em. injection E as _ <-. cbn -[Z.land Z.lor Z.lnot LAZY_MASK].
  rewrite Z.land_lor_distr_l, <- !Z.land_assoc.
  rewrite (Z.land_comm (Z.lnot _)), (Z.land_assoc (sys a)), H, Z.land_0_l, Z.lor_0_l.
  replace (Z.land m LAZY_MASK) with 0; [apply Z.land_0_r|].
  rewrite Em, <- popf_mask_spec. unfold popf_mask. by destruct dflag, (cpl =? 0), (cpl <=? iopl).
Qed.

Lemma clean_run l : forall a o a', run astep l a = Some (o, a') -> clean (sys a) -> clean (sys a').
Proof.
  induction l as [|i l IH]; intros a o a' E H; cbn in E.
  - by injection E as <- <-.
  - destruct (astep i a) as [[o1 a1]|] eqn:E1; [|done]. cbn in E.
    destruct (run astep l a1) as [[os a2]|] eqn:E2; [|done]. injection E as <- <-.
    apply (IH a1 os a2 E2). by apply (clean_step i a o1 a1).
Qed.

(** The machine whose flags register is [e]; and that [w] is the register of [a], up to the
    flags the manual leaves undefined. *)
Definition arch_of (e : Z) : arch := mkArch (of_word e) (Z.testbit e 10) (Z.land e (Z.lnot LAZY_MASK)).
Definition register (a : arch) (w : Z) : Prop :=
  agrees (fl a) (status_of w) /\ Z.testbit w 10 = df a /\ Z.land w (Z.lnot LAZY_MASK) = sys a.

Lemma enter_ok s : sim (arch_of (eflags s)) (enter s).
Proof.
  exists (status_of (eflags s)). split; [|split; [apply agrees_of_word|]].
  - apply lazy_dynamic; [done|]. cbn. rewrite land_oszapc. apply enc_eflags.
  - split; cbn -[Z.shiftr]; [apply df_spec|done].
Qed.

Lemma clean_enter e : clean (sys (arch_of e)).
Proof. unfold clean. cbn [sys arch_of]. by rewrite <- Z.land_assoc, (Z.land_comm (Z.lnot _)), Z.land_lnot_diag, Z.land_0_r. Qed.

Lemma clean_bits z i : clean z -> Z.testbit LAZY_MASK i = true -> Z.testbit z i = false.
Proof. intros H Hi. pose proof (Z.land_spec z LAZY_MASK i) as E. rewrite H, Z.bits_0, Hi, andb_true_r in E. done. Qed.

Lemma register_word z t b : clean z ->
  let w := Z.lor (Z.lor z (word t)) (flag b DF_MASK) in
  status_of w = t /\ Z.testbit w 10 = b /\ Z.land w (Z.lnot LAZY_MASK) = z.
Proof.
  intros Hz w. assert (Hb : forall i, Z.testbit LAZY_MASK i = true -> Z.testbit w i = Z.testbit (word t) i || Z.testbit (flag b DF_MASK) i).
  { intros i Hi. unfold w. by rewrite !Z.lor_spec, (clean_bits z i Hz Hi). }
  split; [unfold status_of; rewrite !Hb by done; by destruct t as [[] [] [] [] [] []], b|].
  split; [rewrite Hb by done; by destruct t as [[] [] [] [] [] []], b|].
  unfold w. rewrite !Z.land_lor_distr_l.
  replace (Z.land (word t) _) with 0 by by destruct t as [[] [] [] [] [] []].
  replace (Z.land (flag b DF_MASK) _) with 0 by by destruct b.
  rewrite !Z.lor_0_r, <- Z.ldiff_land. pose proof (Z.lor_ldiff_and z LAZY_MASK) as E.
  by rewrite Hz, Z.lor_0_r in E.
Qed.

Lemma leave_ok a s : sim a s -> clean (sys a) -> exists s', leave (gen_eob s) = Some s' /\ register a (eflags s').
Proof.
  intros Hs Hc. destruct (end_block_ok a s [] a Hs eq_refl) as (s1 & E1 & t & Ht & Ha & Hr). injection E1 as <-.
  assert (He : encodes (CC_OP (gen_eob s)) (CC_SRC (gen_eob s)) (CC_DST (gen_eob s)) t) by exact Ht.
  destruct (lazy_all _ _ He) as [Hall _]. unfold leave, compute_eflags. rewrite Hall. cbn [mbind option_bind].
  eexists. split; [reflexivity|]. pose proof (register_word (sys a) t (df a) Hc) as (H1 & H2 & H3).
  rewrite <- (df_word a (gen_eob s) Hr), <- (proj2 Hr) in *. unfold register. cbn in *.
  split; [by rewrite H1|]. split; [exact H2|by rewrite H3, <- (proj2 Hr)].
Qed.

(** C19. Lazy flags are the flags of the manual.  Along every sequence of instructions that
    reads no flag the manual leaves undefined, from any flags register, the translated code
    gives the results, the set bytes, the jumps and the pushed flags of the reference
    machine, whatever the translator knows of CC_OP along the way and wherever blocks end;
    the scan loops end within their fuel, no NULL entry of the flag table is called, and
    the register that [cpu_exec] leaves behind has every defined flag of the machine, its
    direction flag and its other bits. *)
Theorem translated_flags (l : list instr) (s : cc) (o : list Z) (a : arch) :
  run astep l (arch_of (eflags s)) = Some (o, a) ->
  exists s1 s2, run cstep l (enter s) = Some (o, s1) /\ leave (gen_eob s1) = Some s2 /\ register a (eflags s2).
Proof.
  intros E. destruct (run_simulated l _ (enter s) o a (enter_ok s) E) as (s1 & E1 & H1).
  destruct (leave_ok a s1 H1 (clean_run l _ o a E (clean_enter _))) as (s2 & E2 & H2). by exists s1, s2.
Qed.

(** A comparison and a signed jump, an addition with the carry it left, a rotation through
    it, a scan, and the flags pushed after a subtraction. *)
Lemma translated_flags_witness :
  let l := [Alu OP_CMPL OT_LONG 5 7; Jcc true 0x0c; Alu OP_ADCL OT_WORD 0xffff 1; Shift OP_RCL OT_BYTE 0x81 1; Setcc 0x02;
    Bsf OT_LONG 0x50 0; EndBlock; Alu OP_SUBL OT_BYTE 3 4; Pushf] in
  let s := mkCC 0 0 0 0 0 0 0 1 0x246 0 in
  let o := [1; 1; 3; 1; 4; 0xff; 0x297] in
  exists a s1 s2, run astep l (arch_of (eflags s)) = Some (o, a) /\
    run cstep l (enter s) = Some (o, s1) /\ leave (gen_eob s1) = Some s2 /\ register a (eflags s2).
Proof.
  intros l s o. set (r := run astep l (arch_of (eflags s))). vm_compute in r.
  match goal with r := Some (_, ?a') |- _ => exists a' end.
  destruct (translated_flags l s o _ ltac:(vm_compute; reflexivity)) as (s1 & s2 & H).
  exists s1, s2. split; [vm_compute; reflexivity|exact H].
Defined.

End FlagsSim.
