(* ===== verification/FlagsDiv.v ===== *)
(** * Divisions

    The divisions of the i386 micro operations against the manual. *)

From S2P Require Import Prelude Flags FlagsSpec FlagsTable.
Import Flags FlagsSpec FlagsTable.

Module FlagsDiv.

(** The dividend and the registers after a division. *)
Definition dividend (ot : size) (s : cc) : Z :=
  match ot with
  | OT_BYTE => EAX s mod 2 ^ 16
  | _ => low ot (EDX s) * 2 ^ DATA_BITS ot + low ot (EAX s)
  end.
Definition divided (ot : size) (q r : Z) (s : cc) : cc :=
  match ot with
  | OT_BYTE => s <| EAX := EAX s / 2 ^ 16 * 2 ^ 16 + (r * 2 ^ 8 + q) |>
  | OT_WORD => s <| EAX := EAX s / 2 ^ 16 * 2 ^ 16 + q |> <| EDX := EDX s / 2 ^ 16 * 2 ^ 16 + r |>
  | OT_LONG => s <| EAX := q |> <| EDX := r |>
  end.
(** Its signed value, of twice the width. *)
Definition signed_dividend (ot : size) (s : cc) : Z :=
  let d := dividend ot s in if 2 ^ (2 * DATA_BITS ot - 1) <=? d then d - 2 ^ (2 * DATA_BITS ot) else d.

Lemma lor_pair a b n : 0 <= n -> 0 <= a < 2 ^ n -> Z.lor a (Z.shiftl b n) = b * 2 ^ n + a.
Proof.
  intros Hn Ha. rewrite Z.shiftl_mul_pow2 by done.
  assert (E : Z.land (b * 2 ^ n) a = 0).
  { apply Z.bits_inj'. intros i Hi. rewrite Z.land_spec, Z.bits_0, Z.mul_pow2_bits by lia.
    destruct (Z.lt_ge_cases i n); [by rewrite Z.testbit_neg_r by lia|].
    rewrite <- (Z.mod_small a (2 ^ n)), Z.mod_pow2_bits_high, andb_false_r by lia. done. }
  pose proof (Z.add_lor_land (b * 2 ^ n) a). rewrite Z.lor_comm. lia.
Qed.

Lemma set_half_small a b : 0 <= b < 2 ^ 16 -> Z.lor (Z.land a (Z.lnot 0xffff)) b = a / 2 ^ 16 * 2 ^ 16 + b.
Proof. intros Hb. rewrite <- (Z.mod_small b (2 ^ 16) Hb) at 2. rewrite <- set_half. change 0xffff with (Z.ones 16) at 3. by rewrite Z.land_ones, Z.mod_small by lia. Qed.

(** The word of a dividend of 32 bits. *)
Lemma dividend_word a d : Z.lor (Z.land a 0xffff) (Z.shiftl (Z.land d 0xffff) 16) = d mod 2 ^ 16 * 2 ^ 16 + a mod 2 ^ 16.
Proof.
  change 0xffff with (Z.ones 16). rewrite !Z.land_ones by lia. apply lor_pair; [lia|]. by apply Z.mod_pos_bound.
Qed.

Lemma large_quotient n q : (n - 1 <? q) = (n <=? q).
Proof. apply eq_true_iff_eq. rewrite Z.ltb_lt, Z.leb_le. lia. Qed.

(** AX from a remainder and a quotient, of which the low bytes count. *)
Lemma set_bytes a q r : Z.lor (Z.lor (Z.land a (Z.lnot 0xffff)) (Z.shiftl (Z.land r 0xff) 8)) (Z.land q 0xff) =
  a / 2 ^ 16 * 2 ^ 16 + (r mod 2 ^ 8 * 2 ^ 8 + q mod 2 ^ 8).
Proof.
  change 0xff with (Z.ones 8). rewrite !Z.land_ones, <- Z.lor_assoc, (Z.lor_comm (Z.shiftl _ _)) by lia.
  pose proof (Z.mod_pos_bound r (2 ^ 8) ltac:(lia)). pose proof (Z.mod_pos_bound q (2 ^ 8) ltac:(lia)).
  rewrite lor_pair by lia. apply set_half_small. lia.
Qed.

(** What the code stores. *)
Lemma stored_byte s q r :
  s <| EAX := Z.lor (Z.lor (Z.land (EAX s) (Z.lnot 0xffff)) (Z.shiftl (Z.land r 0xff) 8)) (Z.land q 0xff) |> =
  divided OT_BYTE (low OT_BYTE q) (low OT_BYTE r) s.
Proof. unfold divided. by rewrite set_bytes. Qed.
Lemma stored_word s q r :
  (let s := s <| EAX := Z.lor (Z.land (EAX s) (Z.lnot 0xffff)) (Z.land q 0xffff) |> in
   s <| EDX := Z.lor (Z.land (EDX s) (Z.lnot 0xffff)) (Z.land r 0xffff) |>) =
  divided OT_WORD (low OT_WORD q) (low OT_WORD r) s.
Proof. cbn zeta. rewrite !set_half. done. Qed.
Lemma stored_long s q r : (let s := s <| EAX := u32 q |> in s <| EDX := u32 r |>) =
  divided OT_LONG (low OT_LONG q) (low OT_LONG r) s.
Proof. done. Qed.

Lemma dividend_long s : is_u32 (EAX s) -> is_u32 (EDX s) -> Z.lor (EAX s) (Z.shiftl (EDX s) 32) = dividend OT_LONG s.
Proof.
  intros Ha Hd. rewrite lor_pair by (done || lia). unfold dividend, low. by rewrite !Z.mod_small.
Qed.

Lemma div_stored ot s : is_u32 (EAX s) -> is_u32 (EDX s) -> is_u32 (T0 s) ->
  op_div ot s =
    let D := dividend ot s in
    let d := low ot (T0 s) in
    if d =? 0 then DivError else if 2 ^ DATA_BITS ot <=? D / d then DivError
    else DivOk (divided ot (low ot (D / d)) (low ot (D mod d)) s).
Proof.
  intros Ha Hd Ht. cbn zeta. rewrite <- large_quotient. destruct ot; cbn [op_div].
  - unfold op_divb_AL_T0. rewrite stored_byte. change 0xff with (DATA_MASK OT_BYTE). rewrite land_data_mask.
    change 0xffff with (Z.ones 16). by rewrite Z.land_ones by lia.
  - unfold op_divw_AX_T0. rewrite dividend_word, stored_word. change 0xffff with (DATA_MASK OT_WORD). by rewrite land_data_mask.
  - unfold helper_divl_EAX_T0. rewrite dividend_long, stored_long by done.
    replace (low OT_LONG (T0 s)) with (T0 s) by (unfold low; by rewrite Z.mod_small). done.
Qed.

Lemma dividend_range ot s : 0 <= dividend ot s < 2 ^ (2 * DATA_BITS ot).
Proof.
  pose proof (low_range ot (EDX s)). pose proof (low_range ot (EAX s)). pose proof (bits_range ot).
  assert (E : 2 ^ (2 * DATA_BITS ot) = 2 ^ DATA_BITS ot * 2 ^ DATA_BITS ot) by (rewrite <- Z.pow_add_r by lia; f_equal; lia).
  rewrite E. unfold dividend. destruct ot; [by apply (Z.mod_pos_bound _ (2 ^ 16))|nia|nia].
Qed.

Lemma div_exact ot s : is_u32 (EAX s) -> is_u32 (EDX s) -> is_u32 (T0 s) ->
  op_div ot s =
    let D := dividend ot s in
    let d := low ot (T0 s) in
    if d =? 0 then DivError else if 2 ^ DATA_BITS ot <=? D / d then DivError
    else DivOk (divided ot (D / d) (D mod d) s).
Proof.
  intros Ha Hd Ht. rewrite div_stored by done. cbn zeta. set (D := dividend ot s). set (d := low ot (T0 s)).
  pose proof (low_range ot (T0 s)) as Hl. fold d in Hl.
  assert (HD : 0 <= D) by apply dividend_range.
  destruct (Z.eqb_spec d 0), (Z.leb_spec (2 ^ DATA_BITS ot) (D / d)); try done.
  pose proof (Z.mod_pos_bound D d ltac:(lia)). pose proof (Z.div_pos D d ltac:(lia) ltac:(lia)).
  unfold low. by rewrite !(Z.mod_small _ (2 ^ DATA_BITS ot)) by lia.
Qed.

Lemma s_dividend ot s x : x mod 2 ^ (2 * DATA_BITS ot) = dividend ot s ->
  sext (2 * DATA_BITS ot) x = signed_dividend ot s.
Proof.
  intros E. unfold sext, wrap, signed_dividend. rewrite E.
  destruct (Z.ltb_spec (dividend ot s) (2 ^ (2 * DATA_BITS ot - 1))), (Z.leb_spec (2 ^ (2 * DATA_BITS ot - 1)) (dividend ot s)); (done || lia).
Qed.

Lemma idiv_exact ot s : is_u32 (EAX s) -> is_u32 (EDX s) -> is_u32 (T0 s) ->
  op_idiv ot s =
    let D := signed_dividend ot s in
    let d := signed ot (T0 s) in
    if d =? 0 then DivError
    else if negb (bool_decide (ot = OT_BYTE)) && (D =? - 2 ^ (2 * DATA_BITS ot - 1)) && (d =? -1) then DivOverflow
    else if negb (fits ot (Z.quot D d)) then DivError
    else DivOk (divided ot (low ot (Z.quot D d)) (low ot (Z.rem D d)) s).
Proof.
  intros Ha Hd Ht. cbn zeta. rewrite fits_signed, <- !data_stype. destruct ot; cbn [op_idiv].
  - unfold op_idivb_AL_T0. rewrite stored_byte. by rewrite <- (s_dividend OT_BYTE s (EAX s)).
  - unfold op_idivw_AX_T0. rewrite dividend_word, stored_word.
    rewrite <- (s_dividend OT_WORD s (EDX s mod 2 ^ 16 * 2 ^ 16 + EAX s mod 2 ^ 16)); [done|].
    apply Z.mod_small. apply (dividend_range OT_WORD).
  - unfold helper_idivl_EAX_T0. rewrite dividend_long, stored_long by done.
    rewrite <- (s_dividend OT_LONG s (dividend OT_LONG s)); [done|].
    apply Z.mod_small, dividend_range.
Qed.

(** C22. Divisions of AX, DX:AX or EDX:EAX put the quotient and the remainder in the
    registers the manual names and leave their upper halves.  An unsigned one is exact and
    raises the divide error exactly when the operand is zero or the quotient does not fit.
    A signed one truncates toward zero and raises it in the same cases, apart from the
    smallest dividend of 32 or 64 bits divided by -1, where the quotient of the C code
    overflows; a signed quotient fits otherwise exactly when it is a value of the width. *)
Theorem division_exact (ot : size) (s : cc) : is_u32 (EAX s) -> is_u32 (EDX s) -> is_u32 (T0 s) ->
  (op_div ot s =
    let D := dividend ot s in
    let d := low ot (T0 s) in
    if d =? 0 then DivError else if 2 ^ DATA_BITS ot <=? D / d then DivError
    else DivOk (divided ot (D / d) (D mod d) s)) /\
  op_idiv ot s =
    let D := signed_dividend ot s in
    let d := signed ot (T0 s) in
    if d =? 0 then DivError
    else if negb (bool_decide (ot = OT_BYTE)) && (D =? - 2 ^ (2 * DATA_BITS ot - 1)) && (d =? -1) then DivOverflow
    else if negb (fits ot (Z.quot D d)) then DivError
    else DivOk (divided ot (low ot (Z.quot D d)) (low ot (Z.rem D d)) s).
Proof. intros Ha Hd Ht. split; [by apply div_exact|by apply idiv_exact]. Qed.

(** The case in which the C code overflows. *)
Lemma division_exact_witness :
  op_idiv OT_WORD (mkCC 0xffff 0 0 0x8000 0 0 0 1 2 0) = DivOverflow.
Proof.
  rewrite (proj2 (division_exact OT_WORD (mkCC 0xffff 0 0 0x8000 0 0 0 1 2 0) ltac:(by split) ltac:(by split) ltac:(by split))).
  vm_compute. reflexivity.
Defined.

End FlagsDiv.
