(* ===== verification/FlagsOpt.v ===== *)
(** * The removal of flag computations that are not needed

    A block of translated code as the list of micro operations the translator makes
    (gen_opc_buf of src/MemCheck-qemu/target-i386/translate.c), and the pass
    [optimize_flags] over it, with its three tables.  The micro operations are those of
    [Flags]; the list of an instruction is what [FlagsSpec.cstep] does. *)

From S2P Require Import Prelude Flags FlagsSpec.
Import Flags FlagsSpec.

Module FlagsOpt.

(** ** Shifts and rotations without flags (ops_template.h, ops_template_mem.h) *)

Definition op_rol_T0_T1 (ot : size) (s : cc) : cc :=
  let count := Z.land (T1 s) (SHIFT_MASK ot) in
  if truth count then
    let t := Z.land (T0 s) (DATA_MASK ot) in
    s <| T0 := Z.lor (u32 (Z.shiftl t count)) (Z.shiftr t (DATA_BITS ot - count)) |>
  else s.
Definition op_ror_T0_T1 (ot : size) (s : cc) : cc :=
  let count := Z.land (T1 s) (SHIFT_MASK ot) in
  if truth count then
    let t := Z.land (T0 s) (DATA_MASK ot) in
    s <| T0 := Z.lor (Z.shiftr t count) (u32 (Z.shiftl t (DATA_BITS ot - count))) |>
  else s.
Definition op_shl_T0_T1 (ot : size) (s : cc) : cc :=
  let count := Z.land (T1 s) SHIFT1_MASK in
  s <| T0 := u32 (Z.shiftl (T0 s) count) |>.
Definition op_shr_T0_T1 (ot : size) (s : cc) : cc :=
  let count := Z.land (T1 s) SHIFT1_MASK in
  s <| T0 := Z.shiftr (Z.land (T0 s) (DATA_MASK ot)) count |>.
Definition op_sar_T0_T1 (ot : size) (s : cc) : cc :=
  let count := Z.land (T1 s) SHIFT1_MASK in
  let src := DATA_STYPE ot (T0 s) in
  s <| T0 := u32 (Z.shiftr src count) |>.

(** ** Micro operations

    With their parameters.  [I_operands] and [I_ax] stand for the moves that load the
    operands, [I_mov_T0], [I_mov_T1], [I_mov_ax] and [I_out_T0] for those that store what the
    instruction gives. *)
Inductive opc :=
| I_nop
| I_operands (x y : Z)
| I_ax (eax edx x : Z)
| I_mov_T0 (ot : size) | I_mov_T1 (ot : size) | I_mov_ax | I_out_T0
| I_set_cc_op (op : Z)
| I_addl_T0_T1 | I_subl_T0_T1 | I_andl_T0_T1 | I_orl_T0_T1 | I_xorl_T0_T1
| I_negl_T0 | I_incl_T0 | I_decl_T0
| I_update2_cc | I_update1_cc | I_update_neg_cc | I_update_inc_cc
| I_cmpl_T0_T1_cc | I_testl_T0_T1_cc
| I_adc_T0_T1_cc (ot : size) | I_sbb_T0_T1_cc (ot : size)
| I_shift_T0_T1_cc (op : shift_op) (ot : size)
| I_shift_T0_T1 (op : shift_op) (ot : size)
| I_bt_T0_T1_cc (op : bit_op) (ot : size) | I_update_bt_cc
| I_bsf_T0_cc (ot : size) | I_bsr_T0_cc (ot : size)
| I_mul (ot : size) | I_imul (ot : size) | I_imul_T0_T1 (ot : size)
| I_set_T0_cc (jcc_op : Z) | I_set_T0_sub (ot : size) (jcc_op : Z) | I_xor_T0_1
| I_jnz_T0_label (inv : bool) | I_j_sub (ot : size) (jcc_op : Z) (inv : bool)
| I_clc | I_stc | I_cmc | I_cld | I_std
| I_movb_eflags_T0 | I_movl_T0_eflags | I_movl_eflags_T0 (mask : Z).

Definition gives (f : cc -> list Z) (s : cc) : option (list Z * cc) := Some (f s, s).
Definition does (s : cc) : option (list Z * cc) := Some ([], s).
Definition tries (s : option cc) : option (list Z * cc) := s ← s; Some ([], s).

(** The shifts that have a form without flags. *)
Definition op_shift_T0_T1 (op : shift_op) (ot : size) (s : cc) : option cc :=
  match op with
  | OP_ROL => Some (op_rol_T0_T1 ot s)
  | OP_ROR => Some (op_ror_T0_T1 ot s)
  | OP_SHL | OP_SHL1 => Some (op_shl_T0_T1 ot s)
  | OP_SHR => Some (op_shr_T0_T1 ot s)
  | OP_SAR => Some (op_sar_T0_T1 ot s)
  | OP_RCL | OP_RCR => None
  end.

(** What a micro operation gives, and the state after it. *)
Definition exec (op : opc) (s : cc) : option (list Z * cc) :=
  match op with
  | I_nop => does s
  | I_operands x y => does (load x y s)
  | I_ax eax edx x => does (load_ax eax edx x s)
  | I_mov_T0 ot => gives (fun s => [DATA_TYPE ot (T0 s)]) s
  | I_mov_T1 ot => gives (fun s => [DATA_TYPE ot (T1 s)]) s
  | I_mov_ax => gives (fun s => [EAX s; EDX s]) s
  | I_out_T0 => gives (fun s => [T0 s]) s
  | I_set_cc_op op => does (op_set_cc_op op s)
  | I_addl_T0_T1 => does (op_addl_T0_T1 s)
  | I_subl_T0_T1 => does (op_subl_T0_T1 s)
  | I_andl_T0_T1 => does (op_andl_T0_T1 s)
  | I_orl_T0_T1 => does (op_orl_T0_T1 s)
  | I_xorl_T0_T1 => does (op_xorl_T0_T1 s)
  | I_negl_T0 => does (op_negl_T0 s)
  | I_incl_T0 => does (op_incl_T0 s)
  | I_decl_T0 => does (op_decl_T0 s)
  | I_update2_cc => does (op_update2_cc s)
  | I_update1_cc => does (op_update1_cc s)
  | I_update_neg_cc => does (op_update_neg_cc s)
  | I_update_inc_cc => tries (op_update_inc_cc s)
  | I_cmpl_T0_T1_cc => does (op_cmpl_T0_T1_cc s)
  | I_testl_T0_T1_cc => does (op_testl_T0_T1_cc s)
  | I_adc_T0_T1_cc ot => tries (op_adc_T0_T1_cc ot s)
  | I_sbb_T0_T1_cc ot => tries (op_sbb_T0_T1_cc ot s)
  | I_shift_T0_T1_cc op ot => tries (gen_op_shift_T0_T1_cc op ot s)
  | I_shift_T0_T1 op ot => tries (op_shift_T0_T1 op ot s)
  | I_bt_T0_T1_cc op ot => does (op_bt_T0_T1_cc op ot s)
  | I_update_bt_cc => does (op_update_bt_cc s)
  | I_bsf_T0_cc ot => tries (op_bsf_T0_cc ot s)
  | I_bsr_T0_cc ot => tries (op_bsr_T0_cc ot s)
  | I_mul ot => does (op_mul ot s)
  | I_imul ot => does (op_imul ot s)
  | I_imul_T0_T1 ot => does (op_imul_T0_T1 ot s)
  | I_set_T0_cc jcc_op => tries (gen_setcc_slow jcc_op s)
  | I_set_T0_sub ot jcc_op => tries (f ← gen_setcc_sub ot jcc_op; Some (f s))
  | I_xor_T0_1 => does (s <| T0 := Z.lxor (T0 s) 1 |>)
  | I_jnz_T0_label inv => gives (fun s => [b2z (xorb (truth (T0 s)) inv)]) s
  | I_j_sub ot jcc_op inv => f ← gen_jcc_sub ot jcc_op; gives (fun s => [b2z (xorb (f s) inv)]) s
  | I_clc => tries (op_clc s)
  | I_stc => tries (op_stc s)
  | I_cmc => tries (op_cmc s)
  | I_cld => does (op_cld s)
  | I_std => does (op_std s)
  | I_movb_eflags_T0 => tries (op_movb_eflags_T0 s)
  | I_movl_T0_eflags => tries (op_movl_T0_eflags s)
  | I_movl_eflags_T0 mask => does (load_eflags (T0 s) mask s)
  end.

Fixpoint exec_list (l : list opc) (s : cc) : option (list Z * cc) :=
  match l with
  | [] => Some ([], s)
  | op :: l => '(o, s) ← exec op s; '(os, s) ← exec_list l s; Some (o ++ os, s)
  end.

(** ** The code of an instruction

    [cc_op] is that of the [DisasContext]; the result has its new value. *)

Definition gen_sync (cc_op : Z) : list opc :=
  if negb (cc_op =? CC_OP_DYNAMIC) then [I_set_cc_op cc_op] else [].

(** The test of a condition: from the operands of a subtraction, or from the flags. *)
Definition setcc_fast (cc_op jcc_op : Z) : bool :=
  is_sub cc_op || (setcc_easy cc_op && ((jcc_op =? JCC_Z) || (jcc_op =? JCC_S))).
Definition jcc_fast (jmp_opt : bool) (cc_op jcc_op : Z) : bool :=
  jmp_opt && (is_sub cc_op || (jcc_easy cc_op && ((jcc_op =? JCC_Z) || (jcc_op =? JCC_S)))).
Definition fast_size {A} (t : size -> Z -> option A) (fast : bool) (cc_op jcc_op : Z) : option size :=
  if fast then ot ← op_size (cc_op - CC_OP_ADDB); _ ← t ot jcc_op; Some ot else None.

Definition gen (i : instr) (cc_op : Z) : list opc * Z :=
  match i with
  | Alu OP_ADCL ot x y => (I_operands x y :: gen_sync cc_op ++ [I_adc_T0_T1_cc ot; I_mov_T0 ot], CC_OP_DYNAMIC)
  | Alu OP_SBBL ot x y => (I_operands x y :: gen_sync cc_op ++ [I_sbb_T0_T1_cc ot; I_mov_T0 ot], CC_OP_DYNAMIC)
  | Alu OP_ADDL ot x y => ([I_operands x y; I_addl_T0_T1; I_mov_T0 ot; I_update2_cc], CC_OP_ADDB + SHIFT ot)
  | Alu OP_SUBL ot x y => ([I_operands x y; I_subl_T0_T1; I_mov_T0 ot; I_update2_cc], CC_OP_SUBB + SHIFT ot)
  | Alu OP_ANDL ot x y => ([I_operands x y; I_andl_T0_T1; I_mov_T0 ot; I_update1_cc], CC_OP_LOGICB + SHIFT ot)
  | Alu OP_ORL ot x y => ([I_operands x y; I_orl_T0_T1; I_mov_T0 ot; I_update1_cc], CC_OP_LOGICB + SHIFT ot)
  | Alu OP_XORL ot x y => ([I_operands x y; I_xorl_T0_T1; I_mov_T0 ot; I_update1_cc], CC_OP_LOGICB + SHIFT ot)
  | Alu OP_CMPL ot x y => ([I_operands x y; I_cmpl_T0_T1_cc], CC_OP_SUBB + SHIFT ot)
  | Test ot x y => ([I_operands x y; I_testl_T0_T1_cc], CC_OP_LOGICB + SHIFT ot)
  | Inc ot x => (I_operands x 0 :: gen_sync cc_op ++ [I_incl_T0; I_mov_T0 ot; I_update_inc_cc], CC_OP_INCB + SHIFT ot)
  | Dec ot x => (I_operands x 0 :: gen_sync cc_op ++ [I_decl_T0; I_mov_T0 ot; I_update_inc_cc], CC_OP_DECB + SHIFT ot)
  | Neg ot x => ([I_operands x 0; I_negl_T0; I_mov_T0 ot; I_update_neg_cc], CC_OP_SUBB + SHIFT ot)
  | Shift op ot x y => (I_operands x y :: gen_sync cc_op ++ [I_shift_T0_T1_cc op ot; I_mov_T0 ot], CC_OP_DYNAMIC)
  | Bt BT ot x y => ([I_operands x y; I_bt_T0_T1_cc BT ot], CC_OP_SARB + SHIFT ot)
  | Bt op ot x y => ([I_operands x y; I_bt_T0_T1_cc op ot; I_mov_T0 ot; I_update_bt_cc], CC_OP_SARB + SHIFT ot)
  | Bsf ot x dst => ([I_operands x dst; I_bsf_T0_cc ot; I_mov_T1 ot], CC_OP_LOGICB + SHIFT ot)
  | Bsr ot x dst => ([I_operands x dst; I_bsr_T0_cc ot; I_mov_T1 ot], CC_OP_LOGICB + SHIFT ot)
  | Mul ot eax edx x => ([I_ax eax edx x; I_mul ot; I_mov_ax], CC_OP_MULB + SHIFT ot)
  | Imul ot eax edx x => ([I_ax eax edx x; I_imul ot; I_mov_ax], CC_OP_MULB + SHIFT ot)
  | Imul2 ot x y => ([I_operands x y; I_imul_T0_T1 ot; I_mov_T0 ot], CC_OP_MULB + SHIFT ot)
  | Setcc b =>
    let jcc_op := Z.land (Z.shiftr b 1) 7 in
    (match fast_size gen_setcc_sub (setcc_fast cc_op jcc_op) cc_op jcc_op with
     | Some ot => [I_set_T0_sub ot jcc_op]
     | None => gen_sync cc_op ++ [I_set_T0_cc jcc_op]
     end ++ (if truth (Z.land b 1) then [I_xor_T0_1] else []) ++ [I_out_T0], cc_op)
  | Jcc jmp_opt b =>
    let jcc_op := Z.land (Z.shiftr b 1) 7 in
    let inv := truth (Z.land b 1) in
    (gen_sync cc_op ++
     match fast_size gen_jcc_sub (jcc_fast jmp_opt cc_op jcc_op) cc_op jcc_op with
     | Some ot => [I_j_sub ot jcc_op inv]
     | None => [I_set_T0_cc jcc_op; I_jnz_T0_label inv]
     end, CC_OP_DYNAMIC)
  | Clc => (gen_sync cc_op ++ [I_clc], CC_OP_EFLAGS)
  | Stc => (gen_sync cc_op ++ [I_stc], CC_OP_EFLAGS)
  | Cmc => (gen_sync cc_op ++ [I_cmc], CC_OP_EFLAGS)
  | Cld => ([I_cld], cc_op)
  | Std => ([I_std], cc_op)
  | Sahf ah => (I_operands ah 0 :: gen_sync cc_op ++ [I_movb_eflags_T0], CC_OP_EFLAGS)
  | Lahf => (gen_sync cc_op ++ [I_movl_T0_eflags; I_mov_T0 OT_BYTE], cc_op)
  | Popf cpl iopl dflag v =>
    ([I_operands v 0; I_movl_eflags_T0 (popf_mask cpl iopl dflag); I_set_cc_op CC_OP_EFLAGS], CC_OP_DYNAMIC)
  | Pushf => (gen_sync cc_op ++ [I_movl_T0_eflags; I_out_T0], cc_op)
  | EndBlock => (gen_sync cc_op, CC_OP_DYNAMIC)
  end.

(** ** The pass *)

Definition opc_read_flags (op : opc) : Z :=
  match op with
  | I_update_inc_cc | I_cmc | I_adc_T0_T1_cc _ | I_sbb_T0_T1_cc _ => CC_C
  | I_shift_T0_T1_cc OP_RCL _ | I_shift_T0_T1_cc OP_RCR _ => CC_C
  | I_set_T0_cc jcc_op | I_set_T0_sub _ jcc_op | I_j_sub _ jcc_op _ =>
    match jcc_op with
    | 0 => CC_O
    | 1 => CC_C
    | 2 => CC_Z
    | 3 => Z.lor CC_Z CC_C
    | 4 => CC_S
    | 5 => CC_P
    | 6 => Z.lor CC_O CC_S
    | _ => Z.lor (Z.lor CC_O CC_S) CC_Z
    end
  | I_movl_T0_eflags => CC_OSZAPC
  | _ => 0
  end.

Definition opc_write_flags (op : opc) : Z :=
  match op with
  | I_update2_cc | I_update1_cc | I_cmpl_T0_T1_cc | I_update_neg_cc | I_update_inc_cc | I_testl_T0_T1_cc => CC_OSZAPC
  | I_mul _ | I_imul _ | I_imul_T0_T1 _ => CC_OSZAPC
  | I_movb_eflags_T0 => Z.lor (Z.lor (Z.lor (Z.lor CC_S CC_Z) CC_A) CC_P) CC_C
  | I_movl_eflags_T0 _ => CC_OSZAPC
  | I_clc | I_stc | I_cmc => CC_C
  | I_bt_T0_T1_cc _ _ | I_bsf_T0_cc _ | I_bsr_T0_cc _ => CC_OSZAPC
  | I_adc_T0_T1_cc _ | I_sbb_T0_T1_cc _ => CC_OSZAPC
  | I_shift_T0_T1_cc OP_ROL _ | I_shift_T0_T1_cc OP_ROR _ | I_shift_T0_T1_cc OP_RCL _ | I_shift_T0_T1_cc OP_RCR _ =>
    Z.lor CC_O CC_C
  | I_shift_T0_T1_cc _ _ => CC_OSZAPC
  | _ => 0
  end.

Definition opc_simpler (op : opc) : opc :=
  match op with
  | I_update2_cc | I_update1_cc | I_update_neg_cc => I_nop
  | I_shift_T0_T1_cc OP_RCL _ | I_shift_T0_T1_cc OP_RCR _ => op
  | I_shift_T0_T1_cc op ot => I_shift_T0_T1 op ot
  | _ => op
  end.

(** The loop from the end of the buffer: the code and the flags live before it. *)
Fixpoint optimize (l : list opc) (live_flags : Z) : list opc * Z :=
  match l with
  | [] => ([], live_flags)
  | op :: l =>
    let '(l, live_flags) := optimize l live_flags in
    let write_flags := opc_write_flags op in
    (if Z.land live_flags write_flags =? 0 then opc_simpler op :: l else op :: l,
     Z.lor (Z.land live_flags (Z.lnot write_flags)) (opc_read_flags op))
  end.
Definition optimize_flags (l : list opc) : list opc := (optimize l CC_OSZAPC).1.

(** ** Blocks *)

(** A block ends with a jump or with [popf], which may change the trap flag; [EndBlock] is
    any other end. *)
Definition ends_block (i : instr) : bool :=
  match i with Jcc _ _ | Popf _ _ _ _ | EndBlock => true | _ => false end.
Fixpoint blocks (l : list instr) : list (list instr) :=
  match l with
  | [] => []
  | i :: l =>
    if ends_block i then [i] :: blocks l
    else match blocks l with [] => [[i]] | b :: bs => (i :: b) :: bs end
  end.

Fixpoint gen_block (l : list instr) (cc_op : Z) : list opc :=
  match l with
  | [] => gen_sync cc_op
  | i :: l => let '(ops, cc_op) := gen i cc_op in ops ++ gen_block l cc_op
  end.

(** The run of the code of a sequence of instructions, after the pass. *)
Fixpoint run_blocks (bs : list (list instr)) (s : cc) : option (list Z * cc) :=
  match bs with
  | [] => Some ([], s)
  | b :: bs =>
    '(o, s) ← exec_list (optimize_flags (gen_block b CC_OP_DYNAMIC)) s;
    '(os, s) ← run_blocks bs s;
    Some (o ++ os, s)
  end.

End FlagsOpt.
