(* ===== verification/FlagsLive.v ===== *)
(** * The removal of flag computations is right

    The code of a block is what [FlagsSpec.cstep] does; the pass [optimize_flags] of
    [FlagsOpt] leaves what the block gives, and every flag at its end, unless a shift has
    the count zero. *)

From S2P Require Import Prelude Flags FlagsSpec FlagsTable FlagsSim FlagsOpt.
Import Flags FlagsSpec FlagsTable FlagsSim FlagsOpt.

Module FlagsLive.

(** ** The lists are what the instructions do *)

Lemma exec_app l1 l2 s : exec_list (l1 ++ l2) s =
  ('(o1, s) ← exec_list l1 s; '(o2, s) ← exec_list l2 s; Some (o1 ++ o2, s)).
Proof.
  revert s. induction l1 as [|op l1 IH]; intros s; cbn.
  - by destruct (exec_list l2 s) as [[? ?]|].
  - destruct (exec op s) as [[o1 s1]|]; [|done]. cbn. rewrite IH. destruct (exec_list l1 s1) as [[o2 s2]|]; [|done].
    cbn. destruct (exec_list l2 s2) as [[o3 s3]|]; [|done]. cbn. by rewrite <- app_assoc.
Qed.

(** [s] while the translator knows [c]. *)
Definition known (c : Z) (s : cc) : cc := s <| s_cc_op := c |>.

(** No micro operation looks at what the translator knows. *)
Ltac fields :=
  cbn -[cc_table has rc_count SHIFT1_MASK truth bsf_loop bsr_loop Z.lor Z.land Z.lnot u32 Z.shiftl Z.shiftr Z.lxor DATA_MASK DATA_BITS SHIFT_MASK SHIFT lshift s32 Z.add Z.sub Z.eqb Z.mul CC_C CC_O].
Ltac through_table := unfold compute_all, compute_c; fields;
  lazymatch goal with |- context [cc_table ?o] => destruct (cc_table o); reflexivity end.

Lemma shift_known op ot k s : gen_op_shift_T0_T1_cc op ot (known k s) = known k <$> gen_op_shift_T0_T1_cc op ot s.
Proof.
  destruct s; destruct op; cbn [gen_op_shift_T0_T1_cc];
    unfold op_rol_T0_T1_cc, op_ror_T0_T1_cc, op_rcl_T0_T1_cc, op_rcr_T0_T1_cc, op_shl_T0_T1_cc, op_shr_T0_T1_cc, op_sar_T0_T1_cc, known, compute_all; fields;
    lazymatch goal with
    | |- context [has ?x ?y] => destruct (has x y); [through_table|done]
    | |- context [negb (?x =? 0)] => destruct (negb (x =? 0)); [first [done|through_table]|done]
    end.
Qed.

Lemma slow_known j k s : gen_setcc_slow j (known k s) = known k <$> gen_setcc_slow j s.
Proof. destruct s. unfold gen_setcc_slow, known. destruct (j =? JCC_B); through_table. Qed.
Lemma jcc_sub_known ot j f k s : gen_jcc_sub ot j = Some f -> f (known k s) = f s.
Proof. destruct j as [|[[[]|[]|]|[[]|[]|]|]|]; try done; by injection 1 as <-. Qed.

Lemma exec_known op k s : exec op (known k s) = ('(o, s') ← exec op s; Some (o, known k s')).
Proof.
  destruct op; try (by destruct s); try (by destruct s, op); try (by destruct s, ot); cbn [exec]; unfold tries.
  - destruct s. unfold op_update_inc_cc, known. through_table.
  - destruct s. unfold op_adc_T0_T1_cc, known. through_table.
  - destruct s. unfold op_sbb_T0_T1_cc, known. through_table.
  - rewrite shift_known. by destruct (gen_op_shift_T0_T1_cc op ot s).
  - destruct s, op; try done; cbn [op_shift_T0_T1]; unfold op_rol_T0_T1, op_ror_T0_T1, known; fields;
      by destruct (truth _).
  - destruct s. unfold op_bsf_T0_cc, known. fields. destruct (_ =? 0); [done|]. cbn [negb]. by destruct (bsf_loop _ _ _).
  - destruct s. unfold op_bsr_T0_cc, known. fields. destruct (_ =? 0); [done|]. cbn [negb]. by destruct (bsr_loop _ _ _ _).
  - rewrite slow_known. by destruct (gen_setcc_slow jcc_op s).
  - by destruct jcc_op as [|[[[]|[]|]|[[]|[]|]|]|], s.
  - by destruct jcc_op as [|[[[]|[]|]|[[]|[]|]|]|], s.
  - destruct s. unfold op_clc, known. through_table.
  - destruct s. unfold op_stc, known. through_table.
  - destruct s. unfold op_cmc, known. through_table.
  - destruct s. unfold op_movb_eflags_T0, known. through_table.
  - destruct s. unfold op_movl_T0_eflags, known. through_table.
Qed.

Lemma exec_list_known l k s : exec_list l (known k s) = ('(o, s') ← exec_list l s; Some (o, known k s')).
Proof.
  revert s. induction l as [|op l IH]; intros s; [done|]. cbn [exec_list]. rewrite exec_known.
  destruct (exec op s) as [[o1 s1]|]; [|done]. cbn [mbind option_bind]. rewrite IH.
  by destruct (exec_list l s1) as [[o2 s2]|].
Qed.

Lemma exec_sync s : exec_list (gen_sync (s_cc_op s)) s = Some ([], sync_cc_op s).
Proof. unfold gen_sync, sync_cc_op. by destruct (negb _). Qed.

Lemma synced_cc_op s : s_cc_op (sync_cc_op s) = s_cc_op s.
Proof. unfold sync_cc_op. by destruct (negb _). Qed.

(** CC_OP is stored and the code goes on. *)
Lemma exec_synced l s : exec_list (gen_sync (s_cc_op s) ++ l) s = exec_list l (sync_cc_op s).
Proof. rewrite exec_app, exec_sync. cbn. by destruct (exec_list l _) as [[? ?]|]. Qed.
Lemma exec_operands_synced x y l s : exec_list (I_operands x y :: gen_sync (s_cc_op s) ++ l) s = exec_list l (sync_cc_op (load x y s)).
Proof.
  cbn [exec_list exec does mbind option_bind]. rewrite <- (exec_synced l (load x y s)).
  by destruct (exec_list _ _) as [[? ?]|].
Qed.

(** The list of [i] runs as [cstep], and has what the translator knows then. *)
Definition runs_as (i : instr) : Prop := forall s o s', cstep i s = Some (o, s') ->
  exec_list (gen i (s_cc_op s)).1 s = Some (o, known (s_cc_op s) s') /\ s_cc_op s' = (gen i (s_cc_op s)).2.

(** [known] with the value that is there. *)
Lemma known_same s : known (s_cc_op s) s = s.
Proof. by destruct s. Qed.

Lemma exec_keeps l s o s1 : exec_list l s = Some (o, s1) -> s_cc_op s1 = s_cc_op s.
Proof.
  intros E. pose proof (exec_list_known l (s_cc_op s) s) as H. rewrite known_same, E in H. cbn in H. by injection H as ->.
Qed.

(** It is enough that the list runs to a state that differs in what the translator knows. *)
Lemma runs_to s o s' s1 c l : exec_list l s = Some (o, s1) -> s' = known c s1 ->
  exec_list l s = Some (o, known (s_cc_op s) s') /\ s_cc_op s' = c.
Proof.
  intros E ->. split; [|done]. rewrite E, <- (exec_keeps l s o s1 E). by destruct s1.
Qed.

Ltac step := cbn [exec_list exec does gives tries mbind option_bind app].
Ltac run_code E :=
  intros s o s' E; cbn [gen fst snd]; cbn [cstep gen_op] in E; unfold gen_inc, gen_shift, gen_carry in E.

Lemma alu_runs op ot x y : runs_as (Alu op ot x y).
Proof.
  destruct op; run_code E; try (injection E as <- <-; by eapply runs_to).
  - destruct (op_adc_T0_T1_cc ot (sync_cc_op (load x y s))) as [s1|] eqn:E1; [|done]. injection E as <- <-.
    eapply runs_to; [rewrite exec_operands_synced; step; by rewrite E1|done].
  - destruct (op_sbb_T0_T1_cc ot (sync_cc_op (load x y s))) as [s1|] eqn:E1; [|done]. injection E as <- <-.
    eapply runs_to; [rewrite exec_operands_synced; step; by rewrite E1|done].
Qed.

(** The result is stored before the flags. *)
Lemma update_inc_at s k s1 : op_update_inc_cc (known k s) = Some s1 ->
  exists s2, op_update_inc_cc s = Some s2 /\ s1 = known k s2 /\ T0 s2 = T0 s.
Proof.
  unfold op_update_inc_cc. replace (compute_c (known k s)) with (compute_c s) by done.
  destruct (compute_c s); [|done]. injection 1 as <-. eexists. split; [reflexivity|done].
Qed.

Lemma inc_runs ot x : runs_as (Inc ot x).
Proof.
  run_code E. destruct (op_update_inc_cc _) as [s1|] eqn:E1; [|done]. injection E as <- <-.
  apply update_inc_at in E1 as (s2 & E2 & -> & E0).
  eapply runs_to; [rewrite exec_operands_synced; step|reflexivity]. rewrite E2. cbn. change (T0 (known _ s2)) with (T0 s2). by rewrite E0.
Qed.
Lemma dec_runs ot x : runs_as (Dec ot x).
Proof.
  run_code E. destruct (op_update_inc_cc _) as [s1|] eqn:E1; [|done]. injection E as <- <-.
  apply update_inc_at in E1 as (s2 & E2 & -> & E0).
  eapply runs_to; [rewrite exec_operands_synced; step|reflexivity]. rewrite E2. cbn. change (T0 (known _ s2)) with (T0 s2). by rewrite E0.
Qed.

Lemma neg_runs ot x : runs_as (Neg ot x).
Proof. run_code E. injection E as <- <-. by eapply runs_to. Qed.
Lemma test_runs ot x y : runs_as (Test ot x y).
Proof. run_code E. injection E as <- <-. by eapply runs_to. Qed.
Lemma mul_runs ot eax edx x : runs_as (Mul ot eax edx x) /\ runs_as (Imul ot eax edx x).
Proof. split; run_code E; injection E as <- <-; by eapply runs_to. Qed.
Lemma imul2_runs ot x y : runs_as (Imul2 ot x y).
Proof. run_code E. injection E as <- <-. by eapply runs_to. Qed.
Lemma bt_runs op ot x y : runs_as (Bt op ot x y).
Proof. destruct op; run_code E; injection E as <- <-; by eapply runs_to. Qed.

Lemma shift_runs op ot x y : runs_as (Shift op ot x y).
Proof.
  run_code E. destruct (gen_op_shift_T0_T1_cc _ _ _) as [s1|] eqn:E1; [|done]. injection E as <- <-.
  eapply runs_to; [rewrite exec_operands_synced; step; by rewrite E1|done].
Qed.

Lemma bsf_runs ot x dst : runs_as (Bsf ot x dst).
Proof.
  run_code E. unfold gen_bsf in E. destruct (op_bsf_T0_cc _ _) as [s1|] eqn:E1; [|done]. injection E as <- <-.
  eapply runs_to; [step; by rewrite E1|done].
Qed.
Lemma bsr_runs ot x dst : runs_as (Bsr ot x dst).
Proof.
  run_code E. unfold gen_bsr in E. destruct (op_bsr_T0_cc _ _) as [s1|] eqn:E1; [|done]. injection E as <- <-.
  eapply runs_to; [step; by rewrite E1|done].
Qed.

Lemma clc_runs : runs_as Clc.
Proof.
  run_code E. destruct (op_clc _) as [s1|] eqn:E1; [|done]. injection E as <- <-.
  eapply runs_to; [rewrite exec_synced; step; by rewrite E1|done].
Qed.
Lemma stc_runs : runs_as Stc.
Proof.
  run_code E. destruct (op_stc _) as [s1|] eqn:E1; [|done]. injection E as <- <-.
  eapply runs_to; [rewrite exec_synced; step; by rewrite E1|done].
Qed.
Lemma cmc_runs : runs_as Cmc.
Proof.
  run_code E. destruct (op_cmc _) as [s1|] eqn:E1; [|done]. injection E as <- <-.
  eapply runs_to; [rewrite exec_synced; step; by rewrite E1|done].
Qed.
Lemma sahf_runs ah : runs_as (Sahf ah).
Proof.
  run_code E. destruct (op_movb_eflags_T0 _) as [s1|] eqn:E1; [|done]. injection E as <- <-.
  eapply runs_to; [rewrite exec_operands_synced; step; by rewrite E1|done].
Qed.
Lemma df_runs : runs_as Cld /\ runs_as Std.
Proof. split; run_code E; injection E as <- <-; (eapply runs_to; [done|]); by destruct s. Qed.

Lemma pushed_keeps s s1 : gen_pushf s = Some s1 -> s_cc_op s1 = s_cc_op s.
Proof.
  intros E. rewrite <- (synced_cc_op s). apply (exec_keeps [I_movl_T0_eflags] _ []). step. unfold gen_pushf in E. by rewrite E.
Qed.
Lemma pushf_runs : runs_as Pushf.
Proof.
  run_code E. destruct (gen_pushf s) as [s1|] eqn:E1; [|done]. injection E as <- <-.
  eapply runs_to; [rewrite exec_synced; step; unfold gen_pushf in E1; by rewrite E1|]. by rewrite <- (pushed_keeps s s1 E1), known_same.
Qed.
Lemma lahf_runs : runs_as Lahf.
Proof.
  run_code E. destruct (gen_pushf s) as [s1|] eqn:E1; [|done]. injection E as <- <-.
  eapply runs_to; [rewrite exec_synced; step; unfold gen_pushf in E1; by rewrite E1|]. by rewrite <- (pushed_keeps s s1 E1), known_same.
Qed.
Lemma popf_runs cpl iopl dflag v : runs_as (Popf cpl iopl dflag v).
Proof. run_code E. injection E as <- <-. by eapply runs_to. Qed.
Lemma end_block_runs : runs_as EndBlock.
Proof. run_code E. injection E as <- <-. eapply runs_to; [apply exec_sync|done]. Qed.

Lemma fast_size_spec {A} (t : size -> Z -> option A) (fast : bool) c j :
  (if fast then sub_table t c j else None) = (ot ← fast_size t fast c j; t ot j) /\
  forall ot, fast_size t fast c j = Some ot -> exists f, t ot j = Some f.
Proof.
  unfold fast_size, sub_table. destruct fast; [|done]. destruct (op_size _) as [ot|]; [|done]. cbn.
  destruct (t ot j) as [f|] eqn:E; [|done]. cbn. split; [done|]. intros ot' [= <-]. by exists f.
Qed.

Lemma setcc_func c j :
  (if is_sub c then sub_table gen_setcc_sub c j
   else if setcc_easy c && ((j =? JCC_Z) || (j =? JCC_S)) then sub_table gen_setcc_sub c j else None) =
  (ot ← fast_size gen_setcc_sub (setcc_fast c j) c j; gen_setcc_sub ot j).
Proof. rewrite <- (proj1 (fast_size_spec _ _ c j)). unfold setcc_fast. by destruct (is_sub c). Qed.
Lemma jcc_func opt c j :
  (if negb opt then None else if is_sub c then sub_table gen_jcc_sub c j
   else if jcc_easy c && ((j =? JCC_Z) || (j =? JCC_S)) then sub_table gen_jcc_sub c j else None) =
  (ot ← fast_size gen_jcc_sub (jcc_fast opt c j) c j; gen_jcc_sub ot j).
Proof. rewrite <- (proj1 (fast_size_spec _ _ c j)). unfold jcc_fast. by destruct opt, (is_sub c). Qed.

Lemma setcc_runs b : runs_as (Setcc b).
Proof.
  intros s o s' E. cbn [gen fst snd cstep] in *. unfold gen_setcc in E. set (j := Z.land (Z.shiftr b 1) 7) in *.
  rewrite setcc_func in E.
  lazymatch goal with |- context [exec_list (?m ++ _) s] => set (l := m) end. set (e := truth (Z.land b 1)) in *.
  assert (H : exists s1, exec_list l s = Some ([], s1) /\ (o, s') = ([T0 (if e then s1 <| T0 := Z.lxor (T0 s1) 1 |> else s1)],
    if e then s1 <| T0 := Z.lxor (T0 s1) 1 |> else s1)).
  { unfold l. destruct (fast_size _ _ _ _) as [ot|] eqn:Ef.
    - destruct (proj2 (fast_size_spec _ _ _ _) ot Ef) as [f Eg]. cbn [mbind option_bind] in E. rewrite Eg in E. cbn in E.
      injection E as <- <-. exists (f s). step. unfold tries. by rewrite Eg.
    - cbn [mbind option_bind] in E. destruct (gen_setcc_slow j (sync_cc_op s)) as [s1|] eqn:E1; [|done]. cbn in E.
      injection E as <- <-. exists s1. rewrite exec_synced. step. unfold tries. by rewrite E1. }
  destruct H as (s1 & Es & [= -> ->]). clear E.
  assert (Ek : s_cc_op s1 = s_cc_op s) by (by apply (exec_keeps l _ [])).
  eapply (runs_to _ _ _ (if e then s1 <| T0 := Z.lxor (T0 s1) 1 |> else s1)); [rewrite exec_app, Es|].
  - cbn. destruct e; step; reflexivity.
  - rewrite <- Ek. by destruct e, s1.
Qed.

Lemma jcc_runs opt b : runs_as (Jcc opt b).
Proof.
  intros s o s' E. cbn [gen fst snd cstep] in *. unfold gen_jcc in E. set (j := Z.land (Z.shiftr b 1) 7) in *.
  rewrite jcc_func in E. set (s1 := sync_cc_op s) in *. set (e := truth (Z.land b 1)) in *.
  set (s2 := s1 <| s_cc_op := CC_OP_DYNAMIC |>) in *.
  assert (H : exists s3, (exec_list (match fast_size gen_jcc_sub (jcc_fast opt (s_cc_op s) j) (s_cc_op s) j with
      | Some ot => [I_j_sub ot j e] | None => [I_set_T0_cc j; I_jnz_T0_label e] end) s1 = Some (o, s3)) /\ s' = known CC_OP_DYNAMIC s3).
  { destruct (fast_size _ _ _ _) as [ot|] eqn:Ef.
    - destruct (proj2 (fast_size_spec _ _ _ _) ot Ef) as [f Eg]. cbn [mbind option_bind] in E. rewrite Eg in E. cbn in E.
      injection E as <- <-. exists s1. step. rewrite Eg. split; [|done]. unfold gives. cbn.
      change s2 with (known CC_OP_DYNAMIC s1). by rewrite (jcc_sub_known ot j f _ s1 Eg).
    - cbn [mbind option_bind] in E. change s2 with (known CC_OP_DYNAMIC s1) in E. rewrite slow_known in E.
      destruct (gen_setcc_slow j s1) as [s4|] eqn:E4; [|done]. cbn in E. injection E as <- <-. exists s4.
      step. unfold tries. by rewrite E4. }
  destruct H as (s3 & Es & ->). eapply runs_to; [rewrite exec_synced; exact Es|done].
Qed.

Lemma gen_runs i : runs_as i.
Proof.
  destruct i; [apply alu_runs|apply test_runs|apply inc_runs|apply dec_runs|apply neg_runs|apply shift_runs|apply bt_runs
    |apply bsf_runs|apply bsr_runs|apply mul_runs|apply mul_runs|apply imul2_runs|apply setcc_runs|apply jcc_runs
    |apply clc_runs|apply stc_runs|apply cmc_runs|apply df_runs|apply df_runs|apply sahf_runs|apply lahf_runs|apply popf_runs
    |apply pushf_runs|apply end_block_runs].
Qed.

(** ** Live flags *)

(** The flags of [f] that are in the mask; the others are undefined. *)
Definition fmask (L : Z) (f : flags) : flags :=
  let keep (k : Z) (o : option bool) := if Z.testbit L k then o else None in
  mkFlags (keep 0 (CF f)) (keep 2 (PF f)) (keep 4 (AF f)) (keep 6 (ZF f)) (keep 7 (SF f)) (keep 11 (OF f)).
Definition amask (L : Z) (a : arch) : arch := a <| fl := fmask L (fl a) |>.

(** [f] is less defined than [g]. *)
Definition le_opt (o o' : option bool) : Prop := forall b, o = Some b -> o' = Some b.
Definition below (f g : flags) : Prop :=
  le_opt (CF f) (CF g) /\ le_opt (PF f) (PF g) /\ le_opt (AF f) (AF g) /\ le_opt (ZF f) (ZF g) /\
  le_opt (SF f) (SF g) /\ le_opt (OF f) (OF g).

Lemma agrees_below f g t : below f g -> agrees g t -> agrees f t.
Proof.
  intros (H0 & H1 & H2 & H3 & H4 & H5) (G0 & G1 & G2 & G3 & G4 & G5).
  assert (K : forall o o' b, le_opt o o' -> ok o' b -> ok o b).
  { intros [c|] o' b Ho Hb; [|done]. by rewrite (Ho c eq_refl) in Hb. }
  repeat split; eauto.
Qed.

Lemma sim_below a a' s : below (fl a') (fl a) -> df a' = df a -> sys a' = sys a -> sim a s -> sim a' s.
Proof.
  intros Hb Ed Es (t & Ht & Ha & Hr). exists t. split; [done|]. split; [by eapply agrees_below|].
  destruct Hr. unfold rest_ok. by rewrite Ed, Es.
Qed.

(** The flags an instruction reads and writes, as its micro operations do. *)
Definition reads_cond (j : Z) : Z := opc_read_flags (I_set_T0_cc j).
Definition reads (i : instr) : Z :=
  match i with
  | Alu OP_ADCL _ _ _ | Alu OP_SBBL _ _ _ | Inc _ _ | Dec _ _ | Cmc => CC_C
  | Shift OP_RCL _ _ _ | Shift OP_RCR _ _ _ => CC_C
  | Setcc b | Jcc _ b => reads_cond (b / 2 mod 8)
  | Lahf | Pushf => CC_OSZAPC
  | _ => 0
  end.
Definition writes (i : instr) : Z :=
  match i with
  | Setcc _ | Jcc _ _ | Cld | Std | Lahf | Pushf | EndBlock => 0
  | Clc | Stc | Cmc => CC_C
  | Sahf _ => 0xd5
  | Shift OP_ROL _ _ _ | Shift OP_ROR _ _ _ | Shift OP_RCL _ _ _ | Shift OP_RCR _ _ _ => Z.lor CC_O CC_C
  | _ => CC_OSZAPC
  end.

Lemma optimize_app l1 l2 L : optimize (l1 ++ l2) L =
  let '(m2, L) := optimize l2 L in let '(m1, L) := optimize l1 L in (m1 ++ m2, L).
Proof.
  induction l1 as [|op l1 IH]; cbn; [by destruct (optimize l2 L)|].
  rewrite IH. destruct (optimize l2 L) as [m2 L2]. destruct (optimize l1 L2) as [m1 L1]. by destruct (_ =? 0).
Qed.

Lemma live_nothing L : Z.lor (Z.land L (Z.lnot 0)) 0 = L.
Proof. by rewrite Z.lor_0_r, Z.land_m1_r. Qed.

Lemma optimize_sync c L : optimize (gen_sync c) L = (gen_sync c, L).
Proof. unfold gen_sync. destruct (negb _); [|done]. cbn [optimize opc_write_flags opc_read_flags opc_simpler]. rewrite live_nothing. by destruct (_ =? 0). Qed.

Lemma live_cons op l L :
  (optimize (op :: l) L).2 = Z.lor (Z.land (optimize l L).2 (Z.lnot (opc_write_flags op))) (opc_read_flags op).
Proof. cbn [optimize]. by destruct (optimize l L). Qed.
Lemma live_app l1 l2 L : (optimize (l1 ++ l2) L).2 = (optimize l1 (optimize l2 L).2).2.
Proof. rewrite optimize_app. destruct (optimize l2 L) as [m2 L2]. cbn [snd]. by destruct (optimize l1 L2). Qed.
Lemma live_sync c L : (optimize (gen_sync c) L).2 = L.
Proof. by rewrite optimize_sync. Qed.

Ltac live := rewrite ?live_cons, ?live_app, ?live_sync, ?live_cons; cbn [optimize snd opc_write_flags opc_read_flags];
  rewrite ?live_nothing.

Lemma reads_cond_sub ot j inv : opc_read_flags (I_set_T0_sub ot j) = reads_cond j /\ opc_read_flags (I_j_sub ot j inv) = reads_cond j.
Proof. done. Qed.

Lemma live_before i c L : (optimize (gen i c).1 L).2 = Z.lor (Z.land L (Z.lnot (writes i))) (reads i).
Proof.
  destruct i; cbn [gen fst]; try (by live).
  - destruct op; cbn [gen fst]; by live.
  - destruct op; cbn [gen fst]; by live.
  - destruct (jcc_op_spec b) as [-> _]. rewrite !live_app.
    assert (E : (optimize [I_out_T0] L).2 = L) by by live.
    assert (E2 : (optimize (if truth (Z.land b 1) then [I_xor_T0_1] else []) L).2 = L) by (destruct (truth _); by live).
    rewrite E, E2. destruct (fast_size _ _ _ _); by live.
  - destruct (jcc_op_spec b) as [-> _]. rewrite !live_app, live_sync. destruct (fast_size _ _ _ _); by live.
Qed.

Lemma testbit_live L w r k : 0 <= k ->
  Z.testbit (Z.lor (Z.land L (Z.lnot w)) r) k = (Z.testbit L k && negb (Z.testbit w k)) || Z.testbit r k.
Proof. intros Hk. by rewrite Z.lor_spec, Z.land_spec, Z.lnot_spec. Qed.

Lemma le_opt_refl o : le_opt o o.
Proof. by intros ?. Qed.
Lemma le_opt_keep (b c : bool) o : (b = true -> c = true) -> le_opt (if b then o else None) (if c then o else None).
Proof. intros H. destruct b; [rewrite H by done; apply le_opt_refl|by intros ?]. Qed.
Lemma le_opt_none b o : le_opt (if b : bool then o else None) o.
Proof. by destruct b; intros ?. Qed.

Lemma fmask_below L f : below (fmask L f) f.
Proof. repeat split; apply le_opt_none. Qed.
Lemma below_trans f g h : below f g -> below g h -> below f h.
Proof. intros (?&?&?&?&?&?) (?&?&?&?&?&?). repeat split; intros ? ?; naive_solver. Qed.

(** A mask of live flags before [w] is written and [r] read: what it keeps, flag by flag. *)
Lemma fmask_live L w r f : let M := Z.lor (Z.land L (Z.lnot w)) r in
  let keep (k : Z) (o : option bool) := if (Z.testbit L k && negb (Z.testbit w k)) || Z.testbit r k then o else None in
  fmask M f = mkFlags (keep 0 (CF f)) (keep 2 (PF f)) (keep 4 (AF f)) (keep 6 (ZF f)) (keep 7 (SF f)) (keep 11 (OF f)).
Proof. intros M keep. unfold fmask, M. by rewrite !testbit_live by lia. Qed.

(** Shifts whose count is not zero. *)
Definition counted (i : instr) : Prop := match i with Shift _ _ _ y => y mod 32 <> 0 | _ => True end.

(** A run that does not look at the flags that are not live. *)
Definition live_run (i : instr) : Prop := forall L a o a', astep i a = Some (o, a') -> counted i ->
  let M := Z.lor (Z.land L (Z.lnot (writes i))) (reads i) in
  exists am, astep i (amask M a) = Some (o, am) /\ below (fmask L (fl a')) (fl am) /\ df am = df a' /\ sys am = sys a'.

(** The new flags do not depend on the old ones, or on those that are read only. *)
Lemma live_by i (r : flags -> option (list Z * flags)) :
  (forall a, astep i a = with_flags (r (fl a)) a) ->
  (forall L f o g, r f = Some (o, g) -> counted i ->
    exists h, r (fmask (Z.lor (Z.land L (Z.lnot (writes i))) (reads i)) f) = Some (o, h) /\ below (fmask L g) h) ->
  live_run i.
Proof.
  intros Hi Hr L a o a' E Hc M. rewrite Hi in E. unfold with_flags in E. destruct (r (fl a)) as [[o1 g]|] eqn:Er; [|done].
  injection E as <- <-. destruct (Hr L (fl a) o1 g Er Hc) as (h & Eh & Hb). rewrite Hi. unfold with_flags.
  change (fl (amask M a)) with (fmask M (fl a)). unfold M. rewrite Eh. cbn [mbind option_bind].
  eexists. split; [reflexivity|]. by split.
Qed.

Lemma live_const i res : (forall a, astep i a = with_flags (Some res) a) -> live_run i.
Proof.
  intros Hi. apply (live_by i (fun _ => Some res)); [done|]. intros L f o g [= ->] _. exists g. split; [done|]. apply fmask_below.
Qed.

(** Only the carry is read. *)
Lemma live_carry i (r : option bool -> option (list Z * flags)) :
  Z.testbit (reads i) 0 = true -> (forall a, astep i a = with_flags (r (CF (fl a))) a) -> live_run i.
Proof.
  intros Hc Hi. apply (live_by i (fun f => r (CF f))); [done|]. intros L f o g E _.
  rewrite fmask_live, Hc, orb_true_r. cbn [CF]. exists g. split; [done|]. apply fmask_below.
Qed.

Lemma alu_live op ot x y : live_run (Alu op ot x y).
Proof.
  destruct op; try (by eapply live_const).
  - by apply (live_carry _ (fun c => c ← c; Some ([low ot (x + y + b2z c)], add_flags ot x y (b2z c)))).
  - by apply (live_carry _ (fun c => c ← c; Some ([low ot (x - y - b2z c)], sub_flags ot x y (b2z c)))).
Qed.

Lemma inc_live ot x : live_run (Inc ot x).
Proof. by apply (live_carry _ (fun c => Some ([low ot (x + 1)], (add_flags ot x 1 0) <| CF := c |>))). Qed.
Lemma dec_live ot x : live_run (Dec ot x).
Proof. by apply (live_carry _ (fun c => Some ([low ot (x - 1)], (sub_flags ot x 1 0) <| CF := c |>))). Qed.

Ltac flagwise := rewrite fmask_live; unfold fmask; repeat split; cbn [CF PF AF ZF SF OF];
  first [apply le_opt_none|apply le_opt_refl|apply le_opt_keep; intros ->; reflexivity].

Lemma rotated_live L r c v f : below (fmask L (f <| CF := c |> <| OF := v |>))
  ((fmask (Z.lor (Z.land L (Z.lnot (Z.lor CC_O CC_C))) r) f) <| CF := c |> <| OF := v |>).
Proof. flagwise. Qed.

Lemma carry_kept L w f : CF (fmask (Z.lor (Z.land L (Z.lnot w)) CC_C) f) = CF f.
Proof. rewrite fmask_live. cbn [CF]. by rewrite orb_true_r. Qed.

Lemma shift_live op ot x y : live_run (Shift op ot x y).
Proof.
  apply (live_by _ (fun f => '(r, g) ← shift_spec ot op x y f; Some ([r], g))).
  { intros a. cbn. unfold with_flags. by destruct (shift_spec ot op x y (fl a)) as [[??]|]. }
  intros L f o g E Hn. cbn [counted] in Hn. unfold shift_spec in *. rewrite (proj2 (Z.eqb_neq _ _) Hn) in *.
  destruct op; cbn [reads writes]; rewrite ?carry_kept;
    try (injection E as <- <-; eexists; split; [reflexivity|apply fmask_below || apply rotated_live]);
    (destruct (CF f) as [c|]; [|done]; injection E as <- <-; eexists; split; [reflexivity|apply rotated_live]).
Qed.

Lemma carry_live i (r : flags -> option (option bool)) :
  (forall a, astep i a = (c ← r (fl a); Some ([], a <| fl := (fl a) <| CF := c |> |>))) -> writes i = CC_C ->
  (forall L f, r (fmask (Z.lor (Z.land L (Z.lnot (writes i))) (reads i)) f) = r f) -> live_run i.
Proof.
  intros Hi Hw Hr. apply (live_by i (fun f => c ← r f; Some ([], f <| CF := c |>))).
  { intros a. rewrite Hi. unfold with_flags. by destruct (r (fl a)). }
  intros L f o g E _. rewrite Hr. destruct (r f) as [c|]; [|done]. injection E as <- <-. eexists. split; [reflexivity|].
  rewrite Hw. flagwise.
Qed.

Lemma clc_live : live_run Clc.
Proof. by apply (carry_live _ (fun _ => Some (Some false))). Qed.
Lemma stc_live : live_run Stc.
Proof. by apply (carry_live _ (fun _ => Some (Some true))). Qed.
Lemma cmc_live : live_run Cmc.
Proof.
  apply (carry_live _ (fun f => c ← CF f; Some (Some (negb c)))); [|done|].
  - intros a. cbn. by destruct (CF (fl a)).
  - intros L f. cbn [reads]. by rewrite carry_kept.
Qed.
Lemma sahf_live ah : live_run (Sahf ah).
Proof.
  apply (live_by _ (fun f => Some ([], (of_word ah) <| OF := OF f |>))); [done|].
  intros L f o g [= <- <-] _. eexists. split; [reflexivity|]. cbn [reads writes]. flagwise.
Qed.

(** Instructions that give something and leave the flags. *)
Lemma live_reader i (r : arch -> option (list Z)) : writes i = 0 ->
  (forall a, astep i a = (o ← r a; Some (o, a))) ->
  (forall L a, r (amask (Z.lor L (reads i)) a) = r a) -> live_run i.
Proof.
  intros Hw Hi Hr L a o a' E _ M. rewrite Hi in *. destruct (r a) as [o1|] eqn:Er; [|done]. injection E as <- <-.
  assert (HM : M = Z.lor L (reads i)) by (unfold M; by rewrite Hw, Z.land_m1_r). clearbody M. subst M.
  rewrite Hr, Er. cbn [mbind option_bind]. eexists. split; [reflexivity|]. split; [|done].
  unfold amask, fmask. repeat split; apply le_opt_keep; intros Hb; by rewrite Z.lor_spec, Hb.
Qed.

Lemma kept_bit L r k (o : option bool) : Z.testbit r k = true -> 0 <= k -> (if Z.testbit (Z.lor L r) k then o else None) = o.
Proof. intros H Hk. by rewrite Z.lor_spec, H, orb_true_r. Qed.

Lemma cond_kept L j f : 0 <= j < 8 -> cond_spec j (fmask (Z.lor L (reads_cond j)) f) = cond_spec j f.
Proof.
  intros Hj. revert j Hj. apply cond_cases; unfold fmask; cbn [cond_spec CF PF AF ZF SF OF]; by rewrite ?kept_bit by done.
Qed.

Lemma setcc_live b : live_run (Setcc b).
Proof.
  apply (live_reader _ (fun a => c ← cond_spec (b / 2 mod 8) (fl a); Some [b2z (xorb c (Z.odd b))])); [done| |].
  - intros a. cbn. by destruct (cond_spec _ _).
  - intros L a. cbn [reads]. change (fl (amask ?M a)) with (fmask M (fl a)). by rewrite cond_kept by apply (jcc_op_spec b).
Qed.
Lemma jcc_live opt b : live_run (Jcc opt b).
Proof.
  apply (live_reader _ (fun a => c ← cond_spec (b / 2 mod 8) (fl a); Some [b2z (xorb c (Z.odd b))])); [done| |].
  - intros a. cbn. by destruct (cond_spec _ _).
  - intros L a. cbn [reads]. change (fl (amask ?M a)) with (fmask M (fl a)). by rewrite cond_kept by apply (jcc_op_spec b).
Qed.

Lemma fmask_all L f : fmask (Z.lor L CC_OSZAPC) f = f.
Proof. unfold fmask. rewrite !kept_bit by done. by destruct f. Qed.
Lemma amask_all L a : amask (Z.lor L CC_OSZAPC) a = a.
Proof. unfold amask. rewrite fmask_all. by destruct a. Qed.

Lemma pushf_live : live_run Pushf.
Proof.
  apply (live_reader _ (fun a => e ← pushed a; Some [e])); [done|intros a; cbn; by destruct (pushed a)|].
  intros L a. cbn [reads]. by rewrite amask_all.
Qed.
Lemma lahf_live : live_run Lahf.
Proof.
  apply (live_reader _ (fun a => e ← pushed a; Some [e mod 2 ^ 8])); [done|intros a; cbn; by destruct (pushed a)|].
  intros L a. cbn [reads]. by rewrite amask_all.
Qed.
Lemma end_block_live : live_run EndBlock.
Proof. by apply (live_reader _ (fun a => Some [])). Qed.
Lemma cld_live : live_run Cld.
Proof.
  intros L a o a' E _ M. injection E as <- <-. unfold M. cbn [reads writes]. rewrite live_nothing.
  eexists. split; [reflexivity|]. split; [|done]. repeat split; apply le_opt_refl.
Qed.
Lemma std_live : live_run Std.
Proof.
  intros L a o a' E _ M. injection E as <- <-. unfold M. cbn [reads writes]. rewrite live_nothing.
  eexists. split; [reflexivity|]. split; [|done]. repeat split; apply le_opt_refl.
Qed.
Lemma popf_live cpl iopl dflag v : live_run (Popf cpl iopl dflag v).
Proof.
  intros L a o a' E _ M. injection E as <- <-. eexists. split; [reflexivity|]. split; [|done]. apply fmask_below.
Qed.

Lemma instr_live i : live_run i.
Proof.
  destruct i; first [apply alu_live|apply inc_live|apply dec_live|apply shift_live|apply setcc_live|apply jcc_live|apply clc_live
    |apply stc_live|apply cmc_live|apply cld_live|apply std_live|apply sahf_live|apply lahf_live|apply popf_live|apply pushf_live
    |apply end_block_live|by eapply live_const].
Qed.

(** ** The pass on one instruction *)

(** Its micro operation with a form without flags. *)
Definition removable (i : instr) : bool :=
  match i with
  | Alu OP_ADCL _ _ _ | Alu OP_SBBL _ _ _ | Alu OP_CMPL _ _ _ => false
  | Shift OP_RCL _ _ _ | Shift OP_RCR _ _ _ => false
  | Alu _ _ _ _ | Neg _ _ | Shift _ _ _ _ => true
  | _ => false
  end.

Definition plain (l : list opc) : Prop := Forall (fun op => opc_simpler op = op) l.

Lemma optimize_plain l L : plain l -> (optimize l L).1 = l.
Proof.
  induction 1 as [|op l Hop _ IH]; [done|]. cbn [optimize]. destruct (optimize l L) as [m L2]. cbn [fst] in *. subst m.
  rewrite Hop. by destruct (_ =? 0).
Qed.

Lemma plain_app l1 l2 : plain l1 -> plain l2 -> plain (l1 ++ l2).
Proof. intros. by apply Forall_app. Qed.
Lemma plain_sync c : plain (gen_sync c).
Proof. unfold gen_sync. destruct (negb _); repeat constructor. Qed.

Lemma gen_plain i c : removable i = false -> plain (gen i c).1.
Proof.
  intros H. destruct i; try done; cbn [gen fst]; try (by repeat constructor);
    try (by repeat first [constructor|apply plain_app|apply plain_sync]).
  - destruct op; try done; by repeat first [constructor|apply plain_app|apply plain_sync].
  - destruct op; try done; by repeat first [constructor|apply plain_app|apply plain_sync].
  - destruct op; by repeat constructor.
  - repeat apply plain_app; [destruct (fast_size _ _ _ _)|destruct (truth _)|]; by repeat first [constructor|apply plain_app|apply plain_sync].
  - apply plain_app; [apply plain_sync|]. destruct (fast_size _ _ _ _); by repeat constructor.
Qed.

(** One removable micro operation among others. *)
Lemma optimize_one l1 op l2 L : plain l1 -> plain l2 -> (optimize l2 L).2 = L ->
  (optimize (l1 ++ op :: l2) L).1 = l1 ++ (if Z.land L (opc_write_flags op) =? 0 then opc_simpler op else op) :: l2.
Proof.
  intros H1 H2 HL. rewrite optimize_app. cbn [optimize]. pose proof (optimize_plain l2 L H2) as E2.
  destruct (optimize l2 L) as [m2 L2]. cbn [fst snd] in *. subst m2 L2.
  pose proof (optimize_plain l1 (Z.lor (Z.land L (Z.lnot (opc_write_flags op))) (opc_read_flags op)) H1) as E1.
  destruct (optimize l1 _) as [m1 L1]. cbn [fst] in *. subst m1. by destruct (_ =? 0).
Qed.

Definition simple (i : instr) (c : Z) : list opc :=
  match i with
  | Alu OP_ADDL ot x y => [I_operands x y; I_addl_T0_T1; I_mov_T0 ot; I_nop]
  | Alu OP_SUBL ot x y => [I_operands x y; I_subl_T0_T1; I_mov_T0 ot; I_nop]
  | Alu OP_ANDL ot x y => [I_operands x y; I_andl_T0_T1; I_mov_T0 ot; I_nop]
  | Alu OP_ORL ot x y => [I_operands x y; I_orl_T0_T1; I_mov_T0 ot; I_nop]
  | Alu OP_XORL ot x y => [I_operands x y; I_xorl_T0_T1; I_mov_T0 ot; I_nop]
  | Neg ot x => [I_operands x 0; I_negl_T0; I_mov_T0 ot; I_nop]
  | Shift op ot x y => I_operands x y :: gen_sync c ++ [I_shift_T0_T1 op ot; I_mov_T0 ot]
  | _ => []
  end.

Lemma optimize_gen i c L :
  (optimize (gen i c).1 L).1 = if removable i && (Z.land L (writes i) =? 0) then simple i c else (gen i c).1.
Proof.
  destruct (removable i) eqn:Hr; [|by rewrite optimize_plain by by apply gen_plain].
  assert (Hm : forall ot, (optimize [I_mov_T0 ot] L).2 = L) by (intros ot; by live).
  destruct i; try done; cbn [andb].
  - destruct op; try done; cbn [gen fst];
      lazymatch goal with |- (optimize [?a; ?b; ?d; ?e] L).1 = _ =>
        change [a; b; d; e] with ([a; b; d] ++ e :: []); rewrite optimize_one by (done || by repeat constructor) end;
      cbn [writes opc_write_flags]; by destruct (_ =? 0).
  - cbn [gen fst]. change [?a; ?b; ?d; ?e] with ([a; b; d] ++ e :: []). rewrite optimize_one by (done || by repeat constructor).
    cbn [writes opc_write_flags]. by destruct (_ =? 0).
  - cbn [gen fst]. rewrite app_comm_cons, optimize_one; [|by constructor; [|apply plain_sync]|by repeat constructor|apply Hm].
    destruct op; try done; cbn [writes opc_write_flags simple]; by destruct (_ =? 0).
Qed.

(** What the list has to do: the same, with the live flags. *)
Definition step_to (l : list opc) (c' L : Z) (s : cc) (o : list Z) (a' : arch) : Prop :=
  exists s', exec_list l s = Some (o, s') /\ s_cc_op s' = s_cc_op s /\ sim (amask L a') (known c' s').

Lemma dead_none L f : Z.land L CC_OSZAPC = 0 -> fmask L f = mkFlags None None None None None None.
Proof.
  intros H. assert (Hk : forall k, Z.testbit CC_OSZAPC k = true -> Z.testbit L k = false).
  { intros k Hk. pose proof (Z.land_spec L CC_OSZAPC k) as E. by rewrite H, Z.bits_0, Hk, andb_true_r in E. }
  unfold fmask. by rewrite !Hk.
Qed.

Lemma agrees_none t : agrees (mkFlags None None None None None None) t.
Proof. by repeat split. Qed.

(** CC_SRC and CC_DST can be anything. *)
Lemma any_add ot src dst : exists t, encodes (CC_OP_ADDB + SHIFT ot) src dst t.
Proof. eexists. apply (enc_add ot (dst - src)). apply eqm_eq. lia. Qed.
Lemma any_sub ot src dst : exists t, encodes (CC_OP_SUBB + SHIFT ot) src dst t.
Proof. eexists. apply (enc_sub ot (dst + src)). apply eqm_eq. lia. Qed.
Lemma any_logic ot src dst : exists t, encodes (CC_OP_LOGICB + SHIFT ot) src dst t.
Proof. eexists. apply (enc_logic ot src dst). Qed.

Lemma dead_sim L a s c ot k : Z.land L CC_OSZAPC = 0 -> c = k + SHIFT ot -> 0 < k -> rest_ok a s ->
  (forall src dst, exists t, encodes (k + SHIFT ot) src dst t) -> sim (amask L a) (known c s).
Proof.
  intros HL -> Hk Hr He. destruct (He (CC_SRC s) (CC_DST s)) as [t Ht]. exists t.
  split; [apply (lazy_static _ (k + SHIFT ot)); [done|destruct ot; cbn; lia|done]|].
  split; [|done]. unfold amask. cbn [fl]. change (fl (a <| fl := ?f |>)) with f. rewrite dead_none by done. apply agrees_none.
Qed.

Lemma rotate_nothing w x : 0 < w -> rotate w x 0 = x mod 2 ^ w /\ rotate w x w = x mod 2 ^ w.
Proof.
  intros Hw. pose proof (Z.mod_pos_bound x (2 ^ w) ltac:(lia)). unfold rotate. split.
  - rewrite Z.sub_0_r, Z.mul_1_r, (Z.div_small (x mod 2 ^ w)), Z.add_0_r by lia. by apply Z.mod_small.
  - rewrite Z.sub_diag, Z.div_1_r, Z.add_comm, Z.mod_add by lia. by apply Z.mod_small.
Qed.

(** The forms without flags give the same bits. *)
Lemma simple_result op ot x y f r g s : shift_spec ot op x y f = Some (r, g) -> y mod 32 <> 0 ->
  op <> OP_RCL -> op <> OP_RCR -> T0 s = x -> T1 s = y ->
  exists z, op_shift_T0_T1 op ot s = Some (s <| T0 := z |>) /\ low ot z = r.
Proof.
  intros E Hy H1 H2 E0 E1. unfold shift_spec in E. rewrite (proj2 (Z.eqb_neq _ _) Hy) in E. pose proof (bits_range ot).
  pose proof (Z.mod_pos_bound y 32 ltac:(lia)) as Hn.
  assert (Hm : 0 <= y mod 32 mod DATA_BITS ot < DATA_BITS ot) by (apply Z.mod_pos_bound; lia).
  assert (Em : Z.land y (SHIFT_MASK ot) = y mod 32 mod DATA_BITS ot).
  { rewrite land_shift_mask. symmetry. apply Z.mod_mod_divide. by destruct ot; [exists 4|exists 2|exists 1]. }
  assert (Hz : s = s <| T0 := T0 s |>) by by destruct s.
  destruct op; try done; injection E as <- _; cbn [op_shift_T0_T1].
  - unfold op_rol_T0_T1, truth. rewrite E1, Em, E0, land_data_mask. destruct (Z.eqb_spec (y mod 32 mod DATA_BITS ot) 0) as [->|_].
    + exists x. rewrite <- E0, <- Hz. split; [done|]. symmetry. apply rotate_nothing. lia.
    + eexists. split; [reflexivity|]. by apply rol_bits.
  - unfold op_ror_T0_T1, truth. rewrite E1, Em, E0, land_data_mask. destruct (Z.eqb_spec (y mod 32 mod DATA_BITS ot) 0) as [->|_].
    + exists x. rewrite <- E0, <- Hz, Z.sub_0_r. split; [done|]. symmetry. apply rotate_nothing. lia.
    + eexists. split; [reflexivity|]. by apply ror_bits.
  - unfold op_shl_T0_T1. rewrite E1, land31, E0. eexists. split; [reflexivity|]. apply shl_low. lia.
  - unfold op_shr_T0_T1. rewrite E1, land31, E0, land_data_mask. eexists. split; [reflexivity|].
    rewrite Z.shiftr_div_pow2 by lia. pose proof (low_range ot x). unfold low at 1. apply Z.mod_small.
    split; [apply Z.div_pos; lia|]. apply Z.div_lt_upper_bound; [lia|]. pose proof (Z.pow_pos_nonneg 2 (y mod 32)). nia.
  - unfold op_shl_T0_T1. rewrite E1, land31, E0. eexists. split; [reflexivity|]. apply shl_low. lia.
  - unfold op_sar_T0_T1. rewrite E1, land31, E0, data_stype, Z.shiftr_div_pow2 by lia. eexists. split; [reflexivity|]. apply low_u32.
Qed.

Lemma known_twice c k s : known c (known k s) = known c s.
Proof. done. Qed.

Lemma kept_step i L a o a' s : astep i a = Some (o, a') -> counted i ->
  sim (amask (Z.lor (Z.land L (Z.lnot (writes i))) (reads i)) a) s ->
  step_to (gen i (s_cc_op s)).1 (gen i (s_cc_op s)).2 L s o a'.
Proof.
  intros E Hc Hs. destruct (instr_live i L a o a' E Hc) as (am & Em & Hb & Hd & Hy).
  destruct (instr_simulated i _ s o am Hs Em) as (s1 & Es & H1). destruct (gen_runs i s o s1 Es) as [Ex Ec].
  exists (known (s_cc_op s) s1). split; [done|]. split; [done|]. rewrite known_twice, <- Ec, known_same.
  by apply (sim_below am).
Qed.

(** The end of an instruction whose flag computation is removed: it gives the low bits of
    its result. *)
Lemma removed_to ot l s s1 z r k c' L a : exec_list l s = Some ([DATA_TYPE ot z], s1) -> eqm z r ->
  DF s1 = DF s -> eflags s1 = eflags s -> Z.land L CC_OSZAPC = 0 -> rest_ok a s -> c' = k + SHIFT ot -> 0 < k ->
  (forall src dst, exists t, encodes (k + SHIFT ot) src dst t) -> step_to l c' L s [low ot r] a.
Proof.
  intros El Hz Hd He HL Hr Ec Hk Ht. exists s1. rewrite El, (result_eqm ot _ _ Hz). split; [done|].
  split; [by apply (exec_keeps l s _ s1 El)|]. apply (dead_sim L a s1 c' ot k); try done.
  unfold rest_ok. by rewrite Hd, He.
Qed.

Lemma removed_alu op ot x y L a o a' s : astep (Alu op ot x y) a = Some (o, a') -> removable (Alu op ot x y) = true ->
  Z.land L CC_OSZAPC = 0 -> rest_ok a s ->
  step_to (simple (Alu op ot x y) (s_cc_op s)) (gen (Alu op ot x y) (s_cc_op s)).2 L s o a'.
Proof.
  intros E Hr HL Ha. destruct op; try done; injection E as <- <-; cbn [gen snd simple].
  - eapply removed_to; [reflexivity|apply u32_eqm|done..|apply any_add].
  - eapply removed_to; [reflexivity|reflexivity|done..|apply any_logic].
  - eapply removed_to; [reflexivity|reflexivity|done..|apply any_logic].
  - eapply removed_to; [reflexivity|apply u32_eqm|done..|apply any_sub].
  - eapply removed_to; [reflexivity|reflexivity|done..|apply any_logic].
Qed.

Lemma removed_neg ot x L a o a' s : astep (Neg ot x) a = Some (o, a') -> Z.land L CC_OSZAPC = 0 -> rest_ok a s ->
  step_to (simple (Neg ot x) (s_cc_op s)) (gen (Neg ot x) (s_cc_op s)).2 L s o a'.
Proof.
  intros E HL Ha. injection E as <- <-. cbn [gen snd simple].
  eapply removed_to; [reflexivity|apply u32_eqm|done..|apply any_sub].
Qed.

Lemma none_below f : below (mkFlags None None None None None None) f.
Proof. by repeat split; intros ?. Qed.

Lemma shift_below op ot x y L f r g : let i := Shift op ot x y in
  shift_spec ot op x y f = Some (r, g) -> counted i -> removable i = true -> Z.land L (writes i) = 0 ->
  below (fmask L g) (fmask (Z.lor (Z.land L (Z.lnot (writes i))) (reads i)) f).
Proof.
  intros i Es Hc Hr HL. unfold i in *. unfold shift_spec in Es. rewrite (proj2 (Z.eqb_neq _ _) Hc) in Es.
  destruct op; try done; cbn [writes] in HL; try (rewrite dead_none by done; apply none_below).
  all: assert (Hk : forall k, Z.testbit (Z.lor CC_O CC_C) k = true -> Z.testbit L k = false)
    by (intros k Hk; pose proof (Z.land_spec L (Z.lor CC_O CC_C) k) as E; by rewrite HL, Z.bits_0, Hk, andb_true_r in E).
  all: injection Es as _ <-; rewrite fmask_live; unfold fmask; rewrite (Hk 0), (Hk 11) by done; repeat split; cbn [CF PF AF ZF SF OF];
    first [by intros ?|apply le_opt_keep; intros ->; reflexivity].
Qed.

(** A shift without flags leaves those of before, of which none it would write is live. *)
Lemma removed_shift op ot x y L a o a' s : let i := Shift op ot x y in
  astep i a = Some (o, a') -> counted i -> removable i = true -> Z.land L (writes i) = 0 ->
  sim (amask (Z.lor (Z.land L (Z.lnot (writes i))) (reads i)) a) s ->
  step_to (simple i (s_cc_op s)) (gen i (s_cc_op s)).2 L s o a'.
Proof.
  intros i E Hc Hr HL (t & Ht & Ha & Hrest). unfold i in *. cbn [astep] in E. unfold with_flags in E.
  destruct (shift_spec ot op x y (fl a)) as [[r g]|] eqn:Es; [|done]. cbn in E. injection E as <- <-.
  destruct (loaded x y s t Ht) as (s1 & Es1 & _ & _ & E0 & E1 & Ed & Ee).
  destruct (simple_result op ot x y _ r g s1 Es Hc ltac:(by intros ->) ltac:(by intros ->) E0 E1) as (z & Ez & Hz).
  exists (s1 <| T0 := z |>). cbn [simple gen snd]. rewrite exec_operands_synced, Es1. step. unfold tries. rewrite Ez. cbn.
  split; [by rewrite data_type, Hz|]. split; [change (s_cc_op s1 = s_cc_op s); by rewrite <- Es1, synced_cc_op|].
  exists t. split; [|split].
  - apply lazy_dynamic; [done|]. change (encodes (CC_OP s1) (CC_SRC s1) (CC_DST s1) t). rewrite <- Es1. by apply (lazy_sync (load x y s)).
  - refine (agrees_below _ _ _ _ Ha). by apply (shift_below op ot x y _ _ r).
  - destruct Hrest as [H1 H2]. split; [exact (eq_trans Ed H1)|exact (eq_trans Ee H2)].
Qed.


(** The pass on one instruction. *)
Lemma opt_step i L a o a' s : astep i a = Some (o, a') -> counted i ->
  sim (amask (optimize (gen i (s_cc_op s)).1 L).2 a) s ->
  step_to (optimize (gen i (s_cc_op s)).1 L).1 (gen i (s_cc_op s)).2 L s o a'.
Proof.
  rewrite live_before, optimize_gen. intros E Hc Hs. destruct (removable i) eqn:Hr; [|by apply (kept_step i L a o a' s)].
  destruct (Z.eqb_spec (Z.land L (writes i)) 0) as [HL|_]; [|by apply (kept_step i L a o a' s)].
  cbn [andb]. assert (Hrest : rest_ok a s) by by destruct Hs as (_ & _ & _ & Hs).
  destruct i; try done.
  - apply (removed_alu op ot x y L a o a' s E Hr); [|done]. by destruct op.
  - by apply (removed_neg ot x L a o a' s).
  - by apply (removed_shift op ot x y L a o a' s E Hc Hr HL).
Qed.

(** ** Blocks *)

Lemma sim_mask L a s : sim a s -> sim (amask L a) s.
Proof. by apply sim_below; [apply fmask_below|..]. Qed.

Lemma sync_same_known s : known CC_OP_DYNAMIC (sync_cc_op s) = gen_eob s.
Proof. done. Qed.

Lemma block_opt l : forall a o a' s, run astep l a = Some (o, a') -> Forall counted l ->
  sim (amask (optimize (gen_block l (s_cc_op s)) CC_OSZAPC).2 a) s ->
  exists s', exec_list (optimize (gen_block l (s_cc_op s)) CC_OSZAPC).1 s = Some (o, s') /\ s_cc_op s' = s_cc_op s /\
    sim a' (known CC_OP_DYNAMIC s').
Proof.
  induction l as [|i l IH]; intros a o a' s E Hc Hs; cbn [run gen_block] in *.
  - injection E as <- <-. rewrite optimize_sync in *. exists (sync_cc_op s). split; [apply exec_sync|].
    split; [apply synced_cc_op|]. cbn [snd] in Hs. rewrite <- (Z.lor_0_l CC_OSZAPC), amask_all in Hs.
    destruct (end_block_ok a s [] a Hs eq_refl) as (s1 & E1 & H1). by injection E1 as <-.
  - apply Forall_cons in Hc as [Hc Hcl]. destruct (astep i a) as [[o1 a1]|] eqn:E1; [|done]. cbn in E.
    destruct (run astep l a1) as [[os a2]|] eqn:E2; [|done]. injection E as <- <-.
    destruct (gen i (s_cc_op s)) as [ops c'] eqn:Eg. rewrite optimize_app in *.
    destruct (optimize (gen_block l c') CC_OSZAPC) as [m2 L2] eqn:Em.
    pose proof (opt_step i L2 a o1 a1 s E1 Hc) as Hstep. rewrite Eg in Hstep. cbn [fst snd] in Hstep.
    destruct (optimize ops L2) as [m1 L1]. cbn [fst snd] in *.
    destruct (Hstep Hs) as (s1 & Ex & Ek & H1).
    destruct (IH a1 os a2 (known c' s1) E2 Hcl) as (s2 & Ex2 & Ek2 & H2).
    { change (s_cc_op (known c' s1)) with c'. by rewrite Em. }
    change (s_cc_op (known c' s1)) with c' in *. rewrite Em in Ex2. cbn [fst] in Ex2.
    rewrite exec_app, Ex. cbn [mbind option_bind]. rewrite <- (known_same s1), Ek, <- (known_twice _ c'), exec_list_known, Ex2.
    cbn. eexists. split; [reflexivity|]. by split.
Qed.

Lemma concat_blocks l : concat (blocks l) = l.
Proof.
  induction l as [|i l IH]; [done|]. cbn. destruct (ends_block i); cbn; [by rewrite IH|].
  destruct (blocks l) as [|b bs]; cbn in *; by rewrite <- IH.
Qed.

Lemma run_app {S} (f : instr -> S -> option (list Z * S)) l1 l2 s o s' : run f (l1 ++ l2) s = Some (o, s') ->
  exists o1 s1 o2, run f l1 s = Some (o1, s1) /\ run f l2 s1 = Some (o2, s') /\ o = o1 ++ o2.
Proof.
  revert s o. induction l1 as [|i l1 IH]; intros s o E; cbn in *.
  - by exists [], s, o.
  - destruct (f i s) as [[oi si]|]; [|done]. cbn in *. destruct (run f (l1 ++ l2) si) as [[os sf]|] eqn:Er; [|done].
    injection E as <- <-. destruct (IH si os Er) as (o1 & s1 & o2 & -> & E2 & ->). cbn. exists (oi ++ o1), s1, o2.
    by rewrite app_assoc.
Qed.

Lemma run_blocks_ok bs : forall a o a' s, run astep (concat bs) a = Some (o, a') -> Forall counted (concat bs) ->
  s_cc_op s = CC_OP_DYNAMIC -> sim a s ->
  exists s', run_blocks bs s = Some (o, s') /\ s_cc_op s' = CC_OP_DYNAMIC /\ sim a' s'.
Proof.
  induction bs as [|b bs IH]; intros a o a' s E Hc Hk Hs; cbn in *.
  - injection E as <- <-. by exists s.
  - apply Forall_app in Hc as [Hb Hbs]. apply run_app in E as (o1 & a1 & o2 & E1 & E2 & ->).
    destruct (block_opt b a o1 a1 s E1 Hb (sim_mask _ a s Hs)) as (s1 & Ex & Ek & H1). rewrite Hk in *.
    unfold optimize_flags. rewrite Ex. cbn. rewrite <- Ek, known_same in H1.
    destruct (IH a1 o2 a' s1 E2 Hbs Ek H1) as (s2 & -> & Ek2 & H2). cbn. by exists s2.
Qed.

(** C20. The removal of flag computations that are not needed changes nothing a guest can
    see: the optimised code of the blocks of any sequence of instructions that reads no
    undefined flag and shifts by no count of zero gives the results, conditions and pushed
    flags of the manual's machine, and leaves every defined flag of its register. *)
Theorem optimized_flags (l : list instr) (s : cc) (o : list Z) (a : arch) :
  run astep l (arch_of (eflags s)) = Some (o, a) -> Forall counted l ->
  exists s1 s2, run_blocks (blocks l) (enter s) = Some (o, s1) /\ leave s1 = Some s2 /\ register a (eflags s2).
Proof.
  intros E Hc. rewrite <- (concat_blocks l) in E, Hc.
  destruct (run_blocks_ok (blocks l) _ o a (enter s) E Hc eq_refl (enter_ok s)) as (s1 & E1 & Ek & H1).
  destruct (leave_ok a s1 H1 (clean_run _ _ o a E (clean_enter _))) as (s2 & E2 & H2).
  exists s1, s2. split; [done|]. split; [|done]. rewrite <- E2. unfold gen_eob, sync_cc_op. rewrite Ek. cbn.
  change (s1 <| s_cc_op := CC_OP_DYNAMIC |>) with (known CC_OP_DYNAMIC s1). by rewrite <- Ek, known_same.
Qed.

(** An addition whose flags nothing needs, a rotation whose zero flag comes from the
    subtraction before it, a jump, and the flags pushed in the next block. *)
Lemma optimized_flags_witness :
  let l := [Alu OP_ADDL OT_LONG 1 2; Alu OP_SUBL OT_BYTE 4 4; Shift OP_ROL OT_WORD 0x8001 1; Setcc 4; Jcc true 0;
    Shift OP_SHL OT_BYTE 5 3; Alu OP_XORL OT_LONG 6 7; Alu OP_ADDL OT_BYTE 0x80 0x80; Pushf] in
  let s := mkCC 0 0 0 0 0 0 0 1 0x202 0 in
  let o := [3; 0; 3; 1; 1; 40; 1; 0; 0xa47] in
  exists a s1 s2, run astep l (arch_of (eflags s)) = Some (o, a) /\
    run_blocks (blocks l) (enter s) = Some (o, s1) /\ leave s1 = Some s2 /\ register a (eflags s2).
Proof.
  intros l s o. set (r := run astep l (arch_of (eflags s))). vm_compute in r.
  match goal with r := Some (_, ?a') |- _ => exists a' end.
  destruct (optimized_flags l s o _ ltac:(vm_compute; reflexivity) ltac:(by repeat constructor)) as (s1 & s2 & H).
  exists s1, s2. split; [vm_compute; reflexivity|exact H].
Defined.

(** C21. A shift by a count of zero, of which the pass does not know that it keeps the flags,
    loses them: the manual's machine tests the sum, the code whether CC_DST, which the
    addition no longer sets, was zero. *)
Theorem zero_shift_loses_flags (x y v n : Z) (a : arch) (s : cc) : n mod 32 = 0 ->
  let l := [Alu OP_ADDL OT_LONG x y; Shift OP_SHL OT_LONG v n; Setcc 4] in
  fst <$> run astep l a = Some [low OT_LONG (x + y); low OT_LONG v; b2z (low OT_LONG (x + y) =? 0)] /\
  fst <$> run_blocks (blocks l) s = Some [low OT_LONG (x + y); low OT_LONG v; b2z (low OT_LONG (CC_DST s) =? 0)].
Proof.
  intros Hn l. split.
  - unfold l. cbn [run astep alu_spec with_flags mbind option_bind]. unfold with_flags, shift_spec. rewrite Hn. cbn -[low].
    change (4 / 2 mod 8) with 2. cbn -[low]. rewrite Z.add_0_r. by destruct (_ =? 0).
  - change (blocks l) with [l]. cbn [run_blocks].
    change (optimize_flags (gen_block l CC_OP_DYNAMIC)) with
      ([I_operands x y; I_addl_T0_T1; I_mov_T0 OT_LONG; I_nop; I_operands v n; I_set_cc_op (CC_OP_ADDB + SHIFT OT_LONG);
        I_shift_T0_T1_cc OP_SHL OT_LONG; I_mov_T0 OT_LONG] ++ [I_set_T0_cc JCC_Z; I_out_T0]).
    set (s1 := op_set_cc_op (CC_OP_ADDB + SHIFT OT_LONG) (load v n (op_addl_T0_T1 (load x y s)))).
    assert (Hs : op_shl_T0_T1_cc OT_LONG s1 = s1).
    { unfold op_shl_T0_T1_cc. change (T1 s1) with n. by rewrite land31, Hn. }
    destruct (any_add OT_LONG (CC_SRC s) (CC_DST s)) as [t Ht].
    assert (Hc : gen_setcc_slow JCC_Z s1 = Some (s1 <| T0 := b2z (cond_status JCC_Z t) |>)) by (apply slow_cond; [done|exact Ht]).
    destruct (zero_sign (CC_OP_ADDB + SHIFT OT_LONG) OT_LONG _ _ _ ltac:(by split) eq_refl Ht) as [HZ _].
    rewrite exec_app. step. cbn [gen_op_shift_T0_T1_cc tries mbind option_bind]. fold s1.
    rewrite Hs. step. unfold tries. rewrite Hc. cbn -[low u32 DATA_TYPE b2z]. rewrite HZ, !data_type, low_u32. done.
Qed.

Lemma zero_shift_loses_flags_witness : 0 mod 32 = 0 /\
  fst <$> run astep [Alu OP_ADDL OT_LONG 1 0xffffffff; Shift OP_SHL OT_LONG 5 0; Setcc 4] (arch_of 2) = Some [0; 5; 1] /\
  fst <$> run_blocks (blocks [Alu OP_ADDL OT_LONG 1 0xffffffff; Shift OP_SHL OT_LONG 5 0; Setcc 4]) (mkCC 0 0 0 0 0 7 0 1 2 0) =
    Some [0; 5; 0].
Proof.
  split; [done|].
  destruct (zero_shift_loses_flags 1 0xffffffff 5 0 (arch_of 2) (mkCC 0 0 0 0 0 7 0 1 2 0) eq_refl) as [-> ->].
  by vm_compute.
Defined.

End FlagsLive.
