(* ===== verification/Savevm.v ===== *)
(** * Saved machines: the byte stream

    The buffered files a virtual machine is saved to and restored from
    (src/MemCheck-qemu/vl.c, "savevm/loadvm support"), for regular files.  [SaveFile] is
    the interface the devices' save and load functions use: bytes put are appended to a
    stream, bytes got are taken from one.  The buffering of [QEMUFile] implements it,
    and the big endian integers are built on it. *)

From Stdlib Require Import String.
From S2P Require Import Prelude Bytes.

Module Savevm.

(** ** Files *)

(** [fwrite] of [bs] at offset [o] of a file. *)
Definition write_at (o : nat) (bs c : list Z) : list Z :=
  resize o 0 c ++ bs ++ drop (o + length bs) c.

(** [fread] of at most [n] bytes at offset [o]. *)
Definition read_at (o n : nat) (c : list Z) : list Z := take n (drop o c).

(** ** The interface *)

Class SaveFile (F : Type) := {
  qemu_put_byte : Z -> F -> F;
  qemu_get_byte : F -> Z * F;
  (** [qemu_put_buffer(f, bytes, size)] *)
  put_buf : list Z -> F -> F;
  (** [qemu_get_buffer(f, buf, size)]: the bytes stored in [buf] *)
  get_buf : nat -> F -> list Z * F;
  (** the file is being written: its contents so far and the position *)
  writing : F -> list Z -> nat -> Prop;
  (** the file is being read: the bytes that are left *)
  reading : F -> list Z -> Prop;
  put_byte_law f c n v : writing f c n -> writing (qemu_put_byte v f) (write_at n [u8 v] c) (S n);
  get_byte_law f c : reading f c ->
    (qemu_get_byte f).1 = default 0 (head c) /\ reading (qemu_get_byte f).2 (tail c);
  put_buf_law f c n bs : writing f c n -> writing (put_buf bs f) (write_at n bs c) (n + length bs);
  get_buf_law f c n : reading f c ->
    (get_buf n f).1 = take n c /\ reading (get_buf n f).2 (drop n c);
}.

(** ** Big endian integers *)

Section Integers.
Context {F : Type} `{!SaveFile F}.

Definition qemu_put_be16 (v : Z) (f : F) : F :=
  let f := qemu_put_byte (Z.shiftr v 8) f in qemu_put_byte v f.

Definition qemu_put_be32 (v : Z) (f : F) : F :=
  let f := qemu_put_byte (Z.shiftr v 24) f in
  let f := qemu_put_byte (Z.shiftr v 16) f in
  let f := qemu_put_byte (Z.shiftr v 8) f in
  qemu_put_byte v f.

Definition qemu_put_be64 (v : Z) (f : F) : F :=
  let f := qemu_put_be32 (u32 (Z.shiftr v 32)) f in qemu_put_be32 (u32 v) f.

Definition qemu_get_be16 (f : F) : Z * F :=
  let '(a, f) := qemu_get_byte f in
  let '(b, f) := qemu_get_byte f in
  (Z.lor (u32 (Z.shiftl a 8)) b, f).

Definition qemu_get_be32 (f : F) : Z * F :=
  let '(a, f) := qemu_get_byte f in
  let '(b, f) := qemu_get_byte f in
  let '(c, f) := qemu_get_byte f in
  let '(d, f) := qemu_get_byte f in
  (Z.lor (Z.lor (Z.lor (u32 (Z.shiftl a 24)) (u32 (Z.shiftl b 16))) (u32 (Z.shiftl c 8))) d, f).

Definition qemu_get_be64 (f : F) : Z * F :=
  let '(hi, f) := qemu_get_be32 f in
  let '(lo, f) := qemu_get_be32 f in
  (Z.lor (u64 (Z.shiftl hi 32)) lo, f).

(** [qemu_get_8s(f, &x)] stores the byte in a [uint8_t]. *)
Definition qemu_get_8s (f : F) : Z * F :=
  let '(b, f) := qemu_get_byte f in (u8 b, f).
End Integers.

(** ** [QEMUFile] *)

Definition IO_BUF_SIZE : Z := 32768.

Record QEMUFile := mkFile {
  outfile : list Z;
  is_writable : bool;
  buf_offset : Z;
  buf_index : Z;
  buf_size : Z;
  buf : Z -> Z;
}.

#[global] Instance eta_file : Eta QEMUFile := fun s =>
  mkFile (outfile s) (is_writable s) (buf_offset s) (buf_index s) (buf_size s) (buf s).

(** [qemu_fopen(filename, mode)]: [content] is what the file holds, [None] if [fopen]
    fails; mode "wb" empties it. *)
Definition qemu_fopen (mode : string) (content : option (list Z)) : option QEMUFile :=
  if String.eqb mode "wb" then
    match content with None => None | Some _ => Some (mkFile [] true 0 0 0 (fun _ => 0)) end
  else if String.eqb mode "rb" then
    match content with None => None | Some c => Some (mkFile c false 0 0 0 (fun _ => 0)) end
  else None.

Definition qemu_fflush (f : QEMUFile) : QEMUFile :=
  if negb (is_writable f) then f
  else if 0 <? buf_index f then
    let bytes := mem_read (buf f) 0 (Z.to_nat (buf_index f)) in
    let f := f <| outfile := write_at (Z.to_nat (buf_offset f)) bytes (outfile f) |> in
    let f := f <| buf_offset := buf_offset f + buf_index f |> in
    f <| buf_index := 0 |>
  else f.

Definition qemu_fill_buffer (f : QEMUFile) : QEMUFile :=
  if is_writable f then f
  else
    let bytes := read_at (Z.to_nat (buf_offset f)) (Z.to_nat IO_BUF_SIZE) (outfile f) in
    let len := Z.of_nat (length bytes) in
    let f := f <| buf := mem_write (buf f) 0 bytes |> in
    let f := f <| buf_index := 0 |> in
    let f := f <| buf_size := len |> in
    f <| buf_offset := buf_offset f + len |>.

(** [qemu_fclose(f)]: what the file holds at the end. *)
Definition qemu_fclose (f : QEMUFile) : list Z :=
  outfile (if is_writable f then qemu_fflush f else f).

Definition file_put_byte (v : Z) (f : QEMUFile) : QEMUFile :=
  let f := f <| buf := mem_upd (buf f) (buf_index f) (u8 v) |> in
  let f := f <| buf_index := buf_index f + 1 |> in
  if IO_BUF_SIZE <=? buf_index f then qemu_fflush f else f.

Definition file_get_byte (f : QEMUFile) : Z * QEMUFile :=
  let f' := if buf_size f <=? buf_index f then qemu_fill_buffer f else f in
  if buf_size f' <=? buf_index f' then (0, f')
  else (buf f' (buf_index f'), f' <| buf_index := buf_index f' + 1 |>).

(** The loops copy at least one byte each time round, so the size is enough fuel. *)
Fixpoint qemu_put_buffer (fuel : nat) (bytes : list Z) (f : QEMUFile) : QEMUFile :=
  match fuel, bytes with
  | S fuel', _ :: _ =>
    let l := Z.to_nat (Z.min (IO_BUF_SIZE - buf_index f) (Z.of_nat (length bytes))) in
    let f := f <| buf := mem_write (buf f) (buf_index f) (take l bytes) |> in
    let f := f <| buf_index := buf_index f + Z.of_nat l |> in
    let f := if IO_BUF_SIZE <=? buf_index f then qemu_fflush f else f in
    qemu_put_buffer fuel' (drop l bytes) f
  | _, _ => f
  end.

(** The bytes read (their number is the result of the C function). *)
Fixpoint qemu_get_buffer (fuel : nat) (size : Z) (f : QEMUFile) : list Z * QEMUFile :=
  match fuel with
  | O => ([], f)
  | S fuel' =>
    if size <=? 0 then ([], f) else
    let f' := if buf_size f - buf_index f =? 0 then qemu_fill_buffer f else f in
    let l := buf_size f' - buf_index f' in
    if l =? 0 then ([], f') else
    let l := Z.min l size in
    let bytes := mem_read (buf f') (buf_index f') (Z.to_nat l) in
    let '(rest, f'') := qemu_get_buffer fuel' (size - l) (f' <| buf_index := buf_index f' + l |>) in
    (bytes ++ rest, f'')
  end.

Definition qemu_ftell (f : QEMUFile) : Z := buf_offset f - buf_size f + buf_index f.

Inductive whence : Type := SEEK_SET | SEEK_CUR | SEEK_END.

Definition qemu_fseek (f : QEMUFile) (pos : Z) (w : whence) : Z * QEMUFile :=
  let go (pos : Z) :=
    if is_writable f then (pos, (qemu_fflush f) <| buf_offset := pos |>)
    else (pos, f <| buf_offset := pos |> <| buf_index := 0 |> <| buf_size := 0 |>) in
  match w with
  | SEEK_SET => go pos
  | SEEK_CUR => go (pos + qemu_ftell f)
  | SEEK_END => (-1, f)
  end.

(** ** Lemmas on files *)

Lemma write_at_le o bs c : (o <= length c)%nat ->
  write_at o bs c = take o c ++ bs ++ drop (o + length bs) c.
Proof. intros H. unfold write_at. by rewrite resize_le. Qed.

Lemma write_at_nil o c : (o <= length c)%nat -> write_at o [] c = c.
Proof.
  intros H. rewrite write_at_le by done. simpl. rewrite Nat.add_0_r. apply take_drop.
Qed.

Lemma write_at_end bs c : write_at (length c) bs c = c ++ bs.
Proof. rewrite write_at_le, take_ge, drop_ge, app_nil_r by lia. done. Qed.

Lemma length_write_at o bs c : (o <= length c)%nat ->
  length (write_at o bs c) = Nat.max (length c) (o + length bs).
Proof. intros H. rewrite write_at_le by done. rewrite !length_app, length_take, length_drop. lia. Qed.

Lemma write_at_app o a b c : (o <= length c)%nat ->
  write_at o (a ++ b) c = write_at (o + length a) b (write_at o a c).
Proof.
  intros H. rewrite (write_at_le (o + length a)) by (rewrite length_write_at by done; lia).
  rewrite !(write_at_le o) by done. rewrite length_app.
  assert (Ht : length (take o c) = o) by (rewrite length_take; lia).
  set (d := drop (o + length a) c).
  assert (HX : length (take o c ++ a) = (o + length a)%nat) by (rewrite length_app; lia).
  rewrite (app_assoc (take o c) a d). rewrite (take_app_length' _ d) by lia.
  rewrite drop_app_ge by lia. rewrite HX. unfold d. rewrite drop_drop, <- !app_assoc.
  do 4 f_equal. lia.
Qed.

Lemma mem_read_app m n1 : forall n2 a,
  mem_read m a (n1 + n2) = mem_read m a n1 ++ mem_read m (a + Z.of_nat n1) n2.
Proof.
  induction n1 as [|n1 IH]; intros n2 a; simpl; [by rewrite Z.add_0_r|].
  f_equal. rewrite IH. do 2 f_equal. lia.
Qed.

(** Reading up to the end of what was just written. *)
Lemma mem_read_write_end m bs n : 
  mem_read (mem_write m (Z.of_nat n) bs) 0 (n + length bs) = mem_read m 0 n ++ bs.
Proof.
  rewrite mem_read_app. f_equal.
  - apply mem_read_ext. intros x Hx. apply mem_write_other. lia.
  - apply mem_read_write.
Qed.

Lemma lookup_mem_read m n : forall a i, (i < n)%nat -> mem_read m a n !! i = Some (m (a + Z.of_nat i)).
Proof.
  induction n as [|n IH]; intros a [|i] Hi; simpl; [lia|lia|by rewrite Z.add_0_r|].
  rewrite IH by lia. do 2 f_equal. lia.
Qed.

Lemma mem_read_drop m n i : (i <= n)%nat ->
  mem_read m (Z.of_nat i) (n - i) = drop i (mem_read m 0 n).
Proof.
  intros H. replace n with (i + (n - i))%nat at 2 by lia.
  rewrite mem_read_app, drop_app_ge by (rewrite length_mem_read; lia).
  rewrite length_mem_read, Nat.sub_diag. done.
Qed.

Lemma mem_write_one m a v : mem_upd m a v = mem_write m a [v].
Proof. done. Qed.

(** ** What a file being written or read stands for *)

Definition file_writing (f : QEMUFile) (c : list Z) (n : nat) : Prop :=
  is_writable f = true /\ buf_size f = 0 /\ 0 <= buf_index f < IO_BUF_SIZE /\
  0 <= buf_offset f <= Z.of_nat (length (outfile f)) /\
  c = write_at (Z.to_nat (buf_offset f)) (mem_read (buf f) 0 (Z.to_nat (buf_index f))) (outfile f) /\
  n = Z.to_nat (buf_offset f + buf_index f).

Definition file_reading (f : QEMUFile) (c : list Z) : Prop :=
  is_writable f = false /\ 0 <= buf_index f <= buf_size f /\ buf_size f <= buf_offset f /\
  mem_read (buf f) 0 (Z.to_nat (buf_size f))
    = read_at (Z.to_nat (buf_offset f - buf_size f)) (Z.to_nat (buf_size f)) (outfile f) /\
  c = drop (Z.to_nat (qemu_ftell f)) (outfile f).

(** ** Flushing *)

Lemma flush_writing f c n : is_writable f = true -> buf_size f = 0 ->
  0 <= buf_index f <= IO_BUF_SIZE -> 0 <= buf_offset f <= Z.of_nat (length (outfile f)) ->
  c = write_at (Z.to_nat (buf_offset f)) (mem_read (buf f) 0 (Z.to_nat (buf_index f))) (outfile f) ->
  n = Z.to_nat (buf_offset f + buf_index f) ->
  file_writing (qemu_fflush f) c n /\ buf_index (qemu_fflush f) = 0 /\ outfile (qemu_fflush f) = c.
Proof.
  intros Hw Hs Hi Ho Hc Hn. unfold qemu_fflush, file_writing. rewrite Hw. cbn [negb].
  assert (Hl : (Z.to_nat (buf_offset f) <= length (outfile f))%nat) by lia.
  destruct (0 <? buf_index f) eqn:E; to_prop.
  - assert (Hlen : Z.of_nat (length c) = Z.max (Z.of_nat (length (outfile f))) (buf_offset f + buf_index f)).
    { rewrite Hc, length_write_at, length_mem_read by done. lia. }
    cbn -[Z.to_nat]. rewrite <- Hc. split; [|done].
    split; [done|]. split; [done|]. split; [unfold IO_BUF_SIZE; lia|]. split; [lia|].
    split; [|lia]. change (Z.to_nat 0) with 0%nat. cbn [mem_read]. symmetry. apply write_at_nil. lia.
  - assert (E0 : buf_index f = 0) by lia. rewrite E0 in *. change (Z.to_nat 0) with 0%nat in *.
    cbn [mem_read] in *. rewrite write_at_nil in Hc by done. subst c.
    split; [|done]. split; [done|]. split; [done|]. split; [unfold IO_BUF_SIZE; lia|].
    split; [lia|]. split; [by rewrite write_at_nil|done].
Qed.

(** [memcpy] into the buffer, then a flush if it is full. *)
Lemma put_chunk f c n bs : file_writing f c n ->
  buf_index f + Z.of_nat (length bs) <= IO_BUF_SIZE ->
  let g := (f <| buf := mem_write (buf f) (buf_index f) bs |>)
             <| buf_index := buf_index f + Z.of_nat (length bs) |> in
  file_writing (if IO_BUF_SIZE <=? buf_index g then qemu_fflush g else g)
    (write_at n bs c) (n + length bs).
Proof.
  intros (Hw & Hs & Hi & Ho & Hc & Hn) Hb g.
  assert (Hc' : write_at n bs c = write_at (Z.to_nat (buf_offset g))
    (mem_read (buf g) 0 (Z.to_nat (buf_index g))) (outfile g)).
  { cbn -[Z.to_nat]. rewrite Z2Nat.inj_add, Nat2Z.id by lia.
    rewrite <- (Z2Nat.id (buf_index f)) at 1 by lia. rewrite mem_read_write_end.
    rewrite write_at_app, length_mem_read, <- Hc by lia. f_equal. lia. }
  assert (Hn' : (n + length bs)%nat = Z.to_nat (buf_offset g + buf_index g)) by (cbn -[Z.to_nat]; lia).
  destruct (IO_BUF_SIZE <=? buf_index g) eqn:E; to_prop.
  - apply flush_writing; try done; cbn; lia.
  - unfold file_writing. repeat split; try done; try (cbn; lia).
Qed.

Lemma put_byte_writing f c n v : file_writing f c n ->
  file_writing (file_put_byte v f) (write_at n [u8 v] c) (S n).
Proof.
  intros H. replace (S n) with (n + length [u8 v])%nat by (simpl; lia).
  apply (put_chunk f c n [u8 v] H). destruct H as (_ & _ & Hi & _). simpl. lia.
Qed.

(** ** Filling *)

Lemma fill_reading f c : file_reading f c -> buf_index f = buf_size f ->
  file_reading (qemu_fill_buffer f) c /\
  buf_size (qemu_fill_buffer f) - buf_index (qemu_fill_buffer f)
    = Z.min IO_BUF_SIZE (Z.of_nat (length c)).
Proof.
  intros (Hw & Hi & Hs & Hb & Hc) He. unfold qemu_fill_buffer, file_reading, qemu_ftell in *.
  rewrite Hw. cbn -[Z.to_nat].
  assert (Hl : length (read_at (Z.to_nat (buf_offset f)) (Z.to_nat IO_BUF_SIZE) (outfile f))
    = Nat.min (Z.to_nat IO_BUF_SIZE) (length c)).
  { unfold read_at. rewrite Hc, length_take. f_equal. f_equal. f_equal. lia. }
  rewrite Hl. split; [|unfold IO_BUF_SIZE; lia]. repeat split; try done; try lia.
  - rewrite Nat2Z.id. rewrite <- Hl at 1. rewrite mem_read_write. unfold read_at.
    replace (Z.to_nat (_ + _ - _)) with (Z.to_nat (buf_offset f)) by lia.
    rewrite <- Hl. unfold read_at. rewrite length_take. set (d := drop _ _).
    destruct (Nat.le_ge_cases (Z.to_nat IO_BUF_SIZE) (length d)).
    + by rewrite Nat.min_l.
    + by rewrite Nat.min_r, !take_ge by lia.
  - rewrite Hc. f_equal. lia.
Qed.

Lemma reading_buffer f c : file_reading f c ->
  mem_read (buf f) (buf_index f) (Z.to_nat (buf_size f - buf_index f))
    = take (Z.to_nat (buf_size f - buf_index f)) c.
Proof.
  intros (Hw & Hi & Hs & Hb & ->). unfold qemu_ftell.
  rewrite <- (Z2Nat.id (buf_index f)) at 1 by lia.
  rewrite Z2Nat.inj_sub by lia. rewrite mem_read_drop by lia. rewrite Hb. unfold read_at.
  rewrite skipn_firstn_comm, drop_drop. do 2 f_equal. lia.
Qed.

Lemma reading_advance f c l : file_reading f c -> 0 <= l <= buf_size f - buf_index f ->
  file_reading (f <| buf_index := buf_index f + l |>) (drop (Z.to_nat l) c).
Proof.
  intros (Hw & Hi & Hs & Hb & ->) Hl. unfold file_reading, qemu_ftell. cbn -[Z.to_nat].
  repeat split; try done; try lia. rewrite drop_drop. f_equal. lia.
Qed.

Lemma get_byte_reading f c : file_reading f c ->
  (file_get_byte f).1 = default 0 (head c) /\ file_reading (file_get_byte f).2 (tail c).
Proof.
  intros H. unfold file_get_byte.
  assert (Hf : exists g, (if buf_size f <=? buf_index f then qemu_fill_buffer f else f) = g /\
    file_reading g c /\ (buf_index g < buf_size g \/ (buf_index g = buf_size g /\ c = []))).
  { pose proof H as (_ & Hi & _). destruct (buf_size f <=? buf_index f) eqn:E; to_prop.
    - destruct (fill_reading f c H ltac:(lia)) as [H1 H2]. eexists. split; [done|]. split; [done|].
      destruct c as [|b c]; [right; split; [|done]|left]; unfold IO_BUF_SIZE in H2; simpl in H2; lia.
    - eauto. }
  destruct Hf as (g & -> & Hg & Hcase).
  destruct Hcase as [Hlt|[He ->]].
  - rewrite (proj2 (Z.leb_gt _ _) Hlt). cbn [fst snd].
    pose proof (reading_buffer g c Hg) as Hr.
    assert (Hc : head c = Some (buf g (buf_index g))).
    { destruct c as [|b c].
      - destruct (Z.to_nat (buf_size g - buf_index g)) eqn:E; [lia|]. done.
      - destruct (Z.to_nat (buf_size g - buf_index g)) eqn:E; [lia|]. simpl in Hr. by injection Hr as <- _. }
    split; [by rewrite Hc|]. pose proof (reading_advance g c 1 Hg ltac:(lia)) as Ha.
    destruct c; exact Ha.
  - rewrite He, Z.leb_refl. done.
Qed.

(** ** Buffers *)

Lemma writing_bound f c n : file_writing f c n -> (n <= length c)%nat.
Proof.
  intros (_ & _ & Hi & Ho & -> & ->). rewrite length_write_at, length_mem_read by lia. lia.
Qed.

Lemma put_buffer_writing fuel : forall bytes f c n, file_writing f c n ->
  (length bytes <= fuel)%nat ->
  file_writing (qemu_put_buffer fuel bytes f) (write_at n bytes c) (n + length bytes).
Proof.
  induction fuel as [|fuel IH]; intros bytes f c n H Hl.
  - destruct bytes; [|simpl in Hl; lia]. simpl. rewrite Nat.add_0_r, write_at_nil; [done|].
    by eapply writing_bound.
  - destruct bytes as [|b bytes']; [simpl; rewrite Nat.add_0_r, write_at_nil; [done|by eapply writing_bound]|].
    set (bytes := b :: bytes') in *. cbn [qemu_put_buffer]. fold bytes.
    pose proof H as (_ & _ & Hi & _). set (l := Z.to_nat (Z.min _ _)).
    assert (Hl1 : (1 <= l <= length bytes)%nat) by (unfold l, bytes in *; simpl in *; lia).
    assert (Ht : length (take l bytes) = l) by (rewrite length_take; lia).
    pose proof (put_chunk f c n (take l bytes) H) as Hp. rewrite Ht in Hp. cbv zeta in Hp.
    specialize (Hp ltac:(unfold l; lia)).
    replace (n + length bytes)%nat with (n + l + length (drop l bytes))%nat
      by (rewrite length_drop; lia).
    rewrite <- (take_drop l bytes) at 2. rewrite write_at_app by (by eapply writing_bound).
    rewrite Ht. apply IH; [exact Hp|]. rewrite length_drop. lia.
Qed.

Lemma get_buffer_reading fuel : forall size f c, file_reading f c -> 0 <= size ->
  (Z.to_nat size <= fuel)%nat ->
  (qemu_get_buffer fuel size f).1 = take (Z.to_nat size) c /\
  file_reading (qemu_get_buffer fuel size f).2 (drop (Z.to_nat size) c).
Proof.
  induction fuel as [|fuel IH]; intros size f c H H0 Hl.
  - replace (Z.to_nat size) with 0%nat by lia. done.
  - cbn [qemu_get_buffer]. destruct (Z.leb_spec size 0) as [Hs|Hs].
    { replace (Z.to_nat size) with 0%nat by lia. done. }
    assert (Hf : exists g, (if buf_size f - buf_index f =? 0 then qemu_fill_buffer f else f) = g /\
      file_reading g c /\ (0 < buf_size g - buf_index g \/ (buf_size g - buf_index g = 0 /\ c = []))).
    { pose proof H as (_ & Hi & _). destruct (Z.eqb_spec (buf_size f - buf_index f) 0) as [E|E].
      - destruct (fill_reading f c H ltac:(lia)) as [H1 H2]. eexists. split; [done|]. split; [done|].
        destruct c as [|b c]; [right; split; [|done]|left]; unfold IO_BUF_SIZE in H2; simpl in H2; lia.
      - exists f. split; [done|]. split; [done|]. left. lia. }
    destruct Hf as (g & -> & Hg & [Hpos|[Hz ->]]); cycle 1.
    { rewrite Hz. cbn [Z.eqb]. rewrite take_nil, drop_nil. done. }
    rewrite (proj2 (Z.eqb_neq _ 0)) by lia.
    set (l := Z.min _ _). assert (Hl1 : 1 <= l <= size /\ l <= buf_size g - buf_index g) by lia.
    clearbody l. pose proof (reading_advance g c l Hg ltac:(lia)) as Ha.
    destruct (IH (size - l) _ _ Ha ltac:(lia) ltac:(lia)) as [I1 I2].
    destruct (qemu_get_buffer fuel (size - l) _) as [rest g']. cbn [fst snd] in *.
    rewrite drop_drop in I2. replace (Z.to_nat l + Z.to_nat (size - l))%nat with (Z.to_nat size) in I2 by lia.
    split; [|exact I2]. rewrite I1.
    assert (Hr : mem_read (buf g) (buf_index g) (Z.to_nat l) = take (Z.to_nat l) c).
    { pose proof (reading_buffer g c Hg) as Hr. apply (f_equal (take (Z.to_nat l))) in Hr.
      rewrite take_take, Nat.min_l in Hr by lia. rewrite <- Hr.
      replace (Z.to_nat (buf_size g - buf_index g)) with
        (Z.to_nat l + (Z.to_nat (buf_size g - buf_index g) - Z.to_nat l))%nat by lia.
      rewrite mem_read_app, take_app_length' by (by rewrite length_mem_read). done. }
    rewrite Hr, take_take_drop. f_equal. lia.
Qed.

Lemma get_buf_reading f c n : file_reading f c ->
  (qemu_get_buffer n (Z.of_nat n) f).1 = take n c /\
  file_reading (qemu_get_buffer n (Z.of_nat n) f).2 (drop n c).
Proof.
  intros H. pose proof (get_buffer_reading n (Z.of_nat n) f c H ltac:(lia) ltac:(lia)) as Hr.
  by rewrite Nat2Z.id in Hr.
Qed.

#[export] Instance QEMUFile_SaveFile : SaveFile QEMUFile := {
  qemu_put_byte := file_put_byte;
  qemu_get_byte := file_get_byte;
  put_buf bs := qemu_put_buffer (length bs) bs;
  get_buf n := qemu_get_buffer n (Z.of_nat n);
  writing := file_writing;
  reading := file_reading;
  put_byte_law := put_byte_writing;
  get_byte_law := get_byte_reading;
  put_buf_law f c n bs H := put_buffer_writing (length bs) bs f c n H (le_n _);
  get_buf_law f c n := get_buf_reading f c n;
}.

Lemma fopen_writing : file_writing (mkFile [] true 0 0 0 (fun _ => 0)) [] 0.
Proof. unfold file_writing, IO_BUF_SIZE. repeat split; done || (cbn; lia). Qed.

Lemma fopen_reading c : file_reading (mkFile c false 0 0 0 (fun _ => 0)) c.
Proof. unfold file_reading. repeat split; done || (cbn; lia). Qed.

Lemma fclose_writing f c n : file_writing f c n -> qemu_fclose f = c.
Proof.
  intros (Hw & Hs & Hi & Ho & Hc & Hn). unfold qemu_fclose. rewrite Hw.
  destruct (flush_writing f c n Hw Hs ltac:(lia) Ho Hc Hn) as (_ & _ & ->). done.
Qed.

(** C38. A saved file reads back: bytes put into a new file, however many buffers they
    fill, are what the file holds after it is closed, and reading the same number of
    bytes from the file gives them back. *)
Theorem file_roundtrip old bytes :
  exists f g, qemu_fopen "wb" (Some old) = Some f /\
    qemu_fclose (qemu_put_buffer (length bytes) bytes f) = bytes /\
    qemu_fopen "rb" (Some bytes) = Some g /\
    (qemu_get_buffer (length bytes) (Z.of_nat (length bytes)) g).1 = bytes.
Proof.
  eexists _, _. split; [reflexivity|]. split.
  - pose proof (put_buffer_writing (length bytes) bytes _ _ _ fopen_writing ltac:(lia)) as H.
    apply fclose_writing in H. rewrite H. exact (write_at_end bytes []).
  - split; [reflexivity|].
    destruct (get_buffer_reading (length bytes) (Z.of_nat (length bytes)) _ bytes (fopen_reading bytes))
      as [-> _]; [lia..|].
    rewrite Nat2Z.id, take_ge by lia. done.
Qed.

(** ** Integers through the interface *)

Section Integers2.
Context {F : Type} `{!SaveFile F}.

(** The file is being written at its end. *)
Definition appended (f : F) (c : list Z) : Prop := writing f c (length c).

Lemma put_byte_app f c v : appended f c -> appended (qemu_put_byte v f) (c ++ [u8 v]).
Proof using.
  intros H. apply (put_byte_law f c (length c) v) in H. rewrite write_at_end in H.
  unfold appended. rewrite length_app, Nat.add_1_r. exact H.
Qed.

Definition be_bytes (n : nat) (v : Z) : list Z := reverse (le_bytes n v).

Lemma put_be16_app f c v : appended f c -> appended (qemu_put_be16 v f) (c ++ be_bytes 2 v).
Proof using.
  intros H. apply (put_byte_app _ _ (Z.shiftr v 8)), (put_byte_app _ _ v) in H.
  rewrite <- app_assoc in H. unfold u8, wrap in H. rewrite <- !(Z.land_ones _ 8) in H by lia. exact H.
Qed.

Lemma put_be32_app f c v : appended f c -> appended (qemu_put_be32 v f) (c ++ be_bytes 4 v).
Proof using.
  intros H. apply (put_byte_app _ _ (Z.shiftr v 24)), (put_byte_app _ _ (Z.shiftr v 16)),
    (put_byte_app _ _ (Z.shiftr v 8)), (put_byte_app _ _ v) in H.
  rewrite <- !app_assoc in H. unfold u8, wrap in H. rewrite <- !(Z.land_ones _ 8) in H by lia.
  unfold be_bytes. cbn [le_bytes]. rewrite !Z.shiftr_shiftr by lia. exact H.
Qed.

Lemma get_byte_cons f b c : reading f (b :: c) ->
  exists f', qemu_get_byte f = (b, f') /\ reading f' c.
Proof using.
  intros H. apply get_byte_law in H as [H1 H2]. destruct (qemu_get_byte f) as [x f'].
  simpl in *. subst x. eauto.
Qed.

(** A run of [qemu_put_8s]. *)
Definition put_bytes (bs : list Z) (f : F) : F := foldl (fun f b => qemu_put_byte b f) f bs.

Lemma put_bytes_app bs : Forall is_u8 bs -> forall f c, appended f c ->
  appended (put_bytes bs f) (c ++ bs).
Proof using.
  induction 1 as [|b bs Hb Hbs IH]; intros f c H; simpl; [by rewrite app_nil_r|].
  apply (put_byte_app _ _ b), IH in H. rewrite <- app_assoc in H.
  unfold u8 in H. rewrite wrap_small in H by done. exact H.
Qed.

Lemma put_buf_app f c bs : appended f c -> appended (put_buf bs f) (c ++ bs).
Proof using.
  intros H. apply (put_buf_law f c (length c) bs) in H. rewrite write_at_end in H.
  unfold appended. by rewrite length_app.
Qed.

Lemma get_buf_bytes f bs c : reading f (bs ++ c) ->
  exists f', get_buf (length bs) f = (bs, f') /\ reading f' c.
Proof using.
  intros H. destruct (get_buf_law f _ (length bs) H) as [H1 H2].
  rewrite take_app_length in H1. rewrite drop_app_length in H2.
  destruct (get_buf (length bs) f) as [x f']. simpl in *. subst x. eauto.
Qed.

Lemma get_8s_cons f b c : is_u8 b -> reading f (b :: c) ->
  exists f', qemu_get_8s f = (b, f') /\ reading f' c.
Proof using.
  intros Hb H. destruct (get_byte_cons f b c H) as (f' & E & Hr). unfold qemu_get_8s. rewrite E.
  exists f'. split; [|done]. unfold u8. by rewrite wrap_small.
Qed.

Lemma byte_shift v n k : 0 <= n -> n + 8 <= k -> wrap k (Z.shiftl (Z.land v 255) n) = Z.shiftl (Z.land v 255) n.
Proof using.
  intros Hn Hk. apply wrap_small. change 255 with (Z.ones 8). rewrite Z.land_ones by lia.
  rewrite Z.shiftl_mul_pow2 by lia. pose proof (Z.mod_pos_bound v (2 ^ 8) ltac:(lia)) as H.
  unfold in_width. assert (2 ^ 8 * 2 ^ n <= 2 ^ k).
  { rewrite <- Z.pow_add_r by lia. apply Z.pow_le_mono_r; lia. }
  assert (0 < 2 ^ n) by lia. nia.
Qed.

Lemma get_be16_bytes f v c : reading f (be_bytes 2 v ++ c) ->
  exists f', qemu_get_be16 f = (u16 v, f') /\ reading f' c.
Proof using.
  intros H. unfold be_bytes in H. cbn in H.
  destruct (get_byte_cons _ _ _ H) as (f1 & E1 & H1).
  destruct (get_byte_cons _ _ _ H1) as (f2 & E2 & H2).
  unfold qemu_get_be16. rewrite E1, E2. exists f2. split; [|done]. f_equal.
  unfold u32. rewrite byte_shift by lia.
  pose proof (le_value_bytes 2 v) as Hv. unfold u16, wrap. change (2 ^ 16) with (2 ^ (8 * Z.of_nat 2)). rewrite <- Hv.
  cbn [le_bytes le_value]. rewrite Z.shiftl_0_l, Z.lor_0_r. apply Z.lor_comm.
Qed.

Lemma get_be32_bytes f v c : reading f (be_bytes 4 v ++ c) ->
  exists f', qemu_get_be32 f = (u32 v, f') /\ reading f' c.
Proof using.
  intros H. unfold be_bytes in H. cbn in H.
  destruct (get_byte_cons _ _ _ H) as (f1 & E1 & H1).
  destruct (get_byte_cons _ _ _ H1) as (f2 & E2 & H2).
  destruct (get_byte_cons _ _ _ H2) as (f3 & E3 & H3).
  destruct (get_byte_cons _ _ _ H3) as (f4 & E4 & H4).
  unfold qemu_get_be32. rewrite E1, E2, E3, E4. exists f4. split; [|done]. f_equal.
  unfold u32. rewrite !byte_shift by lia.
  pose proof (le_value_bytes 4 v) as Hv. unfold wrap. change (2 ^ 32) with (2 ^ (8 * Z.of_nat 4)).
  rewrite <- Hv. cbn [le_bytes le_value]. rewrite Z.shiftl_0_l, Z.lor_0_r.
  rewrite !Z.shiftl_lor, !Z.shiftl_shiftl by lia.
  change (8 + 8) with 16. change (8 + 16) with 24.
  apply Z.bits_inj'. intros i _. rewrite !Z.lor_spec.
  repeat match goal with |- context [Z.testbit ?x i] => destruct (Z.testbit x i) end; done.
Qed.

Lemma put_be64_app f c v : appended f c ->
  appended (qemu_put_be64 v f) (c ++ be_bytes 4 (u32 (Z.shiftr v 32)) ++ be_bytes 4 (u32 v)).
Proof using. intros H. rewrite app_assoc. by apply put_be32_app, put_be32_app. Qed.

Lemma get_be64_bytes f v c :
  reading f (be_bytes 4 (u32 (Z.shiftr v 32)) ++ be_bytes 4 (u32 v) ++ c) ->
  exists f', qemu_get_be64 f = (u64 v, f') /\ reading f' c.
Proof using.
  intros H. destruct (get_be32_bytes _ _ _ H) as (f1 & E1 & H1).
  destruct (get_be32_bytes _ _ _ H1) as (f2 & E2 & H2).
  unfold qemu_get_be64. rewrite E1, E2. exists f2. split; [|done]. f_equal.
  unfold u64, u32. rewrite !wrap_idemp by lia. unfold wrap.
  rewrite <- !Z.land_ones by lia. apply Z.bits_inj'. intros i Hi.
  rewrite Z.lor_spec, !Z.land_spec, !Z.testbit_ones_nonneg by lia.
  destruct (Z.ltb_spec i 32) as [Hlt|Hge].
  - rewrite Z.shiftl_spec_low by lia. rewrite (proj2 (Z.ltb_lt i 64)) by lia. done.
  - rewrite Z.shiftl_spec, Z.land_spec, Z.shiftr_spec, Z.testbit_ones_nonneg by lia.
    rewrite andb_false_r, orb_false_r. replace (i - 32 + 32) with i by lia.
    destruct (Z.ltb_spec (i - 32) 32), (Z.ltb_spec i 64); try lia;
      rewrite ?andb_true_r, ?andb_false_r; done.
Qed.
End Integers2.

End Savevm.
