(* ===== verification/Timers.v ===== *)
(** * Timers

    The timers the devices are driven by (src/MemCheck-qemu/vl.c): the scaled division
    [muldiv64] that converts clock ticks, and the list of active timers of a clock, kept
    sorted by expiry.  A timer is its number; the callbacks, which may arm and disarm
    timers, are a parameter. *)

From S2P Require Import Prelude Bytes Savevm.
Import Savevm.

Module Timers.

(** [init_timers] sets [ticks_per_sec] to [QEMU_TIMER_BASE]. *)
Definition QEMU_TIMER_BASE : Z := 1000000000.
Definition ticks_per_sec : Z := QEMU_TIMER_BASE.

(** [muldiv64(a, b, c)]: the halves of the 96-bit product divided one after the other. *)
Definition muldiv64 (a b c : Z) : Z :=
  let low := u32 a in
  let high := u32 (Z.shiftr a 32) in
  let rl := u64 (low * b) in
  let rh := u64 (high * b) in
  let rh := u64 (rh + Z.shiftr rl 32) in
  let res_high := u32 (rh / c) in
  let res_low := u32 (u64 (u64 (Z.shiftl (rh mod c) 32) + Z.land rl 0xffffffff) / c) in
  res_high * 2 ^ 32 + res_low.

Lemma split_u64 a : is_u64 a -> a = Z.shiftr a 32 * 2 ^ 32 + u32 a /\
  is_u32 (Z.shiftr a 32) /\ is_u32 (u32 a).
Proof.
  unfold in_width. intros Ha. rewrite Z.shiftr_div_pow2 by lia. unfold u32, wrap.
  pose proof (Z.div_mod a (2 ^ 32) ltac:(lia)). pose proof (Z.mod_pos_bound a (2 ^ 32) ltac:(lia)).
  split; [lia|]. split; [|done]. split; [apply Z.div_pos; lia|].
  apply Z.div_lt_upper_bound; lia.
Qed.

Lemma muldiv64_div a b c : is_u64 a -> is_u32 b -> 0 < c < 2 ^ 32 ->
  muldiv64 a b c = a * b / c mod 2 ^ 64.
Proof.
  intros Ha Hb Hc. destruct (split_u64 a Ha) as (Es & Hh & Hl). unfold muldiv64.
  set (high := Z.shiftr a 32) in *. set (low := u32 a) in *. clearbody high low.
  unfold in_width in Hb, Hh, Hl.
  assert (Eh : u32 high = high) by (apply wrap_small; unfold in_width; lia). rewrite Eh.
  assert (Hrl : 0 <= low * b < 2 ^ 64) by nia.
  assert (E1 : u64 (low * b) = low * b) by (apply wrap_small; unfold in_width; lia). rewrite E1.
  assert (Hrh : 0 <= high * b <= (2 ^ 32 - 1) * (2 ^ 32 - 1)) by nia.
  assert (E2 : u64 (high * b) = high * b) by (apply wrap_small; unfold in_width; lia). rewrite E2.
  rewrite Z.shiftr_div_pow2 by lia.
  pose proof (Z.div_mod (low * b) (2 ^ 32) ltac:(lia)) as D1.
  pose proof (Z.mod_pos_bound (low * b) (2 ^ 32) ltac:(lia)) as M1.
  assert (Hq : 0 <= low * b / 2 ^ 32 < 2 ^ 32)
    by (split; [apply Z.div_pos; lia|apply Z.div_lt_upper_bound; lia]).
  set (rh := u64 (high * b + low * b / 2 ^ 32)).
  assert (E3 : rh = high * b + low * b / 2 ^ 32) by (apply wrap_small; unfold in_width; lia).
  change 0xffffffff with (Z.ones 32). rewrite Z.land_ones by lia.
  set (r := low * b mod 2 ^ 32) in *.
  assert (Ep : a * b = rh * 2 ^ 32 + r) by (rewrite E3; nia). clearbody rh r.
  pose proof (Z.div_mod rh c ltac:(lia)) as D2. pose proof (Z.mod_pos_bound rh c ltac:(lia)) as M2.
  rewrite Z.shiftl_mul_pow2 by lia.
  assert (E4 : u64 (rh mod c * 2 ^ 32) = rh mod c * 2 ^ 32)
    by (apply wrap_small; unfold in_width; nia). rewrite E4.
  assert (E5 : u64 (rh mod c * 2 ^ 32 + r) = rh mod c * 2 ^ 32 + r)
    by (apply wrap_small; unfold in_width; nia). rewrite E5.
  set (lo := (rh mod c * 2 ^ 32 + r) / c).
  assert (Hlo : 0 <= lo < 2 ^ 32)
    by (split; [apply Z.div_pos; nia|apply Z.div_lt_upper_bound; nia]).
  assert (E6 : u32 lo = lo) by (apply wrap_small; unfold in_width; lia). rewrite E6.
  assert (Eq : a * b / c = rh / c * 2 ^ 32 + lo).
  { rewrite Ep. unfold lo. rewrite <- Z.div_add_l by lia. f_equal. nia. }
  rewrite Eq. unfold u32, wrap. change (2 ^ 64) with (2 ^ 32 * 2 ^ 32).
  symmetry. rewrite Z.rem_mul_r by lia.
  assert (F1 : (rh / c * 2 ^ 32 + lo) / 2 ^ 32 = rh / c)
    by (symmetry; apply Z.div_unique with lo; lia).
  assert (F2 : (rh / c * 2 ^ 32 + lo) mod 2 ^ 32 = lo)
    by (symmetry; apply Z.mod_unique with (rh / c); lia).
  rewrite F1, F2. lia.
Qed.

(** ** The list of active timers *)

Abbreviation queue := (list (nat * Z)).

(** [qemu_del_timer(ts)] *)
Fixpoint qemu_del_timer (ts : nat) (q : queue) : queue :=
  match q with
  | [] => []
  | t :: q' => if decide (t.1 = ts) then q' else t :: qemu_del_timer ts q'
  end.

(** The search of [qemu_mod_timer]: the new timer goes before the first one that
    expires later. *)
Fixpoint queue_insert (ts : nat) (expire_time : Z) (q : queue) : queue :=
  match q with
  | [] => [(ts, expire_time)]
  | t :: q' => if expire_time <? t.2 then (ts, expire_time) :: q
               else t :: queue_insert ts expire_time q'
  end.

Definition qemu_mod_timer (ts : nat) (expire_time : Z) (q : queue) : queue :=
  queue_insert ts expire_time (qemu_del_timer ts q).

(** The condition under which [qemu_mod_timer] rearms the host's alarm: the timer is the
    first of the list. *)
Definition at_head (ts : nat) (q : queue) : bool :=
  match q with [] => false | t :: _ => bool_decide (t.1 = ts) end.

Definition qemu_timer_pending (ts : nat) (q : queue) : bool :=
  existsb (fun t => bool_decide (t.1 = ts)) q.

Definition qemu_timer_expired (q : queue) (current_time : Z) : bool :=
  match q with [] => false | t :: _ => t.2 <=? current_time end.

(** [qemu_run_timers(&head, current_time)]: [None] is running out of fuel. *)
Section Run.
Context {S : Type} (cb : nat -> queue -> S -> queue * S).

Fixpoint qemu_run_timers (fuel : nat) (current_time : Z) (q : queue) (s : S)
  : option (queue * S) :=
  match q with
  | [] => Some ([], s)
  | t :: q' =>
    if current_time <? t.2 then Some (q, s)
    else match fuel with
         | O => None
         | Datatypes.S fuel' =>
           let '(q, s) := cb t.1 q' s in qemu_run_timers fuel' current_time q s
         end
  end.
End Run.

(** ** Saved timers

    A device's timer is its expiry if it is pending. *)

Section Save.
Context {F : Type} `{!SaveFile F}.

Definition qemu_put_timer (f : F) (ts : option Z) : F :=
  qemu_put_be64 (match ts with Some e => u64 e | None => u64 (-1) end) f.

Definition qemu_get_timer (f : F) : option Z * F :=
  let '(expire_time, f) := qemu_get_be64 f in
  (if negb (expire_time =? u64 (-1)) then Some (s64 expire_time) else None, f).

(** Two halves, as [qemu_put_be64] writes them. *)
Definition be64_bytes (v : Z) : list Z := be_bytes 4 (u32 (Z.shiftr v 32)) ++ be_bytes 4 (u32 v).

Definition timer_bytes (ts : option Z) : list Z :=
  be64_bytes (match ts with Some e => u64 e | None => u64 (-1) end).

(** A pending timer expires at a time of the clock. *)
Definition timer_ok (ts : option Z) : Prop := forall e, ts = Some e -> is_s64 e /\ e <> -1.

Lemma put_timer_app f c ts : appended f c -> appended (qemu_put_timer f ts) (c ++ timer_bytes ts).
Proof using. apply put_be64_app. Qed.

Lemma get_timer_bytes f ts c : timer_ok ts -> reading f (timer_bytes ts ++ c) ->
  exists f', qemu_get_timer f = (ts, f') /\ reading f' c.
Proof using.
  intros Hok H. unfold timer_bytes, be64_bytes in H. rewrite <- app_assoc in H.
  destruct (get_be64_bytes _ _ _ H) as (f' & E & Hr). unfold qemu_get_timer. rewrite E.
  exists f'. split; [|done]. f_equal. destruct ts as [e|]; [|done].
  destruct (Hok e eq_refl) as [He Hne].
  assert (Eu : u64 (u64 e) = u64 e) by (by apply wrap_idemp). rewrite Eu, s64_u64 by done.
  rewrite (proj2 (Z.eqb_neq _ _)); [done|].
  intros E1. apply Hne. by rewrite <- (s64_u64 e He), E1.
Qed.
End Save.

(** ** The list as a map from timers to expiries *)

Definition queue_map (q : queue) : gmap nat Z := list_to_map q.
Definition sooner (x y : nat * Z) : Prop := x.2 <= y.2.
Definition queue_ok (q : queue) : Prop := NoDup q.*1 /\ StronglySorted sooner q.

Lemma elem_of_del ts q x : x ∈ qemu_del_timer ts q -> x ∈ q.
Proof.
  induction q as [|t q IH]; simpl; [done|]. destruct (decide _); set_solver.
Qed.

Lemma queue_ok_cons t q : queue_ok (t :: q) <->
  t.1 ∉ q.*1 /\ (forall x, x ∈ q -> t.2 <= x.2) /\ queue_ok q.
Proof.
  unfold queue_ok. rewrite fmap_cons, NoDup_cons. split.
  - intros [[H1 H2] H3]. inversion H3 as [|? ? H4 H5]; subst.
    rewrite Forall_forall in H5. auto.
  - intros (H1 & H2 & H3 & H4). split; [done|]. constructor; [done|]. by apply Forall_forall.
Qed.

Lemma del_ok ts q : queue_ok q ->
  queue_ok (qemu_del_timer ts q) /\ queue_map (qemu_del_timer ts q) = delete ts (queue_map q) /\
  ts ∉ (qemu_del_timer ts q).*1.
Proof.
  induction q as [|t q IH]; simpl; intros Hq.
  - split; [done|]. split; [by rewrite delete_empty|]. by intros ?%elem_of_nil.
  - apply queue_ok_cons in Hq as (H1 & H2 & H3). destruct (IH H3) as (I1 & I2 & I3).
    destruct t as [i e]. simpl in *. destruct (decide (i = ts)) as [->|Hne].
    + split; [done|]. split; [|done]. unfold queue_map. simpl. rewrite delete_insert_id; [done|].
      by apply not_elem_of_list_to_map.
    + split.
      * apply queue_ok_cons. split; [|split; [|done]].
        -- simpl. intros (x & -> & Hx)%list_elem_of_fmap. apply H1.
           apply list_elem_of_fmap. exists x. split; [done|]. by eapply elem_of_del.
        -- intros x Hx. apply H2. by eapply elem_of_del.
      * unfold queue_map in *. simpl. rewrite I2, delete_insert_ne by done. split; [done|].
        rewrite not_elem_of_cons. auto.
Qed.

Lemma elem_of_queue_insert ts e q x : x ∈ queue_insert ts e q <-> x = (ts, e) \/ x ∈ q.
Proof.
  induction q as [|t q IH]; simpl; [set_solver|]. destruct (e <? t.2); set_solver.
Qed.

Lemma insert_ok ts e q : queue_ok q -> ts ∉ q.*1 ->
  queue_ok (queue_insert ts e q) /\ queue_map (queue_insert ts e q) = <[ts := e]> (queue_map q).
Proof.
  induction q as [|t q IH]; simpl; intros Hq Hn.
  - split; [|done]. apply queue_ok_cons. split; [by intros ?%elem_of_nil|].
    split; [by intros x ?%elem_of_nil|done].
  - rewrite not_elem_of_cons in Hn. destruct Hn as [Hn1 Hn2].
    pose proof Hq as Hq0. apply queue_ok_cons in Hq as (H1 & H2 & H3).
    destruct (Z.ltb_spec e t.2) as [Hlt|Hge].
    + split; [|done]. apply queue_ok_cons. split; [|split; [|done]].
      * simpl. rewrite not_elem_of_cons. auto.
      * simpl. intros x [->|Hx]%elem_of_cons; [lia|]. specialize (H2 x Hx). lia.
    + destruct (IH H3 Hn2) as [I1 I2]. split.
      * apply queue_ok_cons. split; [|split; [|done]].
        -- intros (x & E & Hx)%list_elem_of_fmap. apply elem_of_queue_insert in Hx as [->|Hx].
           ++ simpl in E. congruence.
           ++ apply H1. apply list_elem_of_fmap. eauto.
        -- intros x [->|Hx]%elem_of_queue_insert; [done|auto].
      * destruct t as [i f]. unfold queue_map in *. simpl in *. rewrite I2.
        apply insert_insert_ne. congruence.
Qed.

Lemma pending_map ts q : qemu_timer_pending ts q = bool_decide (is_Some (queue_map q !! ts)).
Proof.
  induction q as [|[i e] q IH]; simpl.
  - symmetry. apply bool_decide_eq_false. unfold queue_map. simpl. rewrite lookup_empty. by intros [? ?].
  - rewrite IH. unfold queue_map. simpl. destruct (decide (i = ts)) as [->|Hne].
    + rewrite lookup_insert_eq, !bool_decide_eq_true_2 by done. done.
    + rewrite (bool_decide_eq_false_2 _ Hne), lookup_insert_ne by done. done.
Qed.

(** The list of active timers is a map from timers to expiry times: arming a timer
    inserts, disarming deletes, a timer is pending when it is in the map, and the list
    stays free of duplicates and sorted, so that its head is the next to expire. *)
Theorem timer_queue_refines ts e q : queue_ok q ->
  (queue_ok (qemu_mod_timer ts e q) /\ queue_map (qemu_mod_timer ts e q) = <[ts := e]> (queue_map q)) /\
  (queue_ok (qemu_del_timer ts q) /\ queue_map (qemu_del_timer ts q) = delete ts (queue_map q)) /\
  qemu_timer_pending ts q = bool_decide (is_Some (queue_map q !! ts)) /\
  forall now, qemu_timer_expired q now = true <->
    exists t f, queue_map q !! t = Some f /\ f <= now.
Proof.
  intros Hq. destruct (del_ok ts q Hq) as (D1 & D2 & D3). split.
  { destruct (insert_ok ts e _ D1 D3) as [I1 I2]. split; [done|]. unfold qemu_mod_timer.
    rewrite I2, D2. apply insert_delete_eq. }
  split; [done|]. split; [apply pending_map|]. intros now.
  destruct q as [|[i f] q]; simpl.
  - split; [done|]. intros (t & f & H & _). unfold queue_map in H. simpl in H.
    by rewrite lookup_empty in H.
  - apply queue_ok_cons in Hq as (H1 & H2 & H3). rewrite Z.leb_le. split.
    + intros H. exists i, f. split; [|done]. unfold queue_map. simpl. apply lookup_insert_eq.
    + intros (t & g & Ht & Hg).
      change ((list_to_map ((i, f) :: q) : gmap nat Z) !! t = Some g) in Ht.
      apply elem_of_list_to_map_2 in Ht.
      apply elem_of_cons in Ht as [[= -> ->]|Ht]; [done|]. specialize (H2 _ Ht). simpl in H2. lia.
Qed.

Lemma timer_queue_refines_witness :
  queue_map (qemu_mod_timer 2 30 [(1%nat, 10); (2%nat, 20); (3%nat, 30)])
  = <[2%nat := 30]> (queue_map [(1%nat, 10); (2%nat, 20); (3%nat, 30)]).
Proof.
  apply (timer_queue_refines 2 30 [(1%nat, 10); (2%nat, 20); (3%nat, 30)]).
  split; [|repeat constructor; unfold sooner; simpl; lia].
  apply (bool_decide_unpack _). vm_compute. exact I.
Defined.

(** ** Running the timers *)

(** The timers due at [now]. *)
Definition due (now : Z) (q : queue) : nat := length (filter (fun t => t.2 <= now) q).

Section RunSpec.
Context {S : Type} (cb : nat -> queue -> S -> queue * S) (now : Z).
(** Callbacks that keep the list sorted and arm timers only for later than [now]. *)
Context (cb_ok : forall ts q s, queue_ok q -> queue_ok (cb ts q s).1 /\ (due now (cb ts q s).1 <= due now q)%nat).

Lemma run_timers_ends fuel : forall q s, queue_ok q -> (due now q <= fuel)%nat ->
  exists q' s', qemu_run_timers cb fuel now q s = Some (q', s') /\ queue_ok q' /\
    forall t, t ∈ q' -> now < t.2.
Proof using cb_ok.
  assert (Hlate : forall fuel q s, queue_ok q -> qemu_timer_expired q now = false ->
    exists q' s', qemu_run_timers cb fuel now q s = Some (q', s') /\ queue_ok q' /\
      forall t, t ∈ q' -> now < t.2).
  { intros f [|t q] s Hq He; destruct f; simpl in *.
    1,2: eexists _, _; split; [done|]; split; [done|]; by intros t ?%elem_of_nil.
    all: to_prop; rewrite (proj2 (Z.ltb_lt _ _) He); eexists _, _; split; [done|]; split; [done|];
      apply queue_ok_cons in Hq as (_ & H2 & _);
      intros x [->|Hx]%elem_of_cons; [done|]; specialize (H2 x Hx); lia. }
  induction fuel as [|fuel IH]; intros q s Hq Hd.
  - apply Hlate; [done|]. destruct q as [|t q]; [done|]. simpl.
    apply Z.leb_gt. unfold due in Hd. rewrite filter_cons in Hd.
    destruct (decide (t.2 <= now)); [simpl in Hd; lia|lia].
  - destruct q as [|t q]; [by apply (Hlate (Datatypes.S fuel))|]. cbn [qemu_run_timers].
    destruct (Z.ltb_spec now t.2) as [Hlt|Hge].
    + destruct (Hlate 0%nat (t :: q) s Hq) as (q' & s' & Hr & H); [simpl; by apply Z.leb_gt|].
      simpl in Hr. rewrite (proj2 (Z.ltb_lt _ _) Hlt) in Hr. eauto.
    + apply queue_ok_cons in Hq as (_ & _ & Hq). destruct (cb_ok t.1 q s Hq) as [Hok Hle].
      destruct (cb t.1 q s) as [q1 s1]. simpl in *. apply IH; [done|].
      unfold due in Hd. rewrite filter_cons_True in Hd by lia. simpl in Hd. unfold due in Hle |- *. lia.
Qed.
End RunSpec.

End Timers.
