(* ===== verification/I8259.v ===== *)
(** * The i8259 interrupt controllers

    The cascaded pair of programmable interrupt controllers of the PC
    (src/MemCheck-qemu/hw/i8259.c): edge and level detection, the priority logic, the
    acknowledge cycle, the command and data ports with the initialisation sequence, and
    the saved state.  What the pair does to the CPU's interrupt line and to the IOAPIC
    callback is a log; [hw_error], which ends the program, is [None]. *)

From S2P Require Import Prelude Bytes Savevm.
Import Savevm.

Module I8259.

(** ** State *)

Record PicState := mkPic {
  last_irr : Z; irr : Z; imr : Z; isr : Z;
  priority_add : Z; irq_base : Z; read_reg_select : Z; poll : Z;
  special_mask : Z; init_state : Z; auto_eoi : Z; rotate_on_auto_eoi : Z;
  special_fully_nested_mode : Z; init4 : Z; single_mode : Z; elcr : Z;
  elcr_mask : Z;
}.

#[global] Instance eta_pic : Eta PicState := fun s =>
  mkPic (last_irr s) (irr s) (imr s) (isr s) (priority_add s) (irq_base s) (read_reg_select s)
    (poll s) (special_mask s) (init_state s) (auto_eoi s) (rotate_on_auto_eoi s)
    (special_fully_nested_mode s) (init4 s) (single_mode s) (elcr s) (elcr_mask s).

(** The effects on other devices, oldest first. *)
Inductive pic_event : Type :=
| ParentIrq (level : Z)             (** [qemu_irq_raise] and [qemu_irq_lower] *)
| AltIrq (irq level : Z).           (** the call of [alt_irq_func] *)

(** [pics[0]] is the master, [pics[1]] the slave. *)
Record PicState2 := mkPics {
  pic0 : PicState;
  pic1 : PicState;
  has_alt_irq_func : bool;
  events : list pic_event;
}.

#[global] Instance eta_pics : Eta PicState2 := fun s =>
  mkPics (pic0 s) (pic1 s) (has_alt_irq_func s) (events s).

Definition pics (i : bool) (s : PicState2) : PicState := if i then pic1 s else pic0 s.
Definition set_pics (i : bool) (p : PicState) (s : PicState2) : PicState2 :=
  if i then s <| pic1 := p |> else s <| pic0 := p |>.
Definition emit (e : pic_event) (s : PicState2) : PicState2 := s <| events := events s ++ [e] |>.

(** ** Requests and priorities *)

Definition pic_set_irq1 (s : PicState) (irq level : Z) : PicState :=
  let mask := Z.shiftl 1 irq in
  if truth (Z.land (elcr s) mask) then
    if truth level then
      let s := s <| irr := Z.lor (irr s) mask |> in
      s <| last_irr := Z.lor (last_irr s) mask |>
    else
      let s := s <| irr := Z.land (irr s) (Z.lnot mask) |> in
      s <| last_irr := Z.land (last_irr s) (Z.lnot mask) |>
  else
    if truth level then
      let s := if Z.land (last_irr s) mask =? 0 then s <| irr := Z.lor (irr s) mask |> else s in
      s <| last_irr := Z.lor (last_irr s) mask |>
    else s <| last_irr := Z.land (last_irr s) (Z.lnot mask) |>.

(** The loop of [get_priority]: eight steps visit every bit of the mask. *)
Fixpoint priority_loop (fuel : nat) (padd mask priority : Z) : Z :=
  match fuel with
  | O => priority
  | S fuel' =>
    if Z.land mask (Z.shiftl 1 (Z.land (priority + padd) 7)) =? 0
    then priority_loop fuel' padd mask (priority + 1)
    else priority
  end.

Definition get_priority (s : PicState) (mask : Z) : Z :=
  if mask =? 0 then 8 else priority_loop 8 (priority_add s) mask 0.

Definition pic_get_irq (slave : bool) (s : PicState) : Z :=
  let mask := Z.land (irr s) (Z.lnot (imr s)) in
  let priority := get_priority s mask in
  if priority =? 8 then -1
  else
    let mask := isr s in
    let mask := if truth (special_fully_nested_mode s) && negb slave
                then Z.land mask (Z.lnot (Z.shiftl 1 2)) else mask in
    let cur_priority := get_priority s mask in
    if priority <? cur_priority then Z.land (priority + priority_add s) 7 else -1.

Definition pic_update_irq (s : PicState2) : PicState2 :=
  let irq2 := pic_get_irq true (pic1 s) in
  let s := if 0 <=? irq2
           then s <| pic0 := pic_set_irq1 (pic_set_irq1 (pic0 s) 2 1) 2 0 |>
           else s in
  let irq := pic_get_irq false (pic0 s) in
  if 0 <=? irq then emit (ParentIrq 1) s else s.

Definition i8259_set_irq (s : PicState2) (irq level : Z) : PicState2 :=
  let i := truth (Z.shiftr irq 3) in
  let s := set_pics i (pic_set_irq1 (pics i s) (Z.land irq 7) level) s in
  let s := if has_alt_irq_func s then emit (AltIrq irq level) s else s in
  pic_update_irq s.

(** ** The acknowledge cycle *)

Definition pic_intack (s : PicState) (irq : Z) : PicState :=
  let s := if truth (auto_eoi s)
           then if truth (rotate_on_auto_eoi s)
                then s <| priority_add := Z.land (irq + 1) 7 |> else s
           else s <| isr := Z.lor (isr s) (Z.shiftl 1 irq) |> in
  if negb (truth (Z.land (elcr s) (Z.shiftl 1 irq)))
  then s <| irr := Z.land (irr s) (Z.lnot (Z.shiftl 1 irq)) |> else s.

Definition pic_read_irq (s : PicState2) : Z * PicState2 :=
  let irq := pic_get_irq false (pic0 s) in
  let '(intno, s) :=
    if 0 <=? irq then
      let s := s <| pic0 := pic_intack (pic0 s) irq |> in
      if irq =? 2 then
        let irq2 := pic_get_irq true (pic1 s) in
        let '(irq2, s) := if 0 <=? irq2
                          then (irq2, s <| pic1 := pic_intack (pic1 s) irq2 |>)
                          else (7, s) in
        (irq_base (pic1 s) + irq2, s)
      else (irq_base (pic0 s) + irq, s)
    else (irq_base (pic0 s) + 7, s) in
  (intno, pic_update_irq s).

(** ** The ports *)

Definition pic_reset (s : PicState) : PicState :=
  mkPic 0 0 0 0 0 0 0 0 0 0 0 0 0 0 0 (elcr s) (elcr_mask s).

(** The operation commands (OCW2) of [pic_ioport_write]. *)
Definition pic_ocw2 (i : bool) (val : Z) (s : PicState2) : PicState2 :=
  let p := pics i s in
  let cmd := Z.shiftr val 5 in
  if (cmd =? 0) || (cmd =? 4) then
    set_pics i (p <| rotate_on_auto_eoi := Z.shiftr cmd 2 |>) s
  else if (cmd =? 1) || (cmd =? 5) then
    let priority := get_priority p (isr p) in
    if negb (priority =? 8) then
      let irq := Z.land (priority + priority_add p) 7 in
      let p := p <| isr := Z.land (isr p) (Z.lnot (Z.shiftl 1 irq)) |> in
      let p := if cmd =? 5 then p <| priority_add := Z.land (irq + 1) 7 |> else p in
      pic_update_irq (set_pics i p s)
    else s
  else if cmd =? 3 then
    let irq := Z.land val 7 in
    pic_update_irq (set_pics i (p <| isr := Z.land (isr p) (Z.lnot (Z.shiftl 1 irq)) |>) s)
  else if cmd =? 6 then
    pic_update_irq (set_pics i (p <| priority_add := Z.land (val + 1) 7 |>) s)
  else if cmd =? 7 then
    let irq := Z.land val 7 in
    let p := p <| isr := Z.land (isr p) (Z.lnot (Z.shiftl 1 irq)) |> in
    pic_update_irq (set_pics i (p <| priority_add := Z.land (irq + 1) 7 |>) s)
  else s.

(** [pic_ioport_write(&pics[i], addr, val)] *)
Definition pic_ioport_write (i : bool) (addr val : Z) (s : PicState2) : option PicState2 :=
  let addr := Z.land addr 1 in
  if addr =? 0 then
    if has val 0x10 then
      let s := emit (ParentIrq 0) (set_pics i (pic_reset (pics i s)) s) in
      let p := pics i s in
      let p := p <| init_state := 1 |> in
      let p := p <| init4 := Z.land val 1 |> in
      let p := p <| single_mode := Z.land val 2 |> in
      if has val 0x08 then None else Some (set_pics i p s)
    else if has val 0x08 then
      let p := pics i s in
      let p := if has val 0x04 then p <| poll := 1 |> else p in
      let p := if has val 0x02 then p <| read_reg_select := Z.land val 1 |> else p in
      let p := if has val 0x40 then p <| special_mask := Z.land (Z.shiftr val 5) 1 |> else p in
      Some (set_pics i p s)
    else Some (pic_ocw2 i val s)
  else
    let p := pics i s in
    let st := init_state p in
    if st =? 0 then Some (pic_update_irq (set_pics i (p <| imr := u8 val |>) s))
    else if st =? 1 then
      let p := p <| irq_base := Z.land val 0xf8 |> in
      let next := if truth (single_mode p) then (if truth (init4 p) then 3 else 0) else 2 in
      Some (set_pics i (p <| init_state := next |>) s)
    else if st =? 2 then
      Some (set_pics i (p <| init_state := if truth (init4 p) then 3 else 0 |>) s)
    else if st =? 3 then
      let p := p <| special_fully_nested_mode := Z.land (Z.shiftr val 4) 1 |> in
      let p := p <| auto_eoi := Z.land (Z.shiftr val 1) 1 |> in
      Some (set_pics i (p <| init_state := 0 |>) s)
    else Some s.

Definition pic_poll_read (i : bool) (addr1 : Z) (s : PicState2) : Z * PicState2 :=
  let ret := pic_get_irq i (pics i s) in
  if 0 <=? ret then
    let s := if truth (Z.shiftr addr1 7) then
               let s := s <| pic0 := (pic0 s) <| isr := Z.land (isr (pic0 s)) (Z.lnot (Z.shiftl 1 2)) |> |> in
               s <| pic0 := (pic0 s) <| irr := Z.land (irr (pic0 s)) (Z.lnot (Z.shiftl 1 2)) |> |>
             else s in
    let p := pics i s in
    let p := p <| irr := Z.land (irr p) (Z.lnot (Z.shiftl 1 ret)) |> in
    let p := p <| isr := Z.land (isr p) (Z.lnot (Z.shiftl 1 ret)) |> in
    let s := set_pics i p s in
    (ret, if truth (Z.shiftr addr1 7) || negb (ret =? 2) then pic_update_irq s else s)
  else (0x07, pic_update_irq s).

Definition pic_ioport_read (i : bool) (addr1 : Z) (s : PicState2) : Z * PicState2 :=
  let addr := Z.land addr1 1 in
  if truth (poll (pics i s)) then
    let '(ret, s) := pic_poll_read i addr1 s in
    (ret, set_pics i ((pics i s) <| poll := 0 |>) s)
  else
    let p := pics i s in
    (if addr =? 0 then (if truth (read_reg_select p) then isr p else irr p) else imr p, s).

Definition pic_intack_read (s : PicState2) : Z * PicState2 :=
  let '(ret, s) := pic_poll_read false 0x00 s in
  let '(ret, s) := if ret =? 2
                   then let '(r, s) := pic_poll_read true 0x80 s in (r + 8, s)
                   else (ret, s) in
  (ret, s <| pic0 := (pic0 s) <| read_reg_select := 1 |> |>).

Definition elcr_ioport_write (i : bool) (val : Z) (s : PicState2) : PicState2 :=
  set_pics i ((pics i s) <| elcr := Z.land val (elcr_mask (pics i s)) |>) s.

Definition elcr_ioport_read (i : bool) (s : PicState2) : Z := elcr (pics i s).

Definition zero_pic (mask : Z) : PicState := mkPic 0 0 0 0 0 0 0 0 0 0 0 0 0 0 0 0 mask.

Definition i8259_init : PicState2 := mkPics (zero_pic 0xf8) (zero_pic 0xde) false [].

Definition pic_set_alt_irq_func (s : PicState2) : PicState2 := s <| has_alt_irq_func := true |>.

(** ** Saved state *)

Section Save.
Context {F : Type} `{!SaveFile F}.

Definition pic_save (f : F) (s : PicState) : F :=
  let f := qemu_put_byte (last_irr s) f in
  let f := qemu_put_byte (irr s) f in
  let f := qemu_put_byte (imr s) f in
  let f := qemu_put_byte (isr s) f in
  let f := qemu_put_byte (priority_add s) f in
  let f := qemu_put_byte (irq_base s) f in
  let f := qemu_put_byte (read_reg_select s) f in
  let f := qemu_put_byte (poll s) f in
  let f := qemu_put_byte (special_mask s) f in
  let f := qemu_put_byte (init_state s) f in
  let f := qemu_put_byte (auto_eoi s) f in
  let f := qemu_put_byte (rotate_on_auto_eoi s) f in
  let f := qemu_put_byte (special_fully_nested_mode s) f in
  let f := qemu_put_byte (init4 s) f in
  let f := qemu_put_byte (single_mode s) f in
  qemu_put_byte (elcr s) f.

(** The result of [pic_load] ([-EINVAL] is -22), the controller and the file. *)
Definition pic_load (f : F) (s : PicState) (version_id : Z) : Z * PicState * F :=
  if negb (version_id =? 1) then (-22, s, f)
  else
    let '(v, f) := qemu_get_8s f in let s := s <| last_irr := v |> in
    let '(v, f) := qemu_get_8s f in let s := s <| irr := v |> in
    let '(v, f) := qemu_get_8s f in let s := s <| imr := v |> in
    let '(v, f) := qemu_get_8s f in let s := s <| isr := v |> in
    let '(v, f) := qemu_get_8s f in let s := s <| priority_add := v |> in
    let '(v, f) := qemu_get_8s f in let s := s <| irq_base := v |> in
    let '(v, f) := qemu_get_8s f in let s := s <| read_reg_select := v |> in
    let '(v, f) := qemu_get_8s f in let s := s <| poll := v |> in
    let '(v, f) := qemu_get_8s f in let s := s <| special_mask := v |> in
    let '(v, f) := qemu_get_8s f in let s := s <| init_state := v |> in
    let '(v, f) := qemu_get_8s f in let s := s <| auto_eoi := v |> in
    let '(v, f) := qemu_get_8s f in let s := s <| rotate_on_auto_eoi := v |> in
    let '(v, f) := qemu_get_8s f in let s := s <| special_fully_nested_mode := v |> in
    let '(v, f) := qemu_get_8s f in let s := s <| init4 := v |> in
    let '(v, f) := qemu_get_8s f in let s := s <| single_mode := v |> in
    let '(v, f) := qemu_get_8s f in let s := s <| elcr := v |> in
    (0, s, f).
End Save.

(** ** Priorities *)

(** The rank of a request line: 0 is served first. *)
Definition rank (s : PicState) (j : Z) : Z := (j - priority_add s) mod 8.

Lemma land7 x : Z.land x 7 = x mod 8.
Proof. change 7 with (Z.ones 3). by rewrite Z.land_ones. Qed.

Lemma rank_range s j : 0 <= rank s j < 8.
Proof. apply Z.mod_pos_bound. lia. Qed.

Lemma rank_line s j : 0 <= j < 8 -> Z.land (rank s j + priority_add s) 7 = j.
Proof.
  intros Hj. rewrite land7. unfold rank. rewrite Zplus_mod_idemp_l.
  replace (j - priority_add s + priority_add s) with j by lia. by apply Z.mod_small.
Qed.

Lemma line_rank s q : 0 <= q < 8 -> rank s (Z.land (q + priority_add s) 7) = q.
Proof.
  intros Hq. rewrite land7. unfold rank. rewrite Zminus_mod_idemp_l.
  replace (q + priority_add s - priority_add s) with q by lia. by apply Z.mod_small.
Qed.

Lemma rank_inj s i j : 0 <= i < 8 -> 0 <= j < 8 -> rank s i = rank s j -> i = j.
Proof. intros Hi Hj H. rewrite <- (rank_line s i Hi), <- (rank_line s j Hj). by rewrite H. Qed.

Lemma bit_test mask n : 0 <= n -> (Z.land mask (Z.shiftl 1 n) =? 0) = negb (Z.testbit mask n).
Proof.
  intros Hn. rewrite <- (truth_land_bit mask n Hn). unfold truth. by rewrite negb_involutive.
Qed.

Lemma priority_loop_spec fuel padd mask : forall p,
  let r := priority_loop fuel padd mask p in
  p <= r <= p + Z.of_nat fuel /\
  (forall q, p <= q < r -> Z.testbit mask (Z.land (q + padd) 7) = false) /\
  (r < p + Z.of_nat fuel -> Z.testbit mask (Z.land (r + padd) 7) = true).
Proof.
  induction fuel as [|fuel IH]; intros p; cbn [priority_loop].
  - split; [lia|]. split; [lia|]. lia.
  - rewrite bit_test by (rewrite land7; apply Z.mod_pos_bound; lia).
    destruct (Z.testbit mask (Z.land (p + padd) 7)) eqn:E; cbn [negb].
    + split; [lia|]. split; [lia|]. done.
    + destruct (IH (p + 1)) as (H1 & H2 & H3). cbv zeta in *. split; [lia|].
      split; [|intros H; apply H3; lia].
      intros q Hq. destruct (decide (q = p)) as [->|Hne]; [done|]. apply H2. lia.
Qed.

Lemma u8_nonzero_bit m : is_u8 m -> m <> 0 -> exists j, 0 <= j < 8 /\ Z.testbit m j = true.
Proof.
  intros Hm Hn. exists (Z.log2 m). split.
  - split; [apply Z.log2_nonneg|]. apply Z.log2_lt_pow2; unfold in_width in Hm; lia.
  - apply Z.bit_log2. unfold in_width in Hm. lia.
Qed.

(** [get_priority] is the least rank of a set line, 8 if there is none. *)
Lemma get_priority_spec s mask : is_u8 mask ->
  let r := get_priority s mask in
  (r = 8 /\ forall j, 0 <= j < 8 -> Z.testbit mask j = false) \/
  (0 <= r < 8 /\ Z.testbit mask (Z.land (r + priority_add s) 7) = true /\
   forall j, 0 <= j < 8 -> Z.testbit mask j = true -> r <= rank s j).
Proof.
  intros Hm. unfold get_priority. destruct (Z.eqb_spec mask 0) as [->|Hn].
  - left. split; [done|]. intros j _. apply Z.bits_0.
  - right. destruct (priority_loop_spec 8 (priority_add s) mask 0) as (H1 & H2 & H3).
    cbv zeta in *. set (r := priority_loop _ _ _ _) in *. change (Z.of_nat 8) with 8 in *.
    assert (Hle : forall j, 0 <= j < 8 -> Z.testbit mask j = true -> r <= rank s j).
    { intros j Hj Hb. pose proof (rank_range s j). destruct (decide (r <= rank s j)); [done|].
      specialize (H2 (rank s j) ltac:(lia)). rewrite rank_line in H2 by done. congruence. }
    destruct (u8_nonzero_bit mask Hm Hn) as (j & Hj & Hb).
    pose proof (Hle j Hj Hb). pose proof (rank_range s j).
    split; [lia|]. split; [apply H3; lia|done].
Qed.

(** ** Well formed controllers *)

Definition wf_pic (s : PicState) : Prop :=
  (is_u8 (last_irr s) /\ is_u8 (irr s) /\ is_u8 (imr s) /\ is_u8 (isr s)) /\
  (0 <= priority_add s < 8 /\ is_u8 (irq_base s) /\ irq_base s mod 8 = 0 /\
   is_u8 (read_reg_select s)) /\
  (is_u8 (poll s) /\ is_u8 (special_mask s) /\ 0 <= init_state s <= 3 /\ is_u8 (auto_eoi s)) /\
  (is_u8 (rotate_on_auto_eoi s) /\ is_u8 (special_fully_nested_mode s) /\ is_u8 (init4 s) /\
   is_u8 (single_mode s)) /\ is_u8 (elcr s) /\ is_u8 (elcr_mask s).

Definition wf_pics (s : PicState2) : Prop := wf_pic (pic0 s) /\ wf_pic (pic1 s).

(** The lines in service that count for the priority. *)
Definition in_service (slave : bool) (s : PicState) (j : Z) : Prop :=
  0 <= j < 8 /\ Z.testbit (isr s) j = true /\
  ~ (slave = false /\ truth (special_fully_nested_mode s) = true /\ j = 2).

Definition requested (s : PicState) (j : Z) : Prop :=
  0 <= j < 8 /\ Z.testbit (irr s) j = true /\ Z.testbit (imr s) j = false.

Lemma requested_bit s j : 0 <= j < 8 ->
  Z.testbit (Z.land (irr s) (Z.lnot (imr s))) j = true <-> requested s j.
Proof.
  intros Hj. rewrite Z.land_spec, Z.lnot_spec by lia. unfold requested.
  destruct (Z.testbit (irr s) j), (Z.testbit (imr s) j); simpl; intuition congruence.
Qed.

Definition service_mask (slave : bool) (s : PicState) : Z :=
  if truth (special_fully_nested_mode s) && negb slave
  then Z.land (isr s) (Z.lnot (Z.shiftl 1 2)) else isr s.

Lemma service_bit slave s j : 0 <= j < 8 ->
  Z.testbit (service_mask slave s) j = true <-> in_service slave s j.
Proof.
  intros Hj. unfold service_mask, in_service.
  destruct (truth (special_fully_nested_mode s)), slave; cbn [negb andb];
    try (split; [intros H; split; [done|]; split; [done|]; intros (?&?&?); congruence|by intros (?&?&?)]).
  rewrite testbit_clear by lia. destruct (Z.testbit (isr s) j); simpl.
  - case_bool_decide; simpl; intuition congruence.
  - intuition congruence.
Qed.

Lemma service_mask_u8 slave s : wf_pic s -> is_u8 (service_mask slave s).
Proof.
  intros ((_ & _ & _ & H) & _). unfold service_mask.
  destruct (_ && _); [apply land_width_l; [lia|done]|done].
Qed.

Lemma get_irq_spec slave s : wf_pic s ->
  let r := pic_get_irq slave s in
  (requested s r /\ (forall j, requested s j -> rank s r <= rank s j) /\
   (forall j, in_service slave s j -> rank s r < rank s j)) \/
  (r = -1 /\ forall j, requested s j -> exists k, in_service slave s k /\ rank s k <= rank s j).
Proof.
  intros Hwf. unfold pic_get_irq. fold (service_mask slave s).
  assert (Hm : is_u8 (Z.land (irr s) (Z.lnot (imr s)))).
  { destruct Hwf as ((_ & H & _) & _). apply land_width_l; [lia|done]. }
  destruct (get_priority_spec s _ Hm) as [[-> Hn]|(Hr & Hb & Hl)].
  { right. split; [done|]. intros j Hj. pose proof Hj as [Hj8 _]. apply requested_bit in Hj; [|done].
    rewrite Hn in Hj by done. done. }
  set (r := get_priority s (Z.land _ _)) in *. cbv zeta in *.
  rewrite (proj2 (Z.eqb_neq r 8)) by lia.
  assert (Hline : 0 <= Z.land (r + priority_add s) 7 < 8) by (rewrite land7; apply Z.mod_pos_bound; lia).
  destruct (get_priority_spec s _ (service_mask_u8 slave s Hwf)) as [[Ec Hc]|(Hc8 & Hcb & Hcl)].
  - cbv zeta in Ec. rewrite Ec, (proj2 (Z.ltb_lt r 8)) by lia. left. split; [by apply requested_bit|].
    rewrite line_rank by done. split.
    + intros j Hj. pose proof Hj as [Hj8 _]. apply Hl; [done|]. by apply requested_bit.
    + intros j Hj. pose proof Hj as [Hj8 _]. apply service_bit in Hj; [|done].
      rewrite Hc in Hj by done. done.
  - cbv zeta in *. set (c := get_priority s (service_mask slave s)) in *.
    destruct (Z.ltb_spec r c) as [Hlt|Hge].
    + left. split; [by apply requested_bit|]. rewrite line_rank by done. split.
      * intros j Hj. pose proof Hj as [Hj8 _]. apply Hl; [done|]. by apply requested_bit.
      * intros j Hj. pose proof Hj as [Hj8 _]. apply service_bit in Hj; [|done].
        specialize (Hcl j Hj8 Hj). lia.
    + right. split; [done|]. intros j Hj. pose proof Hj as [Hj8 _].
      exists (Z.land (c + priority_add s) 7).
      assert (Hcline : 0 <= Z.land (c + priority_add s) 7 < 8)
        by (rewrite land7; apply Z.mod_pos_bound; lia).
      split; [by apply service_bit|]. rewrite line_rank by done.
      apply requested_bit in Hj; [|done]. specialize (Hl j Hj8 Hj). lia.
Qed.

(** The priority logic: [pic_get_irq] returns the unmasked request of highest priority
    (counted from the rotating [priority_add]), if its priority is above that of every
    line in service, where the master in special fully nested mode does not count the
    cascade line; it returns -1 only if each request is blocked by a line in service of
    at least its priority. *)
Theorem pic_get_irq_highest slave s : wf_pic s ->
  let r := pic_get_irq slave s in
  (requested s r /\ (forall j, requested s j -> rank s r <= rank s j) /\
   (forall j, in_service slave s j -> rank s r < rank s j)) \/
  (r = -1 /\ forall j, requested s j -> exists k, in_service slave s k /\ rank s k <= rank s j).
Proof. apply get_irq_spec. Qed.

(** ** Every operation keeps the controllers well formed *)

Ltac solve_wf :=
  unfold wf_pic in *; cbn -[Z.land Z.lor Z.shiftl Z.shiftr Z.lnot Z.modulo Z.pow in_width] in *;
  destruct_and?; split_and?; try done;
  try (solve [auto with width]);
  try (rewrite land7; apply Z.mod_pos_bound; lia).

Lemma set_irq1_wf s irq level : wf_pic s -> 0 <= irq < 8 -> wf_pic (pic_set_irq1 s irq level).
Proof.
  intros Hwf Hi. unfold pic_set_irq1. split_ifs; solve_wf.
Qed.

Lemma intack_wf s irq : wf_pic s -> 0 <= irq < 8 -> wf_pic (pic_intack s irq).
Proof. intros Hwf Hi. unfold pic_intack. split_ifs; solve_wf. Qed.

Lemma reset_wf s : wf_pic s -> wf_pic (pic_reset s).
Proof. intros Hwf. unfold pic_reset. solve_wf. Qed.

Lemma get_irq_range slave s : wf_pic s -> -1 <= pic_get_irq slave s < 8.
Proof. intros Hwf. destruct (get_irq_spec slave s Hwf) as [[(H & _) _]|[-> _]]; lia. Qed.

Lemma set_pics_wf i p s : wf_pic p -> wf_pics s -> wf_pics (set_pics i p s).
Proof. intros Hp [H0 H1]. destruct i; split; done. Qed.

Lemma pics_wf i s : wf_pics s -> wf_pic (pics i s).
Proof. intros [H0 H1]. by destruct i. Qed.

Lemma update_irq_wf s : wf_pics s -> wf_pics (pic_update_irq s).
Proof.
  intros [H0 H1]. unfold pic_update_irq. split_ifs; split; try done; cbn;
    by repeat apply set_irq1_wf.
Qed.

Lemma set_irq_wf s irq level : wf_pics s -> 0 <= irq < 16 -> wf_pics (i8259_set_irq s irq level).
Proof.
  intros Hwf Hi. unfold i8259_set_irq. set (i := truth _). apply update_irq_wf.
  assert (H : wf_pics (set_pics i (pic_set_irq1 (pics i s) (Z.land irq 7) level) s)).
  { apply set_pics_wf; [|done]. apply set_irq1_wf; [by apply pics_wf|].
    rewrite land7. apply Z.mod_pos_bound. lia. }
  destruct (has_alt_irq_func _); exact H.
Qed.

Lemma read_irq_wf s : wf_pics s -> wf_pics (pic_read_irq s).2.
Proof.
  intros [H0 H1]. unfold pic_read_irq.
  pose proof (get_irq_range false (pic0 s) H0). pose proof (get_irq_range true (pic1 s) H1).
  cbn -[pic_get_irq pic_intack pic_update_irq Z.leb Z.eqb Z.add].
  split_ifs; to_prop; cbn -[pic_update_irq pic_get_irq pic_intack]; apply update_irq_wf; split; cbn; try done;
    apply intack_wf; done || lia.
Qed.

Lemma ocw2_wf i val s : is_u32 val -> wf_pics s -> wf_pics (pic_ocw2 i val s).
Proof.
  intros Hv Hwf. pose proof (pics_wf i s Hwf) as Hp. unfold pic_ocw2.
  split_ifs; to_prop; try done; try apply update_irq_wf; apply set_pics_wf; try done; try solve_wf.
Qed.

Lemma write_wf i addr val s s' : is_u32 val -> wf_pics s ->
  pic_ioport_write i addr val s = Some s' -> wf_pics s'.
Proof.
  intros Hv Hwf. pose proof (pics_wf i s Hwf) as Hp. unfold pic_ioport_write.
  destruct (Z.land addr 1 =? 0).
  - destruct (has val 0x10).
    + destruct (has val 0x08); [done|]. intros [= <-]. apply set_pics_wf.
      * pose proof (reset_wf _ Hp). destruct i; unfold pics, set_pics; solve_wf.
      * apply (set_pics_wf i _ s); [by apply reset_wf|done].
    + destruct (has val 0x08).
      * intros [= <-]. apply set_pics_wf; [|done]. split_ifs; solve_wf.
      * intros [= <-]. by apply ocw2_wf.
  - assert (H8 : Z.land val 0xf8 mod 8 = 0).
    { rewrite <- land7, <- Z.land_assoc. apply Z.land_0_r. }
    assert (Hu : is_u8 (u8 val)) by (apply wrap_range; lia).
    split_ifs; intros [= <-]; try done; try apply update_irq_wf; apply set_pics_wf; try done;
      solve_wf; cbn; lia.
Qed.

Lemma poll_read_wf i addr s : wf_pics s -> wf_pics (pic_poll_read i addr s).2.
Proof.
  intros Hwf. unfold pic_poll_read. destruct (0 <=? pic_get_irq i (pics i s)) eqn:E; [|by apply update_irq_wf].
  cbn [snd]. set (s1 := if truth _ then _ else s).
  assert (H1 : wf_pics s1).
  { subst s1. destruct Hwf as [H0 H1]. destruct (truth _); [|done]. split; cbn; [|done]. solve_wf. }
  clearbody s1. pose proof (pics_wf i s1 H1) as Hp.
  assert (H2 : wf_pics (set_pics i ((pics i s1) <| irr := Z.land (irr (pics i s1)) (Z.lnot (Z.shiftl 1 (pic_get_irq i (pics i s)))) |>
     <| isr := Z.land (isr (pics i s1)) (Z.lnot (Z.shiftl 1 (pic_get_irq i (pics i s)))) |>) s1))
    by (apply set_pics_wf; [solve_wf|done]).
  destruct (_ || _); [apply update_irq_wf|]; exact H2.
Qed.

Lemma read_wf i addr s : wf_pics s -> wf_pics (pic_ioport_read i addr s).2.
Proof.
  intros Hwf. unfold pic_ioport_read. destruct (truth (poll (pics i s))); [|done].
  pose proof (poll_read_wf i addr s Hwf) as H. destruct (pic_poll_read i addr s) as [r s'].
  cbn [snd] in *. apply set_pics_wf; [|done]. pose proof (pics_wf i s' H). solve_wf.
Qed.

Lemma intack_read_wf s : wf_pics s -> wf_pics (pic_intack_read s).2.
Proof.
  intros Hwf. unfold pic_intack_read. pose proof (poll_read_wf false 0 s Hwf) as H.
  destruct (pic_poll_read false 0 s) as [r s1]. cbn [snd] in H.
  assert (H2 : wf_pics (if r =? 2 then let '(r, s) := pic_poll_read true 0x80 s1 in (r + 8, s) else (r, s1)).2).
  { destruct (r =? 2); [|done]. pose proof (poll_read_wf true 0x80 s1 H) as H2.
    destruct (pic_poll_read true 0x80 s1). done. }
  destruct (if r =? 2 then _ else _) as [r2 s2]. destruct H2 as [H20 H21].
  split; cbn; [|done]. solve_wf.
Qed.

(** What the rest of the machine does to the controllers. *)
Inductive pic_op : Type :=
| OpSetIrq (irq level : Z) | OpReadIrq | OpIntackRead | OpReset (slave : bool)
| OpWrite (slave : bool) (addr val : Z) | OpRead (slave : bool) (addr : Z)
| OpElcrWrite (slave : bool) (val : Z) | OpSetAltFunc.

Definition pic_op_ok (op : pic_op) : Prop :=
  match op with
  | OpSetIrq irq _ => 0 <= irq < 16
  | OpWrite _ _ val => is_u32 val
  | _ => True
  end.

Definition pic_exec (op : pic_op) (s : PicState2) : option PicState2 :=
  match op with
  | OpSetIrq irq level => Some (i8259_set_irq s irq level)
  | OpReadIrq => Some (pic_read_irq s).2
  | OpIntackRead => Some (pic_intack_read s).2
  | OpReset i => Some (set_pics i (pic_reset (pics i s)) s)
  | OpWrite i addr val => pic_ioport_write i addr val s
  | OpRead i addr => Some (pic_ioport_read i addr s).2
  | OpElcrWrite i val => Some (elcr_ioport_write i val s)
  | OpSetAltFunc => Some (pic_set_alt_irq_func s)
  end.

Inductive pic_reach : PicState2 -> Prop :=
| pic_reach_init : pic_reach i8259_init
| pic_reach_step s op s' : pic_reach s -> pic_op_ok op -> pic_exec op s = Some s' -> pic_reach s'.

Lemma exec_wf op s s' : wf_pics s -> pic_op_ok op -> pic_exec op s = Some s' -> wf_pics s'.
Proof.
  intros Hwf Hok. destruct op as [irq level| | |i|i addr val|i addr|i val|]; cbn [pic_exec].
  - intros [= <-]. by apply set_irq_wf.
  - intros [= <-]. by apply read_irq_wf.
  - intros [= <-]. by apply intack_read_wf.
  - intros [= <-]. apply set_pics_wf; [|done]. apply reset_wf. by apply pics_wf.
  - by apply write_wf.
  - intros [= <-]. by apply read_wf.
  - intros [= <-]. apply set_pics_wf; [|done]. pose proof (pics_wf i s Hwf). solve_wf.
  - intros [= <-]. exact Hwf.
Qed.

(** C37. Whatever the guest writes to the ports and whenever the devices raise their
    lines, the registers of both controllers stay 8-bit values, the rotation stays
    below 8, the vector base stays a multiple of 8 and the initialisation stays in one
    of its four states; and an interrupt acknowledged has a vector in the eight of its
    controller. *)
Theorem pic_reachable_wf s : pic_reach s ->
  wf_pics s /\
  exists i k, 0 <= k < 8 /\ (pic_read_irq s).1 = irq_base (pics i s) + k.
Proof.
  intros Hr. assert (Hwf : wf_pics s).
  { induction Hr as [|s op s' Hr IH Hok He]; [|by eapply exec_wf].
    split; unfold i8259_init, zero_pic, wf_pic, in_width; cbn; repeat split; lia. }
  split; [done|]. pose proof Hwf as [H0 H1]. unfold pic_read_irq.
  pose proof (get_irq_range false (pic0 s) H0). pose proof (get_irq_range true (pic1 s) H1).
  assert (Hb : forall k, irq_base (pic_intack (pic1 s) k) = irq_base (pic1 s)
    /\ irq_base (pic_intack (pic0 s) k) = irq_base (pic0 s))
    by (intros k; unfold pic_intack; split; split_ifs; done).
  cbn -[pic_get_irq pic_intack pic_update_irq Z.leb Z.eqb Z.add].
  split_ifs; to_prop; cbn.
  - exists true, (pic_get_irq true (pic1 s)). cbn. rewrite (proj1 (Hb _)). split; [lia|done].
  - exists true, 7. cbn. split; [lia|done].
  - exists false, (pic_get_irq false (pic0 s)). cbn. rewrite (proj2 (Hb _)). split; [lia|done].
  - exists false, 7. cbn. split; [lia|done].
Qed.

(** ** Acknowledge and end of interrupt *)

(** Updating the interrupt line only touches the request of the cascade line. *)
Lemma update_irq_frame s :
  isr (pic0 (pic_update_irq s)) = isr (pic0 s) /\
  priority_add (pic0 (pic_update_irq s)) = priority_add (pic0 s) /\
  special_fully_nested_mode (pic0 (pic_update_irq s)) = special_fully_nested_mode (pic0 s).
Proof.
  assert (H : forall p l, isr (pic_set_irq1 p 2 l) = isr p /\
    priority_add (pic_set_irq1 p 2 l) = priority_add p /\
    special_fully_nested_mode (pic_set_irq1 p 2 l) = special_fully_nested_mode p)
    by (intros p l; unfold pic_set_irq1; split_ifs; done).
  unfold pic_update_irq. destruct (0 <=? pic_get_irq true (pic1 s));
    destruct (0 <=? pic_get_irq false _); cbn; try done;
    destruct (H (pic_set_irq1 (pic0 s) 2 1) 0) as (-> & -> & ->); apply H.
Qed.

Lemma set_clear_bit x n : 0 <= n -> Z.testbit x n = false ->
  Z.land (Z.lor x (Z.shiftl 1 n)) (Z.lnot (Z.shiftl 1 n)) = x.
Proof.
  intros Hn Hx. apply Z.bits_inj'. intros i Hi. rewrite testbit_clear, testbit_set by done.
  case_bool_decide as E; [subst; by rewrite Hx, andb_false_r|]. by rewrite orb_false_r, andb_true_r.
Qed.

(** The line of highest priority in service is the one a non specific EOI ends. *)
Lemma priority_in_service s irq : wf_pic s -> 0 <= irq < 8 -> Z.testbit (isr s) irq = true ->
  (forall j, 0 <= j < 8 -> Z.testbit (isr s) j = true -> rank s irq <= rank s j) ->
  get_priority s (isr s) = rank s irq.
Proof.
  intros Hwf Hi Hb Hl. assert (Hu : is_u8 (isr s)) by (by destruct Hwf as ((_ & _ & _ & H) & _)).
  destruct (get_priority_spec s (isr s) Hu) as [[_ Hn]|(Hr & Hb' & Hl')].
  - rewrite Hn in Hb by done. done.
  - cbv zeta in *. pose proof (Hl' irq Hi Hb).
    assert (Hline : 0 <= Z.land (get_priority s (isr s) + priority_add s) 7 < 8)
      by (rewrite land7; apply Z.mod_pos_bound; lia).
    pose proof (Hl _ Hline Hb') as H2. rewrite line_rank in H2 by done. lia.
Qed.


(** ** Save and load *)

Definition pic_bytes (s : PicState) : list Z :=
  [last_irr s; irr s; imr s; isr s; priority_add s; irq_base s; read_reg_select s; poll s;
   special_mask s; init_state s; auto_eoi s; rotate_on_auto_eoi s;
   special_fully_nested_mode s; init4 s; single_mode s; elcr s].

Section SaveLoad.
Context {F : Type} `{!SaveFile F}.

Lemma pic_save_bytes f c s : wf_pic s -> appended f c ->
  appended (pic_save f s) (c ++ pic_bytes s).
Proof using.
  intros Hwf H. change (pic_save f s) with (put_bytes (pic_bytes s) f).
  apply put_bytes_app; [|done]. unfold wf_pic in Hwf. destruct_and?.
  unfold pic_bytes. rewrite !Forall_cons, Forall_nil. split_and!; try done; unfold in_width; lia.
Qed.

(** Saving a controller and loading it restores it: from any file whose next bytes
    are the ones [pic_save] appended, [pic_load] gives back every register (the ELCR
    mask, which is not saved, is the new controller's), and consumes exactly those
    bytes; any version but 1 is refused and changes nothing. *)
Theorem pic_save_load f s s0 c rest g : wf_pic s -> appended f c ->
  appended (pic_save f s) (c ++ pic_bytes s) /\
  (reading g (pic_bytes s ++ rest) ->
     exists g', pic_load g s0 1 = (0, s <| elcr_mask := elcr_mask s0 |>, g') /\ reading g' rest) /\
  (forall v, v <> 1 -> pic_load g s0 v = (-22, s0, g)).
Proof using.
  intros Hwf Hf. split; [by apply pic_save_bytes|]. split.
  - intros Hg. unfold pic_bytes in Hg. cbn [app] in Hg.
    assert (Hpa : is_u8 (priority_add s) /\ is_u8 (init_state s))
      by (unfold wf_pic, in_width in *; lia).
    unfold wf_pic in Hwf. destruct_and?. unfold pic_load. cbn [negb Z.eqb Pos.eqb].
    repeat match type of Hg with
    | reading _ (_ :: _) =>
      let g' := fresh "g" in let E := fresh "E" in
      apply get_8s_cons in Hg as (g' & E & Hg); [|assumption]; rewrite E
    end.
    eexists. split; [|exact Hg]. reflexivity.
  - intros v Hv. unfold pic_load. by rewrite (proj2 (Z.eqb_neq v 1) Hv).
Qed.
End SaveLoad.

(** ** Concrete runs *)

(** The controllers as the BIOS programs them, with line 1 (the keyboard) raised. *)
Definition bios_writes : list pic_op :=
  [OpWrite false 0x20 0x11; OpWrite false 0x21 0x08; OpWrite false 0x21 0x04; OpWrite false 0x21 0x01;
   OpWrite true 0xa0 0x11; OpWrite true 0xa1 0x70; OpWrite true 0xa1 0x02; OpWrite true 0xa1 0x01;
   OpWrite false 0x21 0xb8; OpWrite true 0xa1 0x8f; OpSetIrq 1 1].

Definition pic_run (ops : list pic_op) (s : option PicState2) : option PicState2 :=
  foldl (fun s op => s ≫= pic_exec op) s ops.

Definition bios_pics : PicState2 := default i8259_init (pic_run bios_writes (Some i8259_init)).

Lemma run_reach ops : Forall pic_op_ok ops -> forall s s', pic_reach s ->
  pic_run ops (Some s) = Some s' -> pic_reach s'.
Proof.
  induction 1 as [|op ops Hok Hops IH]; intros s s' Hr; cbn; [congruence|].
  destruct (pic_exec op s) as [s1|] eqn:E.
  - intros H. apply (IH s1); [|exact H]. by eapply pic_reach_step.
  - intros H. assert (Hn : pic_run ops None = None) by (clear; by induction ops).
    unfold pic_run in Hn. congruence.
Qed.

Lemma bios_reach : pic_reach bios_pics.
Proof.
  apply (run_reach bios_writes) with i8259_init; [|constructor|by vm_compute].
  repeat constructor; vm_compute; congruence.
Qed.

Lemma bios_wf : wf_pics bios_pics.
Proof. unfold wf_pics, wf_pic, in_width. vm_compute. intuition congruence. Qed.

Lemma pic_get_irq_highest_witness :
  pic_get_irq false (pic0 bios_pics) = 1 /\ requested (pic0 bios_pics) 1.
Proof.
  split; [by vm_compute|]. destruct bios_wf as [H _].
  destruct (pic_get_irq_highest false (pic0 bios_pics) H) as [[Hr _]|[Hn _]].
  - exact Hr.
  - exfalso. vm_compute in Hn. discriminate Hn.
Defined.

Lemma pic_reachable_wf_witness : wf_pics bios_pics /\ (pic_read_irq bios_pics).1 = 9.
Proof. split; [apply (pic_reachable_wf bios_pics bios_reach)|by vm_compute]. Defined.


Lemma pic_save_load_witness :
  let f := mkFile [] true 0 0 0 (fun _ => 0) in
  let g := mkFile (pic_bytes (pic0 bios_pics)) false 0 0 0 (fun _ => 0) in
  appended (pic_save f (pic0 bios_pics)) (pic_bytes (pic0 bios_pics)) /\
  exists g', pic_load g (zero_pic 0xf8) 1
    = (0, (pic0 bios_pics) <| elcr_mask := 0xf8 |>, g').
Proof.
  destruct bios_wf as [Hwf _].
  assert (Ha : appended (mkFile [] true 0 0 0 (fun _ => 0)) []) by exact fopen_writing.
  destruct (pic_save_load (mkFile [] true 0 0 0 (fun _ => 0)) (pic0 bios_pics) (zero_pic 0xf8) [] []
    (mkFile (pic_bytes (pic0 bios_pics)) false 0 0 0 (fun _ => 0)) Hwf Ha) as (H1 & H2 & _).
  split; [exact H1|]. destruct H2 as (g' & H2 & _); [rewrite app_nil_r; apply fopen_reading|].
  exists g'. exact H2.
Defined.

End I8259.
