(* ===== verification/I8254.v ===== *)
(** * The i8254 interval timer

    The three channels of the PC's timer (src/MemCheck-qemu/hw/i8254.c): the counters
    derived from the virtual clock, the output and its next transition in each mode,
    the latches and the byte access states of the ports, the timer that drives the
    interrupt, and the saved state.  An operation takes the value [now] of the virtual
    clock, which it samples.  A channel's timer is [None] for a NULL pointer, otherwise
    the expiry if it is pending. *)

From S2P Require Import Prelude Bytes Savevm Timers.
Import Savevm Timers.

Module I8254.

Definition PIT_FREQ : Z := 1193182.
Definition RW_STATE_LSB : Z := 1.
Definition RW_STATE_MSB : Z := 2.
Definition RW_STATE_WORD0 : Z := 3.
Definition RW_STATE_WORD1 : Z := 4.

Record PITChannelState := mkChannel {
  count : Z;                    (** can be 65536 *)
  latched_count : Z;
  count_latched : Z;
  status_latched : Z;
  status : Z;
  read_state : Z;
  write_state : Z;
  write_latch : Z;
  rw_mode : Z;
  mode : Z;
  bcd : Z;
  gate : Z;
  count_load_time : Z;
  next_transition_time : Z;
  irq_timer : option (option Z);
  irq_levels : list Z;          (** the levels given to [qemu_set_irq], oldest first *)
}.

#[global] Instance eta_channel : Eta PITChannelState := fun s =>
  mkChannel (count s) (latched_count s) (count_latched s) (status_latched s) (status s)
    (read_state s) (write_state s) (write_latch s) (rw_mode s) (mode s) (bcd s) (gate s)
    (count_load_time s) (next_transition_time s) (irq_timer s) (irq_levels s).

Abbreviation PITState := (list PITChannelState).

(** ** Counters *)

(** The ticks of the channel since its count was loaded. *)
Definition ticks (s : PITChannelState) (current_time : Z) : Z :=
  muldiv64 (u64 (current_time - count_load_time s)) PIT_FREQ ticks_per_sec.

Definition pit_get_count (s : PITChannelState) (now : Z) : Z :=
  let d := ticks s now in
  let m := mode s in
  if (m =? 0) || (m =? 1) || (m =? 4) || (m =? 5) then Z.land (u64 (count s - d)) 0xffff
  else if m =? 3 then s32 (count s - u64 (2 * d) mod u64 (count s))
  else s32 (count s - d mod u64 (count s)).

Definition pit_get_out1 (s : PITChannelState) (current_time : Z) : Z :=
  let d := ticks s current_time in
  let n := u64 (count s) in
  let m := mode s in
  if m =? 1 then b2z (d <? n)
  else if m =? 2 then (if (d mod n =? 0) && negb (d =? 0) then 1 else 0)
  else if m =? 3 then b2z (d mod n <? u64 (Z.shiftr (count s + 1) 1))
  else if (m =? 4) || (m =? 5) then b2z (d =? n)
  else b2z (n <=? d).

Definition pit_get_out (pit : PITState) (channel : nat) (current_time : Z) : option Z :=
  (fun s => pit_get_out1 s current_time) <$> pit !! channel.

(** The switch of [pit_get_next_transition_time]: the ticks of the next transition when
    [d] have passed, [None] for the return of -1. *)
Definition next_transition_ticks (s : PITChannelState) (d : Z) : option Z :=
  let n := u64 (count s) in
  let m := mode s in
  if m =? 2 then
    let base := u64 (d / n * n) in
    Some (if (d - base =? 0) && negb (d =? 0) then u64 (base + n) else u64 (base + n + 1))
  else if m =? 3 then
    let base := u64 (d / n * n) in
    let period2 := Z.shiftr (count s + 1) 1 in
    Some (if u64 (d - base) <? u64 period2 then u64 (base + period2) else u64 (base + n))
  else if (m =? 4) || (m =? 5) then
    if d <? n then Some n
    else if d =? n then Some (u64 (count s + 1))
    else None
  else if d <? n then Some n
  else None.

Definition pit_get_next_transition_time (s : PITChannelState) (current_time : Z) : Z :=
  match next_transition_ticks s (ticks s current_time) with
  | None => -1
  | Some next_time =>
    let next_time := u64 (count_load_time s + muldiv64 next_time ticks_per_sec PIT_FREQ) in
    let next_time := if next_time <=? u64 current_time then u64 (current_time + 1) else next_time in
    s64 next_time
  end.

Definition pit_irq_timer_update (s : PITChannelState) (current_time : Z) : PITChannelState :=
  match irq_timer s with
  | None => s
  | Some _ =>
    let expire_time := pit_get_next_transition_time s current_time in
    let irq_level := pit_get_out1 s current_time in
    let s := s <| irq_levels := irq_levels s ++ [irq_level] |> in
    let s := s <| next_transition_time := expire_time |> in
    s <| irq_timer := Some (if negb (expire_time =? -1) then Some expire_time else None) |>
  end.

(** The callback of the timer, which the clock has just removed from its list. *)
Definition pit_irq_timer (s : PITChannelState) : PITChannelState :=
  pit_irq_timer_update s (next_transition_time s).

Definition set_gate1 (s : PITChannelState) (val now : Z) : PITChannelState :=
  let m := mode s in
  let s := if ((m =? 1) || (m =? 5) || (m =? 2) || (m =? 3)) && (gate s <? val)
           then let s := s <| count_load_time := now |> in
                pit_irq_timer_update s (count_load_time s)
           else s in
  s <| gate := u8 val |>.

Definition pit_set_gate (pit : PITState) (channel : nat) (val now : Z) : PITState :=
  alter (fun s => set_gate1 s val now) channel pit.

Definition pit_get_gate (pit : PITState) (channel : nat) : option Z := gate <$> pit !! channel.
Definition pit_get_initial_count (pit : PITState) (channel : nat) : option Z :=
  count <$> pit !! channel.
Definition pit_get_mode (pit : PITState) (channel : nat) : option Z := mode <$> pit !! channel.

(** ** The ports *)

Definition pit_load_count (s : PITChannelState) (val now : Z) : PITChannelState :=
  let val := if val =? 0 then 0x10000 else val in
  let s := s <| count_load_time := now |> in
  let s := s <| count := s32 val |> in
  pit_irq_timer_update s (count_load_time s).

Definition pit_latch_count (s : PITChannelState) (now : Z) : PITChannelState :=
  if negb (truth (count_latched s)) then
    let s := s <| latched_count := u16 (pit_get_count s now) |> in
    s <| count_latched := rw_mode s |>
  else s.

(** The read back command for one channel. *)
Definition read_back (channel : nat) (val : Z) (s : PITChannelState) (now : Z) : PITChannelState :=
  if has val (Z.shiftl 2 (Z.of_nat channel)) then
    let s := if negb (has val 0x20) then pit_latch_count s now else s in
    if negb (has val 0x10) && negb (truth (status_latched s)) then
      let s := s <| status := u8 (Z.lor (Z.lor (Z.lor (Z.shiftl (pit_get_out1 s now) 7)
                        (Z.shiftl (rw_mode s) 4)) (Z.shiftl (mode s) 1)) (bcd s)) |> in
      s <| status_latched := 1 |>
    else s
  else s.

(** A control word for the channel it selects. *)
Definition control_word (val : Z) (s : PITChannelState) (now : Z) : PITChannelState :=
  let access := Z.land (Z.shiftr val 4) 3 in
  if access =? 0 then pit_latch_count s now
  else
    let s := s <| rw_mode := access |> in
    let s := s <| read_state := access |> in
    let s := s <| write_state := access |> in
    let s := s <| mode := Z.land (Z.shiftr val 1) 7 |> in
    s <| bcd := Z.land val 1 |>.

Definition write_count (val : Z) (s : PITChannelState) (now : Z) : PITChannelState :=
  let st := write_state s in
  if st =? RW_STATE_MSB then pit_load_count s (u32 (Z.shiftl val 8)) now
  else if st =? RW_STATE_WORD0 then
    let s := s <| write_latch := u8 val |> in
    s <| write_state := RW_STATE_WORD1 |>
  else if st =? RW_STATE_WORD1 then
    let s := pit_load_count s (Z.lor (write_latch s) (u32 (Z.shiftl val 8))) now in
    s <| write_state := RW_STATE_WORD0 |>
  else pit_load_count s val now.

Definition pit_ioport_write (pit : PITState) (addr val now : Z) : PITState :=
  let addr := Z.land addr 3 in
  if addr =? 3 then
    let channel := Z.shiftr val 6 in
    if channel =? 3 then imap (fun i s => read_back i val s now) pit
    else alter (fun s => control_word val s now) (Z.to_nat channel) pit
  else alter (fun s => write_count val s now) (Z.to_nat addr) pit.

Definition read_count (s : PITChannelState) (now : Z) : Z * PITChannelState :=
  if truth (status_latched s) then (status s, s <| status_latched := 0 |>)
  else if truth (count_latched s) then
    let st := count_latched s in
    if st =? RW_STATE_MSB then (Z.shiftr (latched_count s) 8, s <| count_latched := 0 |>)
    else if st =? RW_STATE_WORD0 then
      (Z.land (latched_count s) 0xff, s <| count_latched := RW_STATE_MSB |>)
    else (Z.land (latched_count s) 0xff, s <| count_latched := 0 |>)
  else
    let st := read_state s in
    let n := pit_get_count s now in
    if st =? RW_STATE_MSB then (Z.land (Z.shiftr n 8) 0xff, s)
    else if st =? RW_STATE_WORD0 then (Z.land n 0xff, s <| read_state := RW_STATE_WORD1 |>)
    else if st =? RW_STATE_WORD1 then
      (Z.land (Z.shiftr n 8) 0xff, s <| read_state := RW_STATE_WORD0 |>)
    else (Z.land n 0xff, s).

(** [None] is the access out of the array for the address 3, at which no read is
    registered. *)
Definition pit_ioport_read (pit : PITState) (addr now : Z) : option (Z * PITState) :=
  let addr := Z.to_nat (Z.land addr 3) in
  match pit !! addr with
  | None => None
  | Some s => let '(ret, s) := read_count s now in Some (ret, <[addr := s]> pit)
  end.

Definition reset1 (now : Z) (i : nat) (s : PITChannelState) : PITChannelState :=
  let s := s <| mode := 3 |> in
  let s := s <| gate := b2z (negb (Z.of_nat i =? 2)) |> in
  pit_load_count s 0 now.

Definition pit_reset (pit : PITState) (now : Z) : PITState := imap (reset1 now) pit.

Definition zero_channel (timer : option (option Z)) : PITChannelState :=
  mkChannel 0 0 0 0 0 0 0 0 0 0 0 0 0 0 timer [].

Definition pit_init (now : Z) : PITState :=
  pit_reset [zero_channel (Some None); zero_channel None; zero_channel None] now.

(** ** Saved state *)

Section Save.
Context {F : Type} `{!SaveFile F}.

Definition save_channel (f : F) (s : PITChannelState) : F :=
  let f := qemu_put_be32 (u32 (count s)) f in
  let f := qemu_put_be16 (latched_count s) f in
  let f := put_bytes [count_latched s; status_latched s; status s; read_state s; write_state s;
                      write_latch s; rw_mode s; mode s; bcd s; gate s] f in
  let f := qemu_put_be64 (u64 (count_load_time s)) f in
  match irq_timer s with
  | Some ts => let f := qemu_put_be64 (u64 (next_transition_time s)) f in qemu_put_timer f ts
  | None => f
  end.

Definition pit_save (f : F) (pit : PITState) : F := foldl save_channel f pit.

Definition load_channel (f : F) (s : PITChannelState) : PITChannelState * F :=
  let '(v, f) := qemu_get_be32 f in let s := s <| count := s32 v |> in
  let '(v, f) := qemu_get_be16 f in let s := s <| latched_count := u16 v |> in
  let '(v, f) := qemu_get_8s f in let s := s <| count_latched := v |> in
  let '(v, f) := qemu_get_8s f in let s := s <| status_latched := v |> in
  let '(v, f) := qemu_get_8s f in let s := s <| status := v |> in
  let '(v, f) := qemu_get_8s f in let s := s <| read_state := v |> in
  let '(v, f) := qemu_get_8s f in let s := s <| write_state := v |> in
  let '(v, f) := qemu_get_8s f in let s := s <| write_latch := v |> in
  let '(v, f) := qemu_get_8s f in let s := s <| rw_mode := v |> in
  let '(v, f) := qemu_get_8s f in let s := s <| mode := v |> in
  let '(v, f) := qemu_get_8s f in let s := s <| bcd := v |> in
  let '(v, f) := qemu_get_8s f in let s := s <| gate := v |> in
  let '(v, f) := qemu_get_be64 f in let s := s <| count_load_time := s64 v |> in
  match irq_timer s with
  | Some _ =>
    let '(v, f) := qemu_get_be64 f in let s := s <| next_transition_time := s64 v |> in
    let '(ts, f) := qemu_get_timer f in (s <| irq_timer := Some ts |>, f)
  | None => (s, f)
  end.

Fixpoint load_channels (f : F) (pit : PITState) : PITState * F :=
  match pit with
  | [] => ([], f)
  | s :: pit' =>
    let '(s, f) := load_channel f s in
    let '(pit', f) := load_channels f pit' in (s :: pit', f)
  end.

Definition pit_load (f : F) (pit : PITState) (version_id : Z) : Z * PITState * F :=
  if negb (version_id =? 1) then (-22, pit, f)
  else let '(pit, f) := load_channels f pit in (0, pit, f).
End Save.

(** ** Well formed channels *)

Definition ch_ok (s : PITChannelState) : Prop :=
  1 <= count s <= 65536 /\ is_u16 (latched_count s) /\ 0 <= count_latched s <= 3 /\
  is_u8 (status s) /\ 0 <= mode s <= 7 /\ is_u8 (write_latch s) /\ 0 <= rw_mode s <= 3 /\
  0 <= bcd s <= 1.

Ltac solve_ok := unfold ch_ok in *; cbn -[Z.land Z.shiftr Z.shiftl Z.lor in_width u8 u16 u32 s32] in *;
  destruct_and?; split_and?; try done; try lia.

Lemma land_small w x y : 0 <= w -> 0 <= y < 2 ^ w -> 0 <= Z.land x y < 2 ^ w.
Proof. intros Hw Hy. by apply (land_width_r w Hw x y). Qed.

Lemma timer_update_ok s t : ch_ok s -> ch_ok (pit_irq_timer_update s t).
Proof. intros H. unfold pit_irq_timer_update. destruct (irq_timer s); solve_ok. Qed.

Lemma timer_update_keeps s t :
  count (pit_irq_timer_update s t) = count s /\ mode (pit_irq_timer_update s t) = mode s /\
  count_load_time (pit_irq_timer_update s t) = count_load_time s /\
  (irq_timer (pit_irq_timer_update s t) = None <-> irq_timer s = None).
Proof. unfold pit_irq_timer_update. by destruct (irq_timer s) eqn:E. Qed.

Lemma load_count_ok s val now : ch_ok s -> 0 <= val <= 65535 -> ch_ok (pit_load_count s val now).
Proof.
  intros H Hv. unfold pit_load_count. apply timer_update_ok.
  destruct (Z.eqb_spec val 0) as [->|Hne]; [solve_ok; vm_compute; congruence|].
  assert (E : s32 val = val).
  { unfold s32, sext. rewrite wrap_small by (unfold in_width; lia).
    rewrite (proj2 (Z.ltb_lt _ _)) by (simpl; lia). done. }
  solve_ok; rewrite E; lia.
Qed.

Lemma latch_count_ok s now : ch_ok s -> ch_ok (pit_latch_count s now).
Proof.
  intros H. unfold pit_latch_count. destruct (truth (count_latched s)); [done|].
  solve_ok. apply wrap_range. lia.
Qed.

Lemma read_back_ok i val s now : ch_ok s -> ch_ok (read_back i val s now).
Proof.
  intros H. unfold read_back. destruct (has val _); [|done].
  set (s1 := if negb _ then _ else s).
  assert (H1 : ch_ok s1) by (subst s1; destruct (negb _); [by apply latch_count_ok|done]).
  clearbody s1. destruct (_ && _); [|done]. solve_ok. apply wrap_range. lia.
Qed.

Lemma control_word_ok val s now : ch_ok s -> ch_ok (control_word val s now).
Proof.
  intros H. unfold control_word. destruct (_ =? 0); [by apply latch_count_ok|].
  pose proof (land_small 2 (Z.shiftr val 4) 3 ltac:(lia) ltac:(lia)).
  pose proof (land_small 3 (Z.shiftr val 1) 7 ltac:(lia) ltac:(lia)).
  pose proof (land_small 1 val 1 ltac:(lia) ltac:(lia)).
  solve_ok.
Qed.

Lemma shift8 val : is_u8 val -> u32 (Z.shiftl val 8) = val * 256.
Proof.
  intros Hv. unfold in_width in Hv. rewrite Z.shiftl_mul_pow2 by lia.
  apply wrap_small. unfold in_width. lia.
Qed.

Lemma lor_bytes lo hi : is_u8 lo -> is_u8 hi -> Z.lor lo (hi * 256) = lo + hi * 256.
Proof.
  intros Hlo Hhi. unfold in_width in *. change 256 with (2 ^ 8). rewrite <- Z.shiftl_mul_pow2 by lia.
  rewrite <- Z.lxor_lor, <- Z.add_nocarry_lxor; try done; apply Z.bits_inj'; intros i Hi;
    rewrite Z.land_spec, Z.bits_0; (destruct (Z.ltb_spec i 8);
      [rewrite Z.shiftl_spec_low by lia; apply andb_false_r|rewrite (testbit_high 8) by (unfold in_width; lia); done]).
Qed.

Lemma write_count_ok val s now : is_u8 val -> ch_ok s -> ch_ok (write_count val s now).
Proof.
  intros Hv H. unfold write_count. rewrite shift8 by done. pose proof Hv as Hv'. unfold in_width in Hv'.
  destruct (write_state s =? RW_STATE_MSB); [apply load_count_ok; [done|lia]|].
  destruct (write_state s =? RW_STATE_WORD0).
  { solve_ok. apply wrap_range. lia. }
  destruct (write_state s =? RW_STATE_WORD1); [|apply load_count_ok; [done|lia]].
  assert (Hw : is_u8 (write_latch s)) by (unfold ch_ok in H; tauto).
  rewrite lor_bytes by done. unfold in_width in Hw.
  assert (H1 : ch_ok (pit_load_count s (write_latch s + val * 256) now))
    by (apply load_count_ok; [done|lia]).
  solve_ok.
Qed.

Lemma set_gate_ok s val now : ch_ok s -> ch_ok (set_gate1 s val now).
Proof.
  intros H. unfold set_gate1. destruct (_ && _); [|solve_ok].
  assert (H1 : ch_ok (pit_irq_timer_update (s <| count_load_time := now |>) now))
    by (apply timer_update_ok; solve_ok).
  solve_ok.
Qed.

Lemma count_range s now : ch_ok s -> 0 <= pit_get_count s now <= 65536.
Proof.
  intros H. assert (Hn : 1 <= count s <= 65536) by (unfold ch_ok in H; tauto). unfold pit_get_count.
  assert (En : u64 (count s) = count s) by (apply wrap_small; unfold in_width; lia). rewrite En.
  assert (Es : forall m, s32 (count s - m mod count s) = count s - m mod count s).
  { intros m. pose proof (Z.mod_pos_bound m (count s) ltac:(lia)). unfold s32, sext.
    rewrite wrap_small by (unfold in_width; lia). rewrite (proj2 (Z.ltb_lt _ _)) by (simpl; lia). done. }
  rewrite !Es.
  pose proof (land_small 16 (u64 (count s - ticks s now)) 0xffff ltac:(lia) ltac:(lia)).
  pose proof (Z.mod_pos_bound (u64 (2 * ticks s now)) (count s) ltac:(lia)).
  pose proof (Z.mod_pos_bound (ticks s now) (count s) ltac:(lia)).
  split_ifs; lia.
Qed.

Lemma read_count_ok s now : ch_ok s -> is_u8 (read_count s now).1 /\ ch_ok (read_count s now).2.
Proof.
  intros H. unfold read_count.
  assert (Hl : is_u16 (latched_count s)) by (unfold ch_ok in H; tauto).
  assert (Hs : is_u8 (status s)) by (unfold ch_ok in H; tauto).
  assert (Hm : forall x, is_u8 (Z.land x 0xff)) by (intros x; apply (land_small 8); lia).
  assert (Hh : is_u8 (Z.shiftr (latched_count s) 8)).
  { unfold in_width in *. rewrite Z.shiftr_div_pow2 by lia.
    split; [apply Z.div_pos; lia|apply Z.div_lt_upper_bound; lia]. }
  destruct (truth (status_latched s)); [cbn; split; [done|solve_ok]|].
  destruct (truth (count_latched s)).
  - split_ifs; cbn -[Z.land]; (split; [done|]); unfold RW_STATE_MSB; solve_ok.
  - split_ifs; cbn -[Z.land]; (split; [done|]); solve_ok.
Qed.

(** ** Reachable timers *)

(** What the guest and the rest of the machine do to the timer: byte writes and reads of
    its ports, the gate of a channel, the expiry of the interrupt timer, a reset. *)
Inductive pit_op : Type :=
| PWrite (addr val : Z) | PRead (addr : Z) | PGate (channel : nat) (val : Z) | PTimer | PReset.

Definition pit_op_ok (op : pit_op) : Prop :=
  match op with PWrite _ val => is_u8 val | PRead addr => Z.land addr 3 <> 3 | _ => True end.

Definition pit_exec (op : pit_op) (now : Z) (pit : PITState) : option PITState :=
  match op with
  | PWrite addr val => Some (pit_ioport_write pit addr val now)
  | PRead addr => snd <$> pit_ioport_read pit addr now
  | PGate channel val => Some (pit_set_gate pit channel val now)
  | PTimer => Some (alter pit_irq_timer 0%nat pit)
  | PReset => Some (pit_reset pit now)
  end.

Inductive pit_reach : PITState -> Prop :=
| pit_reach_init now : pit_reach (pit_init now)
| pit_reach_step op now pit pit' : pit_reach pit -> pit_op_ok op ->
    pit_exec op now pit = Some pit' -> pit_reach pit'.

Definition pit_ok (pit : PITState) : Prop := length pit = 3%nat /\ Forall ch_ok pit.

Lemma alter_pit_ok f i pit : (forall s, ch_ok s -> ch_ok (f s)) -> pit_ok pit -> pit_ok (alter f i pit).
Proof.
  intros Hf [Hl H]. split; [by rewrite length_alter|]. apply Forall_alter; [done|].
  intros x _ Hx. by apply Hf.
Qed.

Lemma imap_pit_ok f pit : (forall i s, ch_ok s -> ch_ok (f i s)) -> pit_ok pit -> pit_ok (imap f pit).
Proof.
  intros Hf [Hl H]. split; [by rewrite length_imap|]. rewrite Forall_lookup in H |- *.
  intros i x Hx. rewrite list_lookup_imap in Hx. destruct (pit !! i) as [y|] eqn:E; [|done].
  injection Hx as <-. apply Hf. by eapply H.
Qed.

Lemma reset1_ok now i s :
  is_u16 (latched_count s) -> 0 <= count_latched s <= 3 -> is_u8 (status s) -> is_u8 (write_latch s) ->
  0 <= rw_mode s <= 3 -> 0 <= bcd s <= 1 -> ch_ok (reset1 now i s).
Proof.
  intros H1 H2 H3 H4 H5 H6. unfold reset1, pit_load_count. apply timer_update_ok.
  change (s32 (if 0 =? 0 then 0x10000 else 0)) with 65536. solve_ok.
Qed.

Lemma exec_pit_ok op now pit pit' : pit_ok pit -> pit_op_ok op -> pit_exec op now pit = Some pit' ->
  pit_ok pit'.
Proof.
  intros Hp Hok. destruct op as [addr val|addr|channel val| |]; simpl in *.
  - intros [= <-]. unfold pit_ioport_write. destruct (_ =? 3); [destruct (_ =? 3)|].
    + apply imap_pit_ok; [|done]. intros. by apply read_back_ok.
    + apply alter_pit_ok; [|done]. intros. by apply control_word_ok.
    + apply alter_pit_ok; [|done]. intros. by apply write_count_ok.
  - unfold pit_ioport_read. destruct (pit !! _) as [s|] eqn:E; [|done]. destruct Hp as [Hl Hf].
    pose proof Hf as Hf'. rewrite Forall_lookup in Hf'. pose proof (Hf' _ _ E) as Hs.
    destruct (read_count_ok s now Hs) as [_ H2]. destruct (read_count s now) as [ret s'].
    intros [= <-]. split; [by rewrite length_insert|]. by apply Forall_insert.
  - intros [= <-]. apply alter_pit_ok; [|done]. intros. by apply set_gate_ok.
  - intros [= <-]. apply alter_pit_ok; [|done]. intros. by apply timer_update_ok.
  - intros [= <-]. apply imap_pit_ok; [|done]. intros i s Hs. unfold ch_ok in Hs.
    apply reset1_ok; tauto.
Qed.

(** C39. The guest can not break the timer: after any sequence of byte writes and reads,
    gate changes, expiries and resets every channel's count is between 1 and 65536, so
    that no counter computation divides by zero, a counter reads as a value of that
    range, and every port read gives a byte. *)
Theorem pit_reachable_ok pit : pit_reach pit -> pit_ok pit /\
  (forall i s now, pit !! i = Some s -> 1 <= count s <= 65536 /\ 0 <= pit_get_count s now <= 65536) /\
  (forall addr now, Z.land addr 3 <> 3 ->
     exists ret pit', pit_ioport_read pit addr now = Some (ret, pit') /\ is_u8 ret).
Proof.
  intros Hr. assert (Hok : pit_ok pit).
  { induction Hr as [now|op now pit pit' Hr IH Hop He]; [|by eapply exec_pit_ok].
    split; [done|]. unfold pit_init, pit_reset. cbn -[reset1].
    rewrite !Forall_cons, Forall_nil.
    split_and!; try done; apply reset1_ok; cbn; unfold in_width; lia. }
  split; [done|]. destruct Hok as [Hl Hf]. rewrite Forall_lookup in Hf. split.
  - intros i s now Hs. specialize (Hf i s Hs). split; [unfold ch_ok in Hf; tauto|].
    by apply count_range.
  - intros addr now Ha. unfold pit_ioport_read.
    pose proof (land_small 2 addr 3 ltac:(lia) ltac:(lia)) as Hb.
    destruct (lookup_lt_is_Some_2 pit (Z.to_nat (Z.land addr 3))) as [s Hs]; [lia|].
    rewrite Hs. pose proof (read_count_ok s now (Hf _ _ Hs)) as [H1 _].
    destruct (read_count s now) as [ret s']. eauto.
Qed.

(** ** The latch *)

Lemma word_bytes x : is_u16 x -> Z.land x 0xff + 256 * Z.shiftr x 8 = x.
Proof.
  intros Hx. change 0xff with (Z.ones 8). rewrite Z.land_ones, Z.shiftr_div_pow2 by lia.
  pose proof (Z.div_mod x (2 ^ 8) ltac:(lia)). lia.
Qed.

(** A latched count is consistent: after the latch command for a channel that reads
    words and holds no latch, the next two reads of its port, however much later, give
    the low and the high byte of the count at the time of the command, and free the
    latch. *)
Theorem pit_latch_read pit i s now t1 t2 : (i < 3)%nat -> pit !! i = Some s ->
  rw_mode s = 3 -> count_latched s = 0 -> status_latched s = 0 ->
  exists lo hi pit1 pit2 s2,
    pit_ioport_read (pit_ioport_write pit 3 (Z.of_nat i * 64) now) (Z.of_nat i) t1 = Some (lo, pit1) /\
    pit_ioport_read pit1 (Z.of_nat i) t2 = Some (hi, pit2) /\
    lo + 256 * hi = u16 (pit_get_count s now) /\
    pit2 !! i = Some s2 /\ count_latched s2 = 0.
Proof.
  intros Hi Hs Hrw Hcl Hsl.
  assert (Hw : pit_ioport_write pit 3 (Z.of_nat i * 64) now
    = alter (fun s => control_word (Z.of_nat i * 64) s now) i pit).
  { destruct i as [|[|[|i]]]; [reflexivity..|lia]. }
  rewrite Hw. unfold pit_ioport_read.
  assert (Ha : Z.to_nat (Z.land (Z.of_nat i) 3) = i) by (destruct i as [|[|[|i]]]; [reflexivity..|lia]).
  rewrite Ha. rewrite list_lookup_alter_eq, Hs. cbn [fmap option_fmap option_map].
  assert (Hc : control_word (Z.of_nat i * 64) s now =
    (s <| latched_count := u16 (pit_get_count s now) |>) <| count_latched := 3 |>).
  { unfold control_word.
    assert (E : Z.land (Z.shiftr (Z.of_nat i * 64) 4) 3 = 0) by (destruct i as [|[|[|i]]]; [reflexivity..|lia]).
    rewrite E. cbn [Z.eqb]. unfold pit_latch_count. rewrite Hcl. cbn [truth Z.eqb negb].
    cbn. by rewrite Hrw. }
  rewrite Hc. unfold read_count at 1. cbn [status_latched upd]. cbn -[Z.land Z.shiftr pit_get_count u16].
  rewrite Hsl. cbn -[Z.land Z.shiftr pit_get_count u16].
  set (s1 := _ <| count_latched := RW_STATE_MSB |>).
  eexists _, _, _, _, _. split; [reflexivity|].
  rewrite list_lookup_insert_eq by (rewrite length_alter; by eapply lookup_lt_Some).
  unfold read_count. change (status_latched s1) with (status_latched s). rewrite Hsl.
  cbn -[Z.land Z.shiftr pit_get_count u16]. split; [reflexivity|]. split.
  - apply word_bytes. apply wrap_range. lia.
  - rewrite list_lookup_insert_eq; [split; reflexivity|].
    rewrite length_insert, length_alter. by eapply lookup_lt_Some.
Qed.

(** ** Ticks *)

(** Times at which the conversions to ticks are exact. *)
Definition time_ok (s : PITChannelState) (t : Z) : Prop :=
  0 <= count_load_time s <= t /\ t < 2 ^ 62.

Lemma ticks_div s t : time_ok s t ->
  ticks s t = (t - count_load_time s) * PIT_FREQ / ticks_per_sec /\ 0 <= ticks s t < 2 ^ 62.
Proof.
  unfold time_ok. intros Ht. unfold ticks.
  assert (Eu : u64 (t - count_load_time s) = t - count_load_time s)
    by (apply wrap_small; unfold in_width; lia).
  rewrite Eu, muldiv64_div by (unfold in_width, PIT_FREQ, ticks_per_sec, QEMU_TIMER_BASE; lia).
  unfold PIT_FREQ, ticks_per_sec, QEMU_TIMER_BASE.
  assert (H : 0 <= (t - count_load_time s) * 1193182 / 1000000000 < 2 ^ 62).
  { split; [apply Z.div_pos; lia|apply Z.div_lt_upper_bound; lia]. }
  rewrite Z.mod_small by lia. split; [done|lia].
Qed.

Lemma ticks_mono s t t' : time_ok s t -> time_ok s t' -> t <= t' -> ticks s t <= ticks s t'.
Proof.
  intros Ht Ht' Hle. rewrite (proj1 (ticks_div s t Ht)), (proj1 (ticks_div s t' Ht')).
  unfold PIT_FREQ, ticks_per_sec, QEMU_TIMER_BASE. apply Z.div_le_mono; lia.
Qed.

(** The number of ticks after the load at which [pit_get_next_transition_time] expects
    the next change. *)
Lemma next_time_bounds s t next : time_ok s t -> 0 <= next <= ticks s t + 65537 ->
  let x := u64 (count_load_time s + muldiv64 next ticks_per_sec PIT_FREQ) in
  let y := if x <=? u64 t then u64 (t + 1) else x in
  t < s64 y.
Proof.
  intros Ht Hn. destruct (ticks_div s t Ht) as [Ed Hd]. unfold time_ok in Ht.
  rewrite muldiv64_div by (unfold in_width, PIT_FREQ, ticks_per_sec, QEMU_TIMER_BASE; lia).
  set (m := next * ticks_per_sec / PIT_FREQ).
  assert (Hm : 0 <= m /\ count_load_time s + m < 2 ^ 62 + 100000000).
  { unfold m, PIT_FREQ, ticks_per_sec, QEMU_TIMER_BASE in *. split; [apply Z.div_pos; lia|].
    pose proof (Z.mul_div_le ((t - count_load_time s) * 1193182) 1000000000 ltac:(lia)).
    assert (next * 1000000000 / 1193182 < 2 ^ 62 + 100000000 - count_load_time s);
      [apply Z.div_lt_upper_bound; lia|lia]. }
  rewrite (Z.mod_small m) by lia.
  assert (Ex : u64 (count_load_time s + m) = count_load_time s + m)
    by (apply wrap_small; unfold in_width; lia).
  assert (Et : u64 t = t) by (apply wrap_small; unfold in_width; lia).
  assert (Et1 : u64 (t + 1) = t + 1) by (apply wrap_small; unfold in_width; lia).
  rewrite Ex, Et, Et1. cbv zeta.
  assert (Hs : forall z, 0 <= z < 2 ^ 63 -> s64 z = z).
  { intros z Hz. unfold s64, sext. rewrite wrap_small by (unfold in_width; lia).
    rewrite (proj2 (Z.ltb_lt _ _)) by (simpl; lia). done. }
  destruct (Z.leb_spec (count_load_time s + m) t); rewrite Hs by lia; lia.
Qed.

Lemma next_ticks_bounds s d n : ch_ok s -> 0 <= d < 2 ^ 62 ->
  next_transition_ticks s d = Some n -> 0 <= n <= d + 65537.
Proof.
  intros Hok Hd. assert (Hn : 1 <= count s <= 65536) by (unfold ch_ok in Hok; tauto).
  unfold next_transition_ticks. cbv zeta.
  assert (Hu : forall z, 0 <= z < 2 ^ 63 -> u64 z = z) by (intros; apply wrap_small; unfold in_width; lia).
  rewrite (Hu (count s)) by lia.
  set (base := d / count s * count s).
  assert (Hbase : 0 <= base <= d).
  { pose proof (Z.mul_div_le d (count s) ltac:(lia)). pose proof (Z.div_pos d (count s) ltac:(lia) ltac:(lia)).
    unfold base. split; [apply Z.mul_nonneg_nonneg; lia|lia]. }
  clearbody base. rewrite (Hu base) by lia.
  assert (Hp : 0 <= Z.shiftr (count s + 1) 1 <= 65536).
  { rewrite Z.shiftr_div_pow2 by lia. split; [apply Z.div_pos; lia|].
    apply Z.div_le_upper_bound; lia. }
  rewrite !Hu by lia. split_ifs; to_prop; intros [= <-]; lia.
Qed.

(** No transition is left only when the output has reached its final value. *)
Lemma next_ticks_final s t t' : ch_ok s -> 0 <= ticks s t <= ticks s t' ->
  next_transition_ticks s (ticks s t) = None -> pit_get_out1 s t' = pit_get_out1 s t.
Proof.
  intros Hok Hm. assert (Hn : 1 <= count s <= 65536) by (unfold ch_ok in Hok; tauto).
  assert (En : u64 (count s) = count s) by (apply wrap_small; unfold in_width; lia).
  unfold next_transition_ticks, pit_get_out1. cbv zeta. rewrite En.
  set (d := ticks s t) in *. set (d' := ticks s t') in *. clearbody d d'.
  destruct (mode s =? 2) eqn:E2, (mode s =? 3) eqn:E3; try done.
  destruct ((mode s =? 4) || (mode s =? 5)) eqn:E45; to_prop.
  - destruct (Z.ltb_spec d (count s)), (Z.eqb_spec d (count s)); try done.
    assert (E1 : (mode s =? 1) = false) by (apply orb_true_iff in E45 as [E|E]; to_prop; lia).
    rewrite E1. by rewrite (proj2 (Z.eqb_neq d' (count s))) by lia.
  - destruct (Z.ltb_spec d (count s)); [done|].
    by rewrite (proj2 (Z.ltb_ge d' (count s))), (proj2 (Z.leb_le (count s) d)),
      (proj2 (Z.leb_le (count s) d')) by lia.
Qed.

(** The interrupt timer makes progress and stops rightly: the next transition is
    strictly after the current time, so that a channel never rearms its timer for the
    moment it has reached; and if there is none (-1), the output of the channel never
    changes again until the count is reloaded. *)
Theorem pit_next_transition_progress s t : ch_ok s -> time_ok s t ->
  let next := pit_get_next_transition_time s t in
  (next = -1 \/ t < next) /\
  (next = -1 -> forall t', t <= t' < 2 ^ 62 -> pit_get_out1 s t' = pit_get_out1 s t).
Proof.
  intros Hok Ht. destruct (ticks_div s t Ht) as [_ Hd]. unfold pit_get_next_transition_time.
  destruct (next_transition_ticks s (ticks s t)) as [n|] eqn:E.
  - pose proof (next_ticks_bounds s _ n Hok Hd E) as Hn.
    pose proof (next_time_bounds s t n Ht Hn) as Hlt. cbv zeta in *. split; [by right|].
    intros E1. rewrite E1 in Hlt. unfold time_ok in Ht. lia.
  - split; [by left|]. intros _ t' Ht'. apply next_ticks_final; [done| |done].
    assert (time_ok s t') by (unfold time_ok in *; lia).
    split; [lia|]. apply ticks_mono; [done|done|lia].
Qed.

(** ** Concrete timers *)

(** Channel 0 programmed by the guest for a square wave of 100 Hz: control word 0x36,
    then the count 11932 low byte first. *)
Definition demo_writes : list (pit_op * Z) :=
  [(PWrite 3 0x36, 1000); (PWrite 0 0x9c, 2000); (PWrite 0 0x2e, 3000)].

Definition pit_run (ops : list (pit_op * Z)) (pit : option PITState) : option PITState :=
  foldl (fun pit op => pit ≫= pit_exec op.1 op.2) pit ops.

Definition demo_pit : PITState := default [] (pit_run demo_writes (Some (pit_init 0))).

Lemma run_pit_reach ops : Forall (fun op => pit_op_ok op.1) ops -> forall pit pit', pit_reach pit ->
  pit_run ops (Some pit) = Some pit' -> pit_reach pit'.
Proof.
  induction 1 as [|op ops Hok Hops IH]; intros pit pit' Hr; cbn [pit_run foldl]; [congruence|].
  cbn [mbind option_bind]. destruct (pit_exec op.1 op.2 pit) as [pit1|] eqn:E.
  - apply IH. by eapply pit_reach_step.
  - assert (Hn : pit_run ops None = None) by (clear; by induction ops).
    unfold pit_run in Hn. congruence.
Qed.

Lemma demo_pit_reach : pit_reach demo_pit.
Proof.
  apply (run_pit_reach demo_writes) with (pit_init 0); [|apply pit_reach_init|by vm_compute].
  repeat constructor; vm_compute; congruence.
Qed.

Lemma pit_reachable_ok_witness : pit_ok demo_pit /\ (count <$> demo_pit !! 0%nat) = Some 11932.
Proof. split; [apply (pit_reachable_ok demo_pit demo_pit_reach)|by vm_compute]. Defined.

Lemma pit_latch_read_witness : exists lo hi pit1 pit2 s2,
  pit_ioport_read (pit_ioport_write demo_pit 3 0 5000000) 0 6000000 = Some (lo, pit1) /\
  pit_ioport_read pit1 0 9000000 = Some (hi, pit2) /\
  lo + 256 * hi = 8 /\ pit2 !! 0%nat = Some s2 /\ count_latched s2 = 0.
Proof.
  destruct (demo_pit !! 0%nat) as [s|] eqn:E; [|by vm_compute in E].
  destruct (pit_latch_read demo_pit 0 s 5000000 6000000 9000000 ltac:(lia) E)
    as (lo & hi & pit1 & pit2 & s2 & H1 & H2 & H3 & H4 & H5);
    [vm_compute in E; injection E as <-; reflexivity..|].
  exists lo, hi, pit1, pit2, s2. split; [exact H1|]. split; [exact H2|].
  split; [|split; [exact H4|exact H5]]. rewrite H3. vm_compute in E. injection E as <-. by vm_compute.
Defined.

Definition demo_channel : PITChannelState := default (zero_channel None) (demo_pit !! 0%nat).

Lemma pit_next_transition_progress_witness :
  pit_get_next_transition_time demo_channel 3000 = 5003075 /\
  3000 < pit_get_next_transition_time demo_channel 3000.
Proof.
  assert (E : pit_get_next_transition_time demo_channel 3000 = 5003075) by (by vm_compute).
  split; [exact E|].
  destruct (pit_next_transition_progress demo_channel 3000) as [[H|H] _].
  - unfold ch_ok, in_width. vm_compute. intuition congruence.
  - unfold time_ok. vm_compute. intuition congruence.
  - exfalso. rewrite E in H. discriminate H.
  - exact H.
Defined.

End I8254.
