(* ===== verification/Rtc.v ===== *)
(** * The MC146818 real time clock

    The PC's clock and CMOS memory (src/MemCheck-qemu/hw/mc146818rtc.c): the registers,
    the calendar, the two-step update of the time each second with its alarm, the
    periodic interrupt, the ports and the memory mapped interface, and the saved state.
    An operation takes the value [now] of the virtual clock, which it samples; a timer is
    its expiry if it is pending. *)

From S2P Require Import Prelude Bytes Savevm Timers.
Import Savevm Timers.

Module Rtc.

Definition RTC_SECONDS : nat := 0.
Definition RTC_SECONDS_ALARM : nat := 1.
Definition RTC_MINUTES : nat := 2.
Definition RTC_MINUTES_ALARM : nat := 3.
Definition RTC_HOURS : nat := 4.
Definition RTC_HOURS_ALARM : nat := 5.
Definition RTC_DAY_OF_WEEK : nat := 6.
Definition RTC_DAY_OF_MONTH : nat := 7.
Definition RTC_MONTH : nat := 8.
Definition RTC_YEAR : nat := 9.
Definition RTC_REG_A : nat := 10.
Definition RTC_REG_B : nat := 11.
Definition RTC_REG_C : nat := 12.
Definition RTC_REG_D : nat := 13.

Definition REG_A_UIP : Z := 0x80.
Definition REG_B_SET : Z := 0x80.
Definition REG_B_PIE : Z := 0x40.
Definition REG_B_AIE : Z := 0x20.
Definition REG_B_UIE : Z := 0x10.

(** The fields of [struct tm] the clock uses. *)
Record tm := mkTm {
  tm_sec : Z; tm_min : Z; tm_hour : Z; tm_mday : Z; tm_mon : Z; tm_year : Z; tm_wday : Z;
}.
#[global] Instance eta_tm : Eta tm := fun s =>
  mkTm (tm_sec s) (tm_min s) (tm_hour s) (tm_mday s) (tm_mon s) (tm_year s) (tm_wday s).

Record RTCState := mkRtc {
  cmos_data : list Z;
  cmos_index : Z;
  current_tm : tm;
  irq_levels : list Z;       (** the levels given to [qemu_set_irq], oldest first *)
  base : Z;
  it_shift : Z;
  periodic_timer : option Z;
  next_periodic_time : Z;
  next_second_time : Z;
  second_timer : option Z;
  second_timer2 : option Z;
}.
#[global] Instance eta_rtc : Eta RTCState := fun s =>
  mkRtc (cmos_data s) (cmos_index s) (current_tm s) (irq_levels s) (base s) (it_shift s)
    (periodic_timer s) (next_periodic_time s) (next_second_time s) (second_timer s) (second_timer2 s).

(** [s->cmos_data[i]], and the assignment to it. *)
Definition cmos (s : RTCState) (i : nat) : Z := nth i (cmos_data s) 0.
Definition set_cmos (i : nat) (v : Z) (s : RTCState) : RTCState :=
  s <| cmos_data := <[i := u8 v]> (cmos_data s) |>.
Definition qemu_set_irq (level : Z) (s : RTCState) : RTCState :=
  s <| irq_levels := irq_levels s ++ [level] |>.

(** ** Periodic interrupt *)

Definition rtc_timer_update (s : RTCState) (current_time : Z) : RTCState :=
  let period_code := Z.land (cmos s RTC_REG_A) 0x0f in
  if truth period_code && has (cmos s RTC_REG_B) REG_B_PIE then
    let period_code := if period_code <=? 2 then period_code + 7 else period_code in
    let period := Z.shiftl 1 (period_code - 1) in
    let cur_clock := s64 (muldiv64 (u64 current_time) 32768 ticks_per_sec) in
    let next_irq_clock := Z.land cur_clock (Z.lnot (period - 1)) + period in
    let s := s <| next_periodic_time := s64 (muldiv64 (u64 next_irq_clock) ticks_per_sec 32768 + 1) |> in
    s <| periodic_timer := Some (next_periodic_time s) |>
  else s <| periodic_timer := None |>.

Definition rtc_periodic_timer (s : RTCState) : RTCState :=
  let s := rtc_timer_update s (next_periodic_time s) in
  let s := set_cmos RTC_REG_C (Z.lor (cmos s RTC_REG_C) 0xc0) s in
  qemu_set_irq 1 s.

(** ** Time and registers *)

Definition to_bcd (s : RTCState) (a : Z) : Z :=
  if has (cmos s RTC_REG_B) 0x04 then a
  else Z.lor (Z.shiftl (Z.quot a 10) 4) (Z.rem a 10).

Definition from_bcd (s : RTCState) (a : Z) : Z :=
  if has (cmos s RTC_REG_B) 0x04 then a
  else Z.shiftr a 4 * 10 + Z.land a 0x0f.

Definition rtc_set_time (s : RTCState) : RTCState :=
  let hour := from_bcd s (Z.land (cmos s RTC_HOURS) 0x7f) in
  let pm := negb (has (cmos s RTC_REG_B) 0x02) && has (cmos s RTC_HOURS) 0x80 in
  s <| current_tm := {|
    tm_sec := from_bcd s (cmos s RTC_SECONDS);
    tm_min := from_bcd s (cmos s RTC_MINUTES);
    tm_hour := if pm then hour + 12 else hour;
    tm_wday := from_bcd s (cmos s RTC_DAY_OF_WEEK);
    tm_mday := from_bcd s (cmos s RTC_DAY_OF_MONTH);
    tm_mon := from_bcd s (cmos s RTC_MONTH) - 1;
    tm_year := from_bcd s (cmos s RTC_YEAR) + 100 |} |>.

Definition rtc_copy_date (s : RTCState) : RTCState :=
  let t := current_tm s in
  let s := set_cmos RTC_SECONDS (to_bcd s (tm_sec t)) s in
  let s := set_cmos RTC_MINUTES (to_bcd s (tm_min t)) s in
  let s := if has (cmos s RTC_REG_B) 0x02
           then set_cmos RTC_HOURS (to_bcd s (tm_hour t)) s
           else
             let s := set_cmos RTC_HOURS (to_bcd s (Z.rem (tm_hour t) 12)) s in
             if 12 <=? tm_hour t then set_cmos RTC_HOURS (Z.lor (cmos s RTC_HOURS) 0x80) s else s in
  let s := set_cmos RTC_DAY_OF_WEEK (to_bcd s (tm_wday t)) s in
  let s := set_cmos RTC_DAY_OF_MONTH (to_bcd s (tm_mday t)) s in
  let s := set_cmos RTC_MONTH (to_bcd s (tm_mon t + 1)) s in
  set_cmos RTC_YEAR (to_bcd s (Z.rem (tm_year t) 100)) s.

(** ** Calendar *)

Definition days_tab : list Z := [31; 28; 31; 30; 31; 30; 31; 31; 30; 31; 30; 31].

Definition get_days_in_month (month year : Z) : Z :=
  if 12 <=? u32 month then 31
  else
    let d := nth (Z.to_nat month) days_tab 0 in
    if month =? 1 then
      if (Z.rem year 4 =? 0) && (negb (Z.rem year 100 =? 0) || (Z.rem year 400 =? 0)) then d + 1 else d
    else d.

Definition rtc_next_second (t : tm) : tm :=
  let t := t <| tm_sec := tm_sec t + 1 |> in
  if negb (60 <=? u32 (tm_sec t)) then t else
  let t := t <| tm_sec := 0 |> in
  let t := t <| tm_min := tm_min t + 1 |> in
  if negb (60 <=? u32 (tm_min t)) then t else
  let t := t <| tm_min := 0 |> in
  let t := t <| tm_hour := tm_hour t + 1 |> in
  if negb (24 <=? u32 (tm_hour t)) then t else
  let t := t <| tm_hour := 0 |> in
  let t := t <| tm_wday := tm_wday t + 1 |> in
  let t := if 7 <=? u32 (tm_wday t) then t <| tm_wday := 0 |> else t in
  let days_in_month := get_days_in_month (tm_mon t) (tm_year t + 1900) in
  let t := t <| tm_mday := tm_mday t + 1 |> in
  if tm_mday t <? 1 then t <| tm_mday := 1 |>
  else if days_in_month <? tm_mday t then
    let t := t <| tm_mday := 1 |> in
    let t := t <| tm_mon := tm_mon t + 1 |> in
    if 12 <=? tm_mon t then
      let t := t <| tm_mon := 0 |> in t <| tm_year := tm_year t + 1 |>
    else t
  else t.

(** ** The update of each second *)

Definition rtc_update_second (s : RTCState) : RTCState :=
  if negb (Z.land (cmos s RTC_REG_A) 0x70 =? 0x20) then
    let s := s <| next_second_time := next_second_time s + ticks_per_sec |> in
    s <| second_timer := Some (next_second_time s) |>
  else
    let s := s <| current_tm := rtc_next_second (current_tm s) |> in
    let s := if negb (has (cmos s RTC_REG_B) REG_B_SET)
             then set_cmos RTC_REG_A (Z.lor (cmos s RTC_REG_A) REG_A_UIP) s else s in
    let delay := ticks_per_sec * 1 / 100 in
    let delay := if delay <? 1 then 1 else delay in
    s <| second_timer2 := Some (next_second_time s + delay) |>.

(** One condition of the alarm: the register is "don't care" or equal to [v]. *)
Definition alarm_match (a v : Z) : bool := (Z.land a 0xc0 =? 0xc0) || (a =? v).

Definition rtc_alarm (s : RTCState) : bool :=
  alarm_match (cmos s RTC_SECONDS_ALARM) (tm_sec (current_tm s)) &&
  alarm_match (cmos s RTC_MINUTES_ALARM) (tm_mon (current_tm s)) &&
  alarm_match (cmos s RTC_HOURS_ALARM) (tm_hour (current_tm s)).

Definition rtc_update_second2 (s : RTCState) : RTCState :=
  let s := if negb (has (cmos s RTC_REG_B) REG_B_SET) then rtc_copy_date s else s in
  let s := if has (cmos s RTC_REG_B) REG_B_AIE && rtc_alarm s
           then qemu_set_irq 1 (set_cmos RTC_REG_C (Z.lor (cmos s RTC_REG_C) 0xa0) s) else s in
  let s := if has (cmos s RTC_REG_B) REG_B_UIE
           then qemu_set_irq 1 (set_cmos RTC_REG_C (Z.lor (cmos s RTC_REG_C) 0x90) s) else s in
  let s := set_cmos RTC_REG_A (Z.land (cmos s RTC_REG_A) (Z.lnot REG_A_UIP)) s in
  let s := s <| next_second_time := next_second_time s + ticks_per_sec |> in
  s <| second_timer := Some (next_second_time s) |>.

(** ** Ports *)

(** The write of the data port to register [i]. *)
Definition write_register (i : nat) (data : Z) (s : RTCState) (now : Z) : RTCState :=
  if bool_decide (i ∈ [RTC_SECONDS_ALARM; RTC_MINUTES_ALARM; RTC_HOURS_ALARM]) then set_cmos i data s
  else if bool_decide (i ∈ [RTC_SECONDS; RTC_MINUTES; RTC_HOURS; RTC_DAY_OF_WEEK;
                            RTC_DAY_OF_MONTH; RTC_MONTH; RTC_YEAR]) then
    let s := set_cmos i data s in
    if negb (has (cmos s RTC_REG_B) REG_B_SET) then rtc_set_time s else s
  else if decide (i = RTC_REG_A) then
    let s := set_cmos RTC_REG_A (Z.lor (Z.land data (Z.lnot REG_A_UIP))
                                       (Z.land (cmos s RTC_REG_A) REG_A_UIP)) s in
    rtc_timer_update s now
  else if decide (i = RTC_REG_B) then
    let '(data, s) :=
      if has data REG_B_SET then
        (Z.land data (Z.lnot REG_B_UIE),
         set_cmos RTC_REG_A (Z.land (cmos s RTC_REG_A) (Z.lnot REG_A_UIP)) s)
      else (data, if has (cmos s RTC_REG_B) REG_B_SET then rtc_set_time s else s) in
    let s := set_cmos RTC_REG_B data s in
    rtc_timer_update s now
  else if bool_decide (i ∈ [RTC_REG_C; RTC_REG_D]) then s
  else set_cmos i data s.

(** [None] is an access out of [cmos_data]. *)
Definition cmos_ioport_write (s : RTCState) (addr data now : Z) : option RTCState :=
  if Z.land addr 1 =? 0 then Some (s <| cmos_index := Z.land data 0x7f |>)
  else if 128 <=? cmos_index s then None
  else Some (write_register (Z.to_nat (cmos_index s)) data s now).

Definition cmos_ioport_read (s : RTCState) (addr : Z) : option (Z * RTCState) :=
  if Z.land addr 1 =? 0 then Some (0xff, s)
  else if 128 <=? cmos_index s then None
  else
    let i := Z.to_nat (cmos_index s) in
    let ret := cmos s i in
    if decide (i = RTC_REG_C) then Some (ret, set_cmos RTC_REG_C 0x00 (qemu_set_irq 0 s))
    else Some (ret, s).

Definition rtc_set_memory (s : RTCState) (addr val : Z) : RTCState :=
  if (0 <=? addr) && (addr <=? 127) then set_cmos (Z.to_nat addr) val s else s.

Definition rtc_set_date (s : RTCState) (t : tm) : RTCState :=
  rtc_copy_date (s <| current_tm := t |>).

Definition REG_IBM_CENTURY_BYTE : Z := 0x32.
Definition REG_IBM_PS2_CENTURY_BYTE : Z := 0x37.

(** [t]: the date the host's [gmtime] or [localtime] returns. *)
Definition rtc_set_date_from_host (s : RTCState) (t : tm) : RTCState :=
  let s := rtc_set_date s t in
  let val := to_bcd s (Z.quot (tm_year t) 100 + 19) in
  let s := rtc_set_memory s REG_IBM_CENTURY_BYTE val in
  rtc_set_memory s REG_IBM_PS2_CENTURY_BYTE val.

(** ** Memory mapped interface (little endian target) *)

Definition mm_reg (s : RTCState) (addr : Z) : Z := Z.shiftr (u32 (addr - base s)) (it_shift s).

Definition cmos_mm_readb (s : RTCState) (addr : Z) : option (Z * RTCState) :=
  '(v, s) ← cmos_ioport_read s (mm_reg s addr); Some (Z.land v 0xff, s).
Definition cmos_mm_readw (s : RTCState) (addr : Z) : option (Z * RTCState) :=
  '(v, s) ← cmos_ioport_read s (mm_reg s addr); Some (Z.land v 0xffff, s).
Definition cmos_mm_readl (s : RTCState) (addr : Z) : option (Z * RTCState) :=
  cmos_ioport_read s (mm_reg s addr).
Definition cmos_mm_writeb (s : RTCState) (addr value now : Z) : option RTCState :=
  cmos_ioport_write s (mm_reg s addr) (Z.land value 0xff) now.
Definition cmos_mm_writew (s : RTCState) (addr value now : Z) : option RTCState :=
  cmos_ioport_write s (mm_reg s addr) (Z.land value 0xffff) now.
Definition cmos_mm_writel (s : RTCState) (addr value now : Z) : option RTCState :=
  cmos_ioport_write s (mm_reg s addr) value now.

(** ** Creation *)

(** The state the two init functions build; [t] is the host's date. *)
Definition new_rtc (b shift : Z) (t : tm) (now : Z) : RTCState :=
  let s := mkRtc (repeat 0 128) 0 (mkTm 0 0 0 0 0 0 0) [] b shift None 0 0 None None in
  let s := set_cmos RTC_REG_A 0x26 s in
  let s := set_cmos RTC_REG_B 0x02 s in
  let s := set_cmos RTC_REG_C 0x00 s in
  let s := set_cmos RTC_REG_D 0x80 s in
  let s := rtc_set_date_from_host s t in
  let s := s <| next_second_time := now + ticks_per_sec * 99 / 100 |> in
  s <| second_timer2 := Some (next_second_time s) |>.

Definition rtc_init (t : tm) (now : Z) : RTCState := new_rtc 0 0 t now.
Definition rtc_mm_init (b shift : Z) (t : tm) (now : Z) : RTCState := new_rtc b shift t now.

(** ** Saved state *)

Section Save.
Context {F : Type} `{!SaveFile F}.

Definition rtc_save (f : F) (s : RTCState) : F :=
  let f := put_buf (cmos_data s) f in
  let f := put_bytes [cmos_index s] f in
  let t := current_tm s in
  let f := qemu_put_be32 (u32 (tm_sec t)) f in
  let f := qemu_put_be32 (u32 (tm_min t)) f in
  let f := qemu_put_be32 (u32 (tm_hour t)) f in
  let f := qemu_put_be32 (u32 (tm_wday t)) f in
  let f := qemu_put_be32 (u32 (tm_mday t)) f in
  let f := qemu_put_be32 (u32 (tm_mon t)) f in
  let f := qemu_put_be32 (u32 (tm_year t)) f in
  let f := qemu_put_timer f (periodic_timer s) in
  let f := qemu_put_be64 (u64 (next_periodic_time s)) f in
  let f := qemu_put_be64 (u64 (next_second_time s)) f in
  let f := qemu_put_timer f (second_timer s) in
  qemu_put_timer f (second_timer2 s).

Definition rtc_load (f : F) (s : RTCState) (version_id : Z) : Z * RTCState * F :=
  if negb (version_id =? 1) then (-22, s, f) else
  let '(bs, f) := get_buf 128 f in let s := s <| cmos_data := bs ++ drop (length bs) (cmos_data s) |> in
  let '(v, f) := qemu_get_8s f in let s := s <| cmos_index := v |> in
  let '(sec, f) := qemu_get_be32 f in
  let '(min, f) := qemu_get_be32 f in
  let '(hour, f) := qemu_get_be32 f in
  let '(wday, f) := qemu_get_be32 f in
  let '(mday, f) := qemu_get_be32 f in
  let '(mon, f) := qemu_get_be32 f in
  let '(year, f) := qemu_get_be32 f in
  let s := s <| current_tm := mkTm (s32 sec) (s32 min) (s32 hour) (s32 mday) (s32 mon) (s32 year) (s32 wday) |> in
  let '(ts, f) := qemu_get_timer f in let s := s <| periodic_timer := ts |> in
  let '(v, f) := qemu_get_be64 f in let s := s <| next_periodic_time := s64 v |> in
  let '(v, f) := qemu_get_be64 f in let s := s <| next_second_time := s64 v |> in
  let '(ts, f) := qemu_get_timer f in let s := s <| second_timer := ts |> in
  let '(ts, f) := qemu_get_timer f in let s := s <| second_timer2 := ts |> in
  (0, s, f).
End Save.

(** ** Registers *)

Lemma cmos_set_eq i v s : (i < length (cmos_data s))%nat -> cmos (set_cmos i v s) i = u8 v.
Proof.
  intros H. unfold cmos, set_cmos. cbn. apply nth_lookup_Some. by apply list_lookup_insert_eq.
Qed.

Lemma cmos_set_ne i j v s : i <> j -> cmos (set_cmos i v s) j = cmos s j.
Proof.
  intros H. unfold cmos, set_cmos. cbn. rewrite !nth_lookup. by rewrite list_lookup_insert_ne.
Qed.

Lemma set_cmos_length i v s : length (cmos_data (set_cmos i v s)) = length (cmos_data s).
Proof. apply length_insert. Qed.

Definition data_mode (s : RTCState) : bool := has (cmos s RTC_REG_B) 0x04.
Definition hour24 (s : RTCState) : bool := has (cmos s RTC_REG_B) 0x02.

Definition bcd (binary : bool) (a : Z) : Z :=
  if binary then a else Z.lor (Z.shiftl (Z.quot a 10) 4) (Z.rem a 10).
Definition unbcd (binary : bool) (a : Z) : Z :=
  if binary then a else Z.shiftr a 4 * 10 + Z.land a 0x0f.

Lemma bcd_roundtrip binary a : 0 <= a < 100 ->
  u8 (bcd binary a) = bcd binary a /\ 0 <= bcd binary a < 256 /\ unbcd binary (bcd binary a) = a.
Proof.
  intros Ha.
  pose proof (all_below_spec 100 (fun a => forallb (fun binary =>
    (u8 (bcd binary a) =? bcd binary a) && (0 <=? bcd binary a) && (bcd binary a <? 256) &&
    (unbcd binary (bcd binary a) =? a)) [true; false]) eq_refl a ltac:(lia)) as H.
  cbn [forallb] in H. rewrite andb_true_r in H. apply andb_true_iff in H as [H1 H2].
  destruct binary; to_prop; lia.
Qed.

Lemma bcd_hour binary a : 0 <= a < 12 ->
  Z.land (bcd binary a) 0x7f = bcd binary a /\ has (bcd binary a) 0x80 = false /\
  Z.land (u8 (Z.lor (bcd binary a) 0x80)) 0x7f = bcd binary a /\
  has (u8 (Z.lor (bcd binary a) 0x80)) 0x80 = true.
Proof.
  intros Ha.
  pose proof (all_below_spec 12 (fun a => forallb (fun binary =>
    (Z.land (bcd binary a) 0x7f =? bcd binary a) && negb (has (bcd binary a) 0x80) &&
    (Z.land (u8 (Z.lor (bcd binary a) 0x80)) 0x7f =? bcd binary a) &&
    has (u8 (Z.lor (bcd binary a) 0x80)) 0x80) [true; false]) eq_refl a ltac:(lia)) as H.
  cbn [forallb] in H. rewrite andb_true_r in H. apply andb_true_iff in H as [H1 H2].
  destruct binary; to_prop; auto.
Qed.

Lemma bcd_hour24 binary a : 0 <= a < 24 -> Z.land (bcd binary a) 0x7f = bcd binary a.
Proof.
  intros Ha.
  pose proof (all_below_spec 24 (fun a => forallb (fun binary =>
    (Z.land (bcd binary a) 0x7f =? bcd binary a)) [true; false]) eq_refl a ltac:(lia)) as H.
  cbn [forallb] in H. rewrite andb_true_r in H. apply andb_true_iff in H as [H1 H2].
  destruct binary; to_prop; auto.
Qed.

(** The registers after [rtc_copy_date]. *)
Definition date_regs (s : RTCState) (t : tm) : list (nat * Z) :=
  let b := bcd (data_mode s) in
  [(RTC_SECONDS, b (tm_sec t)); (RTC_MINUTES, b (tm_min t));
   (RTC_HOURS, if hour24 s then b (tm_hour t)
               else let h := b (Z.rem (tm_hour t) 12) in
                    if 12 <=? tm_hour t then Z.lor (u8 h) 0x80 else h);
   (RTC_DAY_OF_WEEK, b (tm_wday t)); (RTC_DAY_OF_MONTH, b (tm_mday t));
   (RTC_MONTH, b (tm_mon t + 1)); (RTC_YEAR, b (Z.rem (tm_year t) 100))].

Lemma to_bcd_set i v s a : i <> RTC_REG_B -> to_bcd (set_cmos i v s) a = to_bcd s a.
Proof. intros H. unfold to_bcd. by rewrite cmos_set_ne. Qed.

Lemma to_bcd_mode s a : to_bcd s a = bcd (data_mode s) a.
Proof. done. Qed.
Lemma from_bcd_mode s a : from_bcd s a = unbcd (data_mode s) a.
Proof. done. Qed.

(** A run of assignments to registers. *)
Definition set_regs (rs : list (nat * Z)) (s : RTCState) : RTCState :=
  foldl (fun s r => set_cmos r.1 r.2 s) s rs.

Lemma set_regs_frame rs : forall s, exists d,
  set_regs rs s = s <| cmos_data := d |> /\ length d = length (cmos_data s) /\
  (Forall is_u8 (cmos_data s) -> Forall is_u8 d).
Proof.
  induction rs as [|r rs IH]; intros s; simpl.
  - exists (cmos_data s). split; [by destruct s|]. done.
  - destruct (IH (set_cmos r.1 r.2 s)) as (d & -> & Hl & Hf). exists d.
    rewrite set_cmos_length in Hl. split; [done|]. split; [done|].
    intros H. apply Hf. apply Forall_insert; [done|]. apply wrap_range. lia.
Qed.

Lemma cmos_set_regs_other rs i : i ∉ rs.*1 -> forall s, cmos (set_regs rs s) i = cmos s i.
Proof.
  induction rs as [|r rs IH]; intros Hi s; simpl; [done|].
  rewrite fmap_cons, not_elem_of_cons in Hi. destruct Hi as [H1 H2].
  rewrite IH by done. by apply cmos_set_ne.
Qed.

Lemma cmos_set_regs_in rs i v : NoDup rs.*1 -> (i, v) ∈ rs -> forall s, (i < length (cmos_data s))%nat ->
  cmos (set_regs rs s) i = u8 v.
Proof.
  induction rs as [|r rs IH]; intros Hn Hi s Hl; simpl; [by apply elem_of_nil in Hi|].
  rewrite fmap_cons, NoDup_cons in Hn. destruct Hn as [H1 H2].
  apply elem_of_cons in Hi as [<-|Hi].
  - change (cmos (set_regs rs (set_cmos i v s)) i = u8 v).
    rewrite cmos_set_regs_other by done. by apply cmos_set_eq.
  - change (cmos (set_regs rs (set_cmos r.1 r.2 s)) i = u8 v).
    apply IH; [done|done|]. by rewrite set_cmos_length.
Qed.

Lemma set_cmos_twice i v w s : set_cmos i v (set_cmos i w s) = set_cmos i v s.
Proof. unfold set_cmos. cbn. by rewrite list_insert_insert_eq. Qed.

Lemma copy_date_regs s : (14 <= length (cmos_data s))%nat ->
  rtc_copy_date s = set_regs (date_regs s (current_tm s)) s.
Proof.
  intros Hl. unfold rtc_copy_date, date_regs, set_regs. cbn [foldl fst snd].
  rewrite !to_bcd_mode.
  set (s2 := set_cmos RTC_MINUTES _ _).
  assert (Eh : has (cmos s2 RTC_REG_B) 0x02 = hour24 s) by (unfold s2, hour24; by rewrite !cmos_set_ne).
  assert (Ed : data_mode s2 = data_mode s) by (unfold s2, data_mode; by rewrite !cmos_set_ne).
  rewrite Eh, Ed. assert (Hl2 : (14 <= length (cmos_data s2))%nat) by (unfold s2; by rewrite !set_cmos_length).
  set (s3 := if hour24 s then _ else _).
  assert (E3 : s3 = set_cmos RTC_HOURS (snd (nth 2 (date_regs s (current_tm s)) (O, 0))) s2).
  { subst s3. cbn [nth date_regs snd]. destruct (hour24 s); [done|]. cbv zeta.
    destruct (12 <=? _); [|done].
    rewrite cmos_set_eq, set_cmos_twice by (unfold RTC_HOURS; lia). done. }
  rewrite E3. cbn [nth date_regs snd].
  assert (Em : forall i v s', i <> RTC_REG_B -> data_mode (set_cmos i v s') = data_mode s')
    by (intros; unfold data_mode; by rewrite cmos_set_ne).
  rewrite !Em by (intros [=]). rewrite Ed. unfold s2. by rewrite Em by (intros [=]).
Qed.

Lemma date_regs_keys s t : (date_regs s t).*1 =
  [RTC_SECONDS; RTC_MINUTES; RTC_HOURS; RTC_DAY_OF_WEEK; RTC_DAY_OF_MONTH; RTC_MONTH; RTC_YEAR].
Proof. done. Qed.

Lemma date_regs_nodup s t : NoDup (date_regs s t).*1.
Proof. rewrite date_regs_keys. apply (bool_decide_unpack _). by vm_compute. Qed.

Ltac in_list := first [apply list_elem_of_here | apply list_elem_of_further; in_list].

(** Times and dates the registers can show: a century from 2000. *)
Definition shown (t : tm) : Prop :=
  0 <= tm_sec t < 60 /\ 0 <= tm_min t < 60 /\ 0 <= tm_hour t < 24 /\ 1 <= tm_mday t <= 31 /\
  0 <= tm_mon t < 12 /\ 100 <= tm_year t < 200 /\ 0 <= tm_wday t < 7.

Lemma rem_small_mod a n : 0 <= a -> 0 < n -> Z.rem a n = a mod n.
Proof. intros. apply Z.rem_mod_nonneg; lia. Qed.

Lemma hour_roundtrip s h : 0 <= h < 24 ->
  let r := u8 (if hour24 s then bcd (data_mode s) h
           else let h' := bcd (data_mode s) (Z.rem h 12) in
                if 12 <=? h then Z.lor (u8 h') 0x80 else h') in
  let hour := unbcd (data_mode s) (Z.land r 0x7f) in
  (if negb (hour24 s) && has r 0x80 then hour + 12 else hour) = h.
Proof.
  intros Hh. cbv zeta. rewrite rem_small_mod by lia. destruct (hour24 s).
  - cbn [negb andb]. destruct (bcd_roundtrip (data_mode s) h) as (E1 & _ & E3); [lia|].
    by rewrite E1, bcd_hour24, E3 by lia.
  - cbn [negb andb]. pose proof (Z.mod_pos_bound h 12 ltac:(lia)) as Hm.
    destruct (bcd_roundtrip (data_mode s) (h mod 12)) as (E1 & _ & E3); [lia|].
    destruct (bcd_hour (data_mode s) (h mod 12)) as (F1 & F2 & F3 & F4); [lia|].
    rewrite E1. destruct (Z.leb_spec 12 h).
    + rewrite F3, F4, E3. rewrite (Z.mod_eq h 12) by lia.
      assert (h / 12 = 1) as -> by (symmetry; apply Z.div_unique with (h - 12); lia). lia.
    + rewrite E1, F1, F2, E3. apply Z.mod_small; lia.
Qed.

(** The registers show the time: a date from 2000 to 2099 written into the registers
    by [rtc_copy_date] and read back by [rtc_set_time] is the same, in every register
    format: binary or BCD, 12 or 24 hours. *)
Theorem rtc_date_roundtrip s t : length (cmos_data s) = 128%nat -> shown t ->
  current_tm (rtc_set_time (rtc_set_date s t)) = t.
Proof.
  intros Hl Ht. unfold rtc_set_date. set (s0 := s <| current_tm := t |>).
  assert (Hl0 : (14 <= length (cmos_data s0))%nat) by (change (cmos_data s0) with (cmos_data s); lia).
  rewrite copy_date_regs by done. change (current_tm s0) with t.
  set (s1 := set_regs (date_regs s0 t) s0).
  assert (Ein : forall i v, (i, v) ∈ date_regs s0 t -> cmos s1 i = u8 v).
  { intros i v Hi. apply cmos_set_regs_in; [apply date_regs_nodup|done|].
    assert (H : i ∈ (date_regs s0 t).*1) by (apply list_elem_of_fmap; by exists (i, v)).
    rewrite date_regs_keys in H. unfold RTC_SECONDS, RTC_MINUTES, RTC_HOURS, RTC_DAY_OF_WEEK,
      RTC_DAY_OF_MONTH, RTC_MONTH, RTC_YEAR in H.
    rewrite !elem_of_cons, elem_of_nil in H. lia. }
  assert (EB : cmos s1 RTC_REG_B = cmos s0 RTC_REG_B).
  { apply cmos_set_regs_other. rewrite date_regs_keys. apply (bool_decide_unpack _). by vm_compute. }
  assert (Ed : data_mode s1 = data_mode s0) by (unfold data_mode; by rewrite EB).
  assert (E24 : hour24 s1 = hour24 s0) by (unfold hour24; by rewrite EB).
  unfold rtc_set_time. cbn [current_tm upd]. rewrite !from_bcd_mode, Ed. fold (hour24 s1). rewrite E24.
  unfold shown in Ht. destruct Ht as (H1 & H2 & H3 & H4 & H5 & H6 & H7).
  pose proof (hour_roundtrip s0 (tm_hour t) H3) as Hh. cbv zeta in Hh.
  erewrite (Ein RTC_SECONDS), (Ein RTC_MINUTES), (Ein RTC_HOURS), (Ein RTC_DAY_OF_WEEK),
    (Ein RTC_DAY_OF_MONTH), (Ein RTC_MONTH), (Ein RTC_YEAR) by (unfold date_regs; in_list).
  cbv zeta. rewrite Hh. rewrite (rem_small_mod (tm_year t)) by lia.
  pose proof (Z.mod_pos_bound (tm_year t) 100 ltac:(lia)).
  assert (Ey : tm_year t mod 100 = tm_year t - 100) by (symmetry; apply Z.mod_unique with 1; lia).
  rewrite Ey.
  assert (Rt : forall a, 0 <= a < 100 -> unbcd (data_mode s0) (u8 (bcd (data_mode s0) a)) = a).
  { intros a Ha. by destruct (bcd_roundtrip (data_mode s0) a Ha) as (-> & _ & ->). }
  rewrite !Rt by lia. destruct t; cbn in *. f_equal; lia.
Qed.

(** ** The calendar *)

(** The Gregorian calendar, by its rules. *)
Definition leap (y : Z) : bool := (y mod 4 =? 0) && (negb (y mod 100 =? 0) || (y mod 400 =? 0)).
Definition month_days (m y : Z) : Z :=
  if m =? 1 then (if leap y then 29 else 28)
  else if (m =? 3) || (m =? 5) || (m =? 8) || (m =? 10) then 30 else 31.

(** Days of the years and months before. *)
Definition days_before_year (y : Z) : Z := 365 * y + (y + 3) / 4 - (y + 99) / 100 + (y + 399) / 400.
Fixpoint days_before_month (m : nat) (y : Z) : Z :=
  match m with O => 0 | S m' => days_before_month m' y + month_days (Z.of_nat m') y end.

Definition date_number (y m d : Z) : Z :=
  days_before_year y + days_before_month (Z.to_nat m) y + (d - 1).
Definition day_number (t : tm) : Z := date_number (tm_year t + 1900) (tm_mon t) (tm_mday t).
Definition seconds_of (t : tm) : Z :=
  ((day_number t * 24 + tm_hour t) * 60 + tm_min t) * 60 + tm_sec t.

Definition valid_tm (t : tm) : Prop :=
  0 <= tm_sec t < 60 /\ 0 <= tm_min t < 60 /\ 0 <= tm_hour t < 24 /\
  0 <= tm_mon t < 12 /\ 1 <= tm_mday t <= month_days (tm_mon t) (tm_year t + 1900) /\
  -1900 <= tm_year t /\ tm_wday t = (day_number t + 6) mod 7.

Lemma days_in_month_spec m y : 0 <= m < 12 -> 0 <= y -> get_days_in_month m y = month_days m y.
Proof.
  intros Hm Hy. unfold get_days_in_month, month_days, leap. rewrite !rem_small_mod by lia.
  assert (E : u32 m = m) by (apply wrap_small; unfold in_width; lia). rewrite E.
  rewrite (proj2 (Z.leb_gt 12 m)) by lia.
  assert (H : m = 0 \/ m = 1 \/ m = 2 \/ m = 3 \/ m = 4 \/ m = 5 \/ m = 6 \/ m = 7 \/ m = 8 \/
    m = 9 \/ m = 10 \/ m = 11) by lia.
  destruct H as [->|[->|[->|[->|[->|[->|[->|[->|[->|[->|[->| ->]]]]]]]]]]]; try reflexivity.
Qed.

(** One more multiple of [k] is passed in a year divisible by [k]. *)
Lemma div_count k y : 0 < k -> (y + 1 + (k - 1)) / k = (y + (k - 1)) / k + (if y mod k =? 0 then 1 else 0).
Proof.
  intros Hk. pose proof (Z.div_mod y k ltac:(lia)) as Hd. pose proof (Z.mod_pos_bound y k Hk) as Hm.
  assert (Hs : forall a q r, a = k * q + r -> 0 <= r < k -> a / k = q)
    by (intros a q r H1 H2; symmetry; by apply Z.div_unique with r; [lia|]).
  destruct (Z.eqb_spec (y mod k) 0) as [E|E].
  - rewrite (Hs (y + 1 + (k - 1)) (y / k + 1) 0), (Hs (y + (k - 1)) (y / k) (k - 1)) by nia. lia.
  - rewrite (Hs (y + 1 + (k - 1)) (y / k + 1) (y mod k)), (Hs (y + (k - 1)) (y / k + 1) (y mod k - 1)) by nia.
    lia.
Qed.

Lemma year_length y : 0 <= y -> days_before_year (y + 1) = days_before_year y + days_before_month 12 y.
Proof.
  intros Hy.
  assert (H1 : y mod 100 = 0 -> y mod 4 = 0) by (intros H; apply Z.mod_divide in H as [q ->];
    [|lia]; replace (q * 100) with (q * 25 * 4) by lia; by apply Z.mod_mul).
  assert (H2 : y mod 400 = 0 -> y mod 100 = 0) by (intros H; apply Z.mod_divide in H as [q ->];
    [|lia]; replace (q * 400) with (q * 4 * 100) by lia; by apply Z.mod_mul).
  assert (E12 : days_before_month 12 y = 365 + b2z (leap y))
    by (cbn -[leap]; unfold month_days; cbn -[leap]; destruct (leap y); reflexivity).
  rewrite E12. unfold days_before_year, leap.
  pose proof (div_count 4 y ltac:(lia)) as D4. pose proof (div_count 100 y ltac:(lia)) as D100.
  pose proof (div_count 400 y ltac:(lia)) as D400. 
  change (4 - 1) with 3 in D4. change (100 - 1) with 99 in D100. change (400 - 1) with 399 in D400.
  rewrite D4, D100, D400.
  destruct (Z.eqb_spec (y mod 4) 0), (Z.eqb_spec (y mod 100) 0), (Z.eqb_spec (y mod 400) 0);
    cbn [negb andb orb b2z]; lia.
Qed.

Lemma u32_le z n : 0 <= z < 2 ^ 32 -> (n <=? u32 z) = (n <=? z).
Proof. intros H. unfold u32. by rewrite wrap_small. Qed.

(** The next day of the calendar. *)
Lemma next_day y m d : 0 <= y -> 0 <= m < 12 -> 1 <= d <= month_days m y ->
  (d < month_days m y -> date_number y m (d + 1) = date_number y m d + 1) /\
  (d = month_days m y -> m < 11 -> date_number y (m + 1) 1 = date_number y m d + 1) /\
  (d = month_days m y -> m = 11 -> date_number (y + 1) 0 1 = date_number y m d + 1).
Proof.
  intros Hy Hm Hd. unfold date_number. split; [lia|]. split; intros Hl H11.
  - rewrite Z2Nat.inj_add by lia. change (Z.to_nat 1) with 1%nat. rewrite Nat.add_1_r.
    cbn [days_before_month]. rewrite Z2Nat.id by lia. lia.
  - subst m. rewrite year_length by done. change (Z.to_nat 11) with 11%nat.
    change (days_before_month 12 y) with (days_before_month 11 y + month_days 11 y).
    change (days_before_month (Z.to_nat 0) (y + 1)) with 0.
    set (x := days_before_month 11 y). clearbody x. lia.
Qed.

Lemma wday_next n : (if 7 <=? (n + 6) mod 7 + 1 then 0 else (n + 6) mod 7 + 1) = (n + 1 + 6) mod 7.
Proof.
  destruct (Z.leb_spec 7 ((n + 6) mod 7 + 1)); Z.to_euclidean_division_equations; lia.
Qed.

Lemma month_days_bounds m y : 28 <= month_days m y <= 31.
Proof. unfold month_days. destruct (leap y); split_ifs; lia. Qed.

Lemma next_second_step t : valid_tm t ->
  valid_tm (rtc_next_second t) /\ seconds_of (rtc_next_second t) = seconds_of t + 1.
Proof.
  unfold valid_tm, seconds_of, day_number. intros (H1 & H2 & H3 & H4 & H5 & H6 & H7).
  unfold rtc_next_second. destruct t as [sec min hour mday mon year wday].
  cbn [tm_sec tm_min tm_hour tm_mday tm_mon tm_year tm_wday upd eta eta_tm] in *.
  pose proof (next_day (year + 1900) mon mday ltac:(lia) H4 H5) as (N1 & N2 & N3).
  set (n := date_number (year + 1900) mon mday) in *.
  pose proof (Z.mod_pos_bound (n + 6) 7 ltac:(lia)) as Hw.
  rewrite !u32_le by lia.
  destruct (Z.leb_spec 60 (sec + 1)); cbn [negb];
    [|cbn -[date_number month_days Z.add Z.mul]; fold n; split_and!; lia].
  destruct (Z.leb_spec 60 (min + 1)); cbn [negb];
    [|cbn -[date_number month_days Z.add Z.mul]; fold n; split_and!; lia].
  destruct (Z.leb_spec 24 (hour + 1)); cbn [negb];
    [|cbn -[date_number month_days Z.add Z.mul]; fold n; split_and!; lia].
  pose proof (wday_next n) as Ew. rewrite <- H7 in Ew.
  set (t7 := if 7 <=? wday + 1 then _ else _).
  assert (E7 : t7 = mkTm 0 0 0 mday mon year ((n + 1 + 6) mod 7))
    by (unfold t7; rewrite <- Ew; by destruct (_ <=? _)).
  rewrite E7. cbn -[date_number month_days Z.add Z.mul get_days_in_month Z.leb Z.ltb].
  rewrite days_in_month_spec by lia. clear t7 E7 Ew.
  pose proof (month_days_bounds (mon + 1) (year + 1900)).
  rewrite (proj2 (Z.ltb_ge (mday + 1) 1)) by lia.
  destruct (Z.ltb_spec (month_days mon (year + 1900)) (mday + 1)); cycle 1.
  { cbn -[date_number month_days Z.add Z.mul]. rewrite N1 by lia. split_and!; lia. }
  destruct (Z.leb_spec 12 (mon + 1)).
  - cbn -[date_number month_days Z.add Z.mul]. replace (year + 1 + 1900) with (year + 1900 + 1) by lia.
    rewrite N3 by lia. pose proof (month_days_bounds 0 (year + 1900 + 1)). split_and!; lia.
  - cbn -[date_number month_days Z.add Z.mul]. rewrite N2 by lia. split_and!; lia.
Qed.

(** C40. The calendar is right: from any valid date, weekday included, [n] updates of the
    time give the valid date [n] seconds later in the Gregorian calendar, through all
    months, leap years and centuries. *)
Theorem rtc_calendar t (n : nat) : valid_tm t ->
  valid_tm (Nat.iter n rtc_next_second t) /\
  seconds_of (Nat.iter n rtc_next_second t) = seconds_of t + Z.of_nat n.
Proof.
  intros Ht. induction n as [|n [IH1 IH2]]; [simpl; split; [done|lia]|].
  cbn [Nat.iter nat_rect]. destruct (next_second_step _ IH1) as [H1 H2]. split; [exact H1|].
  etransitivity; [exact H2|]. etransitivity; [apply (f_equal (fun z => z + 1)), IH2|]. lia.
Qed.

(** ** Reachable clocks *)

(** What the guest and the rest of the machine do to the clock: port accesses, the expiry
    of the pending timers, which leave the list before their callback runs, and the
    board's writes to the memory after the registers. *)
Inductive rtc_op : Type :=
| RWrite (addr data now : Z) | RRead (addr : Z) | RPeriodic | RSecond | RSecond2
| RMemory (addr val : Z).

Definition rtc_exec (op : rtc_op) (s : RTCState) : option RTCState :=
  match op with
  | RWrite addr data now => cmos_ioport_write s addr data now
  | RRead addr => snd <$> cmos_ioport_read s addr
  | RPeriodic => _ ← periodic_timer s; Some (rtc_periodic_timer (s <| periodic_timer := None |>))
  | RSecond => _ ← second_timer s; Some (rtc_update_second (s <| second_timer := None |>))
  | RSecond2 => _ ← second_timer2 s; Some (rtc_update_second2 (s <| second_timer2 := None |>))
  | RMemory addr val => if addr <? 14 then None else Some (rtc_set_memory s addr val)
  end.

Inductive rtc_reach : RTCState -> Prop :=
| rtc_reach_init b shift t now : rtc_reach (rtc_mm_init b shift t now)
| rtc_reach_step op s s' : rtc_reach s -> rtc_exec op s = Some s' -> rtc_reach s'.

(** The update in progress bit. *)
Definition uip (s : RTCState) : bool := Z.testbit (cmos s RTC_REG_A) 7.

(** The parts of the invariant: the registers, the index, and the bit and the timers of
    the update of the second; [pending] says how many of the two timers are armed. *)
Definition regs_ok (s : RTCState) : Prop :=
  length (cmos_data s) = 128%nat /\ Forall is_u8 (cmos_data s) /\ 0 <= cmos_index s < 128.
Definition one_timer (s : RTCState) : Prop :=
  (exists e, second_timer s = Some e /\ second_timer2 s = None /\ uip s = false) \/
  (exists e, second_timer s = None /\ second_timer2 s = Some e).
Definition rtc_ok (s : RTCState) : Prop := regs_ok s /\ one_timer s.

Lemma set_regs_ok i v s : regs_ok s -> regs_ok (set_cmos i v s).
Proof.
  intros (H1 & H2 & H3). split; [by rewrite set_cmos_length|]. split; [|done].
  apply Forall_insert; [done|]. apply wrap_range. lia.
Qed.

(** What one handler leaves of the update of the second. *)
Definition same_update (s s' : RTCState) : Prop :=
  second_timer s' = second_timer s /\ second_timer2 s' = second_timer2 s /\
  (uip s' = true -> uip s = true).

#[global] Instance same_update_preorder : PreOrder same_update.
Proof.
  split; [by intros s|]. intros x y z (A1 & A2 & A3) (B1 & B2 & B3).
  split; [congruence|]. split; [congruence|auto].
Qed.

Lemma one_timer_same s s' : same_update s s' -> one_timer s -> one_timer s'.
Proof.
  intros (E1 & E2 & E3) [(e & H1 & H2 & H3)|(e & H1 & H2)].
  - left. exists e. split_and!; [congruence..|]. destruct (uip s'); [|done]. by rewrite E3 in H3.
  - right. exists e. split; congruence.
Qed.

Lemma set_cmos_same i v s : i <> RTC_REG_A -> same_update s (set_cmos i v s).
Proof.
  intros H. split; [done|]. split; [done|]. unfold uip. by rewrite cmos_set_ne.
Qed.

Lemma testbit_u8 z : Z.testbit (u8 z) 7 = Z.testbit z 7.
Proof. unfold u8, wrap. apply Z.mod_pow2_bits_low. lia. Qed.

Lemma uip_set_a v s : regs_ok s -> uip (set_cmos RTC_REG_A v s) = Z.testbit v 7.
Proof.
  intros (H1 & _). unfold uip. rewrite cmos_set_eq, testbit_u8; [done|].
  rewrite H1. unfold RTC_REG_A. lia.
Qed.

Lemma set_a_same v s : regs_ok s -> (Z.testbit v 7 = true -> uip s = true) ->
  same_update s (set_cmos RTC_REG_A v s).
Proof. intros Hs Hv. split; [done|]. split; [done|]. by rewrite uip_set_a. Qed.

Lemma timer_update_frame s t : same_update s (rtc_timer_update s t) /\
  cmos_data (rtc_timer_update s t) = cmos_data s /\ cmos_index (rtc_timer_update s t) = cmos_index s.
Proof. unfold rtc_timer_update. by destruct (_ && _). Qed.

Lemma timer_update_regs s t : regs_ok s -> regs_ok (rtc_timer_update s t).
Proof. destruct (timer_update_frame s t) as (_ & E1 & E2). unfold regs_ok. by rewrite E1, E2. Qed.

Lemma set_time_frame s : same_update s (rtc_set_time s) /\ (regs_ok s -> regs_ok (rtc_set_time s)).
Proof. done. Qed.

Lemma copy_date_frame s : regs_ok s -> same_update s (rtc_copy_date s) /\ regs_ok (rtc_copy_date s).
Proof.
  intros (H1 & H2 & H3). rewrite copy_date_regs by lia.
  destruct (set_regs_frame (date_regs s (current_tm s)) s) as (d & E & Hl & Hf).
  split.
  - split; [by rewrite E|]. split; [by rewrite E|]. unfold uip. rewrite cmos_set_regs_other; [done|].
    rewrite date_regs_keys. apply (bool_decide_unpack _). by vm_compute.
  - rewrite E. split; [by cbn; rewrite Hl|]. split; [by apply Hf|done].
Qed.

Lemma write_register_frame i data s now : regs_ok s ->
  same_update s (write_register i data s now) /\ regs_ok (write_register i data s now).
Proof.
  intros Hs. unfold write_register.
  assert (Hset : forall j v, j <> RTC_REG_A -> same_update s (set_cmos j v s) /\ regs_ok (set_cmos j v s))
    by (intros; split; [by apply set_cmos_same|by apply set_regs_ok]).
  case_bool_decide as H1; [apply Hset; intros ->; revert H1; apply (bool_decide_unpack _); by vm_compute|].
  case_bool_decide as H2.
  { assert (Hi : i <> RTC_REG_A) by (intros ->; revert H2; apply (bool_decide_unpack _); by vm_compute).
    destruct (negb _); [|by apply Hset]. destruct (Hset i data Hi) as [A B]. done. }
  destruct (decide (i = RTC_REG_A)) as [->|Ha].
  { assert (Hv : same_update s (set_cmos RTC_REG_A (Z.lor (Z.land data (Z.lnot REG_A_UIP))
                                       (Z.land (cmos s RTC_REG_A) REG_A_UIP)) s)).
    { apply set_a_same; [done|]. rewrite Z.lor_spec, !Z.land_spec, Z.lnot_spec by lia.
      change (Z.testbit REG_A_UIP 7) with true. cbn [negb]. rewrite andb_false_r, andb_true_r. done. }
    split; [etransitivity; [exact Hv|apply timer_update_frame]|].
    by apply timer_update_regs, set_regs_ok. }
  destruct (decide (i = RTC_REG_B)) as [->|Hb].
  { set (p := if has data REG_B_SET then _ else _).
    assert (Hp : same_update s p.2 /\ regs_ok p.2).
    { unfold p. destruct (has data REG_B_SET); cbn [snd].
      - split; [|by apply set_regs_ok]. apply set_a_same; [done|].
        rewrite Z.land_spec, Z.lnot_spec by lia. change (Z.testbit REG_A_UIP 7) with true.
        cbn [negb]. by rewrite andb_false_r.
      - by destruct (has _ _). }
    clearbody p. destruct p as [data' s1]. cbn [snd] in Hp. destruct Hp as [P1 P2].
    split; [|by apply timer_update_regs, set_regs_ok].
    etransitivity; [exact P1|]. etransitivity; [by apply set_cmos_same|apply timer_update_frame]. }
  case_bool_decide; [done|]. by apply Hset.
Qed.

Lemma land_0x7f x : 0 <= Z.land x 0x7f < 128.
Proof. change 0x7f with (Z.ones 7). rewrite Z.land_ones by lia. apply Z.mod_pos_bound. lia. Qed.

Lemma ioport_write_ok s addr data now s' : rtc_ok s -> cmos_ioport_write s addr data now = Some s' ->
  rtc_ok s'.
Proof.
  intros [H1 H2]. unfold cmos_ioport_write. destruct (_ =? 0); [|destruct (_ <=? _); [done|]].
  - intros [= <-]. pose proof (land_0x7f data). unfold regs_ok in H1.
    split; [|done]. unfold regs_ok. cbn -[Z.land]. tauto.
  - intros [= <-]. destruct (write_register_frame (Z.to_nat (cmos_index s)) data s now H1) as [A B].
    split; [done|]. by eapply one_timer_same.
Qed.

Lemma ioport_read_ok s addr v s' : rtc_ok s -> cmos_ioport_read s addr = Some (v, s') ->
  is_u8 v /\ rtc_ok s'.
Proof.
  intros [H1 H2]. unfold cmos_ioport_read. destruct (_ =? 0); [|destruct (_ <=? _); [done|]].
  - intros [= <- <-]. split; [unfold in_width; lia|done].
  - assert (Hv : is_u8 (cmos s (Z.to_nat (cmos_index s)))).
    { destruct H1 as (L & F & I). rewrite Forall_lookup in F.
      destruct (lookup_lt_is_Some_2 (cmos_data s) (Z.to_nat (cmos_index s))) as [x Hx]; [lia|].
      unfold cmos. rewrite (nth_lookup_Some _ _ _ _ Hx). by eapply F. }
    destruct (decide _); intros [= <- <-]; (split; [done|]); [|done]. split.
    + by apply (set_regs_ok _ _ (qemu_set_irq 0 s)).
    + eapply one_timer_same; [|exact H2]. by apply (set_cmos_same _ _ (qemu_set_irq 0 s)).
Qed.

Lemma update_second_ok s : regs_ok s -> second_timer s = None -> second_timer2 s = None ->
  uip s = false -> rtc_ok (rtc_update_second s).
Proof.
  intros H1 T1 T2 Hu. unfold rtc_update_second. destruct (negb _).
  - split; [done|]. left. eexists. split; [reflexivity|]. done.
  - split; [|right; eexists; split; [by destruct (negb _)|reflexivity]].
    destruct (negb _); [|done]. by apply (set_regs_ok _ _ (s <| current_tm := _ |>)).
Qed.

Lemma update_second2_ok s : regs_ok s -> second_timer2 s = None -> rtc_ok (rtc_update_second2 s).
Proof.
  intros H1 T2. unfold rtc_update_second2.
  set (s1 := if negb _ then rtc_copy_date s else s).
  assert (P1 : regs_ok s1 /\ same_update s s1).
  { subst s1. destruct (negb _); [|done]. destruct (copy_date_frame s H1). done. }
  clearbody s1. destruct P1 as [P1 Q1].
  set (s2 := if _ && _ then _ else s1).
  assert (P2 : regs_ok s2 /\ same_update s s2).
  { subst s2. destruct (_ && _); [|done]. split; [by apply (set_regs_ok RTC_REG_C)|].
    etransitivity; [exact Q1|]. by apply (set_cmos_same RTC_REG_C). }
  clearbody s2. clear P1 Q1 s1. destruct P2 as [P2 Q2].
  set (s3 := if has (cmos s2 RTC_REG_B) REG_B_UIE then _ else s2).
  assert (P3 : regs_ok s3 /\ same_update s s3).
  { subst s3. destruct (has _ _); [|done]. split; [by apply (set_regs_ok RTC_REG_C)|].
    etransitivity; [exact Q2|]. by apply (set_cmos_same RTC_REG_C). }
  clearbody s3. destruct P3 as [P3 (Q3 & Q4 & _)].
  split; [by apply (set_regs_ok RTC_REG_A _ s3)|].
  left. eexists. split; [reflexivity|]. split; [cbn; congruence|].
  etransitivity; [apply (uip_set_a _ s3 P3)|].
  rewrite Z.land_spec, Z.lnot_spec by lia. change (Z.testbit REG_A_UIP 7) with true.
  apply andb_false_r.
Qed.

Lemma exec_rtc_ok op s s' : rtc_ok s -> rtc_exec op s = Some s' -> rtc_ok s'.
Proof.
  intros Hs. destruct op as [addr data now|addr| | | |addr val]; simpl.
  - by apply ioport_write_ok.
  - destruct (cmos_ioport_read s addr) as [[v s1]|] eqn:E; [|done]. intros [= <-].
    by eapply ioport_read_ok.
  - destruct (periodic_timer s); [|done]. intros [= <-]. destruct Hs as [H1 H2].
    unfold rtc_periodic_timer. cbv zeta. set (s1 := rtc_timer_update _ _).
    destruct (timer_update_frame (s <| periodic_timer := None |>) (next_periodic_time s)) as (F & E1 & E2).
    assert (R : regs_ok s1) by (by apply timer_update_regs). split.
    + by apply (set_regs_ok RTC_REG_C _ s1).
    + eapply one_timer_same; [|exact H2]. etransitivity; [exact F|].
      by apply (set_cmos_same RTC_REG_C _ s1).
  - destruct (second_timer s) as [e|] eqn:E; [|done]. intros [= <-]. destruct Hs as [H1 H2].
    destruct H2 as [(e' & A & B & C)|(e' & A & B)]; [|congruence]. by apply update_second_ok.
  - destruct (second_timer2 s) as [e|] eqn:E; [|done]. intros [= <-]. destruct Hs as [H1 H2].
    by apply update_second2_ok.
  - destruct (Z.ltb_spec addr 14); [done|]. intros [= <-]. unfold rtc_set_memory.
    destruct (_ && _); [|done]. destruct Hs as [H1 H2]. split; [by apply set_regs_ok|].
    eapply one_timer_same; [|exact H2]. apply set_cmos_same. unfold RTC_REG_A. lia.
Qed.

Lemma set_memory_frame s addr val : regs_ok s ->
  regs_ok (rtc_set_memory s addr val) /\ second_timer (rtc_set_memory s addr val) = second_timer s.
Proof.
  intros H. unfold rtc_set_memory. destruct (_ && _); [|done]. split; [by apply set_regs_ok|done].
Qed.

Lemma set_date_frame s t : regs_ok s ->
  regs_ok (rtc_set_date s t) /\ second_timer (rtc_set_date s t) = second_timer s.
Proof.
  intros H. unfold rtc_set_date. set (s0 := s <| current_tm := t |>).
  destruct (copy_date_frame s0 H) as [(F & _) R]. split; [exact R|exact F].
Qed.

Lemma from_host_frame s t : regs_ok s ->
  regs_ok (rtc_set_date_from_host s t) /\
  second_timer (rtc_set_date_from_host s t) = second_timer s.
Proof.
  intros H. unfold rtc_set_date_from_host. cbv zeta. destruct (set_date_frame s t H) as [R F].
  set (s1 := rtc_set_date s t) in *. clearbody s1. set (val := to_bcd _ _). clearbody val.
  destruct (set_memory_frame s1 REG_IBM_CENTURY_BYTE val R) as [R2 F2].
  destruct (set_memory_frame _ REG_IBM_PS2_CENTURY_BYTE val R2) as [R3 F3].
  split; [exact R3|congruence].
Qed.

Lemma init_rtc_ok b shift t now : rtc_ok (rtc_mm_init b shift t now).
Proof.
  unfold rtc_mm_init, new_rtc. set (s0 := set_cmos RTC_REG_D _ _).
  assert (H0 : regs_ok s0).
  { unfold s0. do 4 apply set_regs_ok. split; [done|]. split; [|cbn; lia].
    cbn [cmos_data]. rewrite Forall_forall. intros x Hx%list_elem_of_In%repeat_spec. subst x.
    unfold in_width. lia. }
  assert (T0 : second_timer s0 = None) by done.
  clearbody s0. destruct (from_host_frame s0 t H0) as [H1 T1].
  set (s1 := rtc_set_date_from_host s0 t) in *. clearbody s1. split; [exact H1|].
  right. eexists. split; [|reflexivity]. cbn. congruence.
Qed.

Lemma reach_rtc_ok s : rtc_reach s -> rtc_ok s.
Proof. induction 1; [apply init_rtc_ok|by eapply exec_rtc_ok]. Qed.

(** The guest can not break the clock: in every state it can reach the register index
    is inside the memory, so that every port access succeeds and reads give bytes;
    exactly one of the two timers that drive the time is armed, so that the clock never
    stops; and the update in progress bit is set only while its second step is pending,
    so that a guest that waits for it to clear does not wait for ever. *)
Theorem rtc_reachable s : rtc_reach s ->
  rtc_ok s /\
  (forall addr data now, is_Some (cmos_ioport_write s addr data now)) /\
  (forall addr, exists v s', cmos_ioport_read s addr = Some (v, s') /\ is_u8 v) /\
  ((is_Some (rtc_exec RSecond s) /\ rtc_exec RSecond2 s = None /\ uip s = false) \/
   (rtc_exec RSecond s = None /\ is_Some (rtc_exec RSecond2 s))).
Proof.
  intros Hr. pose proof (reach_rtc_ok s Hr) as Hok. split; [done|]. pose proof Hok as [(H1 & H2 & H3) H4]. split; [|split].
  - intros addr data now. unfold cmos_ioport_write. rewrite (proj2 (Z.leb_gt 128 _)) by lia.
    by destruct (_ =? 0).
  - intros addr. destruct (cmos_ioport_read s addr) as [[v s']|] eqn:E.
    + exists v, s'. split; [done|]. by destruct (ioport_read_ok s addr v s' Hok E).
    + unfold cmos_ioport_read in E. rewrite (proj2 (Z.leb_gt 128 _)) in E by lia.
      destruct (_ =? 0); [done|]. by destruct (decide _).
  - destruct H4 as [(e & A & B & C)|(e & A & B)]; [left|right]; simpl; rewrite A, B; eauto.
Qed.

(** ** The periodic interrupt *)

(** The period in ticks of the 32 kHz clock the divider selects, [None] if the interrupt
    is off. *)
Definition period_ticks (s : RTCState) : option Z :=
  let period_code := Z.land (cmos s RTC_REG_A) 0x0f in
  if truth period_code && has (cmos s RTC_REG_B) REG_B_PIE then
    Some (2 ^ ((if period_code <=? 2 then period_code + 7 else period_code) - 1))
  else None.

Lemma period_ticks_range s P : period_ticks s = Some P -> exists j, 0 <= j < 15 /\ P = 2 ^ j.
Proof.
  unfold period_ticks. pose proof (Z.land_ones (cmos s RTC_REG_A) 4 ltac:(lia)) as E.
  change (Z.ones 4) with 0x0f in E. rewrite E.
  pose proof (Z.mod_pos_bound (cmos s RTC_REG_A) (2 ^ 4) ltac:(lia)) as Hm.
  set (c := cmos s RTC_REG_A mod 2 ^ 4) in *. clearbody c.
  destruct (truth c && _) eqn:Ht; [|done]. to_prop. intros [= <-].
  destruct (Z.leb_spec c 2); eexists; (split; [|reflexivity]); lia.
Qed.

Lemma clear_low z j : 0 <= j -> 0 <= z -> Z.land z (Z.lnot (2 ^ j - 1)) = z / 2 ^ j * 2 ^ j.
Proof.
  intros Hj Hz. replace (2 ^ j - 1) with (Z.ones j) by (rewrite Z.ones_equiv; lia).
  rewrite <- Z.ldiff_land, Z.ldiff_ones_r by lia.
  by rewrite Z.shiftl_mul_pow2, Z.shiftr_div_pow2 by lia.
Qed.

(** The expiry for the [k]th multiple of the period, in ticks [x]. *)
Definition tick_time (x : Z) : Z := x * ticks_per_sec / 32768 + 1.

Lemma timer_update_tick s P t : period_ticks s = Some P -> 0 <= t < 2 ^ 61 ->
  let x := (t * 32768 / ticks_per_sec / P + 1) * P in
  periodic_timer (rtc_timer_update s t) = Some (tick_time x) /\
  next_periodic_time (rtc_timer_update s t) = tick_time x /\ 0 <= x <= 2 ^ 48.
Proof.
  intros HP Ht. destruct (period_ticks_range s P HP) as (j & Hj & Ej). cbv zeta.
  unfold ticks_per_sec, QEMU_TIMER_BASE. set (c := t * 32768 / 1000000000).
  assert (Hc : 0 <= c < 2 ^ 47)
    by (unfold c; split; [apply Z.div_pos; lia|apply Z.div_lt_upper_bound; lia]).
  assert (HP2 : 0 < P <= 2 ^ 14)
    by (rewrite Ej; split; [apply Z.pow_pos_nonneg; lia|apply Z.pow_le_mono_r; lia]).
  assert (Hx : 0 <= (c / P + 1) * P <= 2 ^ 48).
  { pose proof (Z.mul_div_le c P ltac:(lia)). pose proof (Z.div_pos c P ltac:(lia) ltac:(lia)). nia. }
  assert (Hb : 0 <= tick_time ((c / P + 1) * P) < 2 ^ 63).
  { unfold tick_time, ticks_per_sec, QEMU_TIMER_BASE.
    pose proof (Z.div_pos ((c / P + 1) * P * 1000000000) 32768 ltac:(lia) ltac:(lia)).
    assert ((c / P + 1) * P * 1000000000 / 32768 < 2 ^ 63 - 1) by (apply Z.div_lt_upper_bound; lia). lia. }
  assert (E : s64 (muldiv64 (u64 (Z.land (s64 (muldiv64 (u64 t) 32768 ticks_per_sec)) (Z.lnot (P - 1)) + P))
                    ticks_per_sec 32768 + 1) = tick_time ((c / P + 1) * P)).
  { assert (E1 : u64 t = t) by (apply wrap_small; unfold in_width; lia).
    rewrite E1, (muldiv64_div t) by (unfold in_width, ticks_per_sec, QEMU_TIMER_BASE; lia).
    change (t * 32768 / ticks_per_sec) with c.
    rewrite (Z.mod_small c), (s64_small c) by (unfold in_signed; simpl; lia).
    rewrite Ej, clear_low by lia. rewrite <- Ej. replace (c / P * P + P) with ((c / P + 1) * P) by lia.
    set (x := (c / P + 1) * P) in *. clearbody x.
    assert (E2 : u64 x = x) by (apply wrap_small; unfold in_width; lia).
    rewrite E2, muldiv64_div by (unfold in_width, ticks_per_sec, QEMU_TIMER_BASE; lia).
    unfold tick_time in *. pose proof (Z.div_pos (x * ticks_per_sec) 32768
      ltac:(unfold ticks_per_sec, QEMU_TIMER_BASE; lia) ltac:(lia)).
    rewrite Z.mod_small by lia. apply s64_small. unfold in_signed. simpl. lia. }
  unfold rtc_timer_update. unfold period_ticks in HP. destruct (truth _ && _); [|done].
  injection HP as HP. rewrite Z.shiftl_1_l, HP. cbn -[Z.land Z.lnot muldiv64 s64 u64 tick_time].
  unfold tick_time in E |- *. rewrite E. done.
Qed.

(** No drift: seen from the expiry for tick [x], the current tick is [x]. *)
Lemma tick_of_time x : 0 <= x -> tick_time x * 32768 / ticks_per_sec = x.
Proof.
  intros Hx. unfold tick_time, ticks_per_sec, QEMU_TIMER_BASE.
  pose proof (Z.div_mod (x * 1000000000) 32768 ltac:(lia)).
  pose proof (Z.mod_pos_bound (x * 1000000000) 32768 ltac:(lia)).
  symmetry. apply Z.div_unique with ((x * 1000000000 / 32768 + 1) * 32768 - 1000000000 * x); lia.
Qed.

Lemma periodic_step s P x : period_ticks s = Some P -> next_periodic_time s = tick_time (x * P) ->
  0 <= x -> x * P < 2 ^ 45 ->
  period_ticks (rtc_periodic_timer s) = Some P /\
  next_periodic_time (rtc_periodic_timer s) = tick_time ((x + 1) * P) /\
  periodic_timer (rtc_periodic_timer s) = Some (tick_time ((x + 1) * P)).
Proof.
  intros HP Hn Hx HxP. destruct (period_ticks_range s P HP) as (j & Hj & Ej).
  assert (HP0 : 0 < P) by (rewrite Ej; apply Z.pow_pos_nonneg; lia).
  assert (Ht : 0 <= tick_time (x * P) < 2 ^ 61).
  { unfold tick_time, ticks_per_sec, QEMU_TIMER_BASE.
    pose proof (Z.div_pos (x * P * 1000000000) 32768 ltac:(nia) ltac:(lia)).
    assert (x * P * 1000000000 / 32768 < 2 ^ 60) by (apply Z.div_lt_upper_bound; lia). lia. }
  destruct (timer_update_tick s P _ HP Ht) as (E1 & E2 & _).
  rewrite tick_of_time, Z.div_mul in E1, E2 by nia.
  unfold rtc_periodic_timer. rewrite Hn. cbv zeta. split; [|split; [exact E2|exact E1]].
  destruct (timer_update_frame s (tick_time (x * P))) as (_ & Ed & _).
  rewrite <- HP. unfold period_ticks. set (s1 := rtc_timer_update _ _) in *.
  assert (Ec : forall i, i <> RTC_REG_C -> cmos (qemu_set_irq 1 (set_cmos RTC_REG_C (Z.lor (cmos s1 RTC_REG_C) 0xc0) s1)) i = cmos s i).
  { intros i Hi. etransitivity; [by apply (cmos_set_ne RTC_REG_C i _ s1)|]. unfold cmos. by rewrite Ed. }
  rewrite !Ec by done. done.
Qed.

(** The periodic interrupt does not drift: once armed at a time [t], it expires first
    after [t], at most one period later, and then at exact multiples of the period of the
    32 kHz clock for ever (within the clock's 36 years), each expiry rounded on its own. *)
Theorem rtc_periodic_no_drift s P t : period_ticks s = Some P -> 0 <= t < 2 ^ 58 ->
  exists k, 0 < k /\ t < tick_time (k * P) /\ (tick_time (k * P) - 1 - t) * 32768 <= P * ticks_per_sec /\
    forall n : nat, (k + Z.of_nat n) * P < 2 ^ 45 ->
      let s' := Nat.iter n rtc_periodic_timer (rtc_timer_update s t) in
      periodic_timer s' = Some (tick_time ((k + Z.of_nat n) * P)) /\
      next_periodic_time s' = tick_time ((k + Z.of_nat n) * P).
Proof.
  intros HP Ht. destruct (period_ticks_range s P HP) as (j & Hj & Ej).
  assert (HP0 : 0 < P) by (rewrite Ej; apply Z.pow_pos_nonneg; lia).
  destruct (timer_update_tick s P t HP ltac:(lia)) as (E1 & E2 & _). cbv zeta in *.
  set (c := t * 32768 / ticks_per_sec) in *.
  assert (Hc : c * ticks_per_sec <= t * 32768 < (c + 1) * ticks_per_sec /\ 0 <= c).
  { unfold c, ticks_per_sec, QEMU_TIMER_BASE.
    pose proof (Z.div_mod (t * 32768) 1000000000 ltac:(lia)).
    pose proof (Z.mod_pos_bound (t * 32768) 1000000000 ltac:(lia)).
    pose proof (Z.div_pos (t * 32768) 1000000000 ltac:(lia) ltac:(lia)). lia. }
  assert (Hk : c < (c / P + 1) * P <= c + P /\ 0 <= c / P).
  { pose proof (Z.div_mod c P ltac:(lia)). pose proof (Z.mod_pos_bound c P HP0).
    pose proof (Z.div_pos c P ltac:(lia) HP0). nia. }
  exists (c / P + 1). clearbody c. set (x := (c / P + 1) * P) in *.
  assert (Htick : x * ticks_per_sec - 32768 < (tick_time x - 1) * 32768 <= x * ticks_per_sec).
  { unfold tick_time, ticks_per_sec, QEMU_TIMER_BASE.
    pose proof (Z.div_mod (x * 1000000000) 32768 ltac:(lia)).
    pose proof (Z.mod_pos_bound (x * 1000000000) 32768 ltac:(lia)). lia. }
  unfold ticks_per_sec, QEMU_TIMER_BASE in Htick, Hc |- *.
  split; [lia|]. split; [lia|]. split; [lia|].
  assert (G : forall n : nat, (c / P + 1 + Z.of_nat n) * P < 2 ^ 45 ->
    let s' := Nat.iter n rtc_periodic_timer (rtc_timer_update s t) in
    period_ticks s' = Some P /\
    next_periodic_time s' = tick_time ((c / P + 1 + Z.of_nat n) * P) /\
    periodic_timer s' = Some (tick_time ((c / P + 1 + Z.of_nat n) * P))).
  { induction n as [|n IH]; intros Hn.
    - rewrite Z.add_0_r. cbn [Nat.iter nat_rect]. split; [|split; [exact E2|exact E1]].
      destruct (timer_update_frame s t) as (_ & Ed & _). rewrite <- HP.
      unfold period_ticks, cmos. by rewrite Ed.
    - destruct (IH ltac:(nia)) as (I1 & I2 & _). cbv zeta. cbn [Nat.iter nat_rect].
      replace (c / P + 1 + Z.of_nat (S n)) with (c / P + 1 + Z.of_nat n + 1) in * by lia.
      apply periodic_step; [exact I1|exact I2|lia|nia]. }
  intros n Hn. destruct (G n Hn) as (_ & G2 & G3). split; [exact G3|exact G2].
Qed.

(** ** The alarm *)

Lemma alarm_bit s : (14 <= length (cmos_data s))%nat ->
  Z.testbit (cmos (rtc_update_second2 s) RTC_REG_C) 5 =
  Z.testbit (cmos s RTC_REG_C) 5 || (has (cmos s RTC_REG_B) REG_B_AIE && rtc_alarm s).
Proof.
  intros Hl. unfold rtc_update_second2.
  set (s1 := if negb _ then rtc_copy_date s else s).
  assert (E1 : length (cmos_data s1) = length (cmos_data s) /\ current_tm s1 = current_tm s /\
    forall i, i ∉ (date_regs s (current_tm s)).*1 -> cmos s1 i = cmos s i).
  { subst s1. destruct (negb _); [|done]. rewrite copy_date_regs by done.
    destruct (set_regs_frame (date_regs s (current_tm s)) s) as (d & E & H & _).
    split; [rewrite E; exact H|]. split; [by rewrite E|]. intros. by apply cmos_set_regs_other. }
  clearbody s1. destruct E1 as (L1 & T1 & C1). rewrite date_regs_keys in C1.
  assert (Ec : forall i, i ∈ [RTC_SECONDS_ALARM; RTC_MINUTES_ALARM; RTC_HOURS_ALARM; RTC_REG_B; RTC_REG_C] ->
    cmos s1 i = cmos s i).
  { intros i Hi. apply C1. revert i Hi. apply Forall_forall. apply (bool_decide_unpack _). by vm_compute. }
  assert (Ea : rtc_alarm s1 = rtc_alarm s) by (unfold rtc_alarm; by rewrite T1, !Ec by in_list).
  rewrite Ea, (Ec RTC_REG_B) by in_list. set (a := _ && rtc_alarm s).
  set (s2 := if a then _ else s1).
  assert (E2 : length (cmos_data s2) = length (cmos_data s) /\
    Z.testbit (cmos s2 RTC_REG_C) 5 = Z.testbit (cmos s RTC_REG_C) 5 || a).
  { rewrite <- (Ec RTC_REG_C) by in_list. subst s2. destruct a; [|by rewrite orb_false_r].
    split; [etransitivity; [apply set_cmos_length|done]|].
    etransitivity; [apply (f_equal (fun z => Z.testbit z 5)), (cmos_set_eq RTC_REG_C _ s1)|].
    - unfold RTC_REG_C. lia.
    - unfold u8, wrap. rewrite Z.mod_pow2_bits_low, Z.lor_spec by lia. reflexivity. }
  clearbody s2 a. destruct E2 as [L2 B2].
  set (s3 := if has (cmos s2 RTC_REG_B) REG_B_UIE then _ else s2).
  assert (E3 : Z.testbit (cmos s3 RTC_REG_C) 5 = Z.testbit (cmos s RTC_REG_C) 5 || a).
  { rewrite <- B2. subst s3. destruct (has _ _); [|done].
    etransitivity; [apply (f_equal (fun z => Z.testbit z 5)), (cmos_set_eq RTC_REG_C _ s2)|].
    - unfold RTC_REG_C. lia.
    - unfold u8, wrap. rewrite Z.mod_pow2_bits_low, Z.lor_spec by lia. apply orb_false_r. }
  clearbody s3. rewrite <- E3. f_equal. by apply (cmos_set_ne RTC_REG_A RTC_REG_C _ s3).
Qed.

(** An alarm set for any minute from 12 on never fires: [rtc_update_second2] compares
    the minutes register of the alarm with the month, so that the alarm flag of register C
    is not set at any time of any date, the time of the alarm included. *)
Theorem rtc_alarm_missed s : length (cmos_data s) = 128%nat -> valid_tm (current_tm s) ->
  12 <= cmos s RTC_MINUTES_ALARM < 60 -> Z.testbit (cmos s RTC_REG_C) 5 = false ->
  Z.testbit (cmos (rtc_update_second2 s) RTC_REG_C) 5 = false.
Proof.
  intros Hl Ht Ha Hc. rewrite alarm_bit, Hc by lia. cbn [orb].
  assert (E : alarm_match (cmos s RTC_MINUTES_ALARM) (tm_mon (current_tm s)) = false).
  { unfold alarm_match. unfold valid_tm in Ht. rewrite (proj2 (Z.eqb_neq _ (tm_mon _))) by lia.
    rewrite orb_false_r. pose proof (all_below_spec 60 (fun a => negb (Z.land a 0xc0 =? 0xc0)) eq_refl
      (cmos s RTC_MINUTES_ALARM) ltac:(lia)) as H. by apply negb_true_iff. }
  unfold rtc_alarm. by rewrite E, andb_false_r, andb_false_l, andb_false_r.
Qed.

(** ** Save and load *)

Definition be32_bytes (v : Z) : list Z := be_bytes 4 (u32 v).

Definition rtc_bytes (s : RTCState) : list Z :=
  let t := current_tm s in
  cmos_data s ++ [cmos_index s] ++
  be32_bytes (tm_sec t) ++ be32_bytes (tm_min t) ++ be32_bytes (tm_hour t) ++ be32_bytes (tm_wday t) ++
  be32_bytes (tm_mday t) ++ be32_bytes (tm_mon t) ++ be32_bytes (tm_year t) ++
  timer_bytes (periodic_timer s) ++ be64_bytes (u64 (next_periodic_time s)) ++
  be64_bytes (u64 (next_second_time s)) ++ timer_bytes (second_timer s) ++ timer_bytes (second_timer2 s).

(** The values fit their C types. *)
Definition tm_ints (t : tm) : Prop :=
  is_s32 (tm_sec t) /\ is_s32 (tm_min t) /\ is_s32 (tm_hour t) /\ is_s32 (tm_mday t) /\
  is_s32 (tm_mon t) /\ is_s32 (tm_year t) /\ is_s32 (tm_wday t).
Definition rtc_ints (s : RTCState) : Prop :=
  regs_ok s /\ tm_ints (current_tm s) /\ is_s64 (next_periodic_time s) /\ is_s64 (next_second_time s) /\
  timer_ok (periodic_timer s) /\ timer_ok (second_timer s) /\ timer_ok (second_timer2 s).

(** A clock [s] loaded into the device [s0]: the interrupt line and the addresses are the
    device's. *)
Definition restored (s s0 : RTCState) : RTCState :=
  ((s <| irq_levels := irq_levels s0 |>) <| base := base s0 |>) <| it_shift := it_shift s0 |>.

Section SaveLoad.
Context {F : Type} `{!SaveFile F}.

Lemma rtc_save_bytes f c s : rtc_ints s -> appended f c ->
  appended (rtc_save f s) (c ++ rtc_bytes s).
Proof using.
  intros [Hr _] H. unfold rtc_save, rtc_bytes, timer_bytes, be64_bytes. cbv zeta.
  apply (put_buf_app _ _ (cmos_data s)) in H.
  apply (put_bytes_app [cmos_index s]) in H;
    [|constructor; [unfold regs_ok, in_width in *; lia|done]].
  do 7 (eapply put_be32_app in H). eapply put_timer_app in H. do 2 (eapply put_be64_app in H).
  do 2 (eapply put_timer_app in H). rewrite <- !app_assoc in H. exact H.
Qed.

(** A saved clock loads back: from any file whose next bytes are the ones [rtc_save]
    appended, [rtc_load] restores the memory, the time and the three timers, and consumes
    exactly those bytes; any version but 1 is refused and changes nothing. *)
Theorem rtc_save_load f s s0 c rest g : rtc_ints s -> appended f c ->
  length (cmos_data s0) = 128%nat ->
  appended (rtc_save f s) (c ++ rtc_bytes s) /\
  (reading g (rtc_bytes s ++ rest) ->
     exists g', reading g' rest /\
       rtc_load g s0 1 = (0, restored s s0, g')) /\
  (forall v, v <> 1 -> rtc_load g s0 v = (-22, s0, g)).
Proof using.
  intros Hs Hf Hl0. split; [by apply rtc_save_bytes|]. split; cycle 1.
  { intros v Hv. unfold rtc_load. by rewrite (proj2 (Z.eqb_neq v 1) Hv). }
  intros Hg. destruct Hs as ((Hl & Hu & Hi) & Ht & Hn & Hn2 & Hp & H1 & H2).
  unfold rtc_bytes in Hg. rewrite <- !app_assoc in Hg. unfold rtc_load. cbn [negb Z.eqb Pos.eqb].
  apply get_buf_bytes in Hg as (g1 & E1 & Hg). rewrite Hl in E1. rewrite E1. clear E1.
  apply get_8s_cons in Hg as (g2 & E2 & Hg); [|unfold in_width; lia]. rewrite E2. clear E2.
  unfold be32_bytes in Hg.
  repeat match type of Hg with
  | reading _ (be_bytes 4 _ ++ _) =>
    let g' := fresh "g" in let E := fresh "E" in
    eapply get_be32_bytes in Hg as (g' & E & Hg); rewrite E; clear E
  end.
  eapply get_timer_bytes in Hg as (g10 & E & Hg); [|assumption]. rewrite E. clear E.
  unfold be64_bytes in Hg. rewrite <- !app_assoc in Hg.
  eapply get_be64_bytes in Hg as (g11 & E & Hg). rewrite E. clear E.
  eapply get_be64_bytes in Hg as (g12 & E & Hg). rewrite E. clear E.
  eapply get_timer_bytes in Hg as (g13 & E & Hg); [|assumption]. rewrite E. clear E.
  eapply get_timer_bytes in Hg as (g14 & E & Hg); [|assumption]. rewrite E. clear E.
  exists g14. split; [exact Hg|]. cbv zeta. rewrite drop_ge, app_nil_r by lia.
  destruct Ht as (T1 & T2 & T3 & T4 & T5 & T6 & T7).
  rewrite !u32_u32, !u64_u64, !s32_u32, !s64_u64 by done. by destruct s as [? ? []].
Qed.
End SaveLoad.


(** ** A concrete clock *)

(** A PC started on the last second of 28 February 2012 in the local time of the host. *)
Definition demo_tm : tm := mkTm 59 59 23 28 1 112 2.
Definition demo_rtc : RTCState := rtc_init demo_tm 0.

(** The guest selects register B and enables the periodic interrupt and the alarm. *)
Definition demo_ops : list rtc_op :=
  [RWrite 0x70 11 10; RWrite 0x71 0x62 20; RSecond2; RSecond].

Definition rtc_run (ops : list rtc_op) (s : option RTCState) : option RTCState :=
  foldl (fun s op => s ≫= rtc_exec op) s ops.

Lemma run_rtc_reach ops : forall s s', rtc_reach s -> rtc_run ops (Some s) = Some s' -> rtc_reach s'.
Proof.
  induction ops as [|op ops IH]; intros s s' Hr; cbn [rtc_run foldl]; [congruence|].
  cbn [mbind option_bind]. destruct (rtc_exec op s) as [s1|] eqn:E.
  - apply IH. by eapply rtc_reach_step.
  - assert (Hn : rtc_run ops None = None) by (clear; by induction ops).
    unfold rtc_run in Hn. congruence.
Qed.

Definition demo_run : RTCState := default demo_rtc (rtc_run demo_ops (Some demo_rtc)).

Lemma demo_run_reach : rtc_reach demo_run.
Proof.
  apply (run_rtc_reach demo_ops) with demo_rtc; [apply (rtc_reach_init 0 0 demo_tm 0)|by vm_compute].
Qed.

Lemma rtc_reachable_witness : rtc_ok demo_run /\ uip demo_run = true /\
  current_tm demo_run = mkTm 0 0 0 29 1 112 3.
Proof.
  split; [apply (rtc_reachable demo_run demo_run_reach)|]. split; by vm_compute.
Defined.

Lemma demo_tm_valid : valid_tm demo_tm.
Proof. unfold valid_tm. by vm_compute. Qed.

Lemma rtc_calendar_witness :
  Nat.iter 2 rtc_next_second demo_tm = mkTm 1 0 0 29 1 112 3 /\
  seconds_of (Nat.iter 2 rtc_next_second demo_tm) = seconds_of demo_tm + 2.
Proof. split; [by vm_compute|]. apply (rtc_calendar demo_tm 2 demo_tm_valid). Defined.

Lemma rtc_date_roundtrip_witness :
  cmos (rtc_set_date demo_rtc demo_tm) RTC_SECONDS = 0x59 /\
  current_tm (rtc_set_time (rtc_set_date demo_rtc demo_tm)) = demo_tm.
Proof.
  split; [by vm_compute|]. apply (rtc_date_roundtrip demo_rtc demo_tm); [by vm_compute|].
  unfold shown, demo_tm. cbn. lia.
Defined.

Lemma rtc_periodic_no_drift_witness :
  period_ticks demo_run = Some 32 /\ exists k, 0 < k /\ 20 < tick_time (k * 32).
Proof.
  assert (E : period_ticks demo_run = Some 32) by (by vm_compute). split; [exact E|].
  destruct (rtc_periodic_no_drift demo_run 32 20 E) as (k & H1 & H2 & _); [lia|].
  exists k. split; [exact H1|exact H2].
Defined.

(** The alarm at the time shown, 00:30:00, on 29 February. *)
Definition alarm_rtc : RTCState :=
  (set_cmos RTC_HOURS_ALARM 0 (set_cmos RTC_MINUTES_ALARM 30 (set_cmos RTC_SECONDS_ALARM 0 demo_run)))
    <| current_tm := mkTm 0 30 0 29 1 112 3 |>.

Lemma rtc_alarm_missed_witness :
  has (cmos alarm_rtc RTC_REG_B) REG_B_AIE = true /\
  Z.testbit (cmos (rtc_update_second2 alarm_rtc) RTC_REG_C) 5 = false.
Proof.
  split; [by vm_compute|]. apply (rtc_alarm_missed alarm_rtc); [by vm_compute| |by vm_compute|by vm_compute].
  unfold valid_tm. by vm_compute.
Defined.

Lemma demo_run_ints : rtc_ints demo_run.
Proof.
  split; [apply (reach_rtc_ok demo_run demo_run_reach)|].
  assert (E1 : current_tm demo_run = mkTm 0 0 0 29 1 112 3) by (by vm_compute).
  assert (E2 : next_periodic_time demo_run = 976563) by (by vm_compute).
  assert (E3 : next_second_time demo_run = 1990000000) by (by vm_compute).
  assert (E4 : periodic_timer demo_run = Some 976563) by (by vm_compute).
  assert (E5 : second_timer demo_run = None) by (by vm_compute).
  assert (E6 : second_timer2 demo_run = Some 2000000000) by (by vm_compute).
  revert E1 E2 E3 E4 E5 E6. generalize demo_run. intros d -> -> -> -> -> ->. unfold tm_ints, timer_ok, in_signed.
  cbn [tm_sec tm_min tm_hour tm_mday tm_mon tm_year tm_wday].
  split_and!; try lia; intros e He; simplify_eq; lia.
Qed.

Lemma rtc_save_load_witness :
  exists g', rtc_load (mkFile (rtc_bytes demo_run) false 0 0 0 (fun _ => 0)) demo_rtc 1 =
    (0, restored demo_run demo_rtc, g').
Proof.
  pose proof demo_run_ints as Hd.
  assert (Ha : appended (mkFile [] true 0 0 0 (fun _ => 0)) []) by exact fopen_writing.
  destruct (rtc_save_load (mkFile [] true 0 0 0 (fun _ => 0)) demo_run demo_rtc [] []
    (mkFile (rtc_bytes demo_run) false 0 0 0 (fun _ => 0)) Hd Ha eq_refl) as (_ & H & _).
  destruct H as (g' & _ & E); [rewrite app_nil_r; apply fopen_reading|].
  exists g'. exact E.
Defined.

End Rtc.
